(** * external-dns-traffic-manager: the reconciliation engine, its
      configuration parser and its state mirror, embedded in Rocq.

    Layout: Go library primitives the code relies on, then one module per
    Go package ([annotations], [state], [trafficmanager], [provider]),
    then the lemmas and the theorems about them.

    Conventions.
    - A Go [string] is a sequence of bytes: Rocq's [string].
    - [int64] values are in [Z]; the code only parses, compares and copies
      them, so no wrap-around arithmetic occurs.
    - [map[string]T] is [gmap string T]; a missing key reads as the zero
      value exactly where the source relies on that.
    - An [error] is a value of the inductive [error]; [nil] is [None].
    - The text of an error quotes values with [%q]: the tables of
      printable runes that Go consults for it belong to the Go release,
      not to the program, and are a parameter ([Unicode]). *)

From Stdlib Require Import ZArith String Ascii List Lia Bool.
From stdpp Require Import base option gmap strings list fin_maps pretty.

Local Open Scope string_scope.
Local Open Scope Z_scope.

(* ===================================================================== *)
(** * Go library primitives *)
(* ===================================================================== *)

Module golang.

(** ** Bytes and strings *)

Definition byte_of (c : ascii) : Z := Z.of_nat (nat_of_ascii c).
Definition ascii_of (z : Z) : ascii := ascii_of_nat (Z.to_nat z).

Definition is_upper (c : ascii) : bool := (65 <=? byte_of c) && (byte_of c <=? 90).
Definition is_lower (c : ascii) : bool := (97 <=? byte_of c) && (byte_of c <=? 122).
Definition is_digit (c : ascii) : bool := (48 <=? byte_of c) && (byte_of c <=? 57).

Definition lower_byte (c : ascii) : ascii :=
  if is_upper c then ascii_of (byte_of c + 32) else c.

(** [strings.ToLower] on the bytes of the string.  ASCII letters are
    lowered, every other byte is kept.  (Go lowers non-ASCII runes through
    the Unicode tables; no such rune lowers to an ASCII letter of "true",
    so comparisons of the result with an ASCII literal agree.) *)
Fixpoint strings_ToLower (s : string) : string :=
  match s with
  | EmptyString => EmptyString
  | String c r => String (lower_byte c) (strings_ToLower r)
  end.

Fixpoint strings_HasPrefix (s p : string) : bool :=
  match p, s with
  | EmptyString, _ => true
  | String a p', String b s' => if Ascii.eqb a b then strings_HasPrefix s' p' else false
  | String _ _, EmptyString => false
  end.

(** [strings.Contains s sub]. *)
Fixpoint strings_Contains (s sub : string) : bool :=
  strings_HasPrefix s sub ||
  match s with
  | EmptyString => false
  | String _ r => strings_Contains r sub
  end.

Definition str_empty (s : string) : bool :=
  match s with EmptyString => true | _ => false end.

(** [strings.HasSuffix s suffix]:
    [len(s) >= len(suffix) && s[len(s)-len(suffix):] == suffix]. *)
Definition strings_HasSuffix (s suffix : string) : bool :=
  (String.length suffix <=? String.length s)%nat
  && String.eqb (substring (String.length s - String.length suffix)
                   (String.length suffix) s) suffix.

(** ** Errors *)

Inductive NumErrKind := ErrSyntax | ErrRange.

(** Go's error values as the code builds them: [fmt.Errorf] without [%w]
    gives a plain message, with [%w] a message that keeps the wrapped
    error, [strconv] returns a [*NumError]; [opaqueError] stands for the
    errors of the remote SDKs, of which only the text is known. *)
Inductive error :=
| errorString (msg : string)
| wrapError (msg : string) (inner : error)
| NumError (func num : string) (kind : NumErrKind)
| opaqueError (msg : string).

Definition dquote : string := String (ascii_of 34) EmptyString.
Definition backslash : ascii := ascii_of 92.

(** ** unicode/utf8 *)

Definition in_range (b lo hi : Z) : bool := (lo <=? b) && (b <=? hi).

(** Size in bytes of the rune that [range] decodes at the head of a
    non-empty string: the length of a well-formed UTF-8 sequence, or 1 for
    a byte that starts none (decoded as the replacement rune). *)
Definition rune_width (s : string) : nat :=
  match s with
  | EmptyString => 0%nat
  | String c0 r0 =>
      let b0 := byte_of c0 in
      let '(size, lo, hi) :=
        if in_range b0 194 223 then (2%nat, 128, 191)
        else if b0 =? 224 then (3%nat, 160, 191)
        else if in_range b0 225 236 then (3%nat, 128, 191)
        else if b0 =? 237 then (3%nat, 128, 159)
        else if in_range b0 238 239 then (3%nat, 128, 191)
        else if b0 =? 240 then (4%nat, 144, 191)
        else if in_range b0 241 243 then (4%nat, 128, 191)
        else if b0 =? 244 then (4%nat, 128, 143)
        else (1%nat, 0, 0) in
      match size, r0 with
      | 1%nat, _ => 1%nat
      | _, String c1 r1 =>
          if negb (in_range (byte_of c1) lo hi) then 1%nat
          else
            match size, r1 with
            | 2%nat, _ => 2%nat
            | _, String c2 r2 =>
                if negb (in_range (byte_of c2) 128 191) then 1%nat
                else
                  match size, r2 with
                  | 3%nat, _ => 3%nat
                  | _, String c3 _ =>
                      if negb (in_range (byte_of c3) 128 191) then 1%nat else 4%nat
                  | _, EmptyString => 1%nat
                  end
            | _, EmptyString => 1%nat
            end
      | _, EmptyString => 1%nat
      end
  end.

Definition RuneError : Z := 65533.

(** The six low bits of a continuation byte. *)
Definition maskx (c : ascii) : Z := Z.land (byte_of c) 63.

(** [utf8.DecodeRuneInString]: the rune at the head of the string and
    its size in bytes; [(RuneError, 1)] for a byte that starts no
    well-formed sequence, [(RuneError, 0)] for the empty string. *)
Definition utf8_DecodeRuneInString (s : string) : Z * nat :=
  match rune_width s, s with
  | 1%nat, String c0 _ =>
      (if byte_of c0 <? 128 then byte_of c0 else RuneError, 1%nat)
  | 2%nat, String c0 (String c1 _) =>
      (Z.lor (Z.shiftl (Z.land (byte_of c0) 31) 6) (maskx c1), 2%nat)
  | 3%nat, String c0 (String c1 (String c2 _)) =>
      (Z.lor (Z.shiftl (Z.land (byte_of c0) 15) 12)
         (Z.lor (Z.shiftl (maskx c1) 6) (maskx c2)), 3%nat)
  | 4%nat, String c0 (String c1 (String c2 (String c3 _))) =>
      (Z.lor (Z.shiftl (Z.land (byte_of c0) 7) 18)
         (Z.lor (Z.shiftl (maskx c1) 12)
            (Z.lor (Z.shiftl (maskx c2) 6) (maskx c3))), 4%nat)
  | _, _ => (RuneError, 0%nat)
  end.

(** [utf8.ValidRune]. *)
Definition utf8_ValidRune (r : Z) : bool :=
  in_range r 0 55295 || in_range r 57344 1114111.

(** ** strconv.Quote *)

(** [strconv.IsPrint] answers for the runes up to U+00FF in its code and
    for the others from tables that the Go release generates from the
    Unicode database.  The tables are no part of the repository and
    differ from release to release: they are a parameter, the predicate
    they decide on the runes above U+00FF. *)
Class Unicode := { unicode_IsPrint : Z -> bool }.

Definition hex_digit (n : Z) : ascii :=
  if n <? 10 then ascii_of (48 + n) else ascii_of (87 + n).

(** The [n] low hexadecimal digits of [r], the highest first. *)
Fixpoint hex_digits (n : nat) (r : Z) : string :=
  match n with
  | O => EmptyString
  | S k =>
      String (hex_digit (Z.land (Z.shiftr r (4 * Z.of_nat k)) 15)) (hex_digits k r)
  end.

Section Quote.
Context {tables : Unicode}.

Definition strconv_IsPrint (r : Z) : bool :=
  if r <=? 255 then
    if in_range r 32 126 then true
    else if in_range r 161 255 then negb (r =? 173)
    else false
  else unicode_IsPrint r.

(** [appendEscapedRune] as [Quote] calls it, for the double quote and
    with neither the ASCII-only nor the graphic-only flag: [bytes] is
    the encoding of [r], which a printable rune is copied as. *)
Definition appendEscapedRune (r : Z) (bytes : string) : string :=
  if (r =? 34) || (r =? 92) then String backslash (String (ascii_of r) EmptyString)
  else if strconv_IsPrint r then bytes
  else if r =? 7 then String backslash "a"
  else if r =? 8 then String backslash "b"
  else if r =? 12 then String backslash "f"
  else if r =? 10 then String backslash "n"
  else if r =? 13 then String backslash "r"
  else if r =? 9 then String backslash "t"
  else if r =? 11 then String backslash "v"
  else if (r <? 32) || (r =? 127) then String backslash (String "x" (hex_digits 2 r))
  else
    let r := if utf8_ValidRune r then r else RuneError in
    if r <? 65536 then String backslash (String "u" (hex_digits 4 r))
    else String backslash (String "U" (hex_digits 8 r)).

(** The loop of [appendQuotedWith], one rune at a time; [skip] counts
    the bytes still belonging to the rune just handled.  A byte that
    starts no well-formed sequence is written as [\x] and its two
    hexadecimal digits. *)
Fixpoint quote_from (skip : nat) (s : string) : string :=
  match s with
  | EmptyString => EmptyString
  | String c rest =>
      match skip with
      | S k => quote_from k rest
      | O =>
          let '(r, width) := utf8_DecodeRuneInString s in
          (if (width =? 1)%nat && (r =? RuneError)
           then String backslash (String "x" (hex_digits 2 (byte_of c)))
           else appendEscapedRune r (substring 0 width s))
          +:+ quote_from (Nat.pred width) rest
      end
  end.

(** [strconv.Quote], the [%q] verb. *)
Definition strconv_Quote (s : string) : string :=
  dquote +:+ quote_from 0 s +:+ dquote.

Definition NumErrKind_text (k : NumErrKind) : string :=
  match k with
  | ErrSyntax => "invalid syntax"
  | ErrRange => "value out of range"
  end.

(** The [Error()] method. *)
Definition Error (e : error) : string :=
  match e with
  | errorString m => m
  | wrapError m _ => m
  | NumError f n k =>
      "strconv." +:+ f +:+ ": parsing " +:+ strconv_Quote n +:+ ": " +:+ NumErrKind_text k
  | opaqueError m => m
  end.

(** [fmt.Errorf(prefix + "%w", err)]. *)
Definition Errorf_w (prefix : string) (err : error) : error :=
  wrapError (prefix +:+ Error err) err.

End Quote.

(** The [%d] verb on an [int64]. *)
Definition fmt_d (z : Z) : string := pretty z.

(** The [%v] verb on a [[]string]. *)
Fixpoint join_space (l : list string) : string :=
  match l with
  | [] => EmptyString
  | [x] => x
  | x :: r => x +:+ " " +:+ join_space r
  end.
Definition fmt_v_strings (l : list string) : string := "[" +:+ join_space l +:+ "]".

(** ** strconv *)

Definition maxUint64 : Z := 18446744073709551615.
Definition cutoff10 : Z := maxUint64 / 10 + 1.
Definition int64_cutoff : Z := 9223372036854775808.

(** The digit loop of [strconv.ParseUint(s, 10, 64)]: a byte that is not
    a decimal digit is a syntax error, an overflow is a range error and
    stops the scan at once. *)
Fixpoint parseUint_digits (s : string) (n : Z) : Z + NumErrKind :=
  match s with
  | EmptyString => inl n
  | String c r =>
      if is_digit c then
        let d := byte_of c - 48 in
        if cutoff10 <=? n then inr ErrRange
        else
          let n1 := n * 10 + d in
          if maxUint64 <? n1 then inr ErrRange else parseUint_digits r n1
      else inr ErrSyntax
  end.

Definition strconv_ParseUint10 (s : string) : Z + NumErrKind :=
  if str_empty s then inr ErrSyntax else parseUint_digits s 0.

(** [strconv.ParseInt(s, 10, 64)]. *)
Definition strconv_ParseInt (s : string) : Z + error :=
  match s with
  | EmptyString => inr (NumError "ParseInt" s ErrSyntax)
  | String c r =>
      let neg := Ascii.eqb c "-" in
      let body := if Ascii.eqb c "+" || neg then r else s in
      match strconv_ParseUint10 body with
      | inr ErrSyntax => inr (NumError "ParseInt" s ErrSyntax)
      | inr ErrRange => inr (NumError "ParseInt" s ErrRange)
      | inl un =>
          if negb neg && (int64_cutoff <=? un) then inr (NumError "ParseInt" s ErrRange)
          else if neg && (int64_cutoff <? un) then inr (NumError "ParseInt" s ErrRange)
          else inl (if neg then - un else un)
      end
  end.

(** [strconv.ParseBool]. *)
Definition strconv_ParseBool (s : string) : bool + error :=
  if existsb (String.eqb s) ["1"; "t"; "T"; "TRUE"; "true"; "True"] then inl true
  else if existsb (String.eqb s) ["0"; "f"; "F"; "FALSE"; "false"; "False"] then inl false
  else inr (NumError "ParseBool" s ErrSyntax).

(** ** time *)

(** A [time.Time] is the number of nanoseconds since the zero instant, so
    [IsZero] is equality with 0; a [time.Duration] is an [int64] count of
    nanoseconds and [Sub] saturates at its bounds. *)
Definition Time := Z.
Definition Duration := Z.

Definition minDuration : Z := - 9223372036854775808.
Definition maxDuration : Z := 9223372036854775807.

Definition time_IsZero (t : Time) : bool := t =? 0.

Definition time_Sub (t u : Time) : Duration :=
  let d := t - u in
  if d <? minDuration then minDuration
  else if maxDuration <? d then maxDuration
  else d.

(** [time.Since(t)] when the clock reads [now]. *)
Definition time_Since (now t : Time) : Duration := time_Sub now t.

End golang.

Export golang.

Example ParseInt_1500 : strconv_ParseInt "1500" = inl 1500.
Proof. reflexivity. Qed.
Example ParseInt_neg : strconv_ParseInt "-12" = inl (-12).
Proof. reflexivity. Qed.
Example ParseInt_bad : strconv_ParseInt "12a" = inr (NumError "ParseInt" "12a" ErrSyntax).
Proof. reflexivity. Qed.
Example fmt_d_1500 : fmt_d 1500 = "1500".
Proof. vm_compute. reflexivity. Qed.
Example Quote_ASCII {tables : Unicode} :
  strconv_Quote (String (ascii_of 9) (String (ascii_of 34) (String (ascii_of 1) "x")))
  = dquote +:+ String backslash "t" +:+ String backslash dquote
    +:+ String backslash "x01" +:+ "x" +:+ dquote.
Proof. reflexivity. Qed.
Example Quote_invalid_byte {tables : Unicode} :
  strconv_Quote (String (ascii_of 255) "a") = dquote +:+ String backslash "xffa" +:+ dquote.
Proof. reflexivity. Qed.
Example Quote_soft_hyphen {tables : Unicode} :
  strconv_Quote (String (ascii_of 194) (String (ascii_of 173) EmptyString))
  = dquote +:+ String backslash "u00ad" +:+ dquote.
Proof. reflexivity. Qed.
Example Quote_e_acute {tables : Unicode} :
  strconv_Quote (String (ascii_of 195) (String (ascii_of 169) EmptyString))
  = dquote +:+ String (ascii_of 195) (String (ascii_of 169) EmptyString) +:+ dquote.
Proof. reflexivity. Qed.
Example Quote_euro_sign {tables : Unicode} :
  let euro := String (ascii_of 226) (String (ascii_of 130) (String (ascii_of 172) EmptyString)) in
  strconv_Quote euro
  = dquote +:+ (if unicode_IsPrint 8364 then euro else String backslash "u20ac") +:+ dquote.
Proof. destruct tables as [f]. vm_compute. destruct (f 8364); reflexivity. Qed.

(* ===================================================================== *)
(** * A state monad with panics *)
(* ===================================================================== *)

(** Go code runs against mutable memory and may panic (a nil dereference,
    an index out of range).  A computation maps a state to an outcome
    and the state reached; a panic keeps the state reached so far. *)

Inductive outcome (A : Type) :=
| Val (a : A)
| Panicked.
Arguments Val {A} a.
Arguments Panicked {A}.

Definition M (S A : Type) : Type := S -> outcome A * S.

Definition ret {S A} (a : A) : M S A := fun s => (Val a, s).

Definition bind {S A B} (m : M S A) (k : A -> M S B) : M S B :=
  fun s =>
    match m s with
    | (Val a, s') => k a s'
    | (Panicked, s') => (Panicked, s')
    end.

Definition panic {S A} : M S A := fun s => (Panicked, s).
Definition get {S} : M S S := fun s => (Val s, s).
Definition put {S} (s : S) : M S unit := fun _ => (Val tt, s).
Definition modify {S} (f : S -> S) : M S unit := fun s => (Val tt, f s).

(** Dereference of something that may be missing. *)
Definition must {S A} (o : option A) : M S A :=
  match o with
  | Some a => ret a
  | None => panic
  end.

Declare Scope go_scope.
Delimit Scope go_scope with go.
Notation "'let*' x ':=' e 'in' k" := (bind e (fun x => k))
  (at level 10, x name, e at level 100, k at level 200) : go_scope.
Notation "e ;; k" := (bind e (fun _ => k))
  (at level 100, k at level 200, right associativity) : go_scope.
Local Open Scope go_scope.

(** [for _, x := range l { body x }] with no early exit. *)
Fixpoint for_each {S A} (l : list A) (body : A -> M S unit) : M S unit :=
  match l with
  | [] => ret tt
  | x :: r => body x ;; for_each r body
  end.

(** [for k, v := range m { body k v }] over a map.  Go leaves the order
    unspecified; the model takes the order in which [map_fold] visits the
    entries. *)
Definition range_map {S V} (m : gmap string V) (body : string -> V -> M S unit) : M S unit :=
  map_fold (fun k v acc => acc ;; body k v) (ret tt) m.

(** [for _, x := range l { if err := body x; err != nil { return err } }]. *)
Fixpoint for_each_err {S A} (l : list A) (body : A -> M S (option error))
  : M S (option error) :=
  match l with
  | [] => ret None
  | x :: r =>
      let* err := body x in
      match err with
      | Some e => ret (Some e)
      | None => for_each_err r body
      end
  end.

(* ===================================================================== *)
(** * Package state *)
(* ===================================================================== *)

Module state.

(** Addresses of heap objects.  A pointer is an address; dereferencing an
    address that holds no object (Go's nil) panics. *)
Definition loc := positive.

(** ** types.go *)

Record EndpointState := mkEndpointState {
  EndpointName : string;
  EndpointType : string;
  Target : string;
  Weight : Z;
  Priority : Z;
  Status : string;
  Location : string;
  ep_CreatedAt : Time;
  ep_UpdatedAt : Time
}.

(** [Endpoints] and [Tags] are Go maps: [None] is the nil map, [Some l]
    the map object at [l]. *)
Record ProfileState := mkProfileState {
  ProfileName : string;
  ResourceGroup : string;
  Hostname : string;
  FQDN : string;
  RoutingMethod : string;
  DNSTTL : Z;
  Endpoints : option loc;
  Tags : option loc;
  CreatedAt : Time;
  UpdatedAt : Time;
  CachedAt : Time
}.

Definition set_Endpoints (v : option loc) (p : ProfileState) : ProfileState :=
  mkProfileState (ProfileName p) (ResourceGroup p) (Hostname p) (FQDN p) (RoutingMethod p)
    (DNSTTL p) v (Tags p) (CreatedAt p) (UpdatedAt p) (CachedAt p).
Definition set_Hostname (v : string) (p : ProfileState) : ProfileState :=
  mkProfileState (ProfileName p) (ResourceGroup p) v (FQDN p) (RoutingMethod p)
    (DNSTTL p) (Endpoints p) (Tags p) (CreatedAt p) (UpdatedAt p) (CachedAt p).
Definition set_UpdatedAt (v : Time) (p : ProfileState) : ProfileState :=
  mkProfileState (ProfileName p) (ResourceGroup p) (Hostname p) (FQDN p) (RoutingMethod p)
    (DNSTTL p) (Endpoints p) (Tags p) (CreatedAt p) v (CachedAt p).
Definition set_CachedAt (v : Time) (p : ProfileState) : ProfileState :=
  mkProfileState (ProfileName p) (ResourceGroup p) (Hostname p) (FQDN p) (RoutingMethod p)
    (DNSTTL p) (Endpoints p) (Tags p) (CreatedAt p) (UpdatedAt p) v.

(** ** The memory holding the package's objects, and the manager *)

(** [profileObjs], [endpointObjs]: the [ProfileState] and [EndpointState]
    structs; [endpointMaps], [tagMaps]: the map objects they point to;
    [profiles], [cacheTTL]: the fields of the one [Manager]. *)
Record Store := mkStore {
  profileObjs : gmap loc ProfileState;
  endpointObjs : gmap loc EndpointState;
  endpointMaps : gmap loc (gmap string loc);
  tagMaps : gmap loc (gmap string string);
  profiles : gmap string loc;
  cacheTTL : Duration
}.

Definition with_profileObjs (f : gmap loc ProfileState -> gmap loc ProfileState) (s : Store) :=
  mkStore (f (profileObjs s)) (endpointObjs s) (endpointMaps s) (tagMaps s) (profiles s) (cacheTTL s).
Definition with_endpointObjs (f : gmap loc EndpointState -> gmap loc EndpointState) (s : Store) :=
  mkStore (profileObjs s) (f (endpointObjs s)) (endpointMaps s) (tagMaps s) (profiles s) (cacheTTL s).
Definition with_endpointMaps
    (f : gmap loc (gmap string loc) -> gmap loc (gmap string loc)) (s : Store) :=
  mkStore (profileObjs s) (endpointObjs s) (f (endpointMaps s)) (tagMaps s) (profiles s) (cacheTTL s).
Definition with_tagMaps
    (f : gmap loc (gmap string string) -> gmap loc (gmap string string)) (s : Store) :=
  mkStore (profileObjs s) (endpointObjs s) (endpointMaps s) (f (tagMaps s)) (profiles s) (cacheTTL s).
Definition with_profiles (f : gmap string loc -> gmap string loc) (s : Store) :=
  mkStore (profileObjs s) (endpointObjs s) (endpointMaps s) (tagMaps s) (f (profiles s)) (cacheTTL s).

(** Allocation returns an address that holds no object of that kind. *)
Definition new_profile (p : ProfileState) : M Store loc :=
  fun s => let l := fresh (dom (profileObjs s)) in
           (Val l, with_profileObjs (insert l p) s).
Definition new_endpoint (e : EndpointState) : M Store loc :=
  fun s => let l := fresh (dom (endpointObjs s)) in
           (Val l, with_endpointObjs (insert l e) s).
Definition make_endpointMap : M Store loc :=
  fun s => let l := fresh (dom (endpointMaps s)) in
           (Val l, with_endpointMaps (insert l ∅) s).
Definition make_tagMap : M Store loc :=
  fun s => let l := fresh (dom (tagMaps s)) in
           (Val l, with_tagMaps (insert l ∅) s).

(** Loads and stores through a pointer. *)
Definition load_profile (l : loc) : M Store ProfileState :=
  let* s := get in must (profileObjs s !! l).
Definition load_endpoint (l : loc) : M Store EndpointState :=
  let* s := get in must (endpointObjs s !! l).
Definition store_profile (l : loc) (p : ProfileState) : M Store unit :=
  load_profile l ;; modify (with_profileObjs (insert l p)).

(** Reading a map: the nil map reads as empty. *)
Definition range_endpointMap (m : option loc) : M Store (gmap string loc) :=
  match m with
  | None => ret ∅
  | Some l => let* s := get in must (endpointMaps s !! l)
  end.
Definition range_tagMap (m : option loc) : M Store (gmap string string) :=
  match m with
  | None => ret ∅
  | Some l => let* s := get in must (tagMaps s !! l)
  end.

(** [m[k] = v] and [delete(m, k)] on a map object. *)
Definition endpointMap_set (l : loc) (k : string) (v : loc) : M Store unit :=
  let* s := get in
  let* m := must (endpointMaps s !! l) in
  put (with_endpointMaps (insert l (<[k := v]> m)) s).
Definition endpointMap_delete (l : loc) (k : string) : M Store unit :=
  let* s := get in
  let* m := must (endpointMaps s !! l) in
  put (with_endpointMaps (insert l (delete k m)) s).
Definition tagMap_set (l : loc) (k v : string) : M Store unit :=
  let* s := get in
  let* m := must (tagMaps s !! l) in
  put (with_tagMaps (insert l (<[k := v]> m)) s).

(** [EndpointState.Clone]. *)
Definition EndpointState_Clone (es : loc) : M Store loc :=
  let* e := load_endpoint es in
  new_endpoint
    (mkEndpointState (EndpointName e) (EndpointType e) (Target e) (Weight e) (Priority e)
       (Status e) (Location e) (ep_CreatedAt e) (ep_UpdatedAt e)).

(** [ProfileState.Clone]. *)
Definition ProfileState_Clone (ps : loc) : M Store loc :=
  let* p := load_profile ps in
  let* endpoints := make_endpointMap in
  let* tags := make_tagMap in
  let* clone :=
    new_profile
      (mkProfileState (ProfileName p) (ResourceGroup p) (Hostname p) (FQDN p)
         (RoutingMethod p) (DNSTTL p) (Some endpoints) (Some tags)
         (CreatedAt p) (UpdatedAt p) (CachedAt p)) in
  let* src := range_endpointMap (Endpoints p) in
  range_map src
    (fun k v => let* c := EndpointState_Clone v in endpointMap_set endpoints k c) ;;
  let* srcTags := range_tagMap (Tags p) in
  range_map srcTags (fun k v => tagMap_set tags k v) ;;
  ret clone.

(** [ProfileState.IsExpired] when the clock reads [now]. *)
Definition IsExpired (ps : ProfileState) (ttl : Duration) (now : Time) : bool :=
  if time_IsZero (CachedAt ps) then true
  else ttl <? time_Since now (CachedAt ps).

(** ** manager.go *)

Definition NewManager (ttl : Duration) : Store :=
  mkStore ∅ ∅ ∅ ∅ ∅ ttl.

(** [Manager.GetProfile]; [now] is the clock read by [time.Since]. *)
Definition GetProfile (now : Time) (hostname : string) : M Store (option loc) :=
  let* s := get in
  match profiles s !! hostname with
  | None => ret None
  | Some profile =>
      let* p := load_profile profile in
      if IsExpired p (cacheTTL s) now then ret None
      else let* c := ProfileState_Clone profile in ret (Some c)
  end.

(** [Manager.SetProfile]; [now] is the value of [time.Now()].  The
    caller's object is stamped, then cloned. *)
Definition SetProfile (now : Time) (hostname : string) (profile : loc) : M Store unit :=
  let* p := load_profile profile in
  store_profile profile (set_CachedAt now p) ;;
  let* c := ProfileState_Clone profile in
  modify (with_profiles (insert hostname c)).

(** [Manager.DeleteProfile]. *)
Definition DeleteProfile (hostname : string) : M Store unit :=
  modify (with_profiles (delete hostname)).

(** [Manager.Clear]. *)
Definition Clear : M Store unit :=
  modify (with_profiles (fun _ => ∅)).

(** [Manager.Count]. *)
Definition Count : M Store nat :=
  let* s := get in ret (size (profiles s)).

(** [Manager.GetEndpoint]. *)
Definition GetEndpoint (now : Time) (hostname endpointName : string) : M Store (option loc) :=
  let* r := GetProfile now hostname in
  match r with
  | None => ret None
  | Some profile =>
      let* p := load_profile profile in
      let* m := range_endpointMap (Endpoints p) in
      match m !! endpointName with
      | None => ret None
      | Some endpoint => let* c := EndpointState_Clone endpoint in ret (Some c)
      end
  end.

(** [Manager.SetEndpoint]; [now1] and [now2] are the two readings of
    [time.Now()], for [UpdatedAt] and [CachedAt]. *)
Definition SetEndpoint (now1 now2 : Time) (hostname endpointName : string) (endpoint : loc)
  : M Store unit :=
  let* s := get in
  match profiles s !! hostname with
  | None => ret tt
  | Some profile =>
      let* p := load_profile profile in
      let* m :=
        match Endpoints p with
        | None =>
            let* m := make_endpointMap in
            store_profile profile (set_Endpoints (Some m) p) ;; ret m
        | Some m => ret m
        end in
      let* c := EndpointState_Clone endpoint in
      endpointMap_set m endpointName c ;;
      let* p := load_profile profile in
      store_profile profile (set_UpdatedAt now1 p) ;;
      let* p := load_profile profile in
      store_profile profile (set_CachedAt now2 p)
  end.

(** [Manager.DeleteEndpoint]; [delete] on the nil map does nothing. *)
Definition DeleteEndpoint (now1 now2 : Time) (hostname endpointName : string) : M Store unit :=
  let* s := get in
  match profiles s !! hostname with
  | None => ret tt
  | Some profile =>
      let* p := load_profile profile in
      match Endpoints p with
      | None => ret tt
      | Some m => endpointMap_delete m endpointName
      end ;;
      let* p := load_profile profile in
      store_profile profile (set_UpdatedAt now1 p) ;;
      let* p := load_profile profile in
      store_profile profile (set_CachedAt now2 p)
  end.

(** [Manager.ListProfiles] and [Manager.GetProfileByName] range over the
    manager's map.  Go visits the entries of a map in an order it does
    not specify and that changes from run to run; [order] is the order
    of one run, the entries of the map in some sequence. *)

(** [Manager.ListProfiles]. *)
Fixpoint ListProfiles_loop (order : list (string * loc)) (profiles : list loc)
  : M Store (list loc) :=
  match order with
  | [] => ret profiles
  | (_, profile) :: r =>
      let* c := ProfileState_Clone profile in
      ListProfiles_loop r (profiles ++ [c])
  end.

Definition ListProfiles (order : list (string * loc)) : M Store (list loc) :=
  ListProfiles_loop order [].

(** [Manager.GetProfileByName]. *)
Fixpoint GetProfileByName (order : list (string * loc)) (profileName : string)
  : M Store (option loc) :=
  match order with
  | [] => ret None
  | (_, profile) :: r =>
      let* p := load_profile profile in
      if String.eqb (ProfileName p) profileName
      then let* c := ProfileState_Clone profile in ret (Some c)
      else GetProfileByName r profileName
  end.

End state.

(* ===================================================================== *)
(** * The outside world: the Azure SDK, the Kubernetes client, the clock *)
(* ===================================================================== *)

(** The SDK's resource types, with a pointer field as an [option]. *)
Module armtrafficmanager.

Record EndpointProperties := mkEndpointProperties {
  Target : option string;
  Weight : option Z;
  Priority : option Z;
  EndpointStatus : option string;
  EndpointLocation : option string
}.

Record Endpoint := mkEndpoint {
  Endpoint_Name : option string;
  Endpoint_Type : option string;
  Endpoint_Properties : option EndpointProperties
}.

Record DNSConfig := mkDNSConfig {
  RelativeName : option string;
  Fqdn : option string;
  TTL : option Z
}.

Record MonitorConfig := mkMonitorConfig {
  Protocol : option string;
  Port : option Z;
  Path : option string
}.

Record ProfileProperties := mkProfileProperties {
  ProfileStatus : option string;
  TrafficRoutingMethod : option string;
  Profile_DNSConfig : option DNSConfig;
  Profile_MonitorConfig : option MonitorConfig;
  Endpoints : list Endpoint
}.

Record Profile := mkProfile {
  Profile_Name : option string;
  Profile_Location : option string;
  Profile_Properties : option ProfileProperties;
  Profile_Tags : option (gmap string (option string))
}.

End armtrafficmanager.

(** The [DNSEndpoint] object the engine writes through the Kubernetes
    dynamic client. *)
Record DNSEndpointObject := mkDNSEndpointObject {
  obj_name : string;
  obj_namespace : string;
  obj_dnsName : string;
  obj_recordTTL : Z;
  obj_target : string;
  obj_resourceVersion : string
}.

(** Every request the engine sends out, as it is sent. *)
Inductive Call :=
| ProfilesCreateOrUpdate (resourceGroup profileName : string) (p : armtrafficmanager.Profile)
| ProfilesGet (resourceGroup profileName : string)
| ProfilesDelete (resourceGroup profileName : string)
| EndpointsCreateOrUpdate (resourceGroup profileName endpointType endpointName : string)
    (e : armtrafficmanager.Endpoint)
| EndpointsGet (resourceGroup profileName endpointType endpointName : string)
| EndpointsDelete (resourceGroup profileName endpointType endpointName : string)
| DNSEndpointGet (namespace name : string)
| DNSEndpointCreate (namespace : string) (o : DNSEndpointObject)
| DNSEndpointUpdate (namespace : string) (o : DNSEndpointObject)
| DNSEndpointDelete (namespace name : string).

(** What the engine cannot see into: the remote control plane, the
    cluster and the clock.  Each request returns a reply and the next
    environment; nothing is assumed about the replies. *)
Class Environment (E : Type) := {
  clock : E -> Time;
  profilesClient_CreateOrUpdate :
    string -> string -> armtrafficmanager.Profile -> E -> (armtrafficmanager.Profile + error) * E;
  profilesClient_Get : string -> string -> E -> (armtrafficmanager.Profile + error) * E;
  profilesClient_Delete : string -> string -> E -> option error * E;
  endpointsClient_CreateOrUpdate :
    string -> string -> string -> string -> armtrafficmanager.Endpoint -> E ->
    (armtrafficmanager.Endpoint + error) * E;
  endpointsClient_Get :
    string -> string -> string -> string -> E -> (armtrafficmanager.Endpoint + error) * E;
  endpointsClient_Delete : string -> string -> string -> string -> E -> option error * E;
  dynamicClient_Get : string -> string -> E -> (string + error) * E;
  dynamicClient_Create : string -> DNSEndpointObject -> E -> option error * E;
  dynamicClient_Update : string -> DNSEndpointObject -> E -> option error * E;
  dynamicClient_Delete : string -> string -> E -> option error * E
}.

(** Listing the profiles of a resource group goes through a pager.  One
    listing is the pages [NextPage] returns one after the other, each
    with the environment as that request leaves it, and the error and
    the environment of the [NextPage] that fails, when one does.  The
    pager is taken to end. *)
Class Listing (E : Type) := {
  profilesClient_NewListByResourceGroupPager :
    string -> E -> list (list armtrafficmanager.Profile * E) * option (error * E)
}.

(** Of the logger the model keeps the first line each item handler
    writes, which records that the item was taken up. *)
Inductive LogEntry :=
| LogCreatingEndpoint (dnsName : string)
| LogUpdatingEndpoint (dnsName : string)
| LogDeletingEndpoint (dnsName : string).

(** The state a provider runs against. *)
Record World (E : Type) := mkWorld {
  store : state.Store;
  env : E;
  calls : list Call;
  log : list LogEntry
}.
Arguments mkWorld {E} _ _ _ _.
Arguments store {E} _.
Arguments env {E} _.
Arguments calls {E} _.
Arguments log {E} _.

Section WorldOps.
Context {E : Type} `{Environment E} {tables : Unicode}.

(** A request: the call is recorded, the environment answers. *)
Definition request {A} (c : Call) (f : E -> A * E) : M (World E) A :=
  fun w =>
    let r := f (env w) in
    (Val (fst r), mkWorld (store w) (snd r) (calls w ++ [c]) (log w)).

(** [time.Now()]. *)
Definition time_Now : M (World E) Time :=
  fun w => (Val (clock (env w)), w).

(** An operation of package state, run on the provider's manager. *)
Definition on_store {A} (m : M state.Store A) : M (World E) A :=
  fun w =>
    let r := m (store w) in
    (fst r, mkWorld (snd r) (env w) (calls w) (log w)).

Definition logInfo (l : LogEntry) : M (World E) unit :=
  fun w => (Val tt, mkWorld (store w) (env w) (calls w) (log w ++ [l])).

End WorldOps.

(* ===================================================================== *)
(** * Package trafficmanager *)
(* ===================================================================== *)

Module trafficmanager.
Import armtrafficmanager.

(** ** types.go *)

Record ProfileConfig := mkProfileConfig {
  ProfileName : string;
  ResourceGroup : string;
  Location : string;
  RoutingMethod : string;
  DNSTTL : Z;
  MonitorProtocol : string;
  MonitorPort : Z;
  MonitorPath : string;
  HealthChecksEnabled : bool;
  Tags : gmap string string
}.

Record EndpointConfig := mkEndpointConfig {
  EndpointName : string;
  EndpointType : string;
  ec_Target : string;
  ec_Weight : Z;
  ec_Priority : Z;
  Status : string;
  ec_Location : string
}.

Record EndpointState := mkEndpointState {
  es_EndpointName : string;
  es_EndpointType : string;
  es_Target : string;
  es_Weight : Z;
  es_Priority : Z;
  es_Status : string;
  es_Location : string;
  es_CreatedAt : Time;
  es_UpdatedAt : Time
}.

Record ProfileState := mkProfileState {
  ps_ProfileName : string;
  ps_ResourceGroup : string;
  ps_Hostname : string;
  ps_FQDN : string;
  ps_RoutingMethod : string;
  ps_DNSTTL : Z;
  ps_Endpoints : gmap string EndpointState;
  ps_CreatedAt : Time;
  ps_UpdatedAt : Time
}.

Definition set_ps_Endpoints (v : gmap string EndpointState) (p : ProfileState) : ProfileState :=
  mkProfileState (ps_ProfileName p) (ps_ResourceGroup p) (ps_Hostname p) (ps_FQDN p)
    (ps_RoutingMethod p) (ps_DNSTTL p) v (ps_CreatedAt p) (ps_UpdatedAt p).

Definition set_Tags (v : gmap string string) (c : ProfileConfig) : ProfileConfig :=
  mkProfileConfig (ProfileName c) (ResourceGroup c) (Location c) (RoutingMethod c) (DNSTTL c)
    (MonitorProtocol c) (MonitorPort c) (MonitorPath c) (HealthChecksEnabled c) v.

Definition set_EndpointName (v : string) (c : EndpointConfig) : EndpointConfig :=
  mkEndpointConfig v (EndpointType c) (ec_Target c) (ec_Weight c) (ec_Priority c)
    (Status c) (ec_Location c).

Definition DefaultProfileConfig : ProfileConfig :=
  mkProfileConfig "" "" "global" "Weighted" 30 "HTTPS" 443 "/" true ∅.

Definition DefaultEndpointConfig : EndpointConfig :=
  mkEndpointConfig "" "ExternalEndpoints" "" 100 1 "Enabled" "".

(** ** profile.go: helpers *)

Definition toStringMapPtr (m : gmap string string) : option (gmap string (option string)) :=
  Some (Some <$> m).

Definition getProfileStatus (healthChecksEnabled : bool) : string :=
  if healthChecksEnabled then "Enabled" else "Disabled".

(** ** sync.go: [isManagedByUs] *)

Definition isManagedByUs (profile : Profile) : bool :=
  match Profile_Tags profile with
  | None => false
  | Some tags =>
      match tags !! "managedBy" with
      | Some (Some managedBy) => String.eqb managedBy "external-dns-traffic-manager-webhook"
      | _ => false
      end
  end.

Section Client.
Context {E : Type} `{Environment E} {tables : Unicode}.

(** ** endpoint.go *)

(** [endpointResponseToState]; [*endpoint.Type] is dereferenced
    unchecked. *)
Definition endpointResponseToState (endpoint : Endpoint) : M (World E) EndpointState :=
  let* ty := must (Endpoint_Type endpoint) in
  let* createdAt := time_Now in
  let* updatedAt := time_Now in
  let props := Endpoint_Properties endpoint in
  ret (mkEndpointState
         (default "" (Endpoint_Name endpoint))
         ty
         (default "" (props ≫= Target))
         (default 0 (props ≫= Weight))
         (default 0 (props ≫= Priority))
         (default "" (props ≫= EndpointStatus))
         (default "" (props ≫= EndpointLocation))
         createdAt updatedAt).

Definition CreateEndpoint (resourceGroup profileName : string) (config : EndpointConfig)
  : M (World E) (EndpointState + error) :=
  let endpoint :=
    mkEndpoint None None
      (Some (mkEndpointProperties
               (Some (ec_Target config)) (Some (ec_Weight config)) (Some (ec_Priority config))
               (Some (Status config))
               (if String.eqb (EndpointType config) "ExternalEndpoints"
                then Some (ec_Location config) else None))) in
  let* resp :=
    request
      (EndpointsCreateOrUpdate resourceGroup profileName (EndpointType config)
         (EndpointName config) endpoint)
      (endpointsClient_CreateOrUpdate resourceGroup profileName (EndpointType config)
         (EndpointName config) endpoint) in
  match resp with
  | inr err => ret (inr (Errorf_w "failed to create endpoint: " err))
  | inl e => let* st := endpointResponseToState e in ret (inl st)
  end.

Definition UpdateEndpoint (resourceGroup profileName : string) (config : EndpointConfig)
  : M (World E) (EndpointState + error) :=
  let endpoint :=
    mkEndpoint None None
      (Some (mkEndpointProperties
               (Some (ec_Target config)) (Some (ec_Weight config)) (Some (ec_Priority config))
               (Some (Status config))
               (if String.eqb (EndpointType config) "ExternalEndpoints"
                   && negb (str_empty (ec_Location config))
                then Some (ec_Location config) else None))) in
  let* resp :=
    request
      (EndpointsCreateOrUpdate resourceGroup profileName (EndpointType config)
         (EndpointName config) endpoint)
      (endpointsClient_CreateOrUpdate resourceGroup profileName (EndpointType config)
         (EndpointName config) endpoint) in
  match resp with
  | inr err => ret (inr (Errorf_w "failed to update endpoint: " err))
  | inl e => let* st := endpointResponseToState e in ret (inl st)
  end.

Definition DeleteEndpoint (resourceGroup profileName endpointType endpointName : string)
  : M (World E) (option error) :=
  let* err :=
    request (EndpointsDelete resourceGroup profileName endpointType endpointName)
      (endpointsClient_Delete resourceGroup profileName endpointType endpointName) in
  match err with
  | Some err => ret (Some (Errorf_w "failed to delete endpoint: " err))
  | None => ret None
  end.

(** ** profile.go *)

(** The loop of [profileResponseToState] over the endpoints of the reply:
    [state.Endpoints[*endpoint.Name] = endpointResponseToState(endpoint)]
    for every endpoint that has a name. *)
Fixpoint endpointsToState (l : list Endpoint) (acc : gmap string EndpointState)
  : M (World E) (gmap string EndpointState) :=
  match l with
  | [] => ret acc
  | endpoint :: r =>
      match Endpoint_Name endpoint with
      | Some n =>
          let* endpointState := endpointResponseToState endpoint in
          endpointsToState r (<[n := endpointState]> acc)
      | None => endpointsToState r acc
      end
  end.

(** [profileResponseToState]; [*profile.Name] is dereferenced unchecked. *)
Definition profileResponseToState (resourceGroup : string) (profile : Profile)
  : M (World E) ProfileState :=
  let* name := must (Profile_Name profile) in
  let* createdAt := time_Now in
  let* updatedAt := time_Now in
  let props := Profile_Properties profile in
  let st :=
    mkProfileState name resourceGroup ""
      (default "" ((props ≫= Profile_DNSConfig) ≫= Fqdn))
      (default "" (props ≫= TrafficRoutingMethod))
      (default 0 ((props ≫= Profile_DNSConfig) ≫= TTL))
      ∅ createdAt updatedAt in
  let* endpoints :=
    endpointsToState (match props with Some p => Endpoints p | None => [] end) ∅ in
  ret (set_ps_Endpoints endpoints st).

Definition profileRequest (config : ProfileConfig) (relativeName : option string) : Profile :=
  mkProfile None (Some (Location config))
    (Some (mkProfileProperties
             (Some (getProfileStatus (HealthChecksEnabled config)))
             (Some (RoutingMethod config))
             (Some (mkDNSConfig relativeName None (Some (DNSTTL config))))
             (Some (mkMonitorConfig (Some (MonitorProtocol config))
                      (Some (MonitorPort config)) (Some (MonitorPath config))))
             []))
    (toStringMapPtr (Tags config)).

(** [Client.CreateProfile].  The success log line dereferences
    [*resp.Properties.DNSConfig.Fqdn] unchecked. *)
Definition CreateProfile (config : ProfileConfig) : M (World E) (ProfileState + error) :=
  let profile := profileRequest config (Some (ProfileName config)) in
  let* resp :=
    request (ProfilesCreateOrUpdate (ResourceGroup config) (ProfileName config) profile)
      (profilesClient_CreateOrUpdate (ResourceGroup config) (ProfileName config) profile) in
  match resp with
  | inr err => ret (inr (Errorf_w "failed to create profile: " err))
  | inl p =>
      let* _ := must ((Profile_Properties p ≫= Profile_DNSConfig) ≫= Fqdn) in
      let* st := profileResponseToState (ResourceGroup config) p in
      ret (inl st)
  end.

(** [Client.GetProfile]. *)
Definition GetProfile (resourceGroup profileName : string)
  : M (World E) (ProfileState + error) :=
  let* resp :=
    request (ProfilesGet resourceGroup profileName)
      (profilesClient_Get resourceGroup profileName) in
  match resp with
  | inr err => ret (inr (Errorf_w "failed to get profile: " err))
  | inl p => let* st := profileResponseToState resourceGroup p in ret (inl st)
  end.

(** [Client.UpdateProfile]. *)
Definition UpdateProfile (config : ProfileConfig) : M (World E) (ProfileState + error) :=
  let* existing := GetProfile (ResourceGroup config) (ProfileName config) in
  match existing with
  | inr err => ret (inr (Errorf_w "failed to get existing profile: " err))
  | inl existing =>
      let profile := profileRequest config None in
      let* resp :=
        request (ProfilesCreateOrUpdate (ResourceGroup config) (ProfileName config) profile)
          (profilesClient_CreateOrUpdate (ResourceGroup config) (ProfileName config) profile) in
      match resp with
      | inr err => ret (inr (Errorf_w "failed to update profile: " err))
      | inl p =>
          let* st := profileResponseToState (ResourceGroup config) p in
          ret (inl (set_ps_Endpoints (ps_Endpoints existing) st))
      end
  end.

(** [Client.DeleteProfile]. *)
Definition DeleteProfile (resourceGroup profileName : string) : M (World E) (option error) :=
  let* err :=
    request (ProfilesDelete resourceGroup profileName)
      (profilesClient_Delete resourceGroup profileName) in
  match err with
  | Some err => ret (Some (Errorf_w "failed to delete profile: " err))
  | None => ret None
  end.

(** ** endpoint.go: reading an endpoint, and the two partial updates *)

(** [Client.GetEndpoint]. *)
Definition GetEndpoint (resourceGroup profileName endpointType endpointName : string)
  : M (World E) (EndpointState + error) :=
  let* resp :=
    request (EndpointsGet resourceGroup profileName endpointType endpointName)
      (endpointsClient_Get resourceGroup profileName endpointType endpointName) in
  match resp with
  | inr err => ret (inr (Errorf_w "failed to get endpoint: " err))
  | inl e => let* st := endpointResponseToState e in ret (inl st)
  end.

(** [Client.UpdateEndpointWeight]. *)
Definition UpdateEndpointWeight
    (resourceGroup profileName endpointType endpointName : string) (weight : Z)
  : M (World E) (option error) :=
  let* current := GetEndpoint resourceGroup profileName endpointType endpointName in
  match current with
  | inr err => ret (Some err)
  | inl current =>
      let endpoint :=
        mkEndpoint None None
          (Some (mkEndpointProperties
                   (Some (es_Target current)) (Some weight) (Some (es_Priority current))
                   (Some (es_Status current))
                   (if negb (str_empty (es_Location current))
                    then Some (es_Location current) else None))) in
      let* resp :=
        request
          (EndpointsCreateOrUpdate resourceGroup profileName endpointType endpointName
             endpoint)
          (endpointsClient_CreateOrUpdate resourceGroup profileName endpointType
             endpointName endpoint) in
      match resp with
      | inr err => ret (Some (Errorf_w "failed to update endpoint weight: " err))
      | inl _ => ret None
      end
  end.

(** [Client.UpdateEndpointStatus]. *)
Definition UpdateEndpointStatus
    (resourceGroup profileName endpointType endpointName status : string)
  : M (World E) (option error) :=
  let* current := GetEndpoint resourceGroup profileName endpointType endpointName in
  match current with
  | inr err => ret (Some err)
  | inl current =>
      let endpoint :=
        mkEndpoint None None
          (Some (mkEndpointProperties
                   (Some (es_Target current)) (Some (es_Weight current))
                   (Some (es_Priority current)) (Some status)
                   (if negb (str_empty (es_Location current))
                    then Some (es_Location current) else None))) in
      let* resp :=
        request
          (EndpointsCreateOrUpdate resourceGroup profileName endpointType endpointName
             endpoint)
          (endpointsClient_CreateOrUpdate resourceGroup profileName endpointType
             endpointName endpoint) in
      match resp with
      | inr err => ret (Some (Errorf_w "failed to update endpoint status: " err))
      | inl _ => ret None
      end
  end.

(** ** sync.go *)

(** [Client.endpointToState]: a fresh [state.EndpointState] object. *)
Definition endpointToState (name : string) (endpoint : Endpoint) : M (World E) state.loc :=
  let* createdAt := time_Now in
  let* updatedAt := time_Now in
  let props := Endpoint_Properties endpoint in
  on_store
    (state.new_endpoint
       (state.mkEndpointState name
          (default "" (Endpoint_Type endpoint))
          (default "" (props ≫= Target))
          (default 0 (props ≫= Weight))
          (default 0 (props ≫= Priority))
          (default "" (props ≫= EndpointStatus))
          (default "" (props ≫= EndpointLocation))
          createdAt updatedAt)).

(** [Client.profileToState]: a fresh [state.ProfileState] object with its
    own maps.  The scalar fields are computed first and the object is
    allocated with them; the maps are then filled as the source does. *)
Definition profileToState (resourceGroup : string) (profile : Profile)
  : M (World E) state.loc :=
  let* name := must (Profile_Name profile) in
  let* endpoints := on_store state.make_endpointMap in
  let* tags := on_store state.make_tagMap in
  let* createdAt := time_Now in
  let* updatedAt := time_Now in
  let* cachedAt := time_Now in
  let props := Profile_Properties profile in
  let* profileState :=
    on_store
      (state.new_profile
         (state.mkProfileState name resourceGroup ""
            (default "" ((props ≫= Profile_DNSConfig) ≫= Fqdn))
            (default "" (props ≫= TrafficRoutingMethod))
            (default 0 ((props ≫= Profile_DNSConfig) ≫= TTL))
            (Some endpoints) (Some tags) createdAt updatedAt cachedAt)) in
  for_each (match props with Some p => Endpoints p | None => [] end)
    (fun endpoint =>
       match Endpoint_Name endpoint with
       | Some n =>
           let* endpointState := endpointToState n endpoint in
           on_store (state.endpointMap_set endpoints n endpointState)
       | None => ret tt
       end) ;;
  match Profile_Tags profile with
  | None => ret tt
  | Some t =>
      range_map t
        (fun k v =>
           match v with
           | Some v => on_store (state.tagMap_set tags k v)
           | None => ret tt
           end) ;;
      let* m := on_store (state.range_tagMap (Some tags)) in
      match m !! "hostname" with
      | Some hostname =>
          let* p := on_store (state.load_profile profileState) in
          on_store (state.store_profile profileState (state.set_Hostname hostname p))
      | None => ret tt
      end
  end ;;
  ret profileState.

(** [Client.GetProfileState]. *)
Definition GetProfileState (resourceGroup profileName : string)
  : M (World E) (state.loc + error) :=
  let* resp :=
    request (ProfilesGet resourceGroup profileName)
      (profilesClient_Get resourceGroup profileName) in
  match resp with
  | inr err => ret (inr (Errorf_w "failed to get profile: " err))
  | inl p => let* st := profileToState resourceGroup p in ret (inl st)
  end.

End Client.

(** ** sync.go: listing *)

Section Sync.
Context {E : Type} `{Environment E} `{Listing E} {tables : Unicode}.

(** The environment once a [NextPage] has returned. *)
Definition page_arrived (e : E) : M (World E) unit :=
  fun w => (Val tt, mkWorld (store w) e (calls w) (log w)).

(** [for _, profile := range page.Value]. *)
Fixpoint listProfiles_page (resourceGroup : string) (values : list Profile)
    (profiles : list state.loc) : M (World E) (list state.loc) :=
  match values with
  | [] => ret profiles
  | profile :: r =>
      if negb (isManagedByUs profile) then listProfiles_page resourceGroup r profiles
      else
        let* profileState := profileToState resourceGroup profile in
        listProfiles_page resourceGroup r (profiles ++ [profileState])
  end.

(** [for pager.More()]: the pages still to come, and the failure that
    ends them. *)
Fixpoint listProfiles_pages (resourceGroup : string) (pages : list (list Profile * E))
    (failure : option (error * E)) (profiles : list state.loc)
  : M (World E) (list state.loc + error) :=
  match pages with
  | (values, e) :: r =>
      page_arrived e ;;
      let* profiles := listProfiles_page resourceGroup values profiles in
      listProfiles_pages resourceGroup r failure profiles
  | [] =>
      match failure with
      | Some (err, e) =>
          page_arrived e ;;
          ret (inr (Errorf_w "failed to get next page: " err))
      | None => ret (inl profiles)
      end
  end.

(** [Client.listProfilesInResourceGroup]. *)
Definition listProfilesInResourceGroup (resourceGroup : string)
  : M (World E) (list state.loc + error) :=
  let* w := get in
  let listing := profilesClient_NewListByResourceGroupPager resourceGroup (env w) in
  listProfiles_pages resourceGroup (fst listing) (snd listing) [].

(** The loop of [SyncProfilesFromAzure] over the resource groups: a
    group whose listing fails is passed over. *)
Fixpoint SyncProfiles_loop (resourceGroups : list string) (allProfiles : list state.loc)
  : M (World E) (list state.loc) :=
  match resourceGroups with
  | [] => ret allProfiles
  | rg :: r =>
      let* listed := listProfilesInResourceGroup rg in
      match listed with
      | inr _ => SyncProfiles_loop r allProfiles
      | inl profiles => SyncProfiles_loop r (allProfiles ++ profiles)
      end
  end.

(** [Client.SyncProfilesFromAzure]: the profiles and the error. *)
Definition SyncProfilesFromAzure (resourceGroups : list string)
  : M (World E) (list state.loc * option error) :=
  let* allProfiles := SyncProfiles_loop resourceGroups [] in
  ret (allProfiles, None).

End Sync.
End trafficmanager.

(* ===================================================================== *)
(** * Package annotations *)
(* ===================================================================== *)

Module annotations.

(** ** constants.go *)

Definition AnnotationPrefix : string := "webhook/traffic-manager-".

Definition AnnotationEnabled : string := AnnotationPrefix +:+ "enabled".
Definition AnnotationProfileName : string := AnnotationPrefix +:+ "profile-name".
Definition AnnotationResourceGroup : string := AnnotationPrefix +:+ "resource-group".
Definition AnnotationHostname : string := AnnotationPrefix +:+ "hostname".
Definition AnnotationRoutingMethod : string := AnnotationPrefix +:+ "routing-method".
Definition AnnotationWeight : string := AnnotationPrefix +:+ "weight".
Definition AnnotationPriority : string := AnnotationPrefix +:+ "priority".
Definition AnnotationEndpointName : string := AnnotationPrefix +:+ "endpoint-name".
Definition AnnotationEndpointLocation : string := AnnotationPrefix +:+ "endpoint-location".
Definition AnnotationEndpointStatus : string := AnnotationPrefix +:+ "endpoint-status".
Definition AnnotationDNSTTL : string := AnnotationPrefix +:+ "dns-ttl".
Definition AnnotationMonitorProtocol : string := AnnotationPrefix +:+ "monitor-protocol".
Definition AnnotationMonitorPort : string := AnnotationPrefix +:+ "monitor-port".
Definition AnnotationMonitorPath : string := AnnotationPrefix +:+ "monitor-path".
Definition AnnotationHealthChecksEnabled : string := AnnotationPrefix +:+ "health-checks-enabled".

Definition DefaultRoutingMethod : string := "Weighted".
Definition DefaultWeight : Z := 100.
Definition DefaultPriority : Z := 1.
Definition DefaultDNSTTL : Z := 30.
Definition DefaultMonitorProtocol : string := "HTTPS".
Definition DefaultMonitorPort : Z := 443.
Definition DefaultMonitorPath : string := "/".
Definition DefaultEndpointStatus : string := "Enabled".
Definition DefaultEndpointType : string := "ExternalEndpoints".
Definition DefaultHealthChecksEnabled : bool := true.

(** ** parser.go *)

Record TrafficManagerConfig := mkTrafficManagerConfig {
  Enabled : bool;
  ProfileName : string;
  ResourceGroup : string;
  Hostname : string;
  RoutingMethod : string;
  Weight : Z;
  Priority : Z;
  EndpointName : string;
  EndpointLocation : string;
  EndpointStatus : string;
  EndpointType : string;
  DNSTTL : Z;
  MonitorProtocol : string;
  MonitorPort : Z;
  MonitorPath : string;
  HealthChecksEnabled : bool
}.

(** Field assignments [config.F = v]. *)
Definition set_Enabled (v : bool) (c : TrafficManagerConfig) : TrafficManagerConfig :=
  {| Enabled := v; ProfileName := ProfileName c; ResourceGroup := ResourceGroup c;
     Hostname := Hostname c; RoutingMethod := RoutingMethod c; Weight := Weight c;
     Priority := Priority c; EndpointName := EndpointName c;
     EndpointLocation := EndpointLocation c; EndpointStatus := EndpointStatus c;
     EndpointType := EndpointType c; DNSTTL := DNSTTL c;
     MonitorProtocol := MonitorProtocol c; MonitorPort := MonitorPort c;
     MonitorPath := MonitorPath c; HealthChecksEnabled := HealthChecksEnabled c  |}.
Definition set_ProfileName (v : string) (c : TrafficManagerConfig) : TrafficManagerConfig :=
  {| Enabled := Enabled c; ProfileName := v; ResourceGroup := ResourceGroup c;
     Hostname := Hostname c; RoutingMethod := RoutingMethod c; Weight := Weight c;
     Priority := Priority c; EndpointName := EndpointName c;
     EndpointLocation := EndpointLocation c; EndpointStatus := EndpointStatus c;
     EndpointType := EndpointType c; DNSTTL := DNSTTL c;
     MonitorProtocol := MonitorProtocol c; MonitorPort := MonitorPort c;
     MonitorPath := MonitorPath c; HealthChecksEnabled := HealthChecksEnabled c  |}.
Definition set_ResourceGroup (v : string) (c : TrafficManagerConfig) : TrafficManagerConfig :=
  {| Enabled := Enabled c; ProfileName := ProfileName c; ResourceGroup := v;
     Hostname := Hostname c; RoutingMethod := RoutingMethod c; Weight := Weight c;
     Priority := Priority c; EndpointName := EndpointName c;
     EndpointLocation := EndpointLocation c; EndpointStatus := EndpointStatus c;
     EndpointType := EndpointType c; DNSTTL := DNSTTL c;
     MonitorProtocol := MonitorProtocol c; MonitorPort := MonitorPort c;
     MonitorPath := MonitorPath c; HealthChecksEnabled := HealthChecksEnabled c  |}.
Definition set_Hostname (v : string) (c : TrafficManagerConfig) : TrafficManagerConfig :=
  {| Enabled := Enabled c; ProfileName := ProfileName c;
     ResourceGroup := ResourceGroup c; Hostname := v; RoutingMethod := RoutingMethod c;
     Weight := Weight c; Priority := Priority c; EndpointName := EndpointName c;
     EndpointLocation := EndpointLocation c; EndpointStatus := EndpointStatus c;
     EndpointType := EndpointType c; DNSTTL := DNSTTL c;
     MonitorProtocol := MonitorProtocol c; MonitorPort := MonitorPort c;
     MonitorPath := MonitorPath c; HealthChecksEnabled := HealthChecksEnabled c  |}.
Definition set_RoutingMethod (v : string) (c : TrafficManagerConfig) : TrafficManagerConfig :=
  {| Enabled := Enabled c; ProfileName := ProfileName c;
     ResourceGroup := ResourceGroup c; Hostname := Hostname c; RoutingMethod := v;
     Weight := Weight c; Priority := Priority c; EndpointName := EndpointName c;
     EndpointLocation := EndpointLocation c; EndpointStatus := EndpointStatus c;
     EndpointType := EndpointType c; DNSTTL := DNSTTL c;
     MonitorProtocol := MonitorProtocol c; MonitorPort := MonitorPort c;
     MonitorPath := MonitorPath c; HealthChecksEnabled := HealthChecksEnabled c  |}.
Definition set_Weight (v : Z) (c : TrafficManagerConfig) : TrafficManagerConfig :=
  {| Enabled := Enabled c; ProfileName := ProfileName c;
     ResourceGroup := ResourceGroup c; Hostname := Hostname c;
     RoutingMethod := RoutingMethod c; Weight := v; Priority := Priority c;
     EndpointName := EndpointName c; EndpointLocation := EndpointLocation c;
     EndpointStatus := EndpointStatus c; EndpointType := EndpointType c;
     DNSTTL := DNSTTL c; MonitorProtocol := MonitorProtocol c;
     MonitorPort := MonitorPort c; MonitorPath := MonitorPath c;
     HealthChecksEnabled := HealthChecksEnabled c  |}.
Definition set_Priority (v : Z) (c : TrafficManagerConfig) : TrafficManagerConfig :=
  {| Enabled := Enabled c; ProfileName := ProfileName c;
     ResourceGroup := ResourceGroup c; Hostname := Hostname c;
     RoutingMethod := RoutingMethod c; Weight := Weight c; Priority := v;
     EndpointName := EndpointName c; EndpointLocation := EndpointLocation c;
     EndpointStatus := EndpointStatus c; EndpointType := EndpointType c;
     DNSTTL := DNSTTL c; MonitorProtocol := MonitorProtocol c;
     MonitorPort := MonitorPort c; MonitorPath := MonitorPath c;
     HealthChecksEnabled := HealthChecksEnabled c  |}.
Definition set_EndpointName (v : string) (c : TrafficManagerConfig) : TrafficManagerConfig :=
  {| Enabled := Enabled c; ProfileName := ProfileName c;
     ResourceGroup := ResourceGroup c; Hostname := Hostname c;
     RoutingMethod := RoutingMethod c; Weight := Weight c; Priority := Priority c;
     EndpointName := v; EndpointLocation := EndpointLocation c;
     EndpointStatus := EndpointStatus c; EndpointType := EndpointType c;
     DNSTTL := DNSTTL c; MonitorProtocol := MonitorProtocol c;
     MonitorPort := MonitorPort c; MonitorPath := MonitorPath c;
     HealthChecksEnabled := HealthChecksEnabled c  |}.
Definition set_EndpointLocation (v : string) (c : TrafficManagerConfig) : TrafficManagerConfig :=
  {| Enabled := Enabled c; ProfileName := ProfileName c;
     ResourceGroup := ResourceGroup c; Hostname := Hostname c;
     RoutingMethod := RoutingMethod c; Weight := Weight c; Priority := Priority c;
     EndpointName := EndpointName c; EndpointLocation := v;
     EndpointStatus := EndpointStatus c; EndpointType := EndpointType c;
     DNSTTL := DNSTTL c; MonitorProtocol := MonitorProtocol c;
     MonitorPort := MonitorPort c; MonitorPath := MonitorPath c;
     HealthChecksEnabled := HealthChecksEnabled c  |}.
Definition set_EndpointStatus (v : string) (c : TrafficManagerConfig) : TrafficManagerConfig :=
  {| Enabled := Enabled c; ProfileName := ProfileName c;
     ResourceGroup := ResourceGroup c; Hostname := Hostname c;
     RoutingMethod := RoutingMethod c; Weight := Weight c; Priority := Priority c;
     EndpointName := EndpointName c; EndpointLocation := EndpointLocation c;
     EndpointStatus := v; EndpointType := EndpointType c; DNSTTL := DNSTTL c;
     MonitorProtocol := MonitorProtocol c; MonitorPort := MonitorPort c;
     MonitorPath := MonitorPath c; HealthChecksEnabled := HealthChecksEnabled c  |}.
Definition set_DNSTTL (v : Z) (c : TrafficManagerConfig) : TrafficManagerConfig :=
  {| Enabled := Enabled c; ProfileName := ProfileName c;
     ResourceGroup := ResourceGroup c; Hostname := Hostname c;
     RoutingMethod := RoutingMethod c; Weight := Weight c; Priority := Priority c;
     EndpointName := EndpointName c; EndpointLocation := EndpointLocation c;
     EndpointStatus := EndpointStatus c; EndpointType := EndpointType c; DNSTTL := v;
     MonitorProtocol := MonitorProtocol c; MonitorPort := MonitorPort c;
     MonitorPath := MonitorPath c; HealthChecksEnabled := HealthChecksEnabled c  |}.
Definition set_MonitorProtocol (v : string) (c : TrafficManagerConfig) : TrafficManagerConfig :=
  {| Enabled := Enabled c; ProfileName := ProfileName c;
     ResourceGroup := ResourceGroup c; Hostname := Hostname c;
     RoutingMethod := RoutingMethod c; Weight := Weight c; Priority := Priority c;
     EndpointName := EndpointName c; EndpointLocation := EndpointLocation c;
     EndpointStatus := EndpointStatus c; EndpointType := EndpointType c;
     DNSTTL := DNSTTL c; MonitorProtocol := v; MonitorPort := MonitorPort c;
     MonitorPath := MonitorPath c; HealthChecksEnabled := HealthChecksEnabled c  |}.
Definition set_MonitorPort (v : Z) (c : TrafficManagerConfig) : TrafficManagerConfig :=
  {| Enabled := Enabled c; ProfileName := ProfileName c;
     ResourceGroup := ResourceGroup c; Hostname := Hostname c;
     RoutingMethod := RoutingMethod c; Weight := Weight c; Priority := Priority c;
     EndpointName := EndpointName c; EndpointLocation := EndpointLocation c;
     EndpointStatus := EndpointStatus c; EndpointType := EndpointType c;
     DNSTTL := DNSTTL c; MonitorProtocol := MonitorProtocol c; MonitorPort := v;
     MonitorPath := MonitorPath c; HealthChecksEnabled := HealthChecksEnabled c  |}.
Definition set_MonitorPath (v : string) (c : TrafficManagerConfig) : TrafficManagerConfig :=
  {| Enabled := Enabled c; ProfileName := ProfileName c;
     ResourceGroup := ResourceGroup c; Hostname := Hostname c;
     RoutingMethod := RoutingMethod c; Weight := Weight c; Priority := Priority c;
     EndpointName := EndpointName c; EndpointLocation := EndpointLocation c;
     EndpointStatus := EndpointStatus c; EndpointType := EndpointType c;
     DNSTTL := DNSTTL c; MonitorProtocol := MonitorProtocol c;
     MonitorPort := MonitorPort c; MonitorPath := v;
     HealthChecksEnabled := HealthChecksEnabled c  |}.
Definition set_HealthChecksEnabled (v : bool) (c : TrafficManagerConfig) : TrafficManagerConfig :=
  {| Enabled := Enabled c; ProfileName := ProfileName c;
     ResourceGroup := ResourceGroup c; Hostname := Hostname c;
     RoutingMethod := RoutingMethod c; Weight := Weight c; Priority := Priority c;
     EndpointName := EndpointName c; EndpointLocation := EndpointLocation c;
     EndpointStatus := EndpointStatus c; EndpointType := EndpointType c;
     DNSTTL := DNSTTL c; MonitorProtocol := MonitorProtocol c;
     MonitorPort := MonitorPort c; MonitorPath := MonitorPath c;
     HealthChecksEnabled := v  |}.

Definition defaultConfig : TrafficManagerConfig :=
  {| Enabled := false; ProfileName := ""; ResourceGroup := ""; Hostname := "";
     RoutingMethod := DefaultRoutingMethod; Weight := DefaultWeight;
     Priority := DefaultPriority; EndpointName := ""; EndpointLocation := "";
     EndpointStatus := DefaultEndpointStatus; EndpointType := DefaultEndpointType;
     DNSTTL := DefaultDNSTTL; MonitorProtocol := DefaultMonitorProtocol;
     MonitorPort := DefaultMonitorPort; MonitorPath := DefaultMonitorPath;
     HealthChecksEnabled := false |}.

(** [if v, ok := labels[key]; ok && v != ""]. *)
Definition present (labels : gmap string string) (key : string) : option string :=
  match labels !! key with
  | Some v => if str_empty v then None else Some v
  | None => None
  end.

Notation "'try' x ':=' e 'in' k" :=
  (match e with inl x => k | inr err => inr err end)
  (at level 10, x name, e at level 100, k at level 200, only parsing).

(** [ParseConfig].  [config] is rebound where the source assigns to a
    field of the one config it builds. *)
Definition ParseConfig {tables : Unicode} (labels : gmap string string)
  : TrafficManagerConfig + error :=
  let config := defaultConfig in
  let config :=
    match labels !! AnnotationEnabled with
    | Some enabled => set_Enabled (String.eqb (strings_ToLower enabled) "true") config
    | None => config
    end in
  if negb (Enabled config) then inl config
  else
  let config := set_ResourceGroup (default "" (labels !! AnnotationResourceGroup)) config in
  if str_empty (ResourceGroup config) then
    inr (errorString ("annotation " +:+ AnnotationResourceGroup
                      +:+ " is required when Traffic Manager is enabled"))
  else
  let config :=
    match present labels AnnotationProfileName with
    | Some profileName => set_ProfileName profileName config
    | None => config
    end in
  let config :=
    match present labels AnnotationHostname with
    | Some hostname => set_Hostname hostname config
    | None => config
    end in
  let config :=
    match present labels AnnotationRoutingMethod with
    | Some routingMethod => set_RoutingMethod routingMethod config
    | None => config
    end in
  try config :=
    match present labels AnnotationWeight with
    | Some weight =>
        match strconv_ParseInt weight with
        | inr err =>
            inr (Errorf_w ("invalid weight value " +:+ strconv_Quote weight +:+ ": ") err)
        | inl w => inl (set_Weight w config)
        end
    | None => inl config
    end in
  try config :=
    match present labels AnnotationPriority with
    | Some priority =>
        match strconv_ParseInt priority with
        | inr err =>
            inr (Errorf_w ("invalid priority value " +:+ strconv_Quote priority +:+ ": ") err)
        | inl p => inl (set_Priority p config)
        end
    | None => inl config
    end in
  let config :=
    match present labels AnnotationEndpointName with
    | Some endpointName => set_EndpointName endpointName config
    | None => config
    end in
  let config :=
    match present labels AnnotationEndpointLocation with
    | Some location => set_EndpointLocation location config
    | None => config
    end in
  let config :=
    match present labels AnnotationEndpointStatus with
    | Some status => set_EndpointStatus status config
    | None => config
    end in
  try config :=
    match present labels AnnotationDNSTTL with
    | Some ttl =>
        match strconv_ParseInt ttl with
        | inr err =>
            inr (Errorf_w ("invalid DNS TTL value " +:+ strconv_Quote ttl +:+ ": ") err)
        | inl t => inl (set_DNSTTL t config)
        end
    | None => inl config
    end in
  let config :=
    match present labels AnnotationMonitorProtocol with
    | Some protocol => set_MonitorProtocol protocol config
    | None => config
    end in
  try config :=
    match present labels AnnotationMonitorPort with
    | Some port =>
        match strconv_ParseInt port with
        | inr err =>
            inr (Errorf_w ("invalid monitor port value " +:+ strconv_Quote port +:+ ": ") err)
        | inl p => inl (set_MonitorPort p config)
        end
    | None => inl config
    end in
  let config :=
    match present labels AnnotationMonitorPath with
    | Some path => set_MonitorPath path config
    | None => config
    end in
  try config :=
    match present labels AnnotationHealthChecksEnabled with
    | Some healthChecks =>
        match strconv_ParseBool healthChecks with
        | inr err =>
            inr (Errorf_w ("invalid health checks enabled value "
                           +:+ strconv_Quote healthChecks +:+ ": ") err)
        | inl enabled => inl (set_HealthChecksEnabled enabled config)
        end
    | None => inl config
    end in
  inl config.

(** [ToProfileConfig]. *)
Definition ToProfileConfig (c : TrafficManagerConfig) : trafficmanager.ProfileConfig :=
  let config := trafficmanager.DefaultProfileConfig in
  trafficmanager.mkProfileConfig
    (if str_empty (ProfileName c) then trafficmanager.ProfileName config else ProfileName c)
    (ResourceGroup c)
    (trafficmanager.Location config)
    (RoutingMethod c)
    (DNSTTL c)
    (MonitorProtocol c)
    (MonitorPort c)
    (MonitorPath c)
    (HealthChecksEnabled c)
    (<["managedBy" := "external-dns-traffic-manager-webhook"]> (trafficmanager.Tags config)).

(** [ToEndpointConfig]. *)
Definition ToEndpointConfig (c : TrafficManagerConfig) (target : string)
  : trafficmanager.EndpointConfig :=
  let config := trafficmanager.DefaultEndpointConfig in
  trafficmanager.mkEndpointConfig
    (if str_empty (EndpointName c) then trafficmanager.EndpointName config else EndpointName c)
    (EndpointType c)
    target
    (Weight c)
    (Priority c)
    (EndpointStatus c)
    (EndpointLocation c).

(** ** validator.go *)

Definition contains (slice : list string) (item : string) : bool :=
  existsb (fun s => String.eqb s item) slice.

Definition validRoutingMethods : list string :=
  ["Weighted"; "Priority"; "Performance"; "Geographic"].
Definition validProtocols : list string := ["HTTP"; "HTTPS"; "TCP"].
Definition validStatuses : list string := ["Enabled"; "Disabled"].

(** [ValidateConfig]: [None] is the nil error. *)
Definition ValidateConfig {tables : Unicode} (config : TrafficManagerConfig)
  : option error :=
  if negb (Enabled config) then None
  else if str_empty (ResourceGroup config) then
    Some (errorString "resource group is required")
  else if (Weight config <? 1) || (1000 <? Weight config) then
    Some (errorString ("weight must be between 1 and 1000, got " +:+ fmt_d (Weight config)))
  else if (Priority config <? 1) || (1000 <? Priority config) then
    Some (errorString ("priority must be between 1 and 1000, got "
                       +:+ fmt_d (Priority config)))
  else if negb (contains validRoutingMethods (RoutingMethod config)) then
    Some (errorString ("invalid routing method " +:+ strconv_Quote (RoutingMethod config)
                       +:+ ", must be one of: " +:+ fmt_v_strings validRoutingMethods))
  else if negb (contains validProtocols (MonitorProtocol config)) then
    Some (errorString ("invalid monitor protocol " +:+ strconv_Quote (MonitorProtocol config)
                       +:+ ", must be one of: " +:+ fmt_v_strings validProtocols))
  else if negb (contains validStatuses (EndpointStatus config)) then
    Some (errorString ("invalid endpoint status " +:+ strconv_Quote (EndpointStatus config)
                       +:+ ", must be one of: " +:+ fmt_v_strings validStatuses))
  else if DNSTTL config <? 30 then
    Some (errorString ("DNS TTL must be at least 30 seconds, got " +:+ fmt_d (DNSTTL config)))
  else if (MonitorPort config <? 1) || (65535 <? MonitorPort config) then
    Some (errorString ("monitor port must be between 1 and 65535, got "
                       +:+ fmt_d (MonitorPort config)))
  else if String.eqb (EndpointType config) "ExternalEndpoints"
          && str_empty (EndpointLocation config) then
    Some (errorString "endpoint location is required for ExternalEndpoints")
  else None.

End annotations.

(* ===================================================================== *)
(** * Package dnsendpoint *)
(* ===================================================================== *)

Module dnsendpoint.

Definition is_alnum (c : ascii) : bool := is_lower c || is_upper c || is_digit c.

(** [GenerateName]: dots become hyphens, letters, digits and hyphens are
    kept, everything else is dropped.  No byte of a multi-byte rune is
    kept, so working byte by byte gives the same string. *)
Fixpoint generateName_body (hostname : string) : string :=
  match hostname with
  | EmptyString => EmptyString
  | String c r =>
      if Ascii.eqb c "." then String "-" (generateName_body r)
      else if is_alnum c || Ascii.eqb c "-" then String c (generateName_body r)
      else generateName_body r
  end.

Definition GenerateName (hostname : string) : string :=
  generateName_body hostname +:+ "-tm-cname".

Section Manager.
Context {E : Type} `{Environment E} {tables : Unicode}.

(** [Manager.CreateOrUpdateCNAME]. *)
Definition CreateOrUpdateCNAME (namespace name hostname target : string) (ttl : Z)
  : M (World E) (option error) :=
  let dnsEndpoint := mkDNSEndpointObject name namespace hostname ttl target "" in
  let* existing :=
    request (DNSEndpointGet namespace name) (dynamicClient_Get namespace name) in
  match existing with
  | inl resourceVersion =>
      let dnsEndpoint := mkDNSEndpointObject name namespace hostname ttl target resourceVersion in
      let* err :=
        request (DNSEndpointUpdate namespace dnsEndpoint)
          (dynamicClient_Update namespace dnsEndpoint) in
      match err with
      | Some err => ret (Some (Errorf_w "failed to update DNSEndpoint: " err))
      | None => ret None
      end
  | inr _ =>
      let* err :=
        request (DNSEndpointCreate namespace dnsEndpoint)
          (dynamicClient_Create namespace dnsEndpoint) in
      match err with
      | Some err => ret (Some (Errorf_w "failed to create DNSEndpoint: " err))
      | None => ret None
      end
  end.

(** [Manager.Delete]. *)
Definition Delete (namespace name : string) : M (World E) (option error) :=
  let* err :=
    request (DNSEndpointDelete namespace name) (dynamicClient_Delete namespace name) in
  match err with
  | Some err => ret (Some (Errorf_w "failed to delete DNSEndpoint: " err))
  | None => ret None
  end.

End Manager.
End dnsendpoint.

(* ===================================================================== *)
(** * Package provider *)
(* ===================================================================== *)

Module provider.

(** ** types.go *)

Record ProviderSpecificProperty := mkProviderSpecificProperty {
  Name : string;
  Value : string
}.

Record Endpoint := mkEndpoint {
  DNSName : string;
  Targets : list string;
  RecordType : string;
  SetIdentifier : string;
  RecordTTL : Z;
  Labels : gmap string string;
  ProviderSpecific : list ProviderSpecificProperty
}.

Record Changes := mkChanges {
  Create : list Endpoint;
  UpdateOld : list Endpoint;
  UpdateNew : list Endpoint;
  Delete : list Endpoint
}.

(** ** provider.go: names *)

(** [sanitizeName]: one output character per rune; [skip] counts the
    bytes still belonging to the rune just handled. *)
Fixpoint sanitize_from (skip : nat) (name : string) : string :=
  match name with
  | EmptyString => EmptyString
  | String c r =>
      match skip with
      | S k => sanitize_from k r
      | O =>
          String (if dnsendpoint.is_alnum c then c else "-"%char)
            (sanitize_from (Nat.pred (rune_width name)) r)
      end
  end.

Definition sanitizeName (name : string) : string := sanitize_from 0 name.

Definition generateProfileName (dnsName : string) : string :=
  sanitizeName dnsName +:+ "-tm".

Definition generateEndpointName (dnsName : string) (targets : list string) : string :=
  match targets with
  | t :: _ => sanitizeName t
  | [] => sanitizeName dnsName
  end.

Definition generateEndpointNameFromTarget (target : string) (index : nat) : string :=
  let sanitized := sanitizeName target in
  if (0 <? index)%nat then sanitized +:+ "-" +:+ fmt_d (Z.of_nat index) else sanitized.

Example sanitizeName_test :
  sanitizeName "mixed.Case_123@test" = "mixed-Case-123-test"
  /\ sanitizeName "special!@#$%chars" = "special-----chars"
  /\ generateProfileName "my_app.example.com" = "my-app-example-com-tm"
  /\ generateEndpointName "app.example.com" ["20.30.40.50"; "20.30.40.51"] = "20-30-40-50".
Proof. repeat split; reflexivity. Qed.

(** ** domain_filter.go *)

(** [matchesDomain]; [filter[2:]] is taken once the filter is known to
    start with the two bytes "*.". *)
Definition matchesDomain (hostname filter : string) : bool :=
  if String.eqb hostname filter then true
  else if strings_HasSuffix hostname ("." +:+ filter) then true
  else if strings_HasPrefix filter "*." then
    let suffix := substring 2 (String.length filter - 2) filter in
    if String.eqb hostname suffix || strings_HasSuffix hostname ("." +:+ suffix)
    then true else false
  else false.

(** The loop of [matchesDomainFilter] over the filters. *)
Fixpoint matchesAnyDomain (hostname : string) (filters : list string) : bool :=
  match filters with
  | [] => false
  | filter :: r => if matchesDomain hostname filter then true else matchesAnyDomain hostname r
  end.

(** [TrafficManagerProvider.matchesDomainFilter]; [domainFilter] is the
    provider's field. *)
Definition matchesDomainFilter (domainFilter : list string) (hostname : string) : bool :=
  if (length domainFilter =? 0)%nat then true
  else matchesAnyDomain hostname domainFilter.

(** The namespace [NewTrafficManagerProvider] gives the DNSEndpoint
    manager. *)
Definition dnsEndpointNamespace : string := "default".

Section Provider.
Context {E : Type} `{Environment E} {tables : Unicode}.

(** [convertToStateEndpoint]: a fresh [state.EndpointState] object. *)
Definition convertToStateEndpoint (tmEndpoint : trafficmanager.EndpointState)
  : M (World E) state.loc :=
  on_store
    (state.new_endpoint
       (state.mkEndpointState
          (trafficmanager.es_EndpointName tmEndpoint)
          (trafficmanager.es_EndpointType tmEndpoint)
          (trafficmanager.es_Target tmEndpoint)
          (trafficmanager.es_Weight tmEndpoint)
          (trafficmanager.es_Priority tmEndpoint)
          (trafficmanager.es_Status tmEndpoint)
          (trafficmanager.es_Location tmEndpoint)
          (trafficmanager.es_CreatedAt tmEndpoint)
          (trafficmanager.es_UpdatedAt tmEndpoint))).

(** The state manager's methods, called with the clock's reading where
    the method calls [time.Now()] or [time.Since]. *)
Definition stateManager_SetProfile (hostname : string) (profile : state.loc)
  : M (World E) unit :=
  let* now := time_Now in on_store (state.SetProfile now hostname profile).

Definition stateManager_SetEndpoint (hostname endpointName : string) (endpoint : state.loc)
  : M (World E) unit :=
  let* now1 := time_Now in
  let* now2 := time_Now in
  on_store (state.SetEndpoint now1 now2 hostname endpointName endpoint).

Definition stateManager_DeleteEndpoint (hostname endpointName : string) : M (World E) unit :=
  let* now1 := time_Now in
  let* now2 := time_Now in
  on_store (state.DeleteEndpoint now1 now2 hostname endpointName).

Definition stateManager_DeleteProfile (hostname : string) : M (World E) unit :=
  on_store (state.DeleteProfile hostname).

(** [len(profileState.Endpoints)]. *)
Definition len_Endpoints (profileState : state.loc) : M (World E) nat :=
  on_store
    (let* p := state.load_profile profileState in
     let* m := state.range_endpointMap (state.Endpoints p) in
     ret (size m)).

Definition profile_FQDN (profileState : state.loc) : M (World E) string :=
  on_store (let* p := state.load_profile profileState in ret (state.FQDN p)).

(** [profileState.Hostname = v]. *)
Definition assign_Hostname (profileState : state.loc) (v : string) : M (World E) unit :=
  on_store
    (let* p := state.load_profile profileState in
     state.store_profile profileState (state.set_Hostname v p)).

(** The annotation map [createEndpoint] builds: the labels, then the
    provider-specific properties on top. *)
Definition annotationMap (endpoint : Endpoint) : gmap string string :=
  fold_left (fun m prop => <[Name prop := Value prop]> m)
    (ProviderSpecific endpoint) (Labels endpoint).

Notation "'check' e 'in' k" :=
  (bind e (fun r => match r with Some err => ret (Some err) | None => k end))
  (at level 10, e at level 100, k at level 200, only parsing).

(** ** provider.go: createEndpoint

    The function is long; the model cuts it at its comment lines into
    the blocks it runs one after the other. *)

(** "Create or update the Traffic Manager profile": create, and on
    failure try to get the profile instead. *)
Definition createEndpoint_profile (config : annotations.TrafficManagerConfig)
    (vanityHostname : string) : M (World E) (option error) :=
  let profileConfig := annotations.ToProfileConfig config in
  let profileConfig :=
    trafficmanager.set_Tags
      (<["hostname" := vanityHostname]> (trafficmanager.Tags profileConfig)) profileConfig in
  let* created := trafficmanager.CreateProfile profileConfig in
  match created with
  | inl _ => ret None
  | inr err =>
      let* existing :=
        trafficmanager.GetProfile (annotations.ResourceGroup config)
          (annotations.ProfileName config) in
      match existing with
      | inr getErr =>
          ret (Some (wrapError
                       ("failed to create/get profile: " +:+ Error getErr
                        +:+ " (original error: " +:+ Error err +:+ ")")
                       getErr))
      | inl _ => ret None
      end
  end.

(** The targets the endpoints are created for. *)
Definition createEndpoint_targetList (endpoint : Endpoint) : list string :=
  let targetDNS := DNSName endpoint in
  if negb (String.eqb (RecordType endpoint) "A") && (0 <? length (Targets endpoint))%nat
  then Targets endpoint else [targetDNS].

(** The endpoint configuration of the [i]-th target. *)
Definition createEndpoint_endpointConfig (endpoint : Endpoint)
    (config : annotations.TrafficManagerConfig) (i : nat) (target : string)
  : trafficmanager.EndpointConfig :=
  let endpointConfig := annotations.ToEndpointConfig config target in
  if (1 <? length (Targets endpoint))%nat
     && negb (str_empty (trafficmanager.EndpointName endpointConfig))
  then trafficmanager.set_EndpointName
         (trafficmanager.EndpointName endpointConfig +:+ "-" +:+ fmt_d (Z.of_nat i))
         endpointConfig
  else if str_empty (trafficmanager.EndpointName endpointConfig)
  then trafficmanager.set_EndpointName (generateEndpointNameFromTarget target i) endpointConfig
  else endpointConfig.

(** "Create endpoints for each target". *)
Definition createEndpoint_target (endpoint : Endpoint)
    (config : annotations.TrafficManagerConfig) (vanityHostname : string)
    (it : nat * string) : M (World E) (option error) :=
  let endpointConfig := createEndpoint_endpointConfig endpoint config (fst it) (snd it) in
  let* r :=
    trafficmanager.CreateEndpoint (annotations.ResourceGroup config)
      (annotations.ProfileName config) endpointConfig in
  match r with
  | inr err =>
      ret (Some (Errorf_w
                   ("failed to create endpoint "
                    +:+ trafficmanager.EndpointName endpointConfig +:+ ": ") err))
  | inl endpointState =>
      let* e := convertToStateEndpoint endpointState in
      stateManager_SetEndpoint vanityHostname
        (trafficmanager.EndpointName endpointConfig) e ;;
      ret None
  end.

Definition createEndpoint_targets (endpoint : Endpoint)
    (config : annotations.TrafficManagerConfig) (vanityHostname : string)
  : M (World E) (option error) :=
  let targets := createEndpoint_targetList endpoint in
  for_each_err (combine (seq 0 (length targets)) targets)
    (createEndpoint_target endpoint config vanityHostname).

(** "Refresh profile state from Azure to get the complete picture", and
    the DNSEndpoint for the vanity URL. *)
Definition createEndpoint_refresh (endpoint : Endpoint)
    (config : annotations.TrafficManagerConfig) (vanityHostname : string)
  : M (World E) unit :=
  let* refreshed :=
    trafficmanager.GetProfileState (annotations.ResourceGroup config)
      (annotations.ProfileName config) in
  match refreshed with
  | inl profileState =>
      assign_Hostname profileState vanityHostname ;;
      stateManager_SetProfile vanityHostname profileState ;;
      let* fqdn := profile_FQDN profileState in
      if negb (str_empty vanityHostname)
         && negb (String.eqb vanityHostname (DNSName endpoint))
         && negb (str_empty fqdn)
      then
        let dnsEndpointName := dnsendpoint.GenerateName vanityHostname in
        let* _ :=
          dnsendpoint.CreateOrUpdateCNAME dnsEndpointNamespace dnsEndpointName
            vanityHostname fqdn 300 in
        ret tt
      else ret tt
  | inr _ => ret tt
  end.

(** The vanity hostname: the hostname annotation, or the DNS name. *)
Definition vanityHostname_of (endpoint : Endpoint)
    (config : annotations.TrafficManagerConfig) : string :=
  if str_empty (annotations.Hostname config) then DNSName endpoint
  else annotations.Hostname config.

(** "Generate profile name if not specified", "Generate endpoint name
    if not specified": [dnsName] is the name the profile name is
    generated from. *)
Definition with_generated_names (dnsName : string) (endpoint : Endpoint)
    (config : annotations.TrafficManagerConfig) : annotations.TrafficManagerConfig :=
  let config :=
    if str_empty (annotations.ProfileName config)
    then annotations.set_ProfileName (generateProfileName dnsName) config
    else config in
  if str_empty (annotations.EndpointName config)
  then annotations.set_EndpointName
         (generateEndpointName (DNSName endpoint) (Targets endpoint)) config
  else config.

Definition createEndpoint (endpoint : Endpoint) : M (World E) (option error) :=
  logInfo (LogCreatingEndpoint (DNSName endpoint)) ;;
  if String.eqb (RecordType endpoint) "TXT" then ret None
  else
  match annotations.ParseConfig (annotationMap endpoint) with
  | inr err => ret (Some (Errorf_w "failed to parse annotations: " err))
  | inl config =>
  if negb (annotations.Enabled config) then ret None
  else
  match annotations.ValidateConfig config with
  | Some err => ret (Some (Errorf_w "invalid Traffic Manager configuration: " err))
  | None =>
  let vanityHostname := vanityHostname_of endpoint config in
  let config := with_generated_names vanityHostname endpoint config in
  check createEndpoint_profile config vanityHostname in
  check createEndpoint_targets endpoint config vanityHostname in
  createEndpoint_refresh endpoint config vanityHostname ;;
  ret None
  end
  end.

(** ** provider.go: updateEndpoint *)

(** "Check if profile configuration changed". *)
Definition profile_changed (oldConfig : option annotations.TrafficManagerConfig)
    (newConfig : annotations.TrafficManagerConfig) : bool :=
  match oldConfig with
  | None => true
  | Some oldConfig =>
      negb (String.eqb (annotations.RoutingMethod oldConfig)
              (annotations.RoutingMethod newConfig))
      || negb (annotations.DNSTTL oldConfig =? annotations.DNSTTL newConfig)
      || negb (String.eqb (annotations.MonitorProtocol oldConfig)
                 (annotations.MonitorProtocol newConfig))
      || negb (annotations.MonitorPort oldConfig =? annotations.MonitorPort newConfig)
      || negb (String.eqb (annotations.MonitorPath oldConfig)
                 (annotations.MonitorPath newConfig))
      || negb (Bool.eqb (annotations.HealthChecksEnabled oldConfig)
                 (annotations.HealthChecksEnabled newConfig))
  end.

(** "Check if we should update weight or status". *)
Definition endpoint_changed (oldConfig : option annotations.TrafficManagerConfig)
    (newConfig : annotations.TrafficManagerConfig) : bool :=
  match oldConfig with
  | None => false
  | Some oldConfig =>
      negb (annotations.Weight oldConfig =? annotations.Weight newConfig)
      || negb (String.eqb (annotations.EndpointStatus oldConfig)
                 (annotations.EndpointStatus newConfig))
  end.

Definition updateEndpoint_profile (newEndpoint : Endpoint)
    (oldConfig : option annotations.TrafficManagerConfig)
    (newConfig : annotations.TrafficManagerConfig) : M (World E) (option error) :=
  if profile_changed oldConfig newConfig
  then
    let profileConfig := annotations.ToProfileConfig newConfig in
    let profileConfig :=
      trafficmanager.set_Tags
        (<["hostname" := DNSName newEndpoint]> (trafficmanager.Tags profileConfig))
        profileConfig in
    let* r := trafficmanager.UpdateProfile profileConfig in
    match r with
    | inr err => ret (Some (Errorf_w "failed to update profile: " err))
    | inl _ => ret None
    end
  else ret None.

(** "Update endpoints". *)
Definition updateEndpoint_target (newEndpoint : Endpoint)
    (oldConfig : option annotations.TrafficManagerConfig)
    (newConfig : annotations.TrafficManagerConfig) (target : string)
  : M (World E) (option error) :=
  let endpointConfig := annotations.ToEndpointConfig newConfig target in
  if endpoint_changed oldConfig newConfig
  then
    let* r :=
      trafficmanager.UpdateEndpoint (annotations.ResourceGroup newConfig)
        (annotations.ProfileName newConfig) endpointConfig in
    match r with
    | inr err =>
        ret (Some (Errorf_w
                     ("failed to update endpoint "
                      +:+ trafficmanager.EndpointName endpointConfig +:+ ": ") err))
    | inl endpointState =>
        let* e := convertToStateEndpoint endpointState in
        stateManager_SetEndpoint (DNSName newEndpoint)
          (trafficmanager.EndpointName endpointConfig) e ;;
        ret None
    end
  else ret None.

(** "Refresh complete profile state". *)
Definition updateEndpoint_refresh (newEndpoint : Endpoint)
    (newConfig : annotations.TrafficManagerConfig) : M (World E) unit :=
  let* refreshed :=
    trafficmanager.GetProfileState (annotations.ResourceGroup newConfig)
      (annotations.ProfileName newConfig) in
  match refreshed with
  | inl profileState =>
      assign_Hostname profileState (DNSName newEndpoint) ;;
      stateManager_SetProfile (DNSName newEndpoint) profileState
  | inr _ => ret tt
  end.

Definition updateEndpoint (oldEndpoint newEndpoint : Endpoint) : M (World E) (option error) :=
  logInfo (LogUpdatingEndpoint (DNSName newEndpoint)) ;;
  match annotations.ParseConfig (Labels newEndpoint) with
  | inr err => ret (Some (Errorf_w "failed to parse new annotations: " err))
  | inl newConfig =>
  if negb (annotations.Enabled newConfig) then ret None
  else
  match annotations.ValidateConfig newConfig with
  | Some err => ret (Some (Errorf_w "invalid Traffic Manager configuration: " err))
  | None =>
  let oldConfig :=
    match annotations.ParseConfig (Labels oldEndpoint) with
    | inl c => Some c
    | inr _ => None
    end in
  let newConfig := with_generated_names (DNSName newEndpoint) newEndpoint newConfig in
  check updateEndpoint_profile newEndpoint oldConfig newConfig in
  check for_each_err (Targets newEndpoint)
          (updateEndpoint_target newEndpoint oldConfig newConfig) in
  updateEndpoint_refresh newEndpoint newConfig ;;
  ret None
  end
  end.

(** ** provider.go: deleteEndpoint *)

(** "Delete endpoints": one delete request per target, each for the one
    endpoint name of the config; a failure is logged and passed over. *)
Definition deleteEndpoint_targets (endpoint : Endpoint)
    (config : annotations.TrafficManagerConfig) : M (World E) unit :=
  for_each (Targets endpoint)
    (fun _ =>
       let* err :=
         trafficmanager.DeleteEndpoint (annotations.ResourceGroup config)
           (annotations.ProfileName config) (annotations.EndpointType config)
           (annotations.EndpointName config) in
       match err with
       | Some _ => ret tt
       | None => stateManager_DeleteEndpoint (DNSName endpoint) (annotations.EndpointName config)
       end).

(** What follows a successful refetch in "Check if profile still has
    endpoints". *)
Definition deleteEndpoint_refetched (endpoint : Endpoint)
    (config : annotations.TrafficManagerConfig) (vanityHostname : string)
    (profileState : state.loc) : M (World E) unit :=
  let* n := len_Endpoints profileState in
  if (n =? 0)%nat then
    let* err :=
      trafficmanager.DeleteProfile (annotations.ResourceGroup config)
        (annotations.ProfileName config) in
    match err with
    | Some _ => ret tt
    | None =>
        stateManager_DeleteProfile vanityHostname ;;
        if negb (str_empty vanityHostname)
           && negb (String.eqb vanityHostname (DNSName endpoint))
        then
          let dnsEndpointName := dnsendpoint.GenerateName vanityHostname in
          let* _ := dnsendpoint.Delete dnsEndpointNamespace dnsEndpointName in
          ret tt
        else ret tt
    end
  else
    assign_Hostname profileState vanityHostname ;;
    stateManager_SetProfile vanityHostname profileState.

(** "Check if profile still has endpoints". *)
Definition deleteEndpoint_cleanup (endpoint : Endpoint)
    (config : annotations.TrafficManagerConfig) (vanityHostname : string)
  : M (World E) unit :=
  let* refreshed :=
    trafficmanager.GetProfileState (annotations.ResourceGroup config)
      (annotations.ProfileName config) in
  match refreshed with
  | inl profileState => deleteEndpoint_refetched endpoint config vanityHostname profileState
  | inr _ => ret tt
  end.

Definition deleteEndpoint (endpoint : Endpoint) : M (World E) (option error) :=
  logInfo (LogDeletingEndpoint (DNSName endpoint)) ;;
  match annotations.ParseConfig (Labels endpoint) with
  | inr err => ret (Some (Errorf_w "failed to parse annotations: " err))
  | inl config =>
  if negb (annotations.Enabled config) then ret None
  else
  let vanityHostname := vanityHostname_of endpoint config in
  let config := with_generated_names (DNSName endpoint) endpoint config in
  deleteEndpoint_targets endpoint config ;;
  deleteEndpoint_cleanup endpoint config vanityHostname ;;
  ret None
  end.

(** ** provider.go: ApplyChanges *)

(** [for i := range changes.UpdateOld]: [changes.UpdateNew[i]] panics
    when the index is out of range. *)
Fixpoint update_loop (olds news : list Endpoint) (i : nat) : M (World E) (option error) :=
  match olds with
  | [] => ret None
  | old :: rest =>
      let* new := must (news !! i) in
      check updateEndpoint old new in
      update_loop rest news (S i)
  end.

Definition ApplyChanges (changes : Changes) : M (World E) (option error) :=
  check for_each_err (Create changes) createEndpoint in
  check update_loop (UpdateOld changes) (UpdateNew changes) 0 in
  check for_each_err (Delete changes) deleteEndpoint in
  ret None.

End Provider.

(** ** provider.go: Records, AdjustEndpoints

    [domainFilter] and [resourceGroups] are the provider's fields. *)

Section Reading.
Context {E : Type} `{Environment E} `{Listing E} {tables : Unicode}.

(** "Update state with synced profiles". *)
Definition Records_mirror (profiles : list state.loc) : M (World E) unit :=
  for_each profiles
    (fun profile =>
       let* p := on_store (state.load_profile profile) in
       if negb (str_empty (state.Hostname p))
       then stateManager_SetProfile (state.Hostname p) profile
       else ret tt).

(** "Convert profiles to External DNS endpoints". *)
Fixpoint Records_endpoints (domainFilter : list string) (profiles : list state.loc)
    (endpoints : list Endpoint) : M (World E) (list Endpoint) :=
  match profiles with
  | [] => ret endpoints
  | profile :: r =>
      let* p := on_store (state.load_profile profile) in
      if str_empty (state.Hostname p) || str_empty (state.FQDN p)
      then Records_endpoints domainFilter r endpoints
      else if negb (matchesDomainFilter domainFilter (state.Hostname p))
      then Records_endpoints domainFilter r endpoints
      else
        let labels :=
          <["traffic-manager-routing-method" := state.RoutingMethod p]>
            (<["traffic-manager-resource-group" := state.ResourceGroup p]>
               (<["traffic-manager-profile" := state.ProfileName p]> ∅)) in
        let endpoint :=
          mkEndpoint (state.Hostname p) [state.FQDN p] "CNAME" "" 300 labels [] in
        Records_endpoints domainFilter r (endpoints ++ [endpoint])
  end.

(** [TrafficManagerProvider.Records]: the endpoints and the error. *)
Definition Records (domainFilter resourceGroups : list string)
  : M (World E) (list Endpoint * option error) :=
  let* synced := trafficmanager.SyncProfilesFromAzure resourceGroups in
  match snd synced with
  | Some err => ret ([], Some (Errorf_w "failed to sync profiles: " err))
  | None =>
      Records_mirror (fst synced) ;;
      let* endpoints := Records_endpoints domainFilter (fst synced) [] in
      ret (endpoints, None)
  end.

(** [TrafficManagerProvider.AdjustEndpoints]. *)
Definition AdjustEndpoints (endpoints : list Endpoint) : list Endpoint := endpoints.

End Reading.
End provider.

(* ===================================================================== *)
(** * A reference environment *)
(* ===================================================================== *)

(** An in-memory control plane that behaves as the engine assumes of the
    real one: a CRUD store keyed by name, create-or-update as an upsert
    that keeps the endpoints of an existing profile, not-found on reads
    and on endpoint deletes of what is absent.  [refused] names the
    requests that fail outright, whatever the store holds.  Every
    request takes one unit of time. *)
Module cloud.
Import armtrafficmanager.

Record Cloud := mkCloud {
  now : Time;
  profilesDB : gmap (string * string) Profile;
  dnsEndpoints : gmap (string * string) DNSEndpointObject;
  refused : Call -> bool
}.

Definition tick (c : Cloud) : Cloud :=
  mkCloud (now c + 1) (profilesDB c) (dnsEndpoints c) (refused c).
Definition with_db (db : gmap (string * string) Profile) (c : Cloud) : Cloud :=
  mkCloud (now c) db (dnsEndpoints c) (refused c).
Definition with_dns (d : gmap (string * string) DNSEndpointObject) (c : Cloud) : Cloud :=
  mkCloud (now c) (profilesDB c) d (refused c).

Definition notFound : error := opaqueError "ResourceNotFound".
Definition unavailable : error := opaqueError "ServiceUnavailable".

Definition endpoints_of (p : Profile) : list Endpoint :=
  match Profile_Properties p with
  | Some props => Endpoints props
  | None => []
  end.

Definition with_endpoints (l : list Endpoint) (p : Profile) : Profile :=
  match Profile_Properties p with
  | Some props =>
      mkProfile (Profile_Name p) (Profile_Location p)
        (Some (mkProfileProperties (ProfileStatus props) (TrafficRoutingMethod props)
                 (Profile_DNSConfig props) (Profile_MonitorConfig props) l))
        (Profile_Tags p)
  | None =>
      mkProfile (Profile_Name p) (Profile_Location p)
        (Some (mkProfileProperties None None None None l)) (Profile_Tags p)
  end.

(** What the service stores for a profile request: the name, the FQDN it
    assigns, and the endpoints the profile already had. *)
Definition stored_profile (name : string) (old : option Profile) (p : Profile) : Profile :=
  let props := Profile_Properties p in
  let dns := props ≫= Profile_DNSConfig in
  let fqdn := name +:+ ".trafficmanager.net" in
  mkProfile (Some name) (Profile_Location p)
    (Some (mkProfileProperties
             (props ≫= ProfileStatus) (props ≫= TrafficRoutingMethod)
             (Some (mkDNSConfig (Some name) (Some fqdn) (dns ≫= TTL)))
             (props ≫= Profile_MonitorConfig)
             (match old with Some o => endpoints_of o | None => [] end)))
    (Profile_Tags p).

Definition has_name (n : string) (e : Endpoint) : bool :=
  match Endpoint_Name e with
  | Some m => String.eqb m n
  | None => false
  end.

Definition upsert_endpoint (n : string) (e : Endpoint) (l : list Endpoint) : list Endpoint :=
  if existsb (has_name n) l
  then map (fun x => if has_name n x then e else x) l
  else l ++ [e].

Definition refuse {A} (c : Call) (cl : Cloud) (fail : A) (k : A * Cloud) : A * Cloud :=
  if refused cl c then (fail, tick cl) else k.

#[global] Instance Cloud_Environment : Environment Cloud := {|
  clock := now;
  profilesClient_CreateOrUpdate rg name p cl :=
    refuse (ProfilesCreateOrUpdate rg name p) cl (inr unavailable)
      (let s := stored_profile name (profilesDB cl !! (rg, name)) p in
       (inl s, tick (with_db (<[(rg, name) := s]> (profilesDB cl)) cl)));
  profilesClient_Get rg name cl :=
    refuse (ProfilesGet rg name) cl (inr unavailable)
      (match profilesDB cl !! (rg, name) with
       | Some p => (inl p, tick cl)
       | None => (inr notFound, tick cl)
       end);
  profilesClient_Delete rg name cl :=
    refuse (ProfilesDelete rg name) cl (Some unavailable)
      (None, tick (with_db (delete (rg, name) (profilesDB cl)) cl));
  endpointsClient_CreateOrUpdate rg profile ty name e cl :=
    refuse (EndpointsCreateOrUpdate rg profile ty name e) cl (inr unavailable)
      (match profilesDB cl !! (rg, profile) with
       | Some p =>
           let s := mkEndpoint (Some name) (Some ty) (Endpoint_Properties e) in
           (inl s,
            tick (with_db
                    (<[(rg, profile) := with_endpoints (upsert_endpoint name s (endpoints_of p)) p]>
                       (profilesDB cl)) cl))
       | None => (inr notFound, tick cl)
       end);
  endpointsClient_Get rg profile ty name cl :=
    refuse (EndpointsGet rg profile ty name) cl (inr unavailable)
      (match profilesDB cl !! (rg, profile) with
       | Some p =>
           match filter (fun e => has_name name e = true) (endpoints_of p) with
           | e :: _ => (inl e, tick cl)
           | [] => (inr notFound, tick cl)
           end
       | None => (inr notFound, tick cl)
       end);
  endpointsClient_Delete rg profile ty name cl :=
    refuse (EndpointsDelete rg profile ty name) cl (Some unavailable)
      (match profilesDB cl !! (rg, profile) with
       | Some p =>
           if existsb (has_name name) (endpoints_of p) then
             (None,
              tick (with_db
                      (<[(rg, profile) :=
                           with_endpoints
                             (filter (fun e => has_name name e = false) (endpoints_of p)) p]>
                         (profilesDB cl)) cl))
           else (Some notFound, tick cl)
       | None => (Some notFound, tick cl)
       end);
  dynamicClient_Get ns name cl :=
    refuse (DNSEndpointGet ns name) cl (inr unavailable)
      (match dnsEndpoints cl !! (ns, name) with
       | Some o => (inl (obj_resourceVersion o), tick cl)
       | None => (inr notFound, tick cl)
       end);
  dynamicClient_Create ns o cl :=
    refuse (DNSEndpointCreate ns o) cl (Some unavailable)
      (match dnsEndpoints cl !! (ns, obj_name o) with
       | Some _ => (Some (opaqueError "AlreadyExists"), tick cl)
       | None => (None, tick (with_dns (<[(ns, obj_name o) := o]> (dnsEndpoints cl)) cl))
       end);
  dynamicClient_Update ns o cl :=
    refuse (DNSEndpointUpdate ns o) cl (Some unavailable)
      (match dnsEndpoints cl !! (ns, obj_name o) with
       | Some _ => (None, tick (with_dns (<[(ns, obj_name o) := o]> (dnsEndpoints cl)) cl))
       | None => (Some notFound, tick cl)
       end);
  dynamicClient_Delete ns name cl :=
    refuse (DNSEndpointDelete ns name) cl (Some unavailable)
      (match dnsEndpoints cl !! (ns, name) with
       | Some _ => (None, tick (with_dns (delete (ns, name) (dnsEndpoints cl)) cl))
       | None => (Some notFound, tick cl)
       end)
|}.

(** A listing of the reference cloud is one page, with the profiles of
    the resource group. *)
#[global] Instance Cloud_Listing : Listing Cloud := {|
  profilesClient_NewListByResourceGroupPager rg cl :=
    ([((filter (fun kp => kp.1.1 = rg) (map_to_list (profilesDB cl))).*2, tick cl)], None)
|}.

(** An empty cloud in which no request is refused, and the world of a
    provider just started against it (five-minute cache). *)
Definition empty (t : Time) : Cloud := mkCloud t ∅ ∅ (fun _ => false).

Definition fiveMinutes : Duration := 300000000000.

Definition start (c : Cloud) : World Cloud :=
  mkWorld (state.NewManager fiveMinutes) c [] [].

End cloud.

#[local] Set Warnings "-clear-no-such-hyp".
Local Open Scope list_scope.

(* ===================================================================== *)
(** * Reasoning about computations *)
(* ===================================================================== *)

Section MonadLemmas.
Context {S : Type}.

Lemma bind_val {A B} (m : M S A) (k : A -> M S B) s a s' :
  m s = (Val a, s') -> bind m k s = k a s'.
Proof. intros Hm. unfold bind. by rewrite Hm. Qed.

Lemma bind_panicked {A B} (m : M S A) (k : A -> M S B) s s' :
  m s = (Panicked, s') -> bind m k s = (Panicked, s').
Proof. intros Hm. unfold bind. by rewrite Hm. Qed.

Lemma bind_inv {A B} (m : M S A) (k : A -> M S B) s b s' :
  bind m k s = (Val b, s') -> exists a s1, m s = (Val a, s1) /\ k a s1 = (Val b, s').
Proof.
  unfold bind. destruct (m s) as [[a|] s1]; [eauto | discriminate].
Qed.

Lemma must_some {A} (o : option A) a (s : S) : o = Some a -> must o s = (Val a, s).
Proof. by intros ->. Qed.

Lemma range_map_empty {V} (body : string -> V -> M S unit) :
  range_map ∅ body = ret tt.
Proof. unfold range_map. by rewrite map_fold_empty. Qed.

End MonadLemmas.

(* ===================================================================== *)
(** * The state mirror *)
(* ===================================================================== *)

Module mirror.
Import state.

(** [t] has every object of [s], unchanged, and the same manager. *)
Record heap_le (s t : Store) : Prop := {
  le_profileObjs : profileObjs s ⊆ profileObjs t;
  le_endpointObjs : endpointObjs s ⊆ endpointObjs t;
  le_endpointMaps : endpointMaps s ⊆ endpointMaps t;
  le_tagMaps : tagMaps s ⊆ tagMaps t;
  le_profiles : profiles t = profiles s;
  le_cacheTTL : cacheTTL t = cacheTTL s
}.

Lemma heap_le_refl s : heap_le s s.
Proof. by split. Qed.

Lemma heap_le_trans s t u : heap_le s t -> heap_le t u -> heap_le s u.
Proof.
  intros [] []. split; try (etrans; eassumption); congruence.
Qed.

(** The deep value of a profile: its scalar fields and the contents of
    its two maps. *)
Record ProfileValue := mkProfileValue {
  pv_ProfileName : string;
  pv_ResourceGroup : string;
  pv_Hostname : string;
  pv_FQDN : string;
  pv_RoutingMethod : string;
  pv_DNSTTL : Z;
  pv_Endpoints : gmap string EndpointState;
  pv_Tags : gmap string string;
  pv_CreatedAt : Time;
  pv_UpdatedAt : Time;
  pv_CachedAt : Time
}.

Definition pv_set_CachedAt (t : Time) (v : ProfileValue) : ProfileValue :=
  mkProfileValue (pv_ProfileName v) (pv_ResourceGroup v) (pv_Hostname v) (pv_FQDN v)
    (pv_RoutingMethod v) (pv_DNSTTL v) (pv_Endpoints v) (pv_Tags v)
    (pv_CreatedAt v) (pv_UpdatedAt v) t.

Definition scalars_agree (p : ProfileState) (v : ProfileValue) : Prop :=
  ProfileName p = pv_ProfileName v /\ ResourceGroup p = pv_ResourceGroup v
  /\ Hostname p = pv_Hostname v /\ FQDN p = pv_FQDN v
  /\ RoutingMethod p = pv_RoutingMethod v /\ DNSTTL p = pv_DNSTTL v
  /\ CreatedAt p = pv_CreatedAt v /\ UpdatedAt p = pv_UpdatedAt v
  /\ CachedAt p = pv_CachedAt v.

(** The map object at [m] holds pointers to live endpoint objects whose
    values are [V]; the nil map holds nothing. *)
Definition endpoints_hold (s : Store) (m : option loc) (V : gmap string EndpointState) : Prop :=
  match m with
  | None => V = ∅
  | Some l =>
      exists acc, endpointMaps s !! l = Some acc
        /\ map_Forall (fun _ e => is_Some (endpointObjs s !! e)) acc
        /\ V = omap (fun e => endpointObjs s !! e) acc
  end.

Definition tags_hold (s : Store) (m : option loc) (T : gmap string string) : Prop :=
  match m with
  | None => T = ∅
  | Some l => tagMaps s !! l = Some T
  end.

(** [l] points to a well-formed profile whose deep value is [v]. *)
Definition has_value (s : Store) (l : loc) (v : ProfileValue) : Prop :=
  exists p, profileObjs s !! l = Some p
    /\ scalars_agree p v
    /\ endpoints_hold s (Endpoints p) (pv_Endpoints v)
    /\ tags_hold s (Tags p) (pv_Tags v).

(** Every entry of the manager points to a well-formed profile. *)
Definition wf_store (s : Store) : Prop :=
  forall h l, profiles s !! h = Some l -> exists v, has_value s l v.

Lemma omap_ext_lookup (s t : Store) (acc : gmap string loc) :
  endpointObjs s ⊆ endpointObjs t ->
  map_Forall (fun _ e => is_Some (endpointObjs s !! e)) acc ->
  omap (fun e => endpointObjs t !! e) acc = omap (fun e => endpointObjs s !! e) acc.
Proof.
  intros Hle Hall. apply map_eq. intros k. rewrite !lookup_omap.
  destruct (acc !! k) as [e|] eqn:Hk; [simpl | done].
  destruct (Hall k e Hk) as [x Hx]. rewrite Hx.
  by apply (lookup_weaken _ _ _ _ Hx).
Qed.

Lemma endpoints_hold_le s t m V :
  heap_le s t -> endpoints_hold s m V -> endpoints_hold t m V.
Proof.
  intros Hle. destruct m as [l|]; simpl; [|done].
  intros (acc & Hacc & Hall & ->). exists acc. split_and!.
  - eapply lookup_weaken; [done | apply Hle].
  - intros k e Hk. destruct (Hall k e Hk) as [x Hx]. exists x.
    eapply lookup_weaken; [done | apply Hle].
  - symmetry. apply omap_ext_lookup; [apply Hle | done].
Qed.

Lemma tags_hold_le s t m T : heap_le s t -> tags_hold s m T -> tags_hold t m T.
Proof.
  intros Hle. destruct m as [l|]; simpl; [|done].
  intros HT. eapply lookup_weaken; [done | apply Hle].
Qed.

Lemma has_value_le s t l v : heap_le s t -> has_value s l v -> has_value t l v.
Proof.
  intros Hle (p & Hp & Hs & He & Ht). exists p. split_and!; [|done|..].
  - eapply lookup_weaken; [done | apply Hle].
  - by eapply endpoints_hold_le.
  - by eapply tags_hold_le.
Qed.

(** ** Primitive steps *)

Lemma load_profile_eq s l p :
  profileObjs s !! l = Some p -> load_profile l s = (Val p, s).
Proof. intros Hl. unfold load_profile, bind, get. simpl. by rewrite Hl. Qed.

Lemma load_endpoint_eq s l e :
  endpointObjs s !! l = Some e -> load_endpoint l s = (Val e, s).
Proof. intros Hl. unfold load_endpoint, bind, get. simpl. by rewrite Hl. Qed.

Lemma store_profile_eq s l p q :
  profileObjs s !! l = Some p ->
  store_profile l q s = (Val tt, with_profileObjs (insert l q) s).
Proof.
  intros Hl. unfold store_profile. erewrite bind_val by (by apply load_profile_eq). done.
Qed.

Lemma fresh_profile s : profileObjs s !! fresh (dom (profileObjs s)) = None.
Proof. apply not_elem_of_dom, is_fresh. Qed.
Lemma fresh_endpoint s : endpointObjs s !! fresh (dom (endpointObjs s)) = None.
Proof. apply not_elem_of_dom, is_fresh. Qed.
Lemma fresh_endpointMap s : endpointMaps s !! fresh (dom (endpointMaps s)) = None.
Proof. apply not_elem_of_dom, is_fresh. Qed.
Lemma fresh_tagMap s : tagMaps s !! fresh (dom (tagMaps s)) = None.
Proof. apply not_elem_of_dom, is_fresh. Qed.

Lemma EndpointState_Clone_eq s l e :
  endpointObjs s !! l = Some e ->
  EndpointState_Clone l s
  = (Val (fresh (dom (endpointObjs s))),
     with_endpointObjs (insert (fresh (dom (endpointObjs s))) e) s).
Proof.
  intros Hl. unfold EndpointState_Clone.
  erewrite bind_val by (by apply load_endpoint_eq).
  unfold new_endpoint. by destruct e.
Qed.


Lemma endpointMap_set_eq s l k v acc :
  endpointMaps s !! l = Some acc ->
  endpointMap_set l k v s = (Val tt, with_endpointMaps (insert l (<[k := v]> acc)) s).
Proof.
  intros Hl. unfold endpointMap_set, bind, get, put. simpl. by rewrite Hl.
Qed.

Lemma tagMap_set_eq s l k v acc :
  tagMaps s !! l = Some acc ->
  tagMap_set l k v s = (Val tt, with_tagMaps (insert l (<[k := v]> acc)) s).
Proof.
  intros Hl. unfold tagMap_set, bind, get, put. simpl. by rewrite Hl.
Qed.

Lemma subseteq_insert_fresh {A} (m1 m2 : gmap loc A) k v :
  m1 ⊆ m2 -> m1 !! k = None -> m1 ⊆ <[k := v]> m2.
Proof.
  intros Hle Hk. apply map_subseteq_spec. intros i x Hi.
  destruct (decide (k = i)) as [->|Hne]; [congruence|].
  rewrite lookup_insert_ne by done. by eapply lookup_weaken.
Qed.

(** The loop of [Clone] over the endpoints: every endpoint of the source
    map gets a copy in a new object, stored under the same key. *)
Lemma clone_endpoints_loop s em t0 (src : gmap string loc) :
  heap_le s t0 ->
  endpointMaps s !! em = None ->
  endpointMaps t0 !! em = Some ∅ ->
  map_Forall (fun _ e => is_Some (endpointObjs s !! e)) src ->
  exists t acc,
    range_map src
      (fun k v => let* c := EndpointState_Clone v in endpointMap_set em k c) t0
    = (Val tt, t)
    /\ heap_le s t
    /\ endpointMaps t = <[em := acc]> (endpointMaps t0)
    /\ profileObjs t = profileObjs t0
    /\ tagMaps t = tagMaps t0
    /\ endpointObjs t0 ⊆ endpointObjs t
    /\ map_Forall (fun _ e => is_Some (endpointObjs t !! e) /\ endpointObjs t0 !! e = None) acc
    /\ omap (fun e => endpointObjs t !! e) acc = omap (fun e => endpointObjs s !! e) src.
Proof.
  intros Hle Hem Hem0. unfold range_map. revert src.
  apply (map_fold_weak_ind (fun (r : M Store unit) (m : gmap string loc) =>
    map_Forall (fun _ e => is_Some (endpointObjs s !! e)) m ->
    exists t acc, r t0 = (Val tt, t)
      /\ heap_le s t
      /\ endpointMaps t = <[em := acc]> (endpointMaps t0)
      /\ profileObjs t = profileObjs t0
      /\ tagMaps t = tagMaps t0
      /\ endpointObjs t0 ⊆ endpointObjs t
      /\ map_Forall (fun _ e => is_Some (endpointObjs t !! e) /\ endpointObjs t0 !! e = None) acc
      /\ omap (fun e => endpointObjs t !! e) acc = omap (fun e => endpointObjs s !! e) m)).
  - intros _. exists t0, ∅.
    split_and!; try done; try (symmetry; by apply insert_id); by rewrite ?omap_empty.
  - intros i x m r Hi IH Hall.
    apply map_Forall_insert in Hall as [[ev Hev] Hall]; [|done].
    destruct (IH Hall) as (t & acc & Hr & Hst & Hmaps & Hprof & Htags & Hobjs & Hacc & Hview).
    assert (Hevt : endpointObjs t !! x = Some ev).
    { eapply lookup_weaken; [done | apply Hst]. }
    set (e' := fresh (dom (endpointObjs t))).
    assert (He' : endpointObjs t !! e' = None) by apply fresh_endpoint.
    set (t1 := with_endpointObjs (insert e' ev) t).
    set (t2 := with_endpointMaps (insert em (<[i := e']> acc)) t1).
    exists t2, (<[i := e']> acc). split_and!.
    + erewrite bind_val by exact Hr.
      erewrite bind_val by (by apply EndpointState_Clone_eq).
      apply endpointMap_set_eq. simpl. rewrite Hmaps. apply lookup_insert_eq.
    + destruct Hst. split; simpl; try done.
      * etrans; [done|]. by apply insert_subseteq.
      * by apply subseteq_insert_fresh.
    + simpl. rewrite Hmaps. by rewrite insert_insert_eq.
    + done.
    + done.
    + simpl. etrans; [done|]. by apply insert_subseteq.
    + simpl. apply map_Forall_insert_2.
      * split; [rewrite lookup_insert_eq; eauto|].
        destruct (endpointObjs t0 !! e') eqn:Hq; [|done].
        eapply lookup_weaken in Hq; [|exact Hobjs]. congruence.
      * intros k e Hk. destruct (Hacc k e Hk) as [[y Hy] Hf]. split; [|done].
        exists y. rewrite lookup_insert_ne; [done|]. intros <-. congruence.
    + simpl. apply map_eq. intros k. rewrite !lookup_omap.
      destruct (decide (i = k)) as [->|Hne].
      * rewrite !lookup_insert_eq. simpl. by rewrite lookup_insert_eq, Hev.
      * rewrite !lookup_insert_ne by done.
        assert (Hk := f_equal (fun M => M !! k) Hview). simpl in Hk.
        rewrite !lookup_omap in Hk. rewrite <- Hk.
        destruct (acc !! k) as [e|] eqn:Hacck; [simpl|done].
        destruct (Hacc k e Hacck) as [[y Hy] _].
        rewrite lookup_insert_ne; [done|]. intros <-. congruence.
Qed.

(** The loop of [Clone] over the tags. *)
Lemma clone_tags_loop tm t0 (src : gmap string string) :
  tagMaps t0 !! tm = Some ∅ ->
  exists t,
    range_map src (fun k v => tagMap_set tm k v) t0 = (Val tt, t)
    /\ tagMaps t = <[tm := src]> (tagMaps t0)
    /\ profileObjs t = profileObjs t0
    /\ endpointObjs t = endpointObjs t0
    /\ endpointMaps t = endpointMaps t0
    /\ profiles t = profiles t0
    /\ cacheTTL t = cacheTTL t0.
Proof.
  intros Htm. unfold range_map. revert src.
  apply (map_fold_weak_ind (fun (r : M Store unit) (m : gmap string string) =>
    exists t, r t0 = (Val tt, t)
      /\ tagMaps t = <[tm := m]> (tagMaps t0)
      /\ profileObjs t = profileObjs t0
      /\ endpointObjs t = endpointObjs t0
      /\ endpointMaps t = endpointMaps t0
      /\ profiles t = profiles t0
      /\ cacheTTL t = cacheTTL t0)).
  - exists t0. split_and!; try done; symmetry; by apply insert_id.
  - intros i x m r Hi (t & Hr & Ht & ? & ? & ? & ? & ?).
    exists (with_tagMaps (insert tm (<[i := x]> m)) t). split_and!; try done.
    + erewrite bind_val by exact Hr. apply tagMap_set_eq.
      rewrite Ht. apply lookup_insert_eq.
    + simpl. rewrite Ht. by rewrite insert_insert_eq.
Qed.


Lemma range_endpointMap_eq s t m V :
  heap_le s t -> endpoints_hold s m V ->
  exists src, range_endpointMap m t = (Val src, t)
    /\ map_Forall (fun _ e => is_Some (endpointObjs s !! e)) src
    /\ V = omap (fun e => endpointObjs s !! e) src.
Proof.
  intros Hle. destruct m as [l|]; simpl.
  - intros (acc & Hacc & Hall & ->). exists acc. split_and!; try done.
    unfold bind, get. simpl.
    by rewrite (lookup_weaken _ _ _ _ Hacc (le_endpointMaps _ _ Hle)).
  - intros ->. exists ∅.
    split_and!; try done; try apply map_Forall_empty; by rewrite ?omap_empty.
Qed.

Lemma range_tagMap_eq s t m T :
  heap_le s t -> tags_hold s m T -> range_tagMap m t = (Val T, t).
Proof.
  intros Hle. destruct m as [l|]; simpl.
  - intros HT. unfold bind, get. simpl.
    by rewrite (lookup_weaken _ _ _ _ HT (le_tagMaps _ _ Hle)).
  - by intros ->.
Qed.

(** [Clone] succeeds on a well-formed profile; the copy, its two maps
    and its endpoint objects are new, it has the value of the original,
    and no existing object changes. *)
Lemma ProfileState_Clone_spec s ps v :
  has_value s ps v ->
  exists c t p' em tm acc,
    ProfileState_Clone ps s = (Val c, t)
    /\ heap_le s t
    /\ profileObjs s !! c = None
    /\ endpointMaps s !! em = None
    /\ tagMaps s !! tm = None
    /\ profileObjs t !! c = Some p'
    /\ Endpoints p' = Some em
    /\ Tags p' = Some tm
    /\ scalars_agree p' v
    /\ endpointMaps t !! em = Some acc
    /\ map_Forall (fun _ e => is_Some (endpointObjs t !! e) /\ endpointObjs s !! e = None) acc
    /\ omap (fun e => endpointObjs t !! e) acc = pv_Endpoints v
    /\ tagMaps t !! tm = Some (pv_Tags v).
Proof.
  intros (p & Hp & Hsc & Hep & Htg).
  unfold ProfileState_Clone.
  erewrite bind_val by (by apply load_profile_eq).
  set (em := fresh (dom (endpointMaps s))).
  set (s1 := with_endpointMaps (insert em ∅) s).
  erewrite (bind_val make_endpointMap _ s em s1) by done.
  set (tm := fresh (dom (tagMaps s1))).
  set (s2 := with_tagMaps (insert tm ∅) s1).
  erewrite (bind_val make_tagMap _ s1 tm s2) by done.
  set (c := fresh (dom (profileObjs s2))).
  set (p' := mkProfileState (ProfileName p) (ResourceGroup p) (Hostname p) (FQDN p)
               (RoutingMethod p) (DNSTTL p) (Some em) (Some tm)
               (CreatedAt p) (UpdatedAt p) (CachedAt p)).
  set (s3 := with_profileObjs (insert c p') s2).
  erewrite (bind_val (new_profile p') _ s2 c s3) by done.
  assert (Hem : endpointMaps s !! em = None) by apply fresh_endpointMap.
  assert (Htm : tagMaps s !! tm = None) by apply (fresh_tagMap s).
  assert (Hc : profileObjs s !! c = None) by apply (fresh_profile s).
  assert (Hle3 : heap_le s s3).
  { split; simpl; try done; by apply insert_subseteq. }
  destruct (range_endpointMap_eq s s3 _ _ Hle3 Hep) as (src & Hsrc & Hall & HV).
  erewrite bind_val by exact Hsrc.
  destruct (clone_endpoints_loop s em s3 src Hle3 Hem) as
    (t & acc & Hloop & Hlet & Hmaps & Hprof & Htags & Hobjs & Hacc & Hview); [|done|].
  { simpl. apply lookup_insert_eq. }
  erewrite bind_val by exact Hloop.
  erewrite bind_val by (by apply (range_tagMap_eq s t)).
  destruct (clone_tags_loop tm t (pv_Tags v)) as (u & Hu & Hut & Hup & Hue & Hum & Hupr & Huttl).
  { rewrite Htags. simpl. apply lookup_insert_eq. }
  erewrite bind_val by exact Hu.
  exists c, u, p', em, tm, acc. split_and!; try done.
  - destruct Hlet. split; try congruence.
    + by rewrite Hup.
    + by rewrite Hue.
    + by rewrite Hum.
    + rewrite Hut. apply subseteq_insert_fresh; [|done].
      rewrite Htags. simpl. by apply insert_subseteq.
  - rewrite Hup, Hprof. simpl. apply lookup_insert_eq.
  - rewrite Hum, Hmaps. apply lookup_insert_eq.
  - rewrite Hue. intros k e Hk. destruct (Hacc k e Hk) as [Ha Hf]. split; [done|].
    exact Hf.
  - rewrite Hue, Hview. done.
  - rewrite Hut. apply lookup_insert_eq.
Qed.

Lemma Clone_has_value s ps v c t :
  has_value s ps v -> ProfileState_Clone ps s = (Val c, t) -> has_value t c v.
Proof.
  intros Hv Hc.
  destruct (ProfileState_Clone_spec s ps v Hv)
    as (c' & t' & p' & em & tm & acc & Heq & _ & _ & _ & _ & Hp' & He & Ht & Hs & Hm & Hacc & Hview & Htags).
  rewrite Hc in Heq. injection Heq as <- <-.
  exists p'. split_and!; try done.
  - rewrite He. exists acc. split_and!; try done.
    intros k e Hk. by destruct (Hacc k e Hk).
  - rewrite Ht. done.
Qed.


(** ** The manager's operations *)

Lemma scalars_agree_set_CachedAt p v now :
  scalars_agree p v -> scalars_agree (set_CachedAt now p) (pv_set_CachedAt now v).
Proof. unfold scalars_agree. simpl. tauto. Qed.

(** Replacing the scalar fields of one profile object leaves the value
    of every profile's maps as it was. *)
Lemma endpoints_hold_with_profileObjs s f m V :
  endpoints_hold (with_profileObjs f s) m V <-> endpoints_hold s m V.
Proof. by destruct m. Qed.

Lemma tags_hold_with_profileObjs s f m T :
  tags_hold (with_profileObjs f s) m T <-> tags_hold s m T.
Proof. by destruct m. Qed.

(** What [SetProfile] does: the caller's object is stamped, a new copy
    of it becomes the entry for [hostname], nothing else changes. *)
Lemma SetProfile_spec s now h p v :
  has_value s p v ->
  exists stored t,
    SetProfile now h p s = (Val tt, t)
    /\ profiles t = <[h := stored]> (profiles s)
    /\ cacheTTL t = cacheTTL s
    /\ has_value t stored (pv_set_CachedAt now v)
    /\ has_value t p (pv_set_CachedAt now v)
    /\ profileObjs s !! stored = None
    /\ (forall l q, l <> p -> profileObjs s !! l = Some q -> profileObjs t !! l = Some q)
    /\ endpointObjs s ⊆ endpointObjs t
    /\ endpointMaps s ⊆ endpointMaps t
    /\ tagMaps s ⊆ tagMaps t.
Proof.
  intros (q & Hq & Hsc & Hep & Htg).
  unfold SetProfile.
  erewrite bind_val by (by apply load_profile_eq).
  erewrite bind_val by (by eapply store_profile_eq).
  set (s1 := with_profileObjs (insert p (set_CachedAt now q)) s).
  assert (Hv1 : has_value s1 p (pv_set_CachedAt now v)).
  { exists (set_CachedAt now q). split_and!.
    - simpl. apply lookup_insert_eq.
    - by apply scalars_agree_set_CachedAt.
    - by apply endpoints_hold_with_profileObjs.
    - by apply tags_hold_with_profileObjs. }
  destruct (ProfileState_Clone_spec s1 p _ Hv1)
    as (c & t & p' & em & tm & acc & Hc & Hle & Hfc & Hfem & Hftm & Hp' & He & Ht & Hs'
        & Hm & Hacc & Hview & Htags).
  erewrite bind_val by exact Hc.
  exists c, (with_profiles (insert h c) t). split_and!.
  - done.
  - simpl. by rewrite (le_profiles _ _ Hle).
  - simpl. by rewrite (le_cacheTTL _ _ Hle).
  - exists p'. split_and!; try done.
    + rewrite He. exists acc. split_and!; try done.
      intros k e Hk. by destruct (Hacc k e Hk).
    + by rewrite Ht.
  - eapply (has_value_le s1 t) in Hv1; [|done].
    destruct Hv1 as (q1 & ? & ? & ? & ?). exists q1. by split_and!.
  - simpl in Hfc. destruct (decide (c = p)) as [->|Hne].
    + by rewrite lookup_insert_eq in Hfc.
    + by rewrite lookup_insert_ne in Hfc.
  - intros l q' Hne Hl. simpl.
    eapply lookup_weaken; [|apply Hle]. simpl. by rewrite lookup_insert_ne.
  - apply Hle.
  - apply Hle.
  - apply Hle.
Qed.

Lemma IsExpired_false p ttl now :
  CachedAt p <> 0 -> time_Since now (CachedAt p) <= ttl -> IsExpired p ttl now = false.
Proof.
  intros Hz Hle. unfold IsExpired, time_IsZero.
  destruct (Z.eqb_spec (CachedAt p) 0); [done|]. by apply Z.ltb_ge.
Qed.

Lemma IsExpired_true_iff p ttl now :
  IsExpired p ttl now = true <-> CachedAt p = 0 \/ ttl < time_Since now (CachedAt p).
Proof.
  unfold IsExpired, time_IsZero.
  destruct (Z.eqb_spec (CachedAt p) 0) as [Hz|Hz].
  - split; [by left | done].
  - rewrite Z.ltb_lt. split; [by right | by intros [|]].
Qed.

(** [GetProfile] on a live entry: a fresh copy of the stored profile. *)
Lemma GetProfile_found s now h l v :
  profiles s !! h = Some l ->
  has_value s l v ->
  pv_CachedAt v <> 0 ->
  time_Since now (pv_CachedAt v) <= cacheTTL s ->
  exists c t p' em tm acc,
    GetProfile now h s = (Val (Some c), t)
    /\ heap_le s t
    /\ profileObjs s !! c = None
    /\ endpointMaps s !! em = None
    /\ tagMaps s !! tm = None
    /\ profileObjs t !! c = Some p'
    /\ Endpoints p' = Some em
    /\ Tags p' = Some tm
    /\ endpointMaps t !! em = Some acc
    /\ map_Forall (fun _ e => is_Some (endpointObjs t !! e) /\ endpointObjs s !! e = None) acc
    /\ has_value t c v.
Proof.
  intros Hh Hv Hz Hfresh.
  destruct (ProfileState_Clone_spec s l v Hv)
    as (c & t & p' & em & tm & acc & Hc & Hle & Hfc & Hfem & Hftm & Hp' & He & Ht & Hs'
        & Hm & Hacc & Hview & Htags).
  destruct Hv as (q & Hq & Hsc & Hep & Htg).
  exists c, t, p', em, tm, acc. split_and!; try done.
  - unfold GetProfile. rewrite (bind_val get _ s s s) by done. rewrite Hh.
    erewrite bind_val by (by apply load_profile_eq).
    rewrite IsExpired_false.
    + by erewrite bind_val by exact Hc.
    + destruct Hsc as (_&_&_&_&_&_&_&_&->). done.
    + destruct Hsc as (_&_&_&_&_&_&_&_&->). done.
  - eapply Clone_has_value; [|exact Hc]. by exists q.
Qed.

(** What a caller can do with the pointer [c] that [Get] returned: write
    to the object at [c], to its two maps and to the endpoint objects in
    its endpoint map, and allocate.  Every other live object and the
    manager's map are out of its reach. *)
Definition reaches_endpointObj (s : Store) (c e : loc) : Prop :=
  exists p em m k, profileObjs s !! c = Some p /\ Endpoints p = Some em
    /\ endpointMaps s !! em = Some m /\ m !! k = Some e.

Record mutation_of (c : loc) (s s' : Store) : Prop := {
  mut_profiles : profiles s' = profiles s;
  mut_cacheTTL : cacheTTL s' = cacheTTL s;
  mut_profileObjs :
    forall l p, l <> c -> profileObjs s !! l = Some p -> profileObjs s' !! l = Some p;
  mut_endpointMaps :
    forall l m, (forall p, profileObjs s !! c = Some p -> Endpoints p <> Some l) ->
      endpointMaps s !! l = Some m -> endpointMaps s' !! l = Some m;
  mut_tagMaps :
    forall l m, (forall p, profileObjs s !! c = Some p -> Tags p <> Some l) ->
      tagMaps s !! l = Some m -> tagMaps s' !! l = Some m;
  mut_endpointObjs :
    forall l e, ~ reaches_endpointObj s c l ->
      endpointObjs s !! l = Some e -> endpointObjs s' !! l = Some e
}.

(** A profile that shares no object with [c] keeps its value. *)
Lemma has_value_mutation s s' c l v pc :
  mutation_of c s s' ->
  has_value s l v ->
  profileObjs s !! c = Some pc ->
  l <> c ->
  (forall p, profileObjs s !! l = Some p ->
     (is_Some (Endpoints p) -> Endpoints p <> Endpoints pc)
     /\ (is_Some (Tags p) -> Tags p <> Tags pc)) ->
  (forall e, reaches_endpointObj s l e -> ~ reaches_endpointObj s c e) ->
  has_value s' l v.
Proof.
  intros Hmut (p & Hp & Hsc & Hep & Htg) Hpc Hne Hmaps Hobjs.
  destruct (Hmaps p Hp) as [HE HT].
  exists p. split_and!; [by eapply mut_profileObjs|done|..].
  - destruct (Endpoints p) as [em|] eqn:HEp; simpl in *; [|done].
    destruct Hep as (acc & Hacc & Hall & ->).
    assert (Hkeep : forall k e x, acc !! k = Some e -> endpointObjs s !! e = Some x ->
                      endpointObjs s' !! e = Some x).
    { intros k e x Hk Hx. eapply mut_endpointObjs; [done| |done].
      apply Hobjs. by exists p, em, acc, k. }
    exists acc. split_and!.
    + eapply mut_endpointMaps; [done| |done].
      intros p0 Hp0. assert (p0 = pc) as -> by congruence.
      intros Heq. apply HE; [eauto | congruence].
    + intros k e Hk. destruct (Hall k e Hk) as [x Hx]. exists x. by eapply Hkeep.
    + apply map_eq. intros k. rewrite !lookup_omap.
      destruct (acc !! k) as [e|] eqn:Hk; [simpl|done].
      destruct (Hall k e Hk) as [x Hx]. rewrite Hx. symmetry. by eapply Hkeep.
  - destruct (Tags p) as [tm|] eqn:HTp; simpl in *; [|done].
    eapply mut_tagMaps; [done| |done].
    intros p0 Hp0. assert (p0 = pc) as -> by congruence.
    intros Heq. apply HT; [eauto | congruence].
Qed.


Lemma GetProfile_missing s now h :
  profiles s !! h = None -> GetProfile now h s = (Val None, s).
Proof.
  intros Hh. unfold GetProfile. rewrite (bind_val get _ s s s) by done. by rewrite Hh.
Qed.

Lemma GetProfile_expired s now h l p :
  profiles s !! h = Some l -> profileObjs s !! l = Some p ->
  IsExpired p (cacheTTL s) now = true ->
  GetProfile now h s = (Val None, s).
Proof.
  intros Hh Hl He. unfold GetProfile. rewrite (bind_val get _ s s s) by done. rewrite Hh.
  erewrite bind_val by (by apply load_profile_eq). by rewrite He.
Qed.

Lemma wf_NewManager ttl : wf_store (NewManager ttl).
Proof. intros h l Hl. simpl in Hl. by rewrite lookup_empty in Hl. Qed.

Lemma wf_DeleteProfile s h : wf_store s -> wf_store (snd (DeleteProfile h s)).
Proof.
  intros Hwf h' l Hl. simpl in Hl.
  destruct (decide (h = h')) as [->|Hne].
  - by rewrite lookup_delete_eq in Hl.
  - rewrite lookup_delete_ne in Hl by done.
    destruct (Hwf h' l Hl) as [v Hv]. exists v.
    destruct Hv as (p & ? & ? & ? & ?). exists p. by split_and!.
Qed.

Lemma wf_SetProfile s now h p v :
  wf_store s -> has_value s p v -> wf_store (snd (SetProfile now h p s)).
Proof.
  intros Hwf Hv.
  destruct (SetProfile_spec s now h p v Hv)
    as (stored & t & Heq & Hprof & Httl & Hst & Hp & Hfresh & Hkeep & Ho & Hm & Ht).
  rewrite Heq. simpl. intros h' l Hl. rewrite Hprof in Hl.
  destruct (decide (h = h')) as [->|Hne].
  - rewrite lookup_insert_eq in Hl. injection Hl as <-. eauto.
  - rewrite lookup_insert_ne in Hl by done.
    destruct (decide (l = p)) as [->|Hlp]; [eauto|].
    destruct (Hwf h' l Hl) as (v' & q & Hq & Hsc & Hep & Htg).
    exists v', q. split_and!; [by apply Hkeep|done|..].
    + destruct (Endpoints q) as [em|]; simpl in *; [|done].
      destruct Hep as (acc & Hacc & Hall & ->). exists acc. split_and!.
      * by eapply lookup_weaken.
      * intros k e Hk. destruct (Hall k e Hk) as [x Hx]. exists x. by eapply lookup_weaken.
      * symmetry. by apply omap_ext_lookup.
    + destruct (Tags q) as [tm|]; simpl in *; [|done]. by eapply lookup_weaken.
Qed.

End mirror.

Section Mirror.
Import state mirror.

(** C10.  [SetEndpoint] for a hostname the manager holds no profile for
    changes nothing and reports nothing: the store after the call is the
    store before it, whatever the endpoint pointer is, and [GetEndpoint]
    for that hostname and endpoint name answers not-found. *)
Theorem SetEndpoint_unknown_hostname_is_noop
    (s : Store) (now1 now2 now : Time) (hostname endpointName : string) (endpoint : loc) :
  profiles s !! hostname = None ->
  SetEndpoint now1 now2 hostname endpointName endpoint s = (Val tt, s)
  /\ GetEndpoint now hostname endpointName
       (snd (SetEndpoint now1 now2 hostname endpointName endpoint s))
     = (Val None, s).
Proof.
  intros Hh.
  assert (Hset : SetEndpoint now1 now2 hostname endpointName endpoint s = (Val tt, s)).
  { unfold SetEndpoint. rewrite (bind_val get _ s s s) by done. by rewrite Hh. }
  split; [done|]. rewrite Hset. simpl.
  unfold GetEndpoint. by erewrite bind_val by (by apply GetProfile_missing).
Qed.

(** C7.  For a well-formed store, [GetProfile] answers absent exactly
    when the hostname has no entry, or the entry's [CachedAt] is the zero
    time, or [time.Since(CachedAt)] exceeds the TTL; it never panics; it
    leaves the manager's map and every stored object as they were, so an
    expired entry stays in the map; a zero [CachedAt] is expired for
    every TTL and clock; and a later [SetProfile] puts a new object with
    the new value in the entry's place. *)
Theorem GetProfile_absent_exactly_when_missing_or_expired
    (s : Store) (now : Time) (hostname : string) :
  wf_store s ->
  (fst (GetProfile now hostname s) = Val None <->
     (profiles s !! hostname = None
      \/ exists l p, profiles s !! hostname = Some l /\ profileObjs s !! l = Some p
           /\ (CachedAt p = 0 \/ cacheTTL s < time_Since now (CachedAt p))))
  /\ (exists r, fst (GetProfile now hostname s) = Val r)
  /\ heap_le s (snd (GetProfile now hostname s))
  /\ (forall p ttl now', CachedAt p = 0 -> IsExpired p ttl now' = true)
  /\ (forall now' p' v', has_value s p' v' ->
        exists stored t,
          SetProfile now' hostname p' s = (Val tt, t)
          /\ profiles t !! hostname = Some stored
          /\ profileObjs s !! stored = None
          /\ has_value t stored (pv_set_CachedAt now' v')).
Proof.
  intros Hwf. split_and!.
  - destruct (profiles s !! hostname) as [l|] eqn:Hh.
    + destruct (Hwf _ _ Hh) as [v Hv].
      pose proof Hv as (p & Hp & Hsc & _).
      destruct (IsExpired p (cacheTTL s) now) eqn:Hexp.
      * rewrite (GetProfile_expired s now hostname l p) by done. split; [|done].
        intros _. right. exists l, p. split_and!; try done. by apply IsExpired_true_iff.
      * assert (Hnot : ~ (CachedAt p = 0 \/ cacheTTL s < time_Since now (CachedAt p))).
        { rewrite <- IsExpired_true_iff. congruence. }
        assert (Hcached : pv_CachedAt v = CachedAt p).
        { by destruct Hsc as (_&_&_&_&_&_&_&_&->). }
        destruct (GetProfile_found s now hostname l v) as (c & t & ? & ? & ? & ? & Heq & _);
          try done.
        { rewrite Hcached. tauto. }
        { rewrite Hcached. lia. }
        rewrite Heq. simpl. split; [done|].
        intros [?|(l' & p' & Hl' & Hp' & Hcase)]; [done|].
        assert (l' = l) as -> by congruence. assert (p' = p) as -> by congruence. tauto.
    + rewrite GetProfile_missing by done. split; [by left | done].
  - destruct (profiles s !! hostname) as [l|] eqn:Hh.
    + destruct (Hwf _ _ Hh) as [v Hv].
      pose proof Hv as (p & Hp & Hsc & _).
      destruct (IsExpired p (cacheTTL s) now) eqn:Hexp.
      * rewrite (GetProfile_expired s now hostname l p) by done. eauto.
      * assert (Hnot : ~ (CachedAt p = 0 \/ cacheTTL s < time_Since now (CachedAt p))).
        { rewrite <- IsExpired_true_iff. congruence. }
        assert (Hcached : pv_CachedAt v = CachedAt p).
        { by destruct Hsc as (_&_&_&_&_&_&_&_&->). }
        destruct (GetProfile_found s now hostname l v) as (c & t & ? & ? & ? & ? & Heq & _);
          try done.
        { rewrite Hcached. tauto. }
        { rewrite Hcached. lia. }
        rewrite Heq. eauto.
    + rewrite GetProfile_missing by done. eauto.
  - destruct (profiles s !! hostname) as [l|] eqn:Hh.
    + destruct (Hwf _ _ Hh) as [v Hv].
      pose proof Hv as (p & Hp & Hsc & _).
      destruct (IsExpired p (cacheTTL s) now) eqn:Hexp.
      * rewrite (GetProfile_expired s now hostname l p) by done. apply heap_le_refl.
      * assert (Hnot : ~ (CachedAt p = 0 \/ cacheTTL s < time_Since now (CachedAt p))).
        { rewrite <- IsExpired_true_iff. congruence. }
        assert (Hcached : pv_CachedAt v = CachedAt p).
        { by destruct Hsc as (_&_&_&_&_&_&_&_&->). }
        destruct (GetProfile_found s now hostname l v)
          as (c & t & ? & ? & ? & ? & Heq & Hle & _); try done.
        { rewrite Hcached. tauto. }
        { rewrite Hcached. lia. }
        by rewrite Heq.
    + rewrite GetProfile_missing by done. apply heap_le_refl.
  - intros p ttl now' Hz. apply IsExpired_true_iff. by left.
  - intros now' p' v' Hv'.
    destruct (SetProfile_spec s now' hostname p' v' Hv')
      as (stored & t & Heq & Hprof & _ & Hst & _ & Hfresh & _).
    exists stored, t. split_and!; try done. rewrite Hprof. apply lookup_insert_eq.
Qed.

(** C8.  Round trip: after [SetProfile h p] stamped [now1], a
    [GetProfile h] within the TTL finds the entry and returns a profile
    with the value of the stored one (the value of [p] with [CachedAt]
    set to [now1]); the returned object is not the stored one nor the
    caller's, its two maps are its own and none of its endpoint objects
    belongs to the stored profile; so whatever the caller then writes
    through the returned pointer, the stored profile keeps its value and
    a later [GetProfile] returns that same value. *)
Theorem SetProfile_GetProfile_round_trip
    (s : Store) (now1 now2 : Time) (h : string) (p : loc) (v : ProfileValue) :
  has_value s p v ->
  now1 <> 0 ->
  time_Since now2 now1 <= cacheTTL s ->
  exists s1 stored c s2 pc pst,
    SetProfile now1 h p s = (Val tt, s1)
    /\ profiles s1 !! h = Some stored
    /\ GetProfile now2 h s1 = (Val (Some c), s2)
    /\ has_value s2 stored (pv_set_CachedAt now1 v)
    /\ has_value s2 c (pv_set_CachedAt now1 v)
    /\ c <> stored /\ c <> p
    /\ profileObjs s2 !! c = Some pc
    /\ profileObjs s2 !! stored = Some pst
    /\ is_Some (Endpoints pc) /\ is_Some (Tags pc)
    /\ Endpoints pc <> Endpoints pst /\ Tags pc <> Tags pst
    /\ (forall e, reaches_endpointObj s2 stored e -> ~ reaches_endpointObj s2 c e)
    /\ forall s3, mutation_of c s2 s3 ->
         has_value s3 stored (pv_set_CachedAt now1 v)
         /\ forall now3, time_Since now3 now1 <= cacheTTL s ->
              exists c' s4, GetProfile now3 h s3 = (Val (Some c'), s4)
                /\ has_value s4 c' (pv_set_CachedAt now1 v).
Proof.
  intros Hv Hnz Httl.
  destruct (SetProfile_spec s now1 h p v Hv)
    as (stored & s1 & Hset & Hprof & Hcttl & Hst & Hp & Hfresh & Hkeep & Ho & Hm & Ht).
  assert (Hh : profiles s1 !! h = Some stored).
  { rewrite Hprof. apply lookup_insert_eq. }
  destruct (GetProfile_found s1 now2 h stored _ Hh Hst)
    as (c & s2 & pc & em & tm & acc & Hget & Hle & Hfc & Hfem & Hftm & Hpc & HEc & HTc
        & Hacc & Hall & Hvc); [done | by rewrite Hcttl |].
  pose proof (has_value_le _ _ _ _ Hle Hst) as Hst2.
  pose proof Hst as (pst & Hpst & Hscst & Hepst & Htgst).
  assert (Hpst2 : profileObjs s2 !! stored = Some pst).
  { eapply lookup_weaken; [done | apply Hle]. }
  assert (Hne : c <> stored) by (intros ->; congruence).
  assert (HneE : Endpoints pc <> Endpoints pst).
  { rewrite HEc. intros Heq. rewrite <- Heq in Hepst. simpl in Hepst.
    destruct Hepst as (a & Ha & _). congruence. }
  assert (HneT : Tags pc <> Tags pst).
  { rewrite HTc. intros Heq. rewrite <- Heq in Htgst. simpl in Htgst. congruence. }
  assert (Hdisj : forall e, reaches_endpointObj s2 stored e -> ~ reaches_endpointObj s2 c e).
  { intros e (p1 & em1 & m1 & k1 & Hp1 & HE1 & Hm1 & Hk1) (p2 & em2 & m2 & k2 & Hp2 & HE2 & Hm2 & Hk2).
    assert (p2 = pc) as -> by congruence. assert (p1 = pst) as -> by congruence.
    assert (em2 = em) as -> by congruence. assert (m2 = acc) as -> by congruence.
    destruct (Hall k2 e Hk2) as [_ Hnew].
    rewrite HE1 in Hepst. simpl in Hepst. destruct Hepst as (a & Ha & Halla & _).
    assert (m1 = a) as ->.
    { eapply lookup_weaken in Ha; [|apply Hle]. congruence. }
    destruct (Halla k1 e Hk1) as [x Hx]. congruence. }
  assert (Hcp : c <> p).
  { intros ->. destruct Hp as (q & Hq & _). congruence. }
  assert (HsE : is_Some (Endpoints pc)) by (rewrite HEc; eauto).
  assert (HsT : is_Some (Tags pc)) by (rewrite HTc; eauto).
  exists s1, stored, c, s2, pc, pst. split_and!; try done.
  intros s3 Hmut.
  {
    assert (Hst3 : has_value s3 stored (pv_set_CachedAt now1 v)).
    { eapply (has_value_mutation s2 s3 c stored); try done.
      intros p0 Hp0. assert (p0 = pst) as -> by congruence.
      split; intros _ Heq; congruence. }
    split; [done|]. intros now3 Hnow3.
    destruct (GetProfile_found s3 now3 h stored (pv_set_CachedAt now1 v))
      as (c' & s4 & ? & ? & ? & ? & Hget' & _ & _ & _ & _ & _ & _ & _ & _ & _ & Hv');
      try done.
    + rewrite (mut_profiles _ _ _ Hmut). by rewrite (le_profiles _ _ Hle).
    + rewrite (mut_cacheTTL _ _ _ Hmut), (le_cacheTTL _ _ Hle), Hcttl. done.
    + eauto. }
Qed.

End Mirror.

(* ===================================================================== *)
(** * What a provider computation sends out *)
(* ===================================================================== *)

Section Steps.
Context {E : Type} `{Environment E} {tables : Unicode}.

(** [steps P m]: running [m] only adds requests satisfying [P] to the
    record of calls, and writes no log line. *)
Definition steps {A} (P : Call -> Prop) (m : M (World E) A) : Prop :=
  forall w, (exists tr, calls (snd (m w)) = calls w ++ tr /\ Forall P tr)
            /\ log (snd (m w)) = log w.

Lemma steps_ret {A} P (a : A) : steps P (ret a).
Proof. intros w. split; [exists []; by rewrite app_nil_r | done]. Qed.

Lemma steps_panic {A} P : steps P (@panic (World E) A).
Proof. intros w. split; [exists []; by rewrite app_nil_r | done]. Qed.

Lemma steps_must {A} P (o : option A) : steps P (must o).
Proof. destruct o; [apply steps_ret | apply steps_panic]. Qed.

Lemma steps_time_Now P : steps P time_Now.
Proof. intros w. split; [exists []; by rewrite app_nil_r | done]. Qed.

Lemma steps_on_store {A} P (m : M state.Store A) : steps P (on_store m).
Proof. intros w. split; [exists []; by rewrite app_nil_r | done]. Qed.

Lemma steps_request {A} (P : Call -> Prop) c (f : E -> A * E) : P c -> steps P (request c f).
Proof. intros Hc w. split; [exists [c]; split; [done | by constructor] | done]. Qed.

Lemma steps_bind {A B} P (m : M (World E) A) (k : A -> M (World E) B) :
  steps P m -> (forall a, steps P (k a)) -> steps P (bind m k).
Proof.
  intros Hm Hk w. destruct (Hm w) as [(tr & Htr & HP) Hlog].
  unfold bind. destruct (m w) as [[a|] w1]; simpl in *.
  - destruct (Hk a w1) as [(tr' & Htr' & HP') Hlog']. split.
    + exists (tr ++ tr'). rewrite Htr', Htr, app_assoc. split; [done|].
      by apply Forall_app.
    + congruence.
  - split; [eauto | done].
Qed.

Lemma steps_for_each {A} P (l : list A) (body : A -> M (World E) unit) :
  (forall x, steps P (body x)) -> steps P (for_each l body).
Proof.
  intros Hb. induction l as [|x l IH]; simpl; [apply steps_ret|].
  apply steps_bind; [apply Hb | intros _; apply IH].
Qed.

Lemma steps_for_each_err {A} P (l : list A) (body : A -> M (World E) (option error)) :
  (forall x, steps P (body x)) -> steps P (for_each_err l body).
Proof.
  intros Hb. induction l as [|x l IH]; simpl; [apply steps_ret|].
  apply steps_bind; [apply Hb | intros [e|]; [apply steps_ret | apply IH]].
Qed.

Lemma steps_range_map {V} P (m : gmap string V) (body : string -> V -> M (World E) unit) :
  (forall k v, steps P (body k v)) -> steps P (range_map m body).
Proof.
  intros Hb. unfold range_map.
  apply (map_fold_weak_ind (fun (r : M (World E) unit) (_ : gmap string V) => steps P r)).
  - apply steps_ret.
  - intros i x m' r _ IH. apply steps_bind; [done | intros _; apply Hb].
Qed.

Lemma steps_weaken {A} (P Q : Call -> Prop) (m : M (World E) A) :
  (forall c, P c -> Q c) -> steps P m -> steps Q m.
Proof.
  intros HPQ Hm w. destruct (Hm w) as [(tr & Htr & HP) Hlog]. split; [|done].
  exists tr. split; [done|]. eapply Forall_impl; eauto.
Qed.

End Steps.

Ltac steps_go :=
  repeat first
    [ apply steps_ret
    | apply steps_panic
    | apply steps_must
    | apply steps_time_Now
    | apply steps_on_store
    | apply steps_request
    | apply steps_bind; [|intros]
    | apply steps_for_each; intros
    | apply steps_for_each_err; intros
    | apply steps_range_map; intros
    | match goal with
      | |- steps _ (match ?x with _ => _ end) => destruct x
      | |- steps _ (if ?x then _ else _) => destruct x
      | |- steps _ (let _ := _ in _) => cbv zeta
      end ].

Section ClientSteps.
Context {E : Type} `{Environment E} {tables : Unicode}.
Import armtrafficmanager.

Lemma steps_endpointResponseToState P e :
  steps P (trafficmanager.endpointResponseToState e).
Proof. unfold trafficmanager.endpointResponseToState. steps_go. Qed.

Lemma steps_endpointsToState P l acc : steps P (trafficmanager.endpointsToState l acc).
Proof.
  revert acc. induction l as [|e l IH]; intros acc; simpl.
  - apply steps_ret.
  - destruct (Endpoint_Name e).
    + apply steps_bind; [apply steps_endpointResponseToState | intros; apply IH].
    + apply IH.
Qed.

Lemma steps_profileResponseToState P rg p :
  steps P (trafficmanager.profileResponseToState rg p).
Proof.
  unfold trafficmanager.profileResponseToState.
  apply steps_bind; [apply steps_must | intros name].
  apply steps_bind; [apply steps_time_Now | intros t1].
  apply steps_bind; [apply steps_time_Now | intros t2].
  cbv zeta. apply steps_bind; [apply steps_endpointsToState | intros; apply steps_ret].
Qed.

Lemma steps_CreateEndpoint (P : Call -> Prop) rg pn cfg :
  (forall e, P (EndpointsCreateOrUpdate rg pn (trafficmanager.EndpointType cfg)
                  (trafficmanager.EndpointName cfg) e)) ->
  steps P (trafficmanager.CreateEndpoint rg pn cfg).
Proof.
  intros HP. unfold trafficmanager.CreateEndpoint. cbv zeta.
  apply steps_bind; [apply steps_request, HP | intros r].
  destruct r; [|apply steps_ret].
  apply steps_bind; [apply steps_endpointResponseToState | intros; apply steps_ret].
Qed.

Lemma steps_UpdateEndpoint (P : Call -> Prop) rg pn cfg :
  (forall e, P (EndpointsCreateOrUpdate rg pn (trafficmanager.EndpointType cfg)
                  (trafficmanager.EndpointName cfg) e)) ->
  steps P (trafficmanager.UpdateEndpoint rg pn cfg).
Proof.
  intros HP. unfold trafficmanager.UpdateEndpoint. cbv zeta.
  apply steps_bind; [apply steps_request, HP | intros r].
  destruct r; [|apply steps_ret].
  apply steps_bind; [apply steps_endpointResponseToState | intros; apply steps_ret].
Qed.

Lemma steps_DeleteEndpoint (P : Call -> Prop) rg pn ty n :
  P (EndpointsDelete rg pn ty n) -> steps P (trafficmanager.DeleteEndpoint rg pn ty n).
Proof.
  intros HP. unfold trafficmanager.DeleteEndpoint.
  apply steps_bind; [by apply steps_request | intros r]. destruct r; steps_go.
Qed.

Lemma steps_CreateProfile (P : Call -> Prop) cfg :
  (forall p, P (ProfilesCreateOrUpdate (trafficmanager.ResourceGroup cfg)
                  (trafficmanager.ProfileName cfg) p)) ->
  steps P (trafficmanager.CreateProfile cfg).
Proof.
  intros HP. unfold trafficmanager.CreateProfile. cbv zeta.
  apply steps_bind; [apply steps_request, HP | intros r].
  destruct r; [|apply steps_ret].
  apply steps_bind; [apply steps_must | intros _].
  apply steps_bind; [apply steps_profileResponseToState | intros; apply steps_ret].
Qed.

Lemma steps_GetProfile (P : Call -> Prop) rg pn :
  P (ProfilesGet rg pn) -> steps P (trafficmanager.GetProfile rg pn).
Proof.
  intros HP. unfold trafficmanager.GetProfile.
  apply steps_bind; [by apply steps_request | intros r].
  destruct r; [|apply steps_ret].
  apply steps_bind; [apply steps_profileResponseToState | intros; apply steps_ret].
Qed.

Lemma steps_UpdateProfile (P : Call -> Prop) cfg :
  P (ProfilesGet (trafficmanager.ResourceGroup cfg) (trafficmanager.ProfileName cfg)) ->
  (forall p, P (ProfilesCreateOrUpdate (trafficmanager.ResourceGroup cfg)
                  (trafficmanager.ProfileName cfg) p)) ->
  steps P (trafficmanager.UpdateProfile cfg).
Proof.
  intros HG HP. unfold trafficmanager.UpdateProfile.
  apply steps_bind; [by apply steps_GetProfile | intros r].
  destruct r; [|steps_go]. cbv zeta.
  apply steps_bind; [apply steps_request, HP | intros r].
  destruct r; [|apply steps_ret].
  apply steps_bind; [apply steps_profileResponseToState | intros; apply steps_ret].
Qed.

Lemma steps_DeleteProfile (P : Call -> Prop) rg pn :
  P (ProfilesDelete rg pn) -> steps P (trafficmanager.DeleteProfile rg pn).
Proof.
  intros HP. unfold trafficmanager.DeleteProfile.
  apply steps_bind; [by apply steps_request | intros r]. destruct r; steps_go.
Qed.

Lemma steps_profileToState P rg p : steps P (trafficmanager.profileToState rg p).
Proof.
  unfold trafficmanager.profileToState, trafficmanager.endpointToState. steps_go.
Qed.

Lemma steps_GetProfileState (P : Call -> Prop) rg pn :
  P (ProfilesGet rg pn) -> steps P (trafficmanager.GetProfileState rg pn).
Proof.
  intros HP. unfold trafficmanager.GetProfileState.
  apply steps_bind; [by apply steps_request | intros r].
  destruct r; [|apply steps_ret].
  apply steps_bind; [apply steps_profileToState | intros; apply steps_ret].
Qed.

Lemma steps_CreateOrUpdateCNAME (P : Call -> Prop) ns n h t ttl :
  P (DNSEndpointGet ns n) ->
  (forall o, P (DNSEndpointCreate ns o)) -> (forall o, P (DNSEndpointUpdate ns o)) ->
  steps P (dnsendpoint.CreateOrUpdateCNAME ns n h t ttl).
Proof.
  intros HG HC HU. unfold dnsendpoint.CreateOrUpdateCNAME. cbv zeta.
  apply steps_bind; [by apply steps_request | intros r].
  destruct r.
  - apply steps_bind; [apply steps_request, HU | intros r]. destruct r; steps_go.
  - apply steps_bind; [apply steps_request, HC | intros r]. destruct r; steps_go.
Qed.

Lemma steps_dnsendpoint_Delete (P : Call -> Prop) ns n :
  P (DNSEndpointDelete ns n) -> steps P (dnsendpoint.Delete ns n).
Proof.
  intros HP. unfold dnsendpoint.Delete.
  apply steps_bind; [by apply steps_request | intros r]. destruct r; steps_go.
Qed.

Lemma steps_stateManager_SetProfile P h l : steps P (provider.stateManager_SetProfile h l).
Proof. unfold provider.stateManager_SetProfile. steps_go. Qed.

Lemma steps_stateManager_SetEndpoint P h n l :
  steps P (provider.stateManager_SetEndpoint h n l).
Proof. unfold provider.stateManager_SetEndpoint. steps_go. Qed.

Lemma steps_stateManager_DeleteEndpoint P h n :
  steps P (provider.stateManager_DeleteEndpoint h n).
Proof. unfold provider.stateManager_DeleteEndpoint. steps_go. Qed.

End ClientSteps.

(* ===================================================================== *)
(** * The configuration parser *)
(* ===================================================================== *)

Module parsing.
Import annotations.

(** The value of the "enabled" annotation switches the feature on. *)
Definition enabled_in (labels : gmap string string) : bool :=
  match labels !! AnnotationEnabled with
  | Some v => String.eqb (strings_ToLower v) "true"
  | None => false
  end.

Lemma ParseConfig_not_enabled {tables : Unicode} labels :
  enabled_in labels = false -> ParseConfig labels = inl defaultConfig.
Proof.
  unfold enabled_in, ParseConfig. cbv zeta.
  destruct (labels !! AnnotationEnabled) as [v|]; [|done].
  intros ->. done.
Qed.

(** What [ParseConfig] leaves in the weight field once the feature is on
    and the value parses. *)
Definition weight_of (labels : gmap string string) : Z :=
  match present labels AnnotationWeight with
  | Some s => match strconv_ParseInt s with inl w => w | inr _ => DefaultWeight end
  | None => DefaultWeight
  end.

(** One assignment of [ParseConfig]: name the config it produces. *)
Ltac parse_let c :=
  lazymatch goal with
  | |- (let x := ?A in @?B x) = inl ?cfg -> ?Q =>
      pose (c := A); change (B c = inl cfg -> Q); cbv beta
  end.

Ltac parse_try c Hc :=
  lazymatch goal with
  | |- match ?A with inl x => _ | inr e => inr e end = inl _ -> _ =>
      destruct A as [c|] eqn:Hc; [|discriminate]
  end.

(** The facts carried along the parse: the feature is on, the resource
    group is set and the weight field holds [w]. *)
Definition parsed_so_far (w : Z) (c : TrafficManagerConfig) : Prop :=
  Enabled c = true /\ str_empty (ResourceGroup c) = false /\ Weight c = w.

Ltac keep_let c H :=
  let H' := fresh "H" in
  assert (H' : parsed_so_far _ c) by (subst c; destruct (present _ _); exact H);
  clearbody c; clear H; rename H' into H.

Ltac keep_try c Hc H :=
  let H' := fresh "H" in
  assert (H' : parsed_so_far _ c)
    by (revert Hc; destruct (present _ _);
        [ (destruct (strconv_ParseInt _) || destruct (strconv_ParseBool _)); [|discriminate] | ];
        intros [= <-]; exact H);
  clear Hc H; rename H' into H.

Lemma ParseConfig_enabled {tables : Unicode} labels config :
  ParseConfig labels = inl config -> enabled_in labels = true ->
  parsed_so_far (weight_of labels) config.
Proof.
  intros Hp Hen. revert Hp. cbv delta [ParseConfig]. cbv beta.
  parse_let c0. parse_let c1.
  assert (Hen1 : Enabled c1 = true).
  { subst c1 c0. unfold enabled_in in Hen.
    destruct (labels !! AnnotationEnabled); [|done]. cbn. done. }
  rewrite Hen1. change (negb true) with false. cbv iota.
  assert (Hw1 : Weight c1 = DefaultWeight).
  { subst c1 c0. by destruct (labels !! AnnotationEnabled). }
  clearbody c1. clear c0.
  parse_let c2.
  destruct (str_empty (ResourceGroup c2)) eqn:Hrg; [discriminate|].
  assert (H : parsed_so_far DefaultWeight c2) by (subst c2; done).
  clearbody c2. clear Hen1 Hw1 Hrg.
  parse_let c3. keep_let c3 H.
  parse_let c4. keep_let c4 H.
  parse_let c5. keep_let c5 H.
  parse_try c6 Hc6.
  assert (H6 : parsed_so_far (weight_of labels) c6).
  { revert Hc6. unfold weight_of. destruct (present labels AnnotationWeight).
    - destruct (strconv_ParseInt s); [|discriminate]. intros [= <-].
      destruct H as (? & ? & ?). done.
    - intros [= <-]. exact H. }
  clear Hc6 H. rename H6 into H.
  parse_try c7 Hc7. keep_try c7 Hc7 H.
  parse_let c8. keep_let c8 H.
  parse_let c9. keep_let c9 H.
  parse_let c10. keep_let c10 H.
  parse_try c11 Hc11. keep_try c11 Hc11 H.
  parse_let c12. keep_let c12 H.
  parse_try c13 Hc13. keep_try c13 Hc13 H.
  parse_let c14. keep_let c14 H.
  parse_try c15 Hc15. keep_try c15 Hc15 H.
  intros [= <-]. exact H.
Qed.

Lemma ParseConfig_Enabled {tables : Unicode} labels config :
  ParseConfig labels = inl config -> Enabled config = enabled_in labels.
Proof.
  intros Hp. destruct (enabled_in labels) eqn:Hen.
  - by destruct (ParseConfig_enabled _ _ Hp Hen).
  - rewrite ParseConfig_not_enabled in Hp by done. by injection Hp as <-.
Qed.

Lemma ParseConfig_disabled_is_default {tables : Unicode} labels config :
  ParseConfig labels = inl config -> Enabled config = false -> config = defaultConfig.
Proof.
  intros Hp Hd. rewrite (ParseConfig_Enabled _ _ Hp) in Hd.
  rewrite ParseConfig_not_enabled in Hp by done. by injection Hp as <-.
Qed.

Lemma ValidateConfig_disabled {tables : Unicode} config :
  Enabled config = false -> ValidateConfig config = None.
Proof. intros Hd. unfold ValidateConfig. by rewrite Hd. Qed.

Lemma ValidateConfig_weight_out_of_range {tables : Unicode} config :
  Enabled config = true -> str_empty (ResourceGroup config) = false ->
  (Weight config < 1 \/ 1000 < Weight config) ->
  ValidateConfig config
  = Some (errorString ("weight must be between 1 and 1000, got " +:+ fmt_d (Weight config))).
Proof.
  intros He Hrg Hw. unfold ValidateConfig. rewrite He, Hrg. cbn [negb].
  destruct (Z.ltb_spec (Weight config) 1); [done|].
  destruct (Z.ltb_spec 1000 (Weight config)); [done|]. lia.
Qed.

End parsing.

Import annotations parsing.

(** C3.  When the "enabled" annotation is missing, or its value lowered
    is not "true", [ParseConfig] returns a configuration with [Enabled]
    off and no error, whatever else the map holds; and [ValidateConfig]
    returns nil on every configuration with [Enabled] off. *)
Theorem ParseConfig_disabled_never_fails {tables : Unicode} (labels : gmap string string) :
  (labels !! AnnotationEnabled = None
   \/ exists v, labels !! AnnotationEnabled = Some v /\ strings_ToLower v <> "true") ->
  (exists config, ParseConfig labels = inl config /\ Enabled config = false)
  /\ (forall config, Enabled config = false -> ValidateConfig config = None).
Proof.
  intros Hcase. split; [|apply ValidateConfig_disabled].
  exists defaultConfig. split; [|done]. apply ParseConfig_not_enabled.
  unfold enabled_in. destruct Hcase as [->|(v & -> & Hv)]; [done|].
  by apply String.eqb_neq.
Qed.

(* ===================================================================== *)
(** * The reconciliation engine *)
(* ===================================================================== *)

(** Decomposes a goal [steps P m] along the structure of [m]; what is
    left are the conditions that [P] holds of the requests [m] makes. *)
Ltac steps_full :=
  repeat first
    [ apply steps_ret
    | apply steps_panic
    | apply steps_must
    | apply steps_time_Now
    | apply steps_on_store
    | apply steps_stateManager_SetProfile
    | apply steps_stateManager_SetEndpoint
    | apply steps_stateManager_DeleteEndpoint
    | apply steps_CreateProfile; intros
    | apply steps_GetProfile
    | apply steps_UpdateProfile; intros
    | apply steps_DeleteProfile
    | apply steps_GetProfileState
    | apply steps_CreateEndpoint; intros
    | apply steps_UpdateEndpoint; intros
    | apply steps_DeleteEndpoint
    | apply steps_CreateOrUpdateCNAME; intros
    | apply steps_dnsendpoint_Delete
    | apply steps_bind; [|intros]
    | apply steps_for_each; intros
    | apply steps_for_each_err; intros
    | match goal with
      | |- steps _ (match ?x with _ => _ end) => destruct x
      | |- steps _ (if ?x then _ else _) => destruct x
      end ].

Section Engine.
Context {E : Type} `{Environment E} {tables : Unicode}.
Import provider.

Definition any_call : Call -> Prop := fun _ => True.

(** A handler: one log line, then steps. *)
Lemma logged_handler {A} (P : Call -> Prop) l (rest : M (World E) A) :
  steps P rest ->
  forall w,
    (exists tr, calls (snd (bind (logInfo l) (fun _ => rest) w)) = calls w ++ tr
                /\ Forall P tr)
    /\ log (snd (bind (logInfo l) (fun _ => rest) w)) = log w ++ [l].
Proof.
  intros Hrest w. unfold bind, logInfo. simpl.
  destruct (Hrest (mkWorld (store w) (env w) (calls w) (log w ++ [l]))) as [Hc Hl].
  split; [exact Hc | exact Hl].
Qed.

Lemma createEndpoint_log endpoint w :
  log (snd (createEndpoint endpoint w)) = log w ++ [LogCreatingEndpoint (DNSName endpoint)].
Proof.
  unfold createEndpoint. apply (logged_handler any_call).
  unfold createEndpoint_profile, createEndpoint_targets, createEndpoint_target,
    createEndpoint_refresh, profile_FQDN, assign_Hostname, convertToStateEndpoint.
  steps_full; exact I.
Qed.

Lemma updateEndpoint_log old new w :
  log (snd (updateEndpoint old new w)) = log w ++ [LogUpdatingEndpoint (DNSName new)].
Proof.
  unfold updateEndpoint. apply (logged_handler any_call).
  unfold updateEndpoint_profile, updateEndpoint_target, updateEndpoint_refresh,
    profile_FQDN, assign_Hostname, convertToStateEndpoint.
  steps_full; exact I.
Qed.

Lemma deleteEndpoint_log endpoint w :
  log (snd (deleteEndpoint endpoint w)) = log w ++ [LogDeletingEndpoint (DNSName endpoint)].
Proof.
  unfold deleteEndpoint. apply (logged_handler any_call).
  unfold deleteEndpoint_targets, deleteEndpoint_cleanup, deleteEndpoint_refetched,
    profile_FQDN, assign_Hostname, len_Endpoints, stateManager_DeleteProfile.
  steps_full; exact I.
Qed.

(** The world once a handler has written its first log line. *)
Definition logged (l : LogEntry) (w : World E) : World E :=
  mkWorld (store w) (env w) (calls w) (log w ++ [l]).

Lemma weight_of_1500 labels :
  labels !! AnnotationWeight = Some "1500" -> weight_of labels = 1500.
Proof. intros Hw. unfold weight_of, present. rewrite Hw. reflexivity. Qed.

(** C6.  A Create of a record that is not a TXT record, whose
    annotations switch the feature on, carry the weight "1500" and
    parse, fails with a message that contains "weight"; it has sent no
    request and touched neither the environment nor the state mirror. *)
Theorem createEndpoint_weight_1500_rejected_before_any_request
    (endpoint : Endpoint) (config : TrafficManagerConfig) (w : World E) :
  RecordType endpoint <> "TXT" ->
  enabled_in (annotationMap endpoint) = true ->
  annotationMap endpoint !! AnnotationWeight = Some "1500" ->
  ParseConfig (annotationMap endpoint) = inl config ->
  exists err,
    createEndpoint endpoint w
    = (Val (Some err), logged (LogCreatingEndpoint (DNSName endpoint)) w)
    /\ strings_Contains (Error err) "weight" = true.
Proof.
  intros Htxt Hen Hw Hparse.
  destruct (ParseConfig_enabled _ _ Hparse Hen) as (He & Hrg & Hwt).
  rewrite (weight_of_1500 _ Hw) in Hwt.
  exists (Errorf_w "invalid Traffic Manager configuration: "
            (errorString ("weight must be between 1 and 1000, got " +:+ fmt_d 1500))).
  split; [|by vm_compute].
  unfold createEndpoint.
  rewrite (bind_val (logInfo _) _ w tt (logged (LogCreatingEndpoint (DNSName endpoint)) w))
    by reflexivity.
  rewrite (proj2 (String.eqb_neq _ _) Htxt).
  rewrite Hparse, He. cbn [negb].
  rewrite ValidateConfig_weight_out_of_range by (try done; lia).
  by rewrite Hwt.
Qed.


(** ** ApplyChanges *)

(** The items of a batch in the order [ApplyChanges] takes them up. *)
Inductive Item :=
| ItemCreate (endpoint : Endpoint)
| ItemUpdate (oldEndpoint newEndpoint : Endpoint)
| ItemDelete (endpoint : Endpoint).

Definition items (changes : Changes) : list Item :=
  map ItemCreate (Create changes)
  ++ zip_with ItemUpdate (UpdateOld changes) (UpdateNew changes)
  ++ map ItemDelete (Delete changes).

Definition process (it : Item) : M (World E) (option error) :=
  match it with
  | ItemCreate e => createEndpoint e
  | ItemUpdate o n => updateEndpoint o n
  | ItemDelete e => deleteEndpoint e
  end.

(** The log line that shows an item was taken up. *)
Definition first_line (it : Item) : LogEntry :=
  match it with
  | ItemCreate e => LogCreatingEndpoint (DNSName e)
  | ItemUpdate _ n => LogUpdatingEndpoint (DNSName n)
  | ItemDelete e => LogDeletingEndpoint (DNSName e)
  end.

(** [all_succeed l w w']: processing the items of [l] one after the
    other from [w] returns nil each time and ends in [w']. *)
Inductive all_succeed : list Item -> World E -> World E -> Prop :=
| all_succeed_nil w : all_succeed [] w w
| all_succeed_cons x l w w1 w2 :
    process x w = (Val None, w1) -> all_succeed l w1 w2 -> all_succeed (x :: l) w w2.

Lemma process_log it w : log (snd (process it w)) = log w ++ [first_line it].
Proof.
  destruct it; simpl;
    [apply createEndpoint_log | apply updateEndpoint_log | apply deleteEndpoint_log].
Qed.

Lemma all_succeed_log l w w' :
  all_succeed l w w' -> log w' = log w ++ map first_line l.
Proof.
  induction 1 as [w|x l w w1 w2 Hx _ IH]; simpl.
  { by rewrite app_nil_r. }
  rewrite IH. pose proof (process_log x w) as Hl. rewrite Hx in Hl. simpl in Hl.
  rewrite Hl, <- app_assoc. done.
Qed.

Lemma bind_ext {S A B} (m : M S A) (k k' : A -> M S B) s :
  (forall a s', k a s' = k' a s') -> bind m k s = bind m k' s.
Proof. intros Hk. unfold bind. destruct (m s) as [[a|] s']; [apply Hk | done]. Qed.

Lemma bind_ext2 {S A B} (m m' : M S A) (k k' : A -> M S B) s :
  (forall s', m s' = m' s') -> (forall a s', k a s' = k' a s') -> bind m k s = bind m' k' s.
Proof. intros Hm Hk. unfold bind. rewrite Hm. destruct (m' s) as [[a|] s']; [apply Hk | done]. Qed.

Definition check_then (m : M (World E) (option error)) (k : M (World E) (option error))
  : M (World E) (option error) :=
  bind m (fun r => match r with Some err => ret (Some err) | None => k end).

Lemma for_each_err_app {A} (l1 l2 : list A) (f : A -> M (World E) (option error)) w :
  for_each_err (l1 ++ l2) f w = check_then (for_each_err l1 f) (for_each_err l2 f) w.
Proof.
  revert w. induction l1 as [|x l1 IH]; intros w; simpl.
  - done.
  - unfold check_then, bind. destruct (f x w) as [[[e|]|] w1]; first [done | apply IH].
Qed.

Lemma for_each_err_map {A B} (g : A -> B) (l : list A) (f : B -> M (World E) (option error)) w :
  for_each_err (map g l) f w = for_each_err l (fun a => f (g a)) w.
Proof.
  revert w. induction l as [|x l IH]; intros w; simpl.
  - done.
  - apply bind_ext. intros [e|] w'; [done | apply IH].
Qed.

Lemma for_each_err_end {A} (l : list A) (f : A -> M (World E) (option error)) w :
  check_then (for_each_err l f) (ret None) w = for_each_err l f w.
Proof.
  unfold check_then, bind. by destruct (for_each_err l f w) as [[[e|]|] w1].
Qed.

Lemma update_loop_items olds news i w :
  (length olds <= length (drop i news))%nat ->
  update_loop olds news i w
  = for_each_err (zip_with ItemUpdate olds (drop i news)) process w.
Proof.
  revert i w. induction olds as [|o olds IH]; intros i w Hlen; simpl.
  { done. }
  destruct (drop i news) as [|n rest] eqn:Hd; simpl in Hlen; [lia|].
  assert (Hi : news !! i = Some n).
  { rewrite <- (Nat.add_0_r i), <- lookup_drop, Hd. done. }
  assert (Hrest : drop (S i) news = rest).
  { pose proof (drop_S _ _ _ Hi) as Hs. rewrite Hd in Hs. by injection Hs as <-. }
  rewrite (bind_val (must (news !! i)) _ w n w) by (by rewrite Hi).
  simpl. apply bind_ext. intros [e|] w'; [done|].
  rewrite IH by (rewrite Hrest; lia). by rewrite Hrest.
Qed.

(** [ApplyChanges] runs the items in order and stops at the first error. *)
Lemma ApplyChanges_items changes w :
  (length (UpdateOld changes) <= length (UpdateNew changes))%nat ->
  ApplyChanges changes w = for_each_err (items changes) process w.
Proof.
  intros Hlen. unfold ApplyChanges, items.
  rewrite for_each_err_app. unfold check_then at 1.
  apply bind_ext2; [intros w0; by rewrite for_each_err_map|].
  intros [e|] w1; [done|].
  rewrite for_each_err_app. unfold check_then at 1.
  apply bind_ext2.
  { intros w0. rewrite update_loop_items by (by rewrite drop_0). by rewrite drop_0. }
  intros [e|] w2; [done|].
  rewrite for_each_err_map.
  exact (for_each_err_end (Delete changes) (fun a => process (ItemDelete a)) w2).
Qed.

Lemma all_succeed_run l w w' :
  all_succeed l w w' -> for_each_err l process w = (Val None, w').
Proof.
  induction 1 as [w|x l w w1 w2 Hx _ IH]; simpl.
  { done. }
  by rewrite (bind_val _ _ _ _ _ Hx).
Qed.

Lemma first_error_run pre x post w w1 w2 err :
  all_succeed pre w w1 -> process x w1 = (Val (Some err), w2) ->
  for_each_err (pre ++ x :: post) process w = (Val (Some err), w2).
Proof.
  intros Hpre Hx. rewrite for_each_err_app. unfold check_then.
  rewrite (bind_val _ _ _ _ _ (all_succeed_run _ _ _ Hpre)). simpl.
  by rewrite (bind_val _ _ _ _ _ Hx).
Qed.

(** C9.  On a batch with a new record for every old one,
    [ApplyChanges] takes the items in the order creates, updates
    pair by pair, deletes.  If every item returns nil it returns nil
    after the last one.  If the items before [x] return nil and [x]
    returns an error, it returns that error in the very world [x]
    leaves: no item after [x] has run, and the log shows each item up to
    and including [x] taken up once, in order, and none after it. *)
Theorem ApplyChanges_in_order_until_first_error (changes : Changes) (w : World E) :
  (length (UpdateOld changes) <= length (UpdateNew changes))%nat ->
  (forall w', all_succeed (items changes) w w' ->
     ApplyChanges changes w = (Val None, w')
     /\ log w' = log w ++ map first_line (items changes))
  /\ (forall pre x post w1 w2 err,
        items changes = pre ++ x :: post ->
        all_succeed pre w w1 ->
        process x w1 = (Val (Some err), w2) ->
        ApplyChanges changes w = (Val (Some err), w2)
        /\ log w2 = log w ++ map first_line (pre ++ [x])).
Proof.
  intros Hlen. split.
  - intros w' Hall. rewrite ApplyChanges_items by done. split.
    + by apply all_succeed_run.
    + by apply all_succeed_log.
  - intros pre x post w1 w2 err Hitems Hpre Hx.
    rewrite ApplyChanges_items by done. rewrite Hitems. split.
    + by eapply first_error_run.
    + pose proof (process_log x w1) as Hl. rewrite Hx in Hl. simpl in Hl.
      rewrite Hl, (all_succeed_log _ _ _ Hpre), map_app, <- app_assoc. done.
Qed.


(** ** Results of computations *)

(** [yields Q m]: whenever [m] returns a value, the value satisfies [Q]. *)
Definition yields {A} (Q : A -> Prop) (m : M (World E) A) : Prop :=
  forall w a w', m w = (Val a, w') -> Q a.

Lemma yields_ret {A} (Q : A -> Prop) a : Q a -> yields Q (ret a).
Proof. intros Ha w a' w' [= <- _]. done. Qed.

Lemma yields_bind {A B} (Q : B -> Prop) (m : M (World E) A) (k : A -> M (World E) B) :
  (forall a, yields Q (k a)) -> yields Q (bind m k).
Proof.
  intros Hk w b w' Hb. apply bind_inv in Hb as (a & w1 & _ & Hka). by eapply Hk.
Qed.

Lemma yields_for_each_err {A} (Q : option error -> Prop) (l : list A)
    (body : A -> M (World E) (option error)) :
  Q None -> (forall x, yields (fun r => r = None \/ Q r) (body x)) ->
  yields Q (for_each_err l body).
Proof.
  intros HN Hb. induction l as [|x l IH]; simpl.
  - by apply yields_ret.
  - intros w r w' Hr. apply bind_inv in Hr as (a & w1 & Hx & Hk).
    destruct a as [e|].
    + injection Hk as <- _. destruct (Hb x _ _ _ Hx) as [|]; [done|done].
    + by eapply IH.
Qed.

Lemma bind_assoc {S A B C} (m : M S A) (k : A -> M S B) (k' : B -> M S C) s :
  bind (bind m k) k' s = bind m (fun a => bind (k a) k') s.
Proof. unfold bind. by destruct (m s) as [[a|] s1]. Qed.

(** The first request of a computation that starts with one. *)
Lemma request_then_steps {A B} P c (f : E -> A * E) (k : A -> M (World E) B) w :
  (forall a, steps P (k a)) ->
  exists tr, calls (snd (bind (request c f) k w)) = calls w ++ c :: tr /\ Forall P tr.
Proof.
  intros Hk. unfold bind, request. simpl.
  destruct (Hk (fst (f (env w)))
              (mkWorld (store w) (snd (f (env w))) (calls w ++ [c]) (log w)))
    as [(tr & Htr & HP) _].
  exists tr. split; [|done]. rewrite Htr. simpl. by rewrite <- app_assoc.
Qed.

Lemma HasPrefix_app p s : strings_HasPrefix (p +:+ s) p = true.
Proof.
  induction p as [|a p IH]; simpl.
  - by destruct s.
  - by rewrite Ascii.eqb_refl.
Qed.

Lemma append_cons x (a b : string) : String x a +:+ b = String x (a +:+ b).
Proof. reflexivity. Qed.

Lemma app_assoc_string (a b c : string) : (a +:+ b) +:+ c = a +:+ (b +:+ c).
Proof.
  induction a as [|x a IH].
  - done.
  - by rewrite !append_cons, IH.
Qed.

Lemma nonempty_or_self n : (if str_empty n then "" else n) = n.
Proof. by destruct n. Qed.

(** ** createEndpoint *)

Lemma with_generated_names_ResourceGroup dnsName endpoint config :
  ResourceGroup (with_generated_names dnsName endpoint config) = ResourceGroup config.
Proof.
  unfold with_generated_names. destruct (str_empty (ProfileName config)); cbn;
    match goal with |- context [if ?b then _ else _] => destruct b end; done.
Qed.

Lemma createEndpoint_targetList_nonempty endpoint :
  exists t ts, createEndpoint_targetList endpoint = t :: ts.
Proof.
  unfold createEndpoint_targetList. cbv zeta. destruct (negb _ && _) eqn:Hb; [|eauto].
  destruct (Targets endpoint) as [|t ts]; [|eauto].
  apply andb_true_iff in Hb as [_ Hb]. done.
Qed.

(** A reply the client can turn into a profile state: it carries a name,
    and every named endpoint carries a type. *)
Definition well_formed_reply (p : armtrafficmanager.Profile) : Prop :=
  is_Some (armtrafficmanager.Profile_Name p)
  /\ Forall (fun e => is_Some (armtrafficmanager.Endpoint_Name e) ->
                      is_Some (armtrafficmanager.Endpoint_Type e))
       (match armtrafficmanager.Profile_Properties p with
        | Some props => armtrafficmanager.Endpoints props
        | None => []
        end).

Lemma endpointResponseToState_ok e w :
  is_Some (armtrafficmanager.Endpoint_Type e) ->
  exists st, trafficmanager.endpointResponseToState e w = (Val st, w).
Proof.
  intros [ty Hty]. unfold trafficmanager.endpointResponseToState. rewrite Hty.
  unfold bind, must, ret, time_Now. eauto.
Qed.

Lemma endpointsToState_ok l acc w :
  Forall (fun e => is_Some (armtrafficmanager.Endpoint_Name e) ->
                   is_Some (armtrafficmanager.Endpoint_Type e)) l ->
  exists r, trafficmanager.endpointsToState l acc w = (Val r, w).
Proof.
  intros Hl. revert acc. induction Hl as [|e l He _ IH]; intros acc; simpl; [eauto|].
  destruct (armtrafficmanager.Endpoint_Name e) as [n|] eqn:Hn; [|apply IH].
  destruct (endpointResponseToState_ok e w) as [st Hst]; [eauto|].
  rewrite (bind_val _ _ _ _ _ Hst). apply IH.
Qed.

Lemma profileResponseToState_ok rg p w :
  well_formed_reply p -> exists st, trafficmanager.profileResponseToState rg p w = (Val st, w).
Proof.
  intros [[name Hname] Heps]. unfold trafficmanager.profileResponseToState.
  rewrite Hname.
  rewrite (bind_val (must (Some name)) _ w name w) by done.
  rewrite (bind_val time_Now _ w (clock (env w)) w) by done.
  rewrite (bind_val time_Now _ w (clock (env w)) w) by done.
  destruct (endpointsToState_ok _ ∅ w Heps) as [r Hr].
  rewrite (bind_val _ _ _ _ _ Hr). eauto.
Qed.


(** [createEndpoint] past its checks. *)
Lemma createEndpoint_enabled endpoint config w :
  RecordType endpoint <> "TXT" ->
  ParseConfig (annotationMap endpoint) = inl config ->
  Enabled config = true ->
  ValidateConfig config = None ->
  createEndpoint endpoint w
  = (let vanityHostname := vanityHostname_of endpoint config in
     let config := with_generated_names vanityHostname endpoint config in
     check_then (createEndpoint_profile config vanityHostname)
       (check_then (createEndpoint_targets endpoint config vanityHostname)
          (bind (createEndpoint_refresh endpoint config vanityHostname) (fun _ => ret None))))
      (logged (LogCreatingEndpoint (DNSName endpoint)) w).
Proof.
  intros Htxt Hparse Hen Hval. unfold createEndpoint.
  rewrite (bind_val (logInfo _) _ w tt (logged (LogCreatingEndpoint (DNSName endpoint)) w))
    by reflexivity.
  rewrite (proj2 (String.eqb_neq _ _) Htxt), Hparse, Hen. cbn [negb]. by rewrite Hval.
Qed.

(** The profile request of a Create. *)
Definition create_profileConfig (endpoint : Endpoint) (config : TrafficManagerConfig)
  : trafficmanager.ProfileConfig :=
  let vanityHostname := vanityHostname_of endpoint config in
  let profileConfig :=
    ToProfileConfig (with_generated_names vanityHostname endpoint config) in
  trafficmanager.set_Tags
    (<["hostname" := vanityHostname]> (trafficmanager.Tags profileConfig)) profileConfig.

Definition create_profileName (endpoint : Endpoint) (config : TrafficManagerConfig) : string :=
  ProfileName (with_generated_names (vanityHostname_of endpoint config) endpoint config).

Definition create_request (endpoint : Endpoint) (config : TrafficManagerConfig)
  : armtrafficmanager.Profile :=
  trafficmanager.profileRequest (create_profileConfig endpoint config)
    (Some (create_profileName endpoint config)).

Definition sent (cs : list Call) (e' : E) (w : World E) : World E :=
  mkWorld (store w) e' (calls w ++ cs) (log w).

Lemma request_eq {A} c (f : E -> A * E) w a e' :
  f (env w) = (a, e') -> request c f w = (Val a, sent [c] e' w).
Proof. intros Hf. unfold request, sent. by rewrite Hf. Qed.

Lemma sent_sent cs cs' e1 e2 w : sent cs' e2 (sent cs e1 w) = sent (cs ++ cs') e2 w.
Proof. unfold sent. simpl. by rewrite <- app_assoc. Qed.

Lemma createEndpoint_profile_both_fail endpoint config w e1 env1 e2 env2 :
  let rg := ResourceGroup config in
  let name := create_profileName endpoint config in
  profilesClient_CreateOrUpdate rg name (create_request endpoint config) (env w) = (inr e1, env1) ->
  profilesClient_Get rg name env1 = (inr e2, env2) ->
  exists err,
    createEndpoint_profile
      (with_generated_names (vanityHostname_of endpoint config) endpoint config)
      (vanityHostname_of endpoint config) w
    = (Val (Some err),
       sent [ProfilesCreateOrUpdate rg name (create_request endpoint config); ProfilesGet rg name]
         env2 w)
    /\ strings_HasPrefix (Error err) "failed to create/get profile: " = true.
Proof.
  intros rg name Hc Hg. eexists. split.
  - unfold createEndpoint_profile, trafficmanager.CreateProfile. cbv zeta.
    change (trafficmanager.ResourceGroup _) with
      (ResourceGroup (with_generated_names (vanityHostname_of endpoint config) endpoint config)).
    change (trafficmanager.ProfileName _) with
      (if str_empty (create_profileName endpoint config) then ""
       else create_profileName endpoint config).
    rewrite nonempty_or_self, with_generated_names_ResourceGroup.
    rewrite bind_assoc.
    erewrite bind_val by (apply request_eq; exact Hc). cbn beta iota.
    rewrite (bind_val (ret _) _ _ _ _ eq_refl).
    unfold trafficmanager.GetProfile. rewrite bind_assoc.
    erewrite bind_val by (apply request_eq; exact Hg). cbn beta iota.
    rewrite (bind_val (ret _) _ _ _ _ eq_refl).
    rewrite sent_sent. reflexivity.
  - cbn [Error]. apply HasPrefix_app.
Qed.


Lemma createEndpoint_profile_fallback endpoint config w e1 env1 existing env2 :
  let rg := ResourceGroup config in
  let name := create_profileName endpoint config in
  profilesClient_CreateOrUpdate rg name (create_request endpoint config) (env w) = (inr e1, env1) ->
  profilesClient_Get rg name env1 = (inl existing, env2) ->
  well_formed_reply existing ->
  createEndpoint_profile
    (with_generated_names (vanityHostname_of endpoint config) endpoint config)
    (vanityHostname_of endpoint config) w
  = (Val None,
     sent [ProfilesCreateOrUpdate rg name (create_request endpoint config); ProfilesGet rg name]
       env2 w).
Proof.
  intros rg name Hc Hg Hwf.
  unfold createEndpoint_profile, trafficmanager.CreateProfile. cbv zeta.
  change (trafficmanager.ResourceGroup _) with
    (ResourceGroup (with_generated_names (vanityHostname_of endpoint config) endpoint config)).
  change (trafficmanager.ProfileName _) with
    (if str_empty (create_profileName endpoint config) then ""
     else create_profileName endpoint config).
  rewrite nonempty_or_self, with_generated_names_ResourceGroup.
  rewrite bind_assoc.
  erewrite bind_val by (apply request_eq; exact Hc). cbn beta iota.
  rewrite (bind_val (ret _) _ _ _ _ eq_refl).
  unfold trafficmanager.GetProfile. rewrite bind_assoc.
  erewrite bind_val by (apply request_eq; exact Hg). cbn beta iota.
  destruct (profileResponseToState_ok rg existing (sent [ProfilesGet rg name] env2
              (sent [ProfilesCreateOrUpdate rg name (create_request endpoint config)] env1 w)) Hwf)
    as [st Hst].
  rewrite bind_assoc. rewrite (bind_val _ _ _ _ _ Hst).
  rewrite (bind_val (ret _) _ _ _ _ eq_refl).
  rewrite sent_sent. reflexivity.
Qed.

Lemma yields_bind_with {A B} (P : A -> Prop) (Q : B -> Prop)
    (m : M (World E) A) (k : A -> M (World E) B) :
  yields P m -> (forall a, P a -> yields Q (k a)) -> yields Q (bind m k).
Proof.
  intros Hm Hk w b w' Hb. apply bind_inv in Hb as (a & w1 & Hma & Hka).
  eapply Hk; [by eapply Hm | done].
Qed.

(** An error of the endpoint-creation block says so. *)
Definition from_endpoint_creation (r : option error) : Prop :=
  forall err, r = Some err -> strings_HasPrefix (Error err) "failed to create endpoint " = true.

Definition from_endpoint_creation_result (r : outcome (option error)) : Prop :=
  match r with
  | Val r => from_endpoint_creation r
  | Panicked => True
  end.

Lemma createEndpoint_targets_error endpoint config vanity :
  yields from_endpoint_creation (createEndpoint_targets endpoint config vanity).
Proof.
  unfold createEndpoint_targets. cbv zeta. apply yields_for_each_err; [by intros ? [=]|].
  intros it. unfold createEndpoint_target. cbv zeta. apply yields_bind. intros [st|err].
  - apply yields_bind. intros l. apply yields_bind. intros _. apply yields_ret. by left.
  - apply yields_ret. right. intros err' [= <-]. cbn [Errorf_w Error].
    rewrite app_assoc_string. apply HasPrefix_app.
Qed.


Lemma steps_createEndpoint_target endpoint config vanity it :
  steps any_call (createEndpoint_target endpoint config vanity it).
Proof.
  unfold createEndpoint_target, convertToStateEndpoint. cbv zeta. steps_full; exact I.
Qed.

Lemma steps_createEndpoint_refresh endpoint config vanity :
  steps any_call (createEndpoint_refresh endpoint config vanity).
Proof.
  unfold createEndpoint_refresh, profile_FQDN, assign_Hostname. steps_full; exact I.
Qed.

(** The first request of the endpoint-creation block, and of whatever
    follows it, is the creation of the first target's endpoint. *)
Lemma createEndpoint_targets_first_request endpoint config vanity
    (k : M (World E) (option error)) w :
  steps any_call k ->
  exists t ts first tr,
    createEndpoint_targetList endpoint = t :: ts
    /\ calls (snd (check_then (createEndpoint_targets endpoint config vanity) k w))
       = calls w
         ++ EndpointsCreateOrUpdate (ResourceGroup config) (ProfileName config)
              (trafficmanager.EndpointType (createEndpoint_endpointConfig endpoint config 0 t))
              (trafficmanager.EndpointName (createEndpoint_endpointConfig endpoint config 0 t))
              first
            :: tr.
Proof.
  intros Hk. destruct (createEndpoint_targetList_nonempty endpoint) as (t & ts & Ht).
  exists t, ts. unfold createEndpoint_targets. cbv zeta. rewrite Ht.
  cbn [length seq combine for_each_err].
  unfold check_then. rewrite bind_assoc.
  unfold createEndpoint_target at 1. cbv zeta. rewrite bind_assoc.
  unfold trafficmanager.CreateEndpoint. cbv zeta. rewrite bind_assoc.
  cbn [fst snd].
  match goal with
  | |- context [bind (request (EndpointsCreateOrUpdate _ _ _ _ ?e) ?f) ?K w] =>
      destruct (request_then_steps any_call
                  (EndpointsCreateOrUpdate (ResourceGroup config) (ProfileName config)
                     (trafficmanager.EndpointType (createEndpoint_endpointConfig endpoint config 0 t))
                     (trafficmanager.EndpointName (createEndpoint_endpointConfig endpoint config 0 t))
                     e) f K w) as (tr & Htr & _);
        [|exists e, tr; split; [reflexivity | exact Htr]]
  end.
  intros a. unfold convertToStateEndpoint.
  steps_full; try exact I; try apply steps_createEndpoint_target; try exact Hk.
Qed.

(** C1.  A Create that reaches the profile step - a record that is not
    TXT, with annotations that parse, enable the feature and validate -
    and whose profile creation request fails, next asks for the profile
    by its name.  If that request fails too, the Create returns an error
    that starts "failed to create/get profile" and sends nothing more.
    If it succeeds, the Create goes on: its next request creates the
    endpoint of the first target under that same profile, and an error
    it may still return comes from endpoint creation. *)
Theorem createEndpoint_falls_back_to_existing_profile
    (endpoint : Endpoint) (config : TrafficManagerConfig) (w : World E)
    (e1 : error) (env1 : E) :
  RecordType endpoint <> "TXT" ->
  ParseConfig (annotationMap endpoint) = inl config ->
  Enabled config = true ->
  ValidateConfig config = None ->
  let rg := ResourceGroup config in
  let name := create_profileName endpoint config in
  let req := create_request endpoint config in
  profilesClient_CreateOrUpdate rg name req (env w) = (inr e1, env1) ->
  (forall e2 env2,
     profilesClient_Get rg name env1 = (inr e2, env2) ->
     exists err,
       createEndpoint endpoint w
       = (Val (Some err),
          sent [ProfilesCreateOrUpdate rg name req; ProfilesGet rg name] env2
            (logged (LogCreatingEndpoint (DNSName endpoint)) w))
       /\ strings_HasPrefix (Error err) "failed to create/get profile: " = true)
  /\ (forall existing env2,
        profilesClient_Get rg name env1 = (inl existing, env2) ->
        well_formed_reply existing ->
        (exists ty en first tr,
           calls (snd (createEndpoint endpoint w))
           = calls w
             ++ [ProfilesCreateOrUpdate rg name req; ProfilesGet rg name;
                 EndpointsCreateOrUpdate rg name ty en first]
             ++ tr)
        /\ from_endpoint_creation_result (fst (createEndpoint endpoint w))).
Proof.
  intros Htxt Hparse Hen Hval rg name req Hc.
  rewrite (createEndpoint_enabled endpoint config w) by done. cbv zeta.
  set (w0 := logged (LogCreatingEndpoint (DNSName endpoint)) w).
  set (vanity := vanityHostname_of endpoint config).
  set (c := with_generated_names vanity endpoint config).
  split.
  - intros e2 env2 Hg.
    destruct (createEndpoint_profile_both_fail endpoint config w0 e1 env1 e2 env2 Hc Hg)
      as (err & Hrun & Hpre).
    exists err. split; [|done]. unfold check_then at 1.
    by rewrite (bind_val _ _ _ _ _ Hrun).
  - intros existing env2 Hg Hwf.
    pose proof (createEndpoint_profile_fallback endpoint config w0 e1 env1 existing env2
                  Hc Hg Hwf) as Hrun.
    assert (Heq :
      check_then (createEndpoint_profile c vanity)
        (check_then (createEndpoint_targets endpoint c vanity)
           (bind (createEndpoint_refresh endpoint c vanity) (fun _ => ret None))) w0
      = check_then (createEndpoint_targets endpoint c vanity)
          (bind (createEndpoint_refresh endpoint c vanity) (fun _ => ret None))
          (sent [ProfilesCreateOrUpdate rg name req; ProfilesGet rg name] env2 w0)).
    { unfold check_then at 1. by rewrite (bind_val _ _ _ _ _ Hrun). }
    rewrite Heq. clear Heq.
    split.
    + edestruct (createEndpoint_targets_first_request endpoint c vanity
                  (bind (createEndpoint_refresh endpoint c vanity) (fun _ => ret None)))
        as (t & ts & first & tr & _ & Hcalls).
      { apply steps_bind; [apply steps_createEndpoint_refresh | intros; apply steps_ret]. }
      eexists _, _, first, tr. rewrite Hcalls. unfold sent. cbn [calls].
      rewrite <- !app_assoc. cbn [app]. do 4 f_equal.
      subst c. by rewrite with_generated_names_ResourceGroup.
    + unfold from_endpoint_creation_result.
      destruct (check_then _ _ _) as [[r|] w'] eqn:Hres; [|done]. cbn [fst].
      revert Hres. apply (yields_bind_with from_endpoint_creation
                            from_endpoint_creation);
        [apply createEndpoint_targets_error|].
      intros [err|] Herr; [by apply yields_ret|].
      apply yields_bind. intros _. apply yields_ret. by intros ? [=].
Qed.


(** ** updateEndpoint *)

Definition is_profile_update (c : Call) : bool :=
  match c with ProfilesCreateOrUpdate _ _ _ => true | _ => false end.

Definition is_endpoint_update (c : Call) : bool :=
  match c with EndpointsCreateOrUpdate _ _ _ _ _ => true | _ => false end.

(** How many of the calls [l] satisfy [f]. *)
Definition count_calls (f : Call -> bool) (l : list Call) : nat :=
  length (List.filter f l).

Lemma count_calls_none f l : Forall (fun c => f c = false) l -> count_calls f l = 0%nat.
Proof.
  unfold count_calls. induction 1 as [|c l Hc _ IH]; simpl; [done|]. by rewrite Hc.
Qed.

(** The old and the new configuration agree on the profile's fields. *)
Definition same_profile_fields (oc nc : TrafficManagerConfig) : Prop :=
  RoutingMethod oc = RoutingMethod nc
  /\ DNSTTL oc = DNSTTL nc
  /\ MonitorProtocol oc = MonitorProtocol nc
  /\ MonitorPort oc = MonitorPort nc
  /\ MonitorPath oc = MonitorPath nc
  /\ HealthChecksEnabled oc = HealthChecksEnabled nc.

Lemma with_generated_names_fields d e c :
  let c' := with_generated_names d e c in
  RoutingMethod c' = RoutingMethod c /\ DNSTTL c' = DNSTTL c
  /\ MonitorProtocol c' = MonitorProtocol c /\ MonitorPort c' = MonitorPort c
  /\ MonitorPath c' = MonitorPath c /\ HealthChecksEnabled c' = HealthChecksEnabled c
  /\ Weight c' = Weight c /\ EndpointStatus c' = EndpointStatus c.
Proof.
  unfold with_generated_names. cbv zeta.
  destruct (str_empty (ProfileName c)); cbn;
    match goal with |- context [if ?b then _ else _] => destruct b end; by repeat split.
Qed.

Lemma profile_unchanged oc nc d e :
  same_profile_fields oc nc -> profile_changed (Some oc) (with_generated_names d e nc) = false.
Proof.
  intros (H1 & H2 & H3 & H4 & H5 & H6).
  destruct (with_generated_names_fields d e nc) as (E1 & E2 & E3 & E4 & E5 & E6 & _).
  cbv zeta in *. unfold profile_changed. rewrite E1, E2, E3, E4, E5, E6.
  rewrite H1, H2, H3, H4, H5, H6.
  rewrite !String.eqb_refl, !Z.eqb_refl. by destruct (HealthChecksEnabled nc).
Qed.

Definition no_update : Call -> Prop :=
  fun c => is_profile_update c = false /\ is_endpoint_update c = false.

Definition no_profile_update : Call -> Prop := fun c => is_profile_update c = false.

Lemma steps_updateEndpoint_target new oc nc t :
  steps no_profile_update (updateEndpoint_target new oc nc t).
Proof.
  unfold updateEndpoint_target, convertToStateEndpoint. cbv zeta. steps_full; done.
Qed.

Lemma steps_updateEndpoint_refresh (P : Call -> Prop) new nc :
  (forall rg n, P (ProfilesGet rg n)) -> steps P (updateEndpoint_refresh new nc).
Proof.
  intros HP. unfold updateEndpoint_refresh, assign_Hostname. steps_full; apply HP.
Qed.

(** [updateEndpoint] past its checks. *)
Lemma updateEndpoint_enabled old new nc w :
  ParseConfig (Labels new) = inl nc ->
  Enabled nc = true ->
  ValidateConfig nc = None ->
  updateEndpoint old new w
  = (let oldConfig := match ParseConfig (Labels old) with
                      | inl c => Some c
                      | inr _ => None
                      end in
     let newConfig := with_generated_names (DNSName new) new nc in
     check_then (updateEndpoint_profile new oldConfig newConfig)
       (check_then (for_each_err (Targets new) (updateEndpoint_target new oldConfig newConfig))
          (bind (updateEndpoint_refresh new newConfig) (fun _ => ret None))))
      (logged (LogUpdatingEndpoint (DNSName new)) w).
Proof.
  intros Hparse Hen Hval. unfold updateEndpoint.
  rewrite (bind_val (logInfo _) _ w tt (logged (LogUpdatingEndpoint (DNSName new)) w))
    by reflexivity.
  rewrite Hparse, Hen. cbn [negb]. by rewrite Hval.
Qed.

Lemma updateEndpoint_quiet old new nc w :
  ParseConfig (Labels new) = inl nc ->
  (Enabled nc = false \/ ValidateConfig nc <> None) ->
  calls (snd (updateEndpoint old new w)) = calls w.
Proof.
  intros Hparse Hcase. unfold updateEndpoint.
  rewrite (bind_val (logInfo _) _ w tt (logged (LogUpdatingEndpoint (DNSName new)) w))
    by reflexivity.
  rewrite Hparse. destruct (Enabled nc); cbn [negb]; [|done].
  destruct (ValidateConfig nc); [done|]. by destruct Hcase.
Qed.

(** C4.  When the old and the new labels parse and the two
    configurations agree on routing method, DNS TTL, monitor protocol,
    port and path and the health-checks flag, an Update sends no profile
    update.  When moreover the new configuration passes validation, the
    endpoint has one target and the two configurations differ in the
    weight and in nothing else, the Update sends exactly one endpoint
    update, as its first request, and no profile update. *)
Theorem updateEndpoint_sends_only_what_changed
    (old new : Endpoint) (oc nc : TrafficManagerConfig) (w : World E) :
  ParseConfig (Labels old) = inl oc ->
  ParseConfig (Labels new) = inl nc ->
  same_profile_fields oc nc ->
  exists tr,
    calls (snd (updateEndpoint old new w)) = calls w ++ tr
    /\ count_calls is_profile_update tr = 0%nat
    /\ (ValidateConfig nc = None ->
         (exists t, Targets new = [t]) ->
         set_Weight (Weight nc) oc = nc ->
         Weight oc <> Weight nc ->
         count_calls is_endpoint_update tr = 1%nat
         /\ exists c rest, tr = c :: rest /\ is_endpoint_update c = true).
Proof.
  intros Hold Hnew Hsame.
  destruct (Enabled nc) eqn:Hen; [destruct (ValidateConfig nc) as [verr|] eqn:Hval|].
  - (* invalid: nothing is sent *)
    exists []. rewrite app_nil_r. split_and!; [|done|done].
    apply (updateEndpoint_quiet old new nc); [done | right; by rewrite Hval].
  - (* enabled and valid *)
    rewrite (updateEndpoint_enabled old new nc w) by done. cbv zeta. rewrite Hold.
    set (w0 := logged (LogUpdatingEndpoint (DNSName new)) w).
    set (nc' := with_generated_names (DNSName new) new nc).
    assert (Hstep : updateEndpoint_profile new (Some oc) nc' w0 = (Val None, w0)).
    { unfold updateEndpoint_profile. subst nc'. by rewrite profile_unchanged. }
    unfold check_then at 1. rewrite (bind_val _ _ _ _ _ Hstep).
    fold (check_then (for_each_err (Targets new) (updateEndpoint_target new (Some oc) nc'))
            (bind (updateEndpoint_refresh new nc') (fun _ => ret None))).
    assert (Hrest : steps no_profile_update
              (check_then (for_each_err (Targets new) (updateEndpoint_target new (Some oc) nc'))
                 (bind (updateEndpoint_refresh new nc') (fun _ => ret None)))).
    { unfold check_then. apply steps_bind.
      - apply steps_for_each_err. intros t. apply steps_updateEndpoint_target.
      - intros [e|]; [apply steps_ret|].
        apply steps_bind; [by apply steps_updateEndpoint_refresh | intros; apply steps_ret]. }
    destruct (Hrest w0) as [(tr & Htr & HP) _].
    exists tr. split_and!; [exact Htr | by apply count_calls_none |].
    intros _ [t Ht] Hw Hne.
    assert (Hch : endpoint_changed (Some oc) nc' = true).
    { unfold endpoint_changed. subst nc'.
      destruct (with_generated_names_fields (DNSName new) new nc)
        as (_ & _ & _ & _ & _ & _ & E7 & _).
      cbv zeta in E7. rewrite E7. by rewrite (proj2 (Z.eqb_neq _ _) Hne). }
    revert Htr. rewrite Ht. cbn [for_each_err]. unfold check_then. rewrite bind_assoc.
    unfold updateEndpoint_target at 1. cbv zeta. rewrite Hch. rewrite bind_assoc.
    unfold trafficmanager.UpdateEndpoint. cbv zeta. rewrite bind_assoc.
    match goal with
    | |- context [bind (request ?c ?f) ?K w0] =>
        destruct (request_then_steps no_update c f K w0) as (tr' & Htr' & HP')
    end.
    { intros a. unfold convertToStateEndpoint.
      steps_full; try done; try (apply steps_updateEndpoint_refresh; done). }
    rewrite Htr'. intros Heq. apply app_inv_head in Heq. subst tr. split.
    + unfold count_calls. cbn [List.filter is_endpoint_update length].
      assert (Hz : count_calls is_endpoint_update tr' = 0%nat).
      { apply count_calls_none. eapply Forall_impl; [exact HP' | by intros ? []]. }
      unfold count_calls in Hz. by rewrite Hz.
    + eauto.
  - (* disabled: nothing is sent *)
    exists []. rewrite app_nil_r. split_and!; [|done|].
    + apply (updateEndpoint_quiet old new nc); [done | by left].
    + intros _ _ Hw Hne. exfalso. apply Hne.
      rewrite (ParseConfig_disabled_is_default _ _ Hnew Hen).
      rewrite (ParseConfig_disabled_is_default _ _ Hold); [done|].
      rewrite <- Hw in Hen. exact Hen.
Qed.

End Engine.

Import state mirror.

(** ** Well-formed stores, by inspection *)

(** [l] points to a profile whose maps are allocated and hold pointers
    to allocated endpoints. *)
Definition live (s : Store) (l : loc) : Prop :=
  exists p, profileObjs s !! l = Some p
    /\ match Endpoints p with
       | None => True
       | Some em =>
           exists acc, endpointMaps s !! em = Some acc
             /\ map_Forall (fun _ e => is_Some (endpointObjs s !! e)) acc
       end
    /\ match Tags p with
       | None => True
       | Some tm => is_Some (tagMaps s !! tm)
       end.

Lemma live_has_value s l : live s l <-> exists v, has_value s l v.
Proof.
  split.
  - intros (p & Hp & Hep & Htg).
    exists (mkProfileValue (ProfileName p) (ResourceGroup p) (Hostname p) (FQDN p)
              (RoutingMethod p) (DNSTTL p)
              (match Endpoints p with
               | Some em => omap (fun e => endpointObjs s !! e)
                              (default ∅ (endpointMaps s !! em))
               | None => ∅
               end)
              (match Tags p with
               | Some tm => default ∅ (tagMaps s !! tm)
               | None => ∅
               end)
              (CreatedAt p) (UpdatedAt p) (CachedAt p)).
    exists p. split_and!; [done | by repeat split | |].
    + simpl. destruct (Endpoints p) as [em|]; simpl; [|done].
      destruct Hep as (acc & Hacc & Hall). exists acc. rewrite Hacc. by split_and!.
    + simpl. destruct (Tags p) as [tm|]; simpl; [|done].
      destruct Htg as [T HT]. by rewrite HT.
  - intros (v & p & Hp & _ & Hep & Htg). exists p. split_and!; [done| |].
    + destruct (Endpoints p) as [em|]; simpl in *; [|done].
      destruct Hep as (acc & ? & ? & _). eauto.
    + destruct (Tags p) as [tm|]; simpl in *; [|done]. eauto.
Qed.

Definition is_some {A} (o : option A) : bool :=
  match o with Some _ => true | None => false end.

(** The same, as a check that can be run on a given store. *)
Definition liveb (s : Store) (l : loc) : bool :=
  match profileObjs s !! l with
  | None => false
  | Some p =>
      match Endpoints p with
      | None => true
      | Some em =>
          match endpointMaps s !! em with
          | None => false
          | Some acc =>
              forallb (fun ke => is_some (endpointObjs s !! ke.2)) (map_to_list acc)
          end
      end
      && match Tags p with
         | None => true
         | Some tm => is_some (tagMaps s !! tm)
         end
  end.

Definition wf_storeb (s : Store) : bool :=
  forallb (fun hl => liveb s hl.2) (map_to_list (profiles s)).

Lemma is_some_true {A} (o : option A) : is_some o = true -> is_Some o.
Proof. destruct o; [eauto | done]. Qed.

Lemma liveb_live s l : liveb s l = true -> live s l.
Proof.
  unfold liveb. destruct (profileObjs s !! l) as [p|] eqn:Hp; [|done].
  intros [Hep Htg]%andb_true_iff. exists p. split_and!; [done| |].
  - destruct (Endpoints p) as [em|]; [|done].
    destruct (endpointMaps s !! em) as [acc|]; [|done].
    exists acc. split; [done|]. intros k e Hk.
    rewrite forallb_forall in Hep. apply is_some_true.
    apply (Hep (k, e)). apply list_elem_of_In. by apply elem_of_map_to_list.
  - destruct (Tags p) as [tm|]; [|done]. by apply is_some_true.
Qed.

Lemma wf_storeb_sound s : wf_storeb s = true -> wf_store s.
Proof.
  unfold wf_storeb. rewrite forallb_forall. intros Hall h l Hl.
  apply live_has_value, liveb_live. apply (Hall (h, l)).
  apply list_elem_of_In. by apply elem_of_map_to_list.
Qed.

(** What keeps a profile live from one store to another. *)
Lemma live_preserved s t l :
  (forall l p, profileObjs s !! l = Some p ->
     exists p', profileObjs t !! l = Some p'
       /\ Endpoints p' = Endpoints p /\ Tags p' = Tags p) ->
  (forall em acc, endpointMaps s !! em = Some acc ->
     exists acc', endpointMaps t !! em = Some acc' /\ acc' ⊆ acc) ->
  endpointObjs s ⊆ endpointObjs t ->
  (forall tm, is_Some (tagMaps s !! tm) -> is_Some (tagMaps t !! tm)) ->
  live s l -> live t l.
Proof.
  intros Hprof Hmaps Hobjs Htags (p & Hp & Hep & Htg).
  destruct (Hprof l p Hp) as (p' & Hp' & He & Ht). exists p'.
  rewrite He, Ht. split_and!; [done| |].
  - destruct (Endpoints p) as [em|]; [|done].
    destruct Hep as (acc & Hacc & Hall).
    destruct (Hmaps em acc Hacc) as (acc' & Hacc' & Hsub).
    exists acc'. split; [done|]. intros k e Hk.
    destruct (Hall k e (lookup_weaken _ _ _ _ Hk Hsub)) as [x Hx].
    exists x. by eapply lookup_weaken.
  - destruct (Tags p) as [tm|]; [|done]. by apply Htags.
Qed.

(** [Manager.DeleteEndpoint] returns on a well-formed store, leaves it
    well-formed and keeps the manager's entries. *)
Lemma DeleteEndpoint_wf s now1 now2 h n :
  wf_store s ->
  exists t, DeleteEndpoint now1 now2 h n s = (Val tt, t)
    /\ wf_store t /\ profiles t = profiles s.
Proof.
  intros Hwf. unfold DeleteEndpoint. rewrite (bind_val get _ s s s eq_refl).
  destruct (profiles s !! h) as [l|] eqn:Hh; [|by exists s].
  destruct (proj2 (live_has_value s l) (Hwf h l Hh)) as (p & Hp & Hep & Htg).
  erewrite bind_val by (by apply load_profile_eq).
  set (s1 := match Endpoints p with
             | Some m =>
                 with_endpointMaps
                   (insert m (delete n (default ∅ (endpointMaps s !! m)))) s
             | None => s
             end).
  assert (Hstep : match Endpoints p with
                  | Some m => endpointMap_delete m n
                  | None => ret tt
                  end s = (Val tt, s1)).
  { unfold s1. destruct (Endpoints p) as [m|]; [|done].
    destruct Hep as (acc & Hacc & _). unfold endpointMap_delete, bind, get, put.
    simpl. by rewrite Hacc. }
  erewrite bind_val by exact Hstep.
  assert (Hp1 : profileObjs s1 !! l = Some p).
  { unfold s1. by destruct (Endpoints p). }
  erewrite bind_val by (by apply load_profile_eq).
  erewrite bind_val by (by eapply store_profile_eq).
  erewrite bind_val by (apply load_profile_eq; simpl; apply lookup_insert_eq).
  eexists. split.
  { eapply store_profile_eq. simpl. apply lookup_insert_eq. }
  assert (Hprofiles : profiles s1 = profiles s).
  { unfold s1. by destruct (Endpoints p). }
  split; [|done].
  intros h' l' Hl'. simpl in Hl'. rewrite Hprofiles in Hl'.
  apply live_has_value. apply (live_preserved s); [..|by apply live_has_value, (Hwf h')].
  - intros l0 q Hq. simpl. rewrite insert_insert_eq.
    destruct (decide (l = l0)) as [<-|Hne].
    + rewrite lookup_insert_eq. assert (q = p) as -> by congruence. eauto.
    + rewrite lookup_insert_ne by done. exists q. split; [|done].
      unfold s1. by destruct (Endpoints p).
  - intros em acc Hacc. simpl. unfold s1. destruct (Endpoints p) as [m|]; [|eauto].
    simpl. destruct (decide (m = em)) as [->|Hne].
    + rewrite lookup_insert_eq, Hacc. simpl. eexists. split; [done|].
      apply delete_subseteq.
    + rewrite lookup_insert_ne by done. eauto.
  - simpl. unfold s1. by destruct (Endpoints p).
  - intros tm. simpl. unfold s1. by destruct (Endpoints p).
Qed.

Section Refetch.
Context {E : Type} `{Environment E} {tables : Unicode}.
Import provider.

Definition with_store (s : Store) (w : World E) : World E :=
  mkWorld s (env w) (calls w) (log w).

Lemma on_store_eq {A} (m : M Store A) (w : World E) r s' :
  m (store w) = (r, s') -> on_store m w = (r, with_store s' w).
Proof. intros Hm. unfold on_store, with_store. by rewrite Hm. Qed.

Lemma with_store_store (w : World E) : with_store (store w) w = w.
Proof. by destruct w. Qed.

(** The endpoint loop of [profileToState]: the map [em] of the new
    profile is filled with pointers to new, live endpoint objects. *)
Lemma profileToState_endpoints em (l : list armtrafficmanager.Endpoint) :
  forall (w0 : World E) acc,
    endpointMaps (store w0) !! em = Some acc ->
    map_Forall (fun _ e => is_Some (endpointObjs (store w0) !! e)) acc ->
    exists s1 acc',
      for_each l
        (fun endpoint =>
           match armtrafficmanager.Endpoint_Name endpoint with
           | Some n =>
               let* endpointState := trafficmanager.endpointToState n endpoint in
               on_store (endpointMap_set em n endpointState)
           | None => ret tt
           end) w0
      = (Val tt, with_store s1 w0)
      /\ endpointMaps s1 = <[em := acc']> (endpointMaps (store w0))
      /\ map_Forall (fun _ e => is_Some (endpointObjs s1 !! e)) acc'
      /\ dom acc' = dom acc ∪ list_to_set (omap armtrafficmanager.Endpoint_Name l)
      /\ endpointObjs (store w0) ⊆ endpointObjs s1
      /\ profileObjs s1 = profileObjs (store w0)
      /\ tagMaps s1 = tagMaps (store w0)
      /\ profiles s1 = profiles (store w0)
      /\ cacheTTL s1 = cacheTTL (store w0).
Proof.
  induction l as [|e l IH]; intros w0 acc Hem Hall.
  - exists (store w0), acc. rewrite with_store_store.
    split_and!; try done; [symmetry; by apply insert_id | set_solver].
  - cbn [for_each]. destruct (armtrafficmanager.Endpoint_Name e) as [n|] eqn:Hn.
    + set (obj := state.mkEndpointState n
                    (default "" (armtrafficmanager.Endpoint_Type e))
                    (default "" (armtrafficmanager.Endpoint_Properties e
                                 ≫= armtrafficmanager.Target))
                    (default 0 (armtrafficmanager.Endpoint_Properties e
                                ≫= armtrafficmanager.Weight))
                    (default 0 (armtrafficmanager.Endpoint_Properties e
                                ≫= armtrafficmanager.Priority))
                    (default "" (armtrafficmanager.Endpoint_Properties e
                                 ≫= armtrafficmanager.EndpointStatus))
                    (default "" (armtrafficmanager.Endpoint_Properties e
                                 ≫= armtrafficmanager.EndpointLocation))
                    (clock (env w0)) (clock (env w0))).
      set (e' := fresh (dom (endpointObjs (store w0)))).
      set (s1 := with_endpointObjs (insert e' obj) (store w0)).
      set (s2 := with_endpointMaps (insert em (<[n := e']> acc)) s1).
      assert (He' : endpointObjs (store w0) !! e' = None) by apply fresh_endpoint.
      destruct (IH (with_store s2 w0) (<[n := e']> acc)) as
        (s3 & acc' & Hrun & Hmaps & Hall' & Hdom & Hobjs & Hprof & Htags & Hp & Httl).
      { simpl. apply lookup_insert_eq. }
      { simpl. apply map_Forall_insert_2.
        - rewrite lookup_insert_eq. eauto.
        - intros k x Hk. destruct (Hall k x Hk) as [y Hy]. exists y.
          rewrite lookup_insert_ne; [done|]. intros <-. congruence. }
      exists s3, acc'. split_and!; try done.
      * unfold trafficmanager.endpointToState. rewrite !bind_assoc.
        rewrite (bind_val time_Now _ w0 _ w0 eq_refl). rewrite bind_assoc.
        rewrite (bind_val time_Now _ w0 _ w0 eq_refl). cbv zeta.
        rewrite (bind_val (on_store (new_endpoint obj)) _ w0 e' (with_store s1 w0))
          by (by apply on_store_eq).
        rewrite (bind_val (on_store (endpointMap_set em n e')) _ (with_store s1 w0) tt
                   (with_store s2 w0)).
        2:{ apply (on_store_eq _ (with_store s1 w0)). by apply endpointMap_set_eq. }
        exact Hrun.
      * simpl in Hmaps. rewrite Hmaps. by rewrite insert_insert_eq.
      * rewrite Hdom, dom_insert_L. simpl. rewrite Hn. simpl. set_solver.
      * simpl in Hobjs. etrans; [|exact Hobjs]. by apply insert_subseteq.
    + destruct (IH w0 acc Hem Hall) as (s3 & acc' & Hrun & Hrest).
      exists s3, acc'. split; [|simpl; rewrite Hn; exact Hrest].
      by rewrite (bind_val (ret tt) _ w0 tt w0 eq_refl).
Qed.

(** The tag loop of [profileToState]. *)
Lemma profileToState_tags tm (t : gmap string (option string)) (w0 : World E) T0 :
  tagMaps (store w0) !! tm = Some T0 ->
  exists s1 T,
    range_map t
      (fun k v =>
         match v with
         | Some v => on_store (tagMap_set tm k v)
         | None => ret tt
         end) w0
    = (Val tt, with_store s1 w0)
    /\ tagMaps s1 = <[tm := T]> (tagMaps (store w0))
    /\ profileObjs s1 = profileObjs (store w0)
    /\ endpointObjs s1 = endpointObjs (store w0)
    /\ endpointMaps s1 = endpointMaps (store w0)
    /\ profiles s1 = profiles (store w0)
    /\ cacheTTL s1 = cacheTTL (store w0).
Proof.
  intros Htm. unfold range_map. revert t.
  apply (map_fold_weak_ind (fun (r : M (World E) unit) (_ : gmap string (option string)) =>
    exists s1 T, r w0 = (Val tt, with_store s1 w0)
      /\ tagMaps s1 = <[tm := T]> (tagMaps (store w0))
      /\ profileObjs s1 = profileObjs (store w0)
      /\ endpointObjs s1 = endpointObjs (store w0)
      /\ endpointMaps s1 = endpointMaps (store w0)
      /\ profiles s1 = profiles (store w0)
      /\ cacheTTL s1 = cacheTTL (store w0))).
  - exists (store w0), T0. rewrite with_store_store.
    split_and!; try done. symmetry. by apply insert_id.
  - intros i x m r _ (s1 & T & Hr & Ht & ? & ? & ? & ? & ?).
    destruct x as [v|].
    + exists (with_tagMaps (insert tm (<[i := v]> T)) s1), (<[i := v]> T).
      split_and!; try done.
      * rewrite (bind_val _ _ _ _ _ Hr).
        apply (on_store_eq _ (with_store s1 w0)). apply tagMap_set_eq.
        rewrite Ht. apply lookup_insert_eq.
      * simpl. rewrite Ht. by rewrite insert_insert_eq.
    + exists s1, T. split_and!; try done. by rewrite (bind_val _ _ _ _ _ Hr).
Qed.


Lemma dom_omap_live (s : Store) (acc : gmap string loc) :
  map_Forall (fun _ e => is_Some (endpointObjs s !! e)) acc ->
  dom (omap (fun e => endpointObjs s !! e) acc) = dom acc.
Proof.
  intros Hall. apply set_eq. intros k. rewrite !elem_of_dom, lookup_omap.
  destruct (acc !! k) as [e|] eqn:Hk; simpl.
  - split; [eauto | intros _; by apply (Hall k e)].
  - split; intros [? ?]; done.
Qed.

(** [profileToState] on a reply that carries a name: the result is a new,
    well-formed profile; its endpoint map has one entry for each name an
    endpoint of the reply carries; nothing else of the store changes. *)
Lemma profileToState_spec rg (profile : armtrafficmanager.Profile) (w : World E) name :
  armtrafficmanager.Profile_Name profile = Some name ->
  exists ps s' v,
    trafficmanager.profileToState rg profile w = (Val ps, with_store s' w)
    /\ has_value s' ps v
    /\ heap_le (store w) s'
    /\ profileObjs (store w) !! ps = None
    /\ pv_ProfileName v = name
    /\ pv_CachedAt v = clock (env w)
    /\ dom (pv_Endpoints v)
       = list_to_set (omap armtrafficmanager.Endpoint_Name
                        (match armtrafficmanager.Profile_Properties profile with
                         | Some p => armtrafficmanager.Endpoints p
                         | None => []
                         end)).
Proof.
  intros Hname. unfold trafficmanager.profileToState. rewrite Hname.
  rewrite (bind_val (must (Some name)) _ w name w eq_refl).
  set (em := fresh (dom (endpointMaps (store w)))).
  set (sA := with_endpointMaps (insert em ∅) (store w)).
  rewrite (bind_val (on_store make_endpointMap) _ w em (with_store sA w) eq_refl).
  set (tm := fresh (dom (tagMaps sA))).
  set (sB := with_tagMaps (insert tm ∅) sA).
  rewrite (bind_val (on_store make_tagMap) _ (with_store sA w) tm (with_store sB w) eq_refl).
  rewrite (bind_val time_Now _ (with_store sB w) _ _ eq_refl).
  rewrite (bind_val time_Now _ (with_store sB w) _ _ eq_refl).
  rewrite (bind_val time_Now _ (with_store sB w) _ _ eq_refl).
  cbv zeta.
  match goal with
  | |- context [state.new_profile ?p] => set (p0 := p)
  end.
  set (ps := fresh (dom (profileObjs sB))).
  set (sC := with_profileObjs (insert ps p0) sB).
  rewrite (bind_val (on_store (new_profile p0)) _ (with_store sB w) ps (with_store sC w) eq_refl).
  set (l := match armtrafficmanager.Profile_Properties profile with
            | Some p => armtrafficmanager.Endpoints p
            | None => []
            end).
  assert (Hem : endpointMaps (store w) !! em = None) by apply fresh_endpointMap.
  assert (Htm : tagMaps (store w) !! tm = None) by apply (fresh_tagMap sA).
  assert (Hps : profileObjs (store w) !! ps = None) by apply (fresh_profile sB).
  destruct (profileToState_endpoints em l (with_store sC w) ∅)
    as (s1 & acc & Hrun & Hmaps & Hall & Hdom & Hobjs & Hprof & Htags & Hp & Httl).
  { simpl. apply lookup_insert_eq. }
  { apply map_Forall_empty. }
  rewrite (bind_val _ _ _ _ _ Hrun). simpl in Hmaps, Hobjs, Hprof, Htags, Hp, Httl.
  assert (Hle1 : heap_le (store w) s1).
  { split.
    - rewrite Hprof. by apply insert_subseteq.
    - done.
    - rewrite Hmaps, insert_insert_eq. by apply insert_subseteq.
    - rewrite Htags. by apply insert_subseteq.
    - done.
    - done. }
  assert (Hacc1 : endpointMaps s1 !! em = Some acc).
  { rewrite Hmaps. apply lookup_insert_eq. }
  assert (Hp1 : profileObjs s1 !! ps = Some p0).
  { rewrite Hprof. apply lookup_insert_eq. }
  rewrite dom_empty_L, (left_id_L ∅ (∪)) in Hdom.
  destruct (armtrafficmanager.Profile_Tags profile) as [t|].
  - destruct (profileToState_tags tm t (with_store s1 w) ∅)
      as (s2 & T & Hrun2 & Htags2 & Hprof2 & Hobjs2 & Hmaps2 & Hp2 & Httl2).
    { simpl. rewrite Htags. apply lookup_insert_eq. }
    simpl in Htags2, Hprof2, Hobjs2, Hmaps2, Hp2, Httl2.
    rewrite bind_assoc. rewrite (bind_val _ _ _ _ _ Hrun2).
    assert (HT : tagMaps s2 !! tm = Some T).
    { rewrite Htags2. apply lookup_insert_eq. }
    assert (Hle2 : heap_le (store w) s2).
    { split.
      - rewrite Hprof2. apply Hle1.
      - rewrite Hobjs2. apply Hle1.
      - rewrite Hmaps2. apply Hle1.
      - rewrite Htags2, Htags, insert_insert_eq. by apply insert_subseteq.
      - congruence.
      - congruence. }
    rewrite bind_assoc.
    rewrite (bind_val (on_store (range_tagMap (Some tm))) _ (with_store s2 w) T
               (with_store s2 w)).
    2:{ apply (on_store_eq _ (with_store s2 w)). simpl. unfold bind, get. simpl.
        by rewrite HT. }
    destruct (T !! "hostname") as [hn|].
    + rewrite bind_assoc.
      rewrite (bind_val (on_store (load_profile ps)) _ (with_store s2 w) p0 (with_store s2 w)).
      2:{ apply (on_store_eq _ (with_store s2 w)). apply load_profile_eq. simpl. congruence. }
      rewrite (bind_val (on_store (store_profile ps (set_Hostname hn p0))) _
                 (with_store s2 w) tt
                 (with_store (with_profileObjs (insert ps (set_Hostname hn p0)) s2) w)).
      2:{ apply (on_store_eq _ (with_store s2 w)). simpl.
          apply (store_profile_eq _ _ p0). congruence. }
      exists ps, (with_profileObjs (insert ps (set_Hostname hn p0)) s2),
        (mkProfileValue name rg hn (FQDN p0) (RoutingMethod p0) (DNSTTL p0)
           (omap (fun e => endpointObjs s2 !! e) acc) T
           (clock (env w)) (clock (env w)) (clock (env w))).
      split_and!; try done.
      * exists (set_Hostname hn p0). split_and!.
        -- simpl. apply lookup_insert_eq.
        -- by repeat split.
        -- simpl. exists acc. split_and!; [congruence | by rewrite Hobjs2 | done].
        -- simpl. done.
      * destruct Hle2. split; simpl; try done.
        by apply subseteq_insert_fresh.
      * simpl. rewrite dom_omap_live by (by rewrite Hobjs2). done.
    + rewrite (bind_val (ret tt) _ (with_store s2 w) tt (with_store s2 w) eq_refl).
      exists ps, s2,
        (mkProfileValue name rg "" (FQDN p0) (RoutingMethod p0) (DNSTTL p0)
           (omap (fun e => endpointObjs s2 !! e) acc) T
           (clock (env w)) (clock (env w)) (clock (env w))).
      split_and!; try done.
      * exists p0. split_and!.
        -- congruence.
        -- by repeat split.
        -- simpl. exists acc. split_and!; [congruence | by rewrite Hobjs2 | done].
        -- simpl. done.
      * simpl. rewrite dom_omap_live by (by rewrite Hobjs2). done.
  - rewrite (bind_val (ret tt) _ (with_store s1 w) tt (with_store s1 w) eq_refl).
    exists ps, s1,
      (mkProfileValue name rg "" (FQDN p0) (RoutingMethod p0) (DNSTTL p0)
         (omap (fun e => endpointObjs s1 !! e) acc) ∅
         (clock (env w)) (clock (env w)) (clock (env w))).
    split_and!; try done.
    * exists p0. split_and!.
      -- done.
      -- by repeat split.
      -- simpl. exists acc. by split_and!.
      -- simpl. rewrite Htags. apply lookup_insert_eq.
    * simpl. by rewrite dom_omap_live.
Qed.


(** ** deleteEndpoint *)

Definition pv_set_Hostname (h : string) (v : ProfileValue) : ProfileValue :=
  mkProfileValue (pv_ProfileName v) (pv_ResourceGroup v) h (pv_FQDN v)
    (pv_RoutingMethod v) (pv_DNSTTL v) (pv_Endpoints v) (pv_Tags v)
    (pv_CreatedAt v) (pv_UpdatedAt v) (pv_CachedAt v).

Lemma assign_Hostname_spec (w : World E) ps v h :
  has_value (store w) ps v ->
  exists s',
    assign_Hostname ps h w = (Val tt, with_store s' w)
    /\ has_value s' ps (pv_set_Hostname h v)
    /\ profiles s' = profiles (store w)
    /\ (forall l, profileObjs s' !! l = None -> profileObjs (store w) !! l = None).
Proof.
  intros (p & Hp & Hsc & Hep & Htg).
  exists (with_profileObjs (insert ps (set_Hostname h p)) (store w)). split_and!;
    [..| simpl; by intros l [? _]%lookup_insert_None].
  - apply on_store_eq. erewrite bind_val by (by apply load_profile_eq).
    by eapply store_profile_eq.
  - exists (set_Hostname h p). split_and!.
    + simpl. apply lookup_insert_eq.
    + destruct Hsc as (? & ? & ? & ? & ? & ? & ? & ? & ?). by repeat split.
    + by apply endpoints_hold_with_profileObjs.
    + by apply tags_hold_with_profileObjs.
  - done.
Qed.

Lemma len_Endpoints_spec (w : World E) ps v :
  has_value (store w) ps v ->
  exists n, len_Endpoints ps w = (Val n, w) /\ (n = 0%nat <-> dom (pv_Endpoints v) = ∅).
Proof.
  intros (p & Hp & Hsc & Hep & Htg).
  destruct (range_endpointMap_eq (store w) (store w) _ _ (heap_le_refl _) Hep)
    as (src & Hsrc & Hall & HV).
  exists (size src). split.
  - rewrite <- (with_store_store w) at 2. apply on_store_eq.
    erewrite bind_val by (by apply load_profile_eq).
    erewrite bind_val by exact Hsrc. done.
  - rewrite HV, dom_omap_live by done. rewrite dom_empty_iff_L.
    apply map_size_empty_iff.
Qed.

(** The endpoint deletions return on a well-formed mirror, leave it
    well-formed and keep its entries. *)
Lemma deleteEndpoint_targets_spec endpoint c (w : World E) :
  wf_store (store w) ->
  exists w1,
    deleteEndpoint_targets endpoint c w = (Val tt, w1)
    /\ wf_store (store w1)
    /\ profiles (store w1) = profiles (store w).
Proof.
  unfold deleteEndpoint_targets. generalize (Targets endpoint) as l.
  intros l. revert w. induction l as [|t l IH]; intros w Hwf; simpl.
  - by exists w.
  - rewrite bind_assoc. unfold trafficmanager.DeleteEndpoint at 1. rewrite bind_assoc.
    destruct (endpointsClient_Delete (annotations.ResourceGroup c) (annotations.ProfileName c)
                (annotations.EndpointType c) (annotations.EndpointName c) (env w)) as [r e'] eqn:Hr.
    erewrite bind_val by (by apply request_eq).
    destruct r as [err|].
    + rewrite (bind_val (ret (Some _)) _ _ _ _ eq_refl).
      rewrite (bind_val (ret tt) _ _ _ _ eq_refl).
      destruct (IH (sent [EndpointsDelete (annotations.ResourceGroup c) (annotations.ProfileName c)
                            (annotations.EndpointType c) (annotations.EndpointName c)] e' w) Hwf)
        as (w1 & ? & ? & ?).
      by exists w1.
    + rewrite (bind_val (ret None) _ _ _ _ eq_refl).
      set (w' := sent _ e' w).
      destruct (DeleteEndpoint_wf (store w') (clock (env w')) (clock (env w'))
                  (DNSName endpoint) (annotations.EndpointName c) Hwf) as (t' & Ht' & Hwf' & Hp').
      destruct (IH (with_store t' w') Hwf') as (w1 & Hrun & ? & Hp1).
      exists w1. split_and!; [| done | rewrite Hp1; exact Hp'].
      unfold stateManager_DeleteEndpoint. rewrite !bind_assoc.
      rewrite (bind_val time_Now _ w' _ w' eq_refl). rewrite bind_assoc.
      rewrite (bind_val time_Now _ w' _ w' eq_refl).
      erewrite bind_val by (apply on_store_eq; exact Ht'). exact Hrun.
Qed.

Definition named_endpoints (profile : armtrafficmanager.Profile) : list string :=
  omap armtrafficmanager.Endpoint_Name
    (match armtrafficmanager.Profile_Properties profile with
     | Some p => armtrafficmanager.Endpoints p
     | None => []
     end).

Lemma deleteEndpoint_enabled endpoint config (w : World E) :
  ParseConfig (Labels endpoint) = inl config ->
  Enabled config = true ->
  deleteEndpoint endpoint w
  = (deleteEndpoint_targets endpoint
       (with_generated_names (DNSName endpoint) endpoint config) ;;
     deleteEndpoint_cleanup endpoint
       (with_generated_names (DNSName endpoint) endpoint config)
       (vanityHostname_of endpoint config) ;;
     ret None) (logged (LogDeletingEndpoint (DNSName endpoint)) w).
Proof.
  intros Hparse Hen. unfold deleteEndpoint. rewrite Hparse, Hen. reflexivity.
Qed.


Definition is_profile_delete (c : Call) : bool :=
  match c with ProfilesDelete _ _ => true | _ => false end.

(** The refetch of [deleteEndpoint], when the remote answers with a
    profile that carries a name. *)
Lemma deleteEndpoint_cleanup_refetched endpoint c vanity (w : World E) profile env2 name :
  profilesClient_Get (annotations.ResourceGroup c) (annotations.ProfileName c) (env w)
  = (inl profile, env2) ->
  armtrafficmanager.Profile_Name profile = Some name ->
  let w' := sent [ProfilesGet (annotations.ResourceGroup c) (annotations.ProfileName c)]
              env2 w in
  exists ps s' v,
    deleteEndpoint_cleanup endpoint c vanity w
    = deleteEndpoint_refetched endpoint c vanity ps (with_store s' w')
    /\ has_value s' ps v
    /\ heap_le (store w) s'
    /\ pv_CachedAt v = clock env2
    /\ dom (pv_Endpoints v) = list_to_set (named_endpoints profile).
Proof.
  intros Hget Hname w'.
  destruct (profileToState_spec (annotations.ResourceGroup c) profile w' name Hname)
    as (ps & s' & v & Hrun & Hv & Hle & _ & _ & Hcached & Hdom).
  exists ps, s', v. split_and!; try done.
  unfold deleteEndpoint_cleanup, trafficmanager.GetProfileState.
  rewrite bind_assoc. erewrite bind_val by (apply request_eq; exact Hget).
  cbv beta iota. rewrite bind_assoc. fold w'. rewrite (bind_val _ _ _ _ _ Hrun).
  by rewrite (bind_val (ret (inl ps)) _ _ _ _ eq_refl).
Qed.

(** The refetched profile has no endpoint: the profile delete is sent,
    and the entry goes when it succeeds. *)
Lemma deleteEndpoint_refetched_empty endpoint c vanity ps v (w : World E) :
  has_value (store w) ps v ->
  dom (pv_Endpoints v) = ∅ ->
  exists tr,
    fst (deleteEndpoint_refetched endpoint c vanity ps w) = Val tt
    /\ calls (snd (deleteEndpoint_refetched endpoint c vanity ps w))
       = calls w ++ ProfilesDelete (annotations.ResourceGroup c) (annotations.ProfileName c)
                    :: tr
    /\ Forall (fun x => is_profile_delete x = false) tr
    /\ (fst (profilesClient_Delete (annotations.ResourceGroup c)
               (annotations.ProfileName c) (env w)) = None ->
        profiles (store (snd (deleteEndpoint_refetched endpoint c vanity ps w)))
        = delete vanity (profiles (store w)))
    /\ (is_Some (fst (profilesClient_Delete (annotations.ResourceGroup c)
                        (annotations.ProfileName c) (env w))) ->
        store (snd (deleteEndpoint_refetched endpoint c vanity ps w)) = store w).
Proof.
  intros Hv Hdom. destruct (len_Endpoints_spec w ps v Hv) as (n & Hn & Hiff).
  apply Hiff in Hdom as ->.
  unfold deleteEndpoint_refetched. rewrite (bind_val _ _ _ _ _ Hn). cbn [Nat.eqb].
  unfold trafficmanager.DeleteProfile. rewrite bind_assoc.
  destruct (profilesClient_Delete (annotations.ResourceGroup c)
              (annotations.ProfileName c) (env w)) as [r env3] eqn:Hr.
  erewrite bind_val by (apply request_eq; exact Hr).
  destruct r as [err|].
  - exists []. by split_and!.
  - rewrite (bind_val (ret None) _ _ _ _ eq_refl).
    unfold stateManager_DeleteProfile.
    destruct (negb (str_empty vanity) && negb (String.eqb vanity (DNSName endpoint))).
    + exists [DNSEndpointDelete dnsEndpointNamespace (dnsendpoint.GenerateName vanity)].
      unfold dnsendpoint.Delete, bind, on_store, request, state.DeleteProfile, modify, ret.
      simpl.
      destruct (dynamicClient_Delete dnsEndpointNamespace
                  (dnsendpoint.GenerateName vanity) env3) as [[e|] env4]; simpl;
        (split_and!; [done | by rewrite <- app_assoc | by repeat constructor | done
                     | by intros [? ?]]).
    + exists []. unfold bind, on_store, state.DeleteProfile, modify, ret. simpl.
      split_and!; try done.
Qed.

(** The refetched profile still has endpoints: nothing is sent, and the
    mirror's entry for the vanity hostname becomes a copy of the
    refetched profile, stamped with the hostname and the time. *)
Lemma deleteEndpoint_refetched_nonempty endpoint c vanity ps v (w : World E) :
  has_value (store w) ps v ->
  dom (pv_Endpoints v) <> ∅ ->
  exists stored s',
    deleteEndpoint_refetched endpoint c vanity ps w = (Val tt, with_store s' w)
    /\ profiles s' = <[vanity := stored]> (profiles (store w))
    /\ has_value s' stored (pv_set_CachedAt (clock (env w)) (pv_set_Hostname vanity v))
    /\ profileObjs (store w) !! stored = None.
Proof.
  intros Hv Hdom. destruct (len_Endpoints_spec w ps v Hv) as (n & Hn & Hiff).
  unfold deleteEndpoint_refetched. rewrite (bind_val _ _ _ _ _ Hn).
  destruct n as [|n]; [by destruct Hdom; apply Hiff|]. cbn [Nat.eqb].
  destruct (assign_Hostname_spec w ps v vanity Hv) as (s1 & Hrun1 & Hv1 & Hp1 & Hnone).
  rewrite (bind_val _ _ _ _ _ Hrun1).
  destruct (SetProfile_spec s1 (clock (env w)) vanity ps _ Hv1)
    as (stored & t & Hset & Hprof & _ & Hst & _ & Hfresh & _).
  exists stored, t. split_and!.
  - unfold stateManager_SetProfile.
    rewrite (bind_val time_Now _ (with_store s1 w) _ _ eq_refl).
    apply (on_store_eq _ (with_store s1 w)). exact Hset.
  - by rewrite Hprof, Hp1.
  - done.
  - by apply Hnone.
Qed.


(** The endpoint deletions send endpoint deletes only. *)
Lemma steps_deleteEndpoint_targets endpoint c :
  steps (fun x => is_profile_delete x = false) (deleteEndpoint_targets endpoint c).
Proof.
  unfold deleteEndpoint_targets. apply steps_for_each. intros _.
  apply steps_bind; [by apply steps_DeleteEndpoint|].
  intros [err|]; [apply steps_ret | apply steps_stateManager_DeleteEndpoint].
Qed.

(** X25.  A Delete of an enabled endpoint on a well-formed mirror, whose
    refetch is answered with a profile, returns without an error, and up
    to the refetch it has sent no profile delete.  When no endpoint of
    the refetched profile carries a name, the next request after the
    refetch is the delete of the profile, and no second one follows;
    when that delete succeeds the entry of the vanity hostname is removed
    from the mirror, and when it is refused the entries are as they
    were.  When an endpoint of the refetched profile carries a name, the
    refetch is the last request, so no profile delete is sent, and the
    entry of the vanity hostname becomes a new copy of the refetched
    profile, with that hostname, the endpoints of the reply and the time
    of the refetch as its caching time. *)
Theorem deleteEndpoint_removes_profile_left_without_endpoints
    endpoint config (w : World E) profile env2 :
  wf_store (store w) ->
  ParseConfig (Labels endpoint) = inl config ->
  Enabled config = true ->
  let c := with_generated_names (DNSName endpoint) endpoint config in
  let rg := annotations.ResourceGroup c in
  let name := annotations.ProfileName c in
  let vanity := vanityHostname_of endpoint config in
  let w1 := snd (deleteEndpoint_targets endpoint c
                   (logged (LogDeletingEndpoint (DNSName endpoint)) w)) in
  let w3 := snd (deleteEndpoint endpoint w) in
  profilesClient_Get rg name (env w1) = (inl profile, env2) ->
  is_Some (armtrafficmanager.Profile_Name profile) ->
  fst (deleteEndpoint endpoint w) = Val None
  /\ (exists tr, calls w1 = calls w ++ tr /\ count_calls is_profile_delete tr = 0%nat)
  /\ (named_endpoints profile = [] ->
      exists tr,
        calls w3 = calls w1 ++ [ProfilesGet rg name; ProfilesDelete rg name] ++ tr
        /\ count_calls is_profile_delete tr = 0%nat
        /\ (fst (profilesClient_Delete rg name env2) = None ->
            profiles (store w3) = delete vanity (profiles (store w1))
            /\ profiles (store w3) !! vanity = None)
        /\ (is_Some (fst (profilesClient_Delete rg name env2)) ->
            profiles (store w3) = profiles (store w1)))
  /\ (named_endpoints profile <> [] ->
      calls w3 = calls w1 ++ [ProfilesGet rg name]
      /\ exists stored v,
           profiles (store w3) = <[vanity := stored]> (profiles (store w1))
           /\ has_value (store w3) stored v
           /\ profileObjs (store w1) !! stored = None
           /\ pv_Hostname v = vanity
           /\ pv_CachedAt v = clock env2
           /\ dom (pv_Endpoints v) = list_to_set (named_endpoints profile)).
Proof.
  intros Hwf Hparse Hen c rg name vanity w1 w3 Hget [pname Hname].
  destruct (deleteEndpoint_targets_spec endpoint c
              (logged (LogDeletingEndpoint (DNSName endpoint)) w) Hwf)
    as (w1' & Hrun & Hwf1 & Hp1).
  assert (Hquiet : exists tr, calls w1 = calls w ++ tr
                              /\ count_calls is_profile_delete tr = 0%nat).
  { destruct (steps_deleteEndpoint_targets endpoint c
                (logged (LogDeletingEndpoint (DNSName endpoint)) w))
      as [(tr & Htr & HP) _].
    exists tr. split; [exact Htr | by apply count_calls_none]. }
  assert (Hw1 : w1 = w1') by (unfold w1; by rewrite Hrun). clearbody w1. subst w1'.
  destruct (deleteEndpoint_cleanup_refetched endpoint c vanity w1 profile env2 pname
              Hget Hname) as (ps & s' & v & Hclean & Hv & Hle & Hcached & Hdom).
  fold rg name in Hclean.
  set (w2 := with_store s' (sent [ProfilesGet rg name] env2 w1)) in *.
  assert (Hdel : deleteEndpoint endpoint w
                 = (deleteEndpoint_refetched endpoint c vanity ps ;; ret None) w2).
  { rewrite (deleteEndpoint_enabled endpoint config w Hparse Hen). fold c vanity.
    rewrite (bind_val _ _ _ _ _ Hrun). unfold bind at 1. rewrite Hclean.
    reflexivity. }
  assert (Hempty : named_endpoints profile = [] <-> dom (pv_Endpoints v) = ∅).
  { rewrite Hdom. destruct (named_endpoints profile) as [|x l]; [done|].
    split; [done|]. simpl. set_solver. }
  unfold w3. rewrite Hdel. split_and!; [|exact Hquiet|..].
  - destruct (decide (dom (pv_Endpoints v) = ∅)) as [He|Hne].
    + destruct (deleteEndpoint_refetched_empty endpoint c vanity ps v w2 Hv He)
        as (tr & Hfst & _).
      unfold bind. destruct (deleteEndpoint_refetched endpoint c vanity ps w2) as [r ?].
      simpl in Hfst. by subst r.
    + destruct (deleteEndpoint_refetched_nonempty endpoint c vanity ps v w2 Hv Hne)
        as (stored & t & Heq & _).
      by rewrite (bind_val _ _ _ _ _ Heq).
  - intros He%Hempty.
    destruct (deleteEndpoint_refetched_empty endpoint c vanity ps v w2 Hv He)
      as (tr & Hfst & Hcalls & Htr & Hok & Hfail).
    exists tr. unfold bind.
    destruct (deleteEndpoint_refetched endpoint c vanity ps w2) as [r w4].
    simpl in Hfst, Hcalls, Hok, Hfail. subst r. simpl. split_and!.
    + rewrite Hcalls. simpl. by rewrite <- app_assoc.
    + by apply count_calls_none.
    + intros Hnone. rewrite (Hok Hnone). simpl. rewrite (le_profiles _ _ Hle). simpl.
      split; [done | apply lookup_delete_eq].
    + intros Hsome. rewrite (Hfail Hsome). simpl. apply (le_profiles _ _ Hle).
  - intros Hne. assert (Hne' : dom (pv_Endpoints v) <> ∅) by (by rewrite <- Hempty).
    destruct (deleteEndpoint_refetched_nonempty endpoint c vanity ps v w2 Hv Hne')
      as (stored & t & Heq & Hprof & Hst & Hfresh).
    rewrite (bind_val _ _ _ _ _ Heq). simpl. split; [done|].
    exists stored, (pv_set_CachedAt (clock env2) (pv_set_Hostname vanity v)).
    split_and!; try done.
    + rewrite Hprof. simpl. by rewrite (le_profiles _ _ Hle).
    + simpl in Hfresh. destruct (profileObjs (store w1) !! stored) as [q|] eqn:Hq; [|done].
      by rewrite (lookup_weaken _ _ _ _ Hq (le_profileObjs _ _ Hle)) in Hfresh.
Qed.

End Refetch.

Import annotations parsing state mirror provider.

(* ===================================================================== *)
(** * Runs against the reference environment *)
(* ===================================================================== *)

(** ** The tables and ASCII strings *)

Fixpoint ascii_only (s : string) : bool :=
  match s with
  | EmptyString => true
  | String c r => (byte_of c <? 128) && ascii_only r
  end.

Lemma strconv_IsPrint_Latin1 (t1 t2 : Unicode) r :
  r <= 255 -> @strconv_IsPrint t1 r = @strconv_IsPrint t2 r.
Proof.
  intros Hr. unfold strconv_IsPrint. rewrite (proj2 (Z.leb_le r 255) Hr). reflexivity.
Qed.

Lemma appendEscapedRune_Latin1 (t1 t2 : Unicode) r bytes :
  r <= 255 -> @appendEscapedRune t1 r bytes = @appendEscapedRune t2 r bytes.
Proof.
  intros Hr. unfold appendEscapedRune.
  rewrite (strconv_IsPrint_Latin1 t1 t2 r Hr). reflexivity.
Qed.

Lemma DecodeRune_ASCII c r :
  (byte_of c <? 128) = true -> utf8_DecodeRuneInString (String c r) = (byte_of c, 1%nat).
Proof.
  destruct c as [[] [] [] [] [] [] [] []]; intros Hc; try discriminate Hc; reflexivity.
Qed.

(** The quoted form of an ASCII string is the same under all tables. *)
Lemma strconv_Quote_ASCII (t1 t2 : Unicode) s :
  ascii_only s = true -> @strconv_Quote t1 s = @strconv_Quote t2 s.
Proof.
  intros Hs. unfold strconv_Quote. f_equal. f_equal.
  induction s as [|c r IH]; [reflexivity|].
  simpl in Hs. apply andb_true_iff in Hs as [Hc Hr].
  cbn [quote_from]. rewrite (DecodeRune_ASCII c r Hc). cbn [Nat.pred].
  rewrite (IH Hr). f_equal.
  destruct (((1 =? 1)%nat) && (byte_of c =? RuneError)); [reflexivity|].
  apply appendEscapedRune_Latin1. apply Z.ltb_lt in Hc. lia.
Qed.

(** The runs are those of a build whose tables hold no rune above
    U+00FF.  The strings of the runs are ASCII, and [strconv.Quote]
    consults the tables for no rune of such a string
    ([strconv_Quote_ASCII]). *)
#[global] Instance reference_tables : Unicode := {| unicode_IsPrint := fun _ => false |}.

Module scenario.

(** The annotations of a routed record, and the record. *)
Definition labels : gmap string string :=
  <[AnnotationEnabled := "true"]>
    (<[AnnotationResourceGroup := "rg"]>
       (<[AnnotationEndpointLocation := "eastus"]> ∅)).

Definition record (l : gmap string string) : Endpoint :=
  mkEndpoint "east.example.com" ["1.2.3.4"] "A" "" 300 l [].

Definition east : Endpoint := record labels.

(** The same record with a weight. *)
Definition weighted (w : string) : Endpoint :=
  record (<[AnnotationWeight := w]> labels).

(** The same record behind a vanity hostname, in a named profile. *)
Definition demo : Endpoint :=
  record (<[AnnotationProfileName := "demo-tm"]>
            (<[AnnotationHostname := "demo.example.com"]> labels)).

Definition config_of {tables : Unicode} (e : Endpoint) : TrafficManagerConfig :=
  match ParseConfig (annotationMap e) with
  | inl c => c
  | inr _ => defaultConfig
  end.

(** A provider just started against an empty cloud, at time 1000. *)
Definition fresh_world : World cloud.Cloud := cloud.start (cloud.empty 1000).

(** The world [w] with a cloud that refuses the requests [f] holds of. *)
Definition refusing (f : Call -> bool) (w : World cloud.Cloud) : World cloud.Cloud :=
  mkWorld (store w)
    (cloud.mkCloud (cloud.now (env w)) (cloud.profilesDB (env w))
       (cloud.dnsEndpoints (env w)) f)
    (calls w) (log w).

Definition after {A} (m : M (World cloud.Cloud) A) (w : World cloud.Cloud)
  : World cloud.Cloud := snd (m w).

(** The requests [m] sends from [w]. *)
Definition requests {A} (m : M (World cloud.Cloud) A) (w : World cloud.Cloud) : list Call :=
  drop (length (calls w)) (calls (snd (m w))).

(** The hostnames the mirror has entries for. *)
Definition hostnames (w : World cloud.Cloud) : list string :=
  (map_to_list (profiles (store w))).*1.

(** The names of the profiles the cloud holds. *)
Definition cloud_profiles (w : World cloud.Cloud) : list (string * string) :=
  (map_to_list (cloud.profilesDB (env w))).*1.

End scenario.

Import scenario.


(** ** The state mirror *)

(** A mirror holding one profile with one endpoint and one tag, cached
    at time 1000 under "demo.example.com". *)
Definition demo_endpointState : EndpointState :=
  mkEndpointState "east" "ExternalEndpoints" "east.example.com" 100 1 "Enabled" "eastus"
    900 900.

Definition demo_profileState (endpoints tags : option loc) : ProfileState :=
  mkProfileState "demo-tm" "rg" "demo.example.com" "demo-tm.trafficmanager.net"
    "Weighted" 30 endpoints tags 900 900 900.

Definition demo_value : ProfileValue :=
  mkProfileValue "demo-tm" "rg" "demo.example.com" "demo-tm.trafficmanager.net"
    "Weighted" 30 {["east" := demo_endpointState]} {["managed-by" := "external-dns"]}
    900 900 900.

(** The caller's profile, built as a caller would. *)
Definition build_demo : M Store loc :=
  let* endpoints := make_endpointMap in
  let* e := new_endpoint demo_endpointState in
  endpointMap_set endpoints "east" e ;;
  let* tags := make_tagMap in
  tagMap_set tags "managed-by" "external-dns" ;;
  new_profile (demo_profileState (Some endpoints) (Some tags)).

Definition callers_store : Store := snd (build_demo (NewManager cloud.fiveMinutes)).
Definition callers_profile : loc := 1%positive.

Definition demo_mirror : Store :=
  snd (SetProfile 1000 "demo.example.com" callers_profile callers_store).

Lemma callers_profile_has_value : has_value callers_store callers_profile demo_value.
Proof.
  exists (demo_profileState (Some 1%positive) (Some 1%positive)). split_and!.
  - reflexivity.
  - by repeat split.
  - exists {["east" := 1%positive]}. split_and!.
    + reflexivity.
    + apply map_Forall_singleton. by eexists.
    + by vm_compute.
  - reflexivity.
Qed.

Lemma SetEndpoint_unknown_hostname_witness :
  profiles demo_mirror !! "east.example.com" = None
  /\ SetEndpoint 1001 1001 "east.example.com" "east" 1%positive demo_mirror
     = (Val tt, demo_mirror)
  /\ GetEndpoint 1002 "east.example.com" "east"
       (snd (SetEndpoint 1001 1001 "east.example.com" "east" 1%positive demo_mirror))
     = (Val None, demo_mirror).
Proof.
  split; [by vm_compute|].
  apply (SetEndpoint_unknown_hostname_is_noop demo_mirror 1001 1001 1002
           "east.example.com" "east" 1%positive).
  by vm_compute.
Defined.

Lemma GetProfile_absent_witness :
  wf_store demo_mirror
  /\ fst (GetProfile (1001 + cloud.fiveMinutes) "demo.example.com" demo_mirror) = Val None
  /\ is_Some (profiles (snd (GetProfile (1001 + cloud.fiveMinutes) "demo.example.com"
                               demo_mirror)) !! "demo.example.com").
Proof.
  assert (Hwf : wf_store demo_mirror) by (apply wf_storeb_sound; by vm_compute).
  destruct (GetProfile_absent_exactly_when_missing_or_expired demo_mirror
              (1001 + cloud.fiveMinutes) "demo.example.com" Hwf)
    as (Hiff & _ & Hle & _).
  split_and!.
  - exact Hwf.
  - apply Hiff. right.
    exists 2%positive,
      (set_CachedAt 1000 (demo_profileState (Some 2%positive) (Some 2%positive))).
    split_and!; [vm_compute; reflexivity | vm_compute; reflexivity | right; vm_compute; reflexivity].
  - rewrite (le_profiles _ _ Hle). exists 2%positive. vm_compute; reflexivity.
Defined.

Lemma SetProfile_GetProfile_round_trip_witness :
  has_value callers_store callers_profile demo_value
  /\ 1000 <> 0
  /\ time_Since 1001 1000 <= cacheTTL callers_store
  /\ exists c s2,
       GetProfile 1001 "demo.example.com"
         (snd (SetProfile 1000 "demo.example.com" callers_profile callers_store))
       = (Val (Some c), s2)
       /\ has_value s2 c (pv_set_CachedAt 1000 demo_value)
       /\ c <> callers_profile.
Proof.
  assert (H1 : 1000 <> 0) by done.
  assert (H2 : time_Since 1001 1000 <= cacheTTL callers_store) by (by vm_compute).
  split_and!; [exact callers_profile_has_value | exact H1 | exact H2 |].
  destruct (SetProfile_GetProfile_round_trip callers_store 1000 1001 "demo.example.com"
              callers_profile demo_value callers_profile_has_value H1 H2)
    as (s1 & stored & c & s2 & pc & pst & Hset & _ & Hget & _ & Hc & _ & Hne & _).
  exists c, s2. rewrite Hset. by split_and!.
Defined.

(** ** The parser *)

Lemma ParseConfig_disabled_witness :
  (<[AnnotationWeight := "heavy"]> (<[AnnotationEnabled := "False"]> labels)
     !! AnnotationEnabled = None
   \/ exists v,
        <[AnnotationWeight := "heavy"]> (<[AnnotationEnabled := "False"]> labels)
          !! AnnotationEnabled = Some v
        /\ strings_ToLower v <> "true")
  /\ (exists config,
        ParseConfig (<[AnnotationWeight := "heavy"]>
                       (<[AnnotationEnabled := "False"]> labels)) = inl config
        /\ Enabled config = false)
  /\ ValidateConfig defaultConfig = None.
Proof.
  assert (Hcase :
    <[AnnotationWeight := "heavy"]> (<[AnnotationEnabled := "False"]> labels)
      !! AnnotationEnabled = None
    \/ exists v,
         <[AnnotationWeight := "heavy"]> (<[AnnotationEnabled := "False"]> labels)
           !! AnnotationEnabled = Some v
         /\ strings_ToLower v <> "true").
  { right. exists "False". split; [vm_compute; reflexivity|]. by vm_compute. }
  destruct (ParseConfig_disabled_never_fails _ Hcase) as [Hparse Hvalid].
  split_and!; [exact Hcase | exact Hparse | by apply Hvalid].
Defined.

(** ** Create *)

Lemma createEndpoint_weight_1500_witness :
  RecordType (weighted "1500") <> "TXT"
  /\ enabled_in (annotationMap (weighted "1500")) = true
  /\ annotationMap (weighted "1500") !! AnnotationWeight = Some "1500"
  /\ ParseConfig (annotationMap (weighted "1500")) = inl (config_of (weighted "1500"))
  /\ exists err,
       createEndpoint (weighted "1500") fresh_world
       = (Val (Some err), logged (LogCreatingEndpoint "east.example.com") fresh_world)
       /\ strings_Contains (Error err) "weight" = true.
Proof.
  assert (H1 : RecordType (weighted "1500") <> "TXT") by done.
  assert (H2 : enabled_in (annotationMap (weighted "1500")) = true)
    by (vm_compute; reflexivity).
  assert (H3 : annotationMap (weighted "1500") !! AnnotationWeight = Some "1500")
    by (vm_compute; reflexivity).
  assert (H4 : ParseConfig (annotationMap (weighted "1500"))
               = inl (config_of (weighted "1500"))) by (vm_compute; reflexivity).
  split_and!; try assumption.
  exact (createEndpoint_weight_1500_rejected_before_any_request (weighted "1500")
           (config_of (weighted "1500")) fresh_world H1 H2 H3 H4).
Defined.

(** The same annotations on a TXT record: the Create returns nil. *)
Definition txt_record : Endpoint :=
  mkEndpoint "east.example.com" ["heritage=external-dns"] "TXT" "" 300
    (<[AnnotationWeight := "1500"]> labels) [].

Lemma createEndpoint_TXT_weight_1500_accepted :
  enabled_in (annotationMap txt_record) = true
  /\ annotationMap txt_record !! AnnotationWeight = Some "1500"
  /\ createEndpoint txt_record fresh_world
     = (Val None, logged (LogCreatingEndpoint "east.example.com") fresh_world).
Proof. split_and!; vm_compute; reflexivity. Qed.

(** A second writer creates the profile first; later the profile
    creation request is refused. *)
Definition taken_world : World cloud.Cloud :=
  refusing is_profile_update (after (createEndpoint east) fresh_world).

Definition well_formed_replyb (p : armtrafficmanager.Profile) : bool :=
  is_some (armtrafficmanager.Profile_Name p)
  && forallb (fun e => implb (is_some (armtrafficmanager.Endpoint_Name e))
                         (is_some (armtrafficmanager.Endpoint_Type e)))
       (match armtrafficmanager.Profile_Properties p with
        | Some props => armtrafficmanager.Endpoints props
        | None => []
        end).

Lemma well_formed_replyb_sound p : well_formed_replyb p = true -> well_formed_reply p.
Proof.
  intros [Hn Hl]%andb_true_iff. split; [by apply is_some_true|].
  apply Forall_forall. intros e He [n Hn']. rewrite forallb_forall in Hl.
  apply is_some_true. specialize (Hl e (proj1 (list_elem_of_In _ _) He)).
  by rewrite Hn' in Hl.
Qed.

Lemma createEndpoint_fallback_witness :
  RecordType east <> "TXT"
  /\ ParseConfig (annotationMap east) = inl (config_of east)
  /\ Enabled (config_of east) = true
  /\ ValidateConfig (config_of east) = None
  /\ fst (profilesClient_CreateOrUpdate "rg" "east-example-com-tm"
            (create_request east (config_of east)) (env taken_world))
     = inr cloud.unavailable
  /\ fst (createEndpoint east taken_world) = Val None
  /\ exists ty en first tr,
       calls (snd (createEndpoint east taken_world))
       = calls taken_world
         ++ [ProfilesCreateOrUpdate "rg" "east-example-com-tm"
               (create_request east (config_of east));
             ProfilesGet "rg" "east-example-com-tm";
             EndpointsCreateOrUpdate "rg" "east-example-com-tm" ty en first]
         ++ tr.
Proof.
  assert (H1 : RecordType east <> "TXT") by (intros H; discriminate H).
  assert (H2 : ParseConfig (annotationMap east) = inl (config_of east))
    by (vm_compute; reflexivity).
  assert (H3 : Enabled (config_of east) = true) by (vm_compute; reflexivity).
  assert (H4 : ValidateConfig (config_of east) = None) by (vm_compute; reflexivity).
  assert (Hrg : annotations.ResourceGroup (config_of east) = "rg")
    by (vm_compute; reflexivity).
  assert (Hname : create_profileName east (config_of east) = "east-example-com-tm")
    by (vm_compute; reflexivity).
  set (env1 := snd (profilesClient_CreateOrUpdate "rg" "east-example-com-tm"
                      (create_request east (config_of east)) (env taken_world))).
  set (existing := default (armtrafficmanager.mkProfile None None None None)
                     (cloud.profilesDB env1 !! ("rg", "east-example-com-tm"))).
  destruct (createEndpoint_falls_back_to_existing_profile east (config_of east)
              taken_world cloud.unavailable env1 H1 H2 H3 H4) as [_ Hok].
  { vm_compute; reflexivity. }
  destruct (Hok existing (snd (profilesClient_Get "rg" "east-example-com-tm" env1)))
    as [Hcalls _].
  { vm_compute; reflexivity. }
  { apply well_formed_replyb_sound. vm_compute; reflexivity. }
  cbv zeta in Hcalls. rewrite Hrg, Hname in Hcalls.
  split; [exact H1|]. split; [exact H2|]. split; [exact H3|]. split; [exact H4|].
  split; [vm_compute; reflexivity|]. split; [vm_compute; reflexivity|].
  exact Hcalls.
Defined.

(** ** Update *)

(** The world after the Create of the record with weight 100. *)
Definition weighted_world : World cloud.Cloud :=
  after (createEndpoint (weighted "100")) fresh_world.

Definition labels_config {tables : Unicode} (e : Endpoint) : TrafficManagerConfig :=
  match ParseConfig (Labels e) with
  | inl c => c
  | inr _ => defaultConfig
  end.

Lemma updateEndpoint_weight_witness :
  ParseConfig (Labels (weighted "100")) = inl (labels_config (weighted "100"))
  /\ ParseConfig (Labels (weighted "200")) = inl (labels_config (weighted "200"))
  /\ same_profile_fields (labels_config (weighted "100")) (labels_config (weighted "200"))
  /\ ValidateConfig (labels_config (weighted "200")) = None
  /\ set_Weight 200 (labels_config (weighted "100")) = labels_config (weighted "200")
  /\ exists tr,
       calls (snd (updateEndpoint (weighted "100") (weighted "200") weighted_world))
       = calls weighted_world ++ tr
       /\ count_calls is_profile_update tr = 0%nat
       /\ count_calls is_endpoint_update tr = 1%nat.
Proof.
  assert (H1 : ParseConfig (Labels (weighted "100")) = inl (labels_config (weighted "100")))
    by (vm_compute; reflexivity).
  assert (H2 : ParseConfig (Labels (weighted "200")) = inl (labels_config (weighted "200")))
    by (vm_compute; reflexivity).
  assert (H3 : same_profile_fields (labels_config (weighted "100"))
                 (labels_config (weighted "200")))
    by (repeat split; vm_compute; reflexivity).
  assert (H4 : ValidateConfig (labels_config (weighted "200")) = None)
    by (vm_compute; reflexivity).
  assert (H5 : set_Weight (annotations.Weight (labels_config (weighted "200")))
                 (labels_config (weighted "100")) = labels_config (weighted "200"))
    by (vm_compute; reflexivity).
  assert (H6 : annotations.Weight (labels_config (weighted "200")) = 200)
    by (vm_compute; reflexivity).
  destruct (updateEndpoint_sends_only_what_changed (weighted "100") (weighted "200")
              (labels_config (weighted "100")) (labels_config (weighted "200"))
              weighted_world H1 H2 H3) as (tr & Hcalls & Hprofile & Hweight).
  split; [exact H1|]. split; [exact H2|]. split; [exact H3|]. split; [exact H4|].
  split; [rewrite <- H6; exact H5|].
  exists tr. split; [exact Hcalls|]. split; [exact Hprofile|].
  apply Hweight; [exact H4 | exists "1.2.3.4"; reflexivity | exact H5 |].
  rewrite H6. intros H. vm_compute in H. discriminate H.
Defined.

(** The new weight is 1500: the two configurations differ in the weight
    only, the record has one target, and the Update sends nothing. *)
Lemma updateEndpoint_weight_1500_sends_nothing :
  ParseConfig (Labels (weighted "100")) = inl (labels_config (weighted "100"))
  /\ ParseConfig (Labels (weighted "1500")) = inl (labels_config (weighted "1500"))
  /\ set_Weight 1500 (labels_config (weighted "100")) = labels_config (weighted "1500")
  /\ annotations.Weight (labels_config (weighted "100")) = 100
  /\ Targets (weighted "1500") = ["1.2.3.4"]
  /\ requests (updateEndpoint (weighted "100") (weighted "1500")) weighted_world = []
  /\ count_calls is_endpoint_update
       (requests (updateEndpoint (weighted "100") (weighted "1500")) weighted_world)
     = 0%nat.
Proof. split_and!; vm_compute; reflexivity. Qed.

(** ** Delete *)

(** The world after the Create of the record. *)
Definition created_world : World cloud.Cloud := after (createEndpoint east) fresh_world.

(** What the cloud answers the refetch of that Delete with. *)
Definition refetched_world : World cloud.Cloud :=
  snd (deleteEndpoint_targets east
         (with_generated_names (DNSName east) east (labels_config east))
         (logged (LogDeletingEndpoint (DNSName east)) created_world)).

Definition refetched_profile : armtrafficmanager.Profile :=
  default (armtrafficmanager.mkProfile None None None None)
    (cloud.profilesDB (env refetched_world) !! ("rg", "east-example-com-tm")).

Lemma deleteEndpoint_after_createEndpoint_witness :
  wf_store (store created_world)
  /\ ParseConfig (Labels east) = inl (labels_config east)
  /\ Enabled (labels_config east) = true
  /\ profilesClient_Get "rg" "east-example-com-tm" (env refetched_world)
     = (inl refetched_profile, cloud.tick (env refetched_world))
  /\ is_Some (armtrafficmanager.Profile_Name refetched_profile)
  /\ named_endpoints refetched_profile = []
  /\ hostnames created_world = ["east.example.com"]
  /\ cloud_profiles created_world = [("rg", "east-example-com-tm")]
  /\ fst (deleteEndpoint east created_world) = Val None
  /\ profiles (store (after (deleteEndpoint east) created_world)) !! "east.example.com"
     = None
  /\ cloud_profiles (after (deleteEndpoint east) created_world) = [].
Proof.
  assert (H1 : wf_store (store created_world))
    by (apply wf_storeb_sound; vm_compute; reflexivity).
  assert (H2 : ParseConfig (Labels east) = inl (labels_config east))
    by (vm_compute; reflexivity).
  assert (H3 : Enabled (labels_config east) = true) by (vm_compute; reflexivity).
  assert (H4 : profilesClient_Get "rg" "east-example-com-tm" (env refetched_world)
               = (inl refetched_profile, cloud.tick (env refetched_world)))
    by (vm_compute; reflexivity).
  assert (H5 : is_Some (armtrafficmanager.Profile_Name refetched_profile))
    by (exists "east-example-com-tm"; vm_compute; reflexivity).
  assert (H6 : named_endpoints refetched_profile = []) by (vm_compute; reflexivity).
  destruct (deleteEndpoint_removes_profile_left_without_endpoints east
              (labels_config east) created_world refetched_profile
              (cloud.tick (env refetched_world)) H1 H2 H3 H4 H5)
    as (Hret & _ & Hempty & _).
  destruct (Hempty H6) as (tr & _ & _ & Hok & _).
  destruct Hok as [_ Hgone]; [vm_compute; reflexivity|].
  assert (Hvanity : vanityHostname_of east (labels_config east) = "east.example.com")
    by (vm_compute; reflexivity).
  rewrite Hvanity in Hgone.
  split; [exact H1|]. split; [exact H2|]. split; [exact H3|]. split; [exact H4|].
  split; [exact H5|]. split; [exact H6|].
  split; [vm_compute; reflexivity|]. split; [vm_compute; reflexivity|].
  split; [exact Hret|]. split; [exact Hgone|]. vm_compute; reflexivity.
Defined.

(** The cloud refuses to delete profiles: the refetched profile has no
    endpoint left, the delete is sent, and profile and entry stay. *)
Definition protected_world : World cloud.Cloud := refusing is_profile_delete created_world.

Lemma deleteEndpoint_refused_profile_delete_keeps_entry :
  hostnames protected_world = ["east.example.com"]
  /\ fst (deleteEndpoint east protected_world) = Val None
  /\ requests (deleteEndpoint east) protected_world
     = [EndpointsDelete "rg" "east-example-com-tm" "ExternalEndpoints" "1-2-3-4";
        ProfilesGet "rg" "east-example-com-tm";
        ProfilesDelete "rg" "east-example-com-tm"]
  /\ cloud.endpoints_of
       <$> cloud.profilesDB (env (after (deleteEndpoint east) protected_world))
             !! ("rg", "east-example-com-tm")
     = Some []
  /\ hostnames (after (deleteEndpoint east) protected_world) = ["east.example.com"].
Proof. split_and!; vm_compute; reflexivity. Qed.


(** The routed record behind a vanity hostname, with no profile name. *)
Definition vanity_only : Endpoint :=
  record (<[AnnotationHostname := "demo.example.com"]> labels).

Definition vanity_world : World cloud.Cloud := after (createEndpoint vanity_only) fresh_world.

(** C5.  A Create and then a Delete of the only endpoint of a profile,
    for a record with the hostname annotation "demo.example.com" and no
    profile name annotation, against the reference cloud.  Both return
    nil.  The Create names the profile after the vanity hostname,
    "demo-example-com-tm", and leaves it with one endpoint and one entry
    in the mirror.  The Delete names the profile after the DNS name of
    the record, "east-example-com-tm": its endpoint delete and its
    refetch address a profile that is not there, no profile delete is
    sent, and the profile, its endpoint and the entry of the mirror
    stay. *)
Theorem deleteEndpoint_misses_profile_of_vanity_hostname :
  annotations.ProfileName (labels_config vanity_only) = ""
  /\ vanityHostname_of vanity_only (labels_config vanity_only) = "demo.example.com"
  /\ generateProfileName "demo.example.com" = "demo-example-com-tm"
  /\ generateProfileName (DNSName vanity_only) = "east-example-com-tm"
  /\ fst (createEndpoint vanity_only fresh_world) = Val None
  /\ length
       <$> (cloud.endpoints_of
              <$> cloud.profilesDB (env vanity_world) !! ("rg", "demo-example-com-tm"))
     = Some 1%nat
  /\ cloud_profiles vanity_world = [("rg", "demo-example-com-tm")]
  /\ hostnames vanity_world = ["demo.example.com"]
  /\ fst (deleteEndpoint vanity_only vanity_world) = Val None
  /\ requests (deleteEndpoint vanity_only) vanity_world
     = [EndpointsDelete "rg" "east-example-com-tm" "ExternalEndpoints" "1-2-3-4";
        ProfilesGet "rg" "east-example-com-tm"]
  /\ cloud_profiles (after (deleteEndpoint vanity_only) vanity_world)
     = [("rg", "demo-example-com-tm")]
  /\ length
       <$> (cloud.endpoints_of
              <$> cloud.profilesDB (env (after (deleteEndpoint vanity_only) vanity_world))
                    !! ("rg", "demo-example-com-tm"))
     = Some 1%nat
  /\ hostnames (after (deleteEndpoint vanity_only) vanity_world) = ["demo.example.com"].
Proof. split_and!; vm_compute; reflexivity. Qed.

(** ** The key of the mirror's entries *)

(** C2.  A Create and then an Update of a record with DNS name
    "east.example.com" and the hostname annotation "demo.example.com",
    against the reference cloud.  Both return nil.  The vanity hostname
    is the annotation.  The Create leaves one entry in the mirror, under
    the vanity hostname; the Update leaves that entry as it was and
    writes the refetched profile under the DNS name of the record. *)
Theorem updateEndpoint_keys_mirror_by_DNSName :
  vanityHostname_of demo (labels_config demo) = "demo.example.com"
  /\ DNSName demo = "east.example.com"
  /\ fst (createEndpoint demo fresh_world) = Val None
  /\ hostnames (after (createEndpoint demo) fresh_world) = ["demo.example.com"]
  /\ fst (updateEndpoint demo demo (after (createEndpoint demo) fresh_world)) = Val None
  /\ hostnames (after (updateEndpoint demo demo) (after (createEndpoint demo) fresh_world))
     = ["east.example.com"; "demo.example.com"]
  /\ profiles (store (after (updateEndpoint demo demo)
                        (after (createEndpoint demo) fresh_world))) !! "demo.example.com"
     = profiles (store (after (createEndpoint demo) fresh_world)) !! "demo.example.com".
Proof. split_and!; vm_compute; reflexivity. Qed.

(** ** Batches *)

Definition west : Endpoint :=
  mkEndpoint "west.example.com" ["5.6.7.8"] "A" "" 300
    (<[AnnotationWeight := "1500"]> labels) [].

Definition north : Endpoint :=
  mkEndpoint "north.example.com" ["9.9.9.9"] "A" "" 300 labels [].

(** Three creates, the second of which fails validation, and a delete. *)
Definition batch : Changes := mkChanges [east; west; north] [] [] [east].

Lemma ApplyChanges_stops_at_first_error_witness :
  (length (UpdateOld batch) <= length (UpdateNew batch))%nat
  /\ process (ItemCreate east) fresh_world = (Val None, created_world)
  /\ (exists err,
        process (ItemCreate west) created_world
        = (Val (Some err), logged (LogCreatingEndpoint "west.example.com") created_world)
        /\ ApplyChanges batch fresh_world
           = (Val (Some err),
              logged (LogCreatingEndpoint "west.example.com") created_world))
  /\ log (logged (LogCreatingEndpoint "west.example.com") created_world)
     = [LogCreatingEndpoint "east.example.com"; LogCreatingEndpoint "west.example.com"].
Proof.
  assert (H0 : (length (UpdateOld batch) <= length (UpdateNew batch))%nat)
    by (simpl; lia).
  assert (H1 : process (ItemCreate east) fresh_world = (Val None, created_world))
    by (vm_compute; reflexivity).
  destruct (ApplyChanges_in_order_until_first_error batch fresh_world H0) as [_ Hstop].
  set (err := Errorf_w "invalid Traffic Manager configuration: "
                (errorString "weight must be between 1 and 1000, got 1500")).
  assert (H2 : process (ItemCreate west) created_world
               = (Val (Some err),
                  logged (LogCreatingEndpoint "west.example.com") created_world))
    by (vm_compute; reflexivity).
  destruct (Hstop [ItemCreate east] (ItemCreate west) [ItemCreate north; ItemDelete east]
              created_world
              (logged (LogCreatingEndpoint "west.example.com") created_world) err)
    as [Hrun Hlog].
  { reflexivity. }
  { exact (all_succeed_cons _ _ _ _ _ H1 (all_succeed_nil _)). }
  { exact H2. }
  split; [exact H0|]. split; [exact H1|].
  split; [exists err; split; [exact H2 | exact Hrun]|].
  vm_compute; reflexivity.
Defined.

(** One old record without a new one, and a delete. *)
Definition unpaired : Changes := mkChanges [] [east] [] [east].

(** The batch holds an old record with no new one.  Its one item, the
    delete, returns nil when it is run, yet [ApplyChanges] does not
    return nil: it panics on the missing new record, before the
    delete. *)
Lemma ApplyChanges_unpaired_update_never_reaches_deletes :
  items unpaired = [ItemDelete east]
  /\ all_succeed (items unpaired) created_world (after (deleteEndpoint east) created_world)
  /\ ApplyChanges unpaired created_world = (Panicked, created_world)
  /\ ~ (forall w',
          all_succeed (items unpaired) created_world w' ->
          ApplyChanges unpaired created_world = (Val None, w')).
Proof.
  assert (Hall : all_succeed (items unpaired) created_world
                   (after (deleteEndpoint east) created_world)).
  { apply (all_succeed_cons (ItemDelete east) [] created_world
             (after (deleteEndpoint east) created_world)
             (after (deleteEndpoint east) created_world)).
    - vm_compute; reflexivity.
    - apply all_succeed_nil. }
  assert (Hrun : ApplyChanges unpaired created_world = (Panicked, created_world))
    by (vm_compute; reflexivity).
  split; [reflexivity|]. split; [exact Hall|]. split; [exact Hrun|].
  intros Hclaim. specialize (Hclaim _ Hall). rewrite Hrun in Hclaim. discriminate Hclaim.
Qed.

(* ===================================================================== *)
(** * Further properties of the engine and the mirror *)
(* ===================================================================== *)

(** ** The mirror stays well-formed *)

(** What keeps a profile live when maps may gain live endpoints and a
    profile may get a map it did not have. *)
Lemma live_grows s t l :
  (forall l p, profileObjs s !! l = Some p ->
     exists p', profileObjs t !! l = Some p' /\ Tags p' = Tags p
       /\ (Endpoints p' = Endpoints p
           \/ exists m acc, Endpoints p' = Some m /\ endpointMaps t !! m = Some acc
                /\ map_Forall (fun _ e => is_Some (endpointObjs t !! e)) acc)) ->
  (forall em acc, endpointMaps s !! em = Some acc ->
     map_Forall (fun _ e => is_Some (endpointObjs s !! e)) acc ->
     exists acc', endpointMaps t !! em = Some acc'
       /\ map_Forall (fun _ e => is_Some (endpointObjs t !! e)) acc') ->
  (forall tm, is_Some (tagMaps s !! tm) -> is_Some (tagMaps t !! tm)) ->
  live s l -> live t l.
Proof.
  intros Hprof Hmaps Htags (p & Hp & Hep & Htg).
  destruct (Hprof l p Hp) as (p' & Hp' & Ht & He). exists p'.
  rewrite Ht. split_and!; [done| |].
  - destruct He as [->|(m & acc & -> & Hm & Hall)]; [|eauto].
    destruct (Endpoints p) as [em|]; [|done].
    destruct Hep as (acc & Hacc & Hall). by apply (Hmaps em acc).
  - destruct (Tags p) as [tm|]; [|done]. by apply Htags.
Qed.

(** [Manager.SetEndpoint] with a pointer to an endpoint returns on a
    well-formed store, leaves it well-formed and keeps the manager's
    entries. *)
Lemma SetEndpoint_wf s now1 now2 h n endpoint e :
  wf_store s -> endpointObjs s !! endpoint = Some e ->
  exists t, SetEndpoint now1 now2 h n endpoint s = (Val tt, t)
    /\ wf_store t /\ profiles t = profiles s.
Proof.
  intros Hwf He. unfold SetEndpoint. rewrite (bind_val get _ s s s eq_refl).
  destruct (profiles s !! h) as [l|] eqn:Hh; [|by exists s].
  destruct (proj2 (live_has_value s l) (Hwf h l Hh)) as (p & Hp & Hep & Htg).
  erewrite bind_val by (by apply load_profile_eq).
  (* the map the endpoint goes into, and the store once it exists *)
  set (m := match Endpoints p with
            | Some m => m
            | None => fresh (dom (endpointMaps s))
            end).
  set (p1 := match Endpoints p with
             | Some _ => p
             | None => set_Endpoints (Some m) p
             end).
  set (acc := match Endpoints p with
              | Some m => default ∅ (endpointMaps s !! m)
              | None => ∅
              end).
  set (sB := match Endpoints p with
             | Some _ => s
             | None => with_profileObjs (insert l p1)
                         (with_endpointMaps (insert m ∅) s)
             end).
  assert (Hstep :
    match Endpoints p with
    | None =>
        let* m := make_endpointMap in
        store_profile l (set_Endpoints (Some m) p) ;; ret m
    | Some m => ret m
    end s = (Val m, sB)).
  { unfold sB, p1, m. destruct (Endpoints p) as [m0|]; [done|].
    rewrite (bind_val make_endpointMap _ s (fresh (dom (endpointMaps s)))
               (with_endpointMaps (insert (fresh (dom (endpointMaps s))) ∅) s) eq_refl).
    erewrite bind_val by (by eapply store_profile_eq). done. }
  erewrite bind_val by exact Hstep.
  assert (HpB : profileObjs sB !! l = Some p1).
  { unfold sB, p1. destruct (Endpoints p); [done|]. simpl. apply lookup_insert_eq. }
  assert (HmB : endpointMaps sB !! m = Some acc).
  { unfold sB, m, acc. destruct (Endpoints p) as [m0|].
    - destruct Hep as (a & -> & _). done.
    - simpl. apply lookup_insert_eq. }
  assert (HeB : endpointObjs sB = endpointObjs s).
  { unfold sB. by destruct (Endpoints p). }
  assert (HaccB : map_Forall (fun _ x => is_Some (endpointObjs s !! x)) acc).
  { unfold acc. destruct (Endpoints p) as [m0|]; [|apply map_Forall_empty].
    destruct Hep as (a & -> & Hall). done. }
  assert (Hp1 : Endpoints p1 = Some m /\ Tags p1 = Tags p).
  { unfold p1, m. destruct (Endpoints p) eqn:Hq; [by rewrite Hq|done]. }
  erewrite bind_val by (apply EndpointState_Clone_eq; rewrite HeB; exact He).
  set (c := fresh (dom (endpointObjs sB))).
  set (sC := with_endpointObjs (insert c e) sB).
  assert (Hc : endpointObjs s !! c = None).
  { unfold c. rewrite <- HeB. apply fresh_endpoint. }
  erewrite bind_val by (by apply (endpointMap_set_eq sC m n c acc)).
  erewrite bind_val by (by apply load_profile_eq).
  erewrite bind_val by (by eapply store_profile_eq).
  erewrite bind_val by (apply load_profile_eq; simpl; apply lookup_insert_eq).
  eexists. split.
  { eapply store_profile_eq. simpl. apply lookup_insert_eq. }
  assert (Hprofiles : profiles sB = profiles s).
  { unfold sB. by destruct (Endpoints p). }
  split; [|done].
  assert (Hacc' : map_Forall (fun _ x => is_Some (<[c := e]> (endpointObjs s) !! x))
                    (<[n := c]> acc)).
  { apply map_Forall_insert_2.
    - rewrite lookup_insert_eq. eauto.
    - intros k x Hk. destruct (HaccB k x Hk) as [y Hy]. exists y.
      rewrite lookup_insert_ne; [done|]. intros <-. congruence. }
  intros h' l' Hl'. simpl in Hl'. rewrite Hprofiles in Hl'.
  apply live_has_value. apply (live_grows s); [..|by apply live_has_value, (Hwf h')].
  - intros l0 q Hq. simpl. rewrite insert_insert_eq.
    destruct (decide (l = l0)) as [<-|Hne].
    + rewrite lookup_insert_eq. assert (q = p) as -> by congruence.
      eexists. split; [done|]. simpl. destruct Hp1 as [HE HT]. split; [done|].
      right. exists m, (<[n := c]> acc). rewrite HE. split; [done|].
      rewrite lookup_insert_eq, HeB. done.
    + rewrite lookup_insert_ne by done. exists q.
      assert (Hq' : profileObjs sB !! l0 = Some q).
      { unfold sB. destruct (Endpoints p); [done|]. simpl.
        by rewrite lookup_insert_ne. }
      split; [done|]. split; [done|]. by left.
  - intros em a Ha Hall. simpl. rewrite HeB.
    destruct (decide (m = em)) as [->|Hne].
    + rewrite lookup_insert_eq. eauto.
    + rewrite lookup_insert_ne by done.
      assert (Ha' : endpointMaps sB !! em = Some a).
      { unfold sB. destruct (Endpoints p) eqn:Hq; [done|]. simpl.
        rewrite lookup_insert_ne; [done|]. by unfold m in Hne. }
      exists a. split; [done|]. intros k x Hk. destruct (Hall k x Hk) as [y Hy].
      exists y. rewrite lookup_insert_ne; [done|]. intros <-. congruence.
  - intros tm. simpl. unfold sB. by destruct (Endpoints p).
Qed.

(** [Manager.GetProfile] returns on a well-formed store, and only adds
    objects to it. *)
Lemma GetProfile_returns s now h :
  wf_store s -> exists r t, state.GetProfile now h s = (Val r, t) /\ heap_le s t.
Proof.
  intros Hwf. destruct (profiles s !! h) as [l|] eqn:Hh.
  - destruct (Hwf _ _ Hh) as [v Hv].
    pose proof Hv as (p & Hp & Hsc & _).
    destruct (IsExpired p (cacheTTL s) now) eqn:Hexp.
    + rewrite (GetProfile_expired s now h l p) by done.
      eexists _, _. split; [done | apply heap_le_refl].
    + assert (Hnot : ~ (CachedAt p = 0 \/ cacheTTL s < time_Since now (CachedAt p))).
      { rewrite <- IsExpired_true_iff. congruence. }
      assert (Hcached : pv_CachedAt v = CachedAt p).
      { by destruct Hsc as (_&_&_&_&_&_&_&_&->). }
      destruct (GetProfile_found s now h l v)
        as (c & t & ? & ? & ? & ? & Heq & Hle & _); try done.
      { rewrite Hcached. tauto. }
      { rewrite Hcached. lia. }
      eauto.
  - rewrite GetProfile_missing by done. eexists _, _. split; [done | apply heap_le_refl].
Qed.

(** X1.  Every method of the manager that writes returns on a well-formed
    store and leaves it well-formed; [GetProfile] returns and leaves it
    well-formed too.  The pointers a caller passes in point to objects:
    a profile with its maps, an endpoint. *)
Theorem Manager_keeps_the_store_well_formed (s : Store) :
  wf_store s ->
  (forall now h p v, has_value s p v ->
     fst (SetProfile now h p s) = Val tt /\ wf_store (snd (SetProfile now h p s)))
  /\ (forall h, wf_store (snd (state.DeleteProfile h s)))
  /\ wf_store (snd (Clear s))
  /\ (forall now1 now2 h n endpoint e, endpointObjs s !! endpoint = Some e ->
        fst (SetEndpoint now1 now2 h n endpoint s) = Val tt
        /\ wf_store (snd (SetEndpoint now1 now2 h n endpoint s)))
  /\ (forall now1 now2 h n,
        fst (DeleteEndpoint now1 now2 h n s) = Val tt
        /\ wf_store (snd (DeleteEndpoint now1 now2 h n s)))
  /\ (forall now h,
        (exists r, fst (state.GetProfile now h s) = Val r)
        /\ wf_store (snd (state.GetProfile now h s))).
Proof.
  intros Hwf. split_and!.
  - intros now h p v Hv. split; [|by eapply wf_SetProfile].
    destruct (SetProfile_spec s now h p v Hv) as (stored & t & -> & _). done.
  - intros h. by apply wf_DeleteProfile.
  - intros h l Hl. simpl in Hl. by rewrite lookup_empty in Hl.
  - intros now1 now2 h n endpoint e He.
    destruct (SetEndpoint_wf s now1 now2 h n endpoint e Hwf He) as (t & -> & Ht & _).
    done.
  - intros now1 now2 h n.
    destruct (DeleteEndpoint_wf s now1 now2 h n Hwf) as (t & -> & Ht & _). done.
  - intros now h.
    destruct (GetProfile_returns s now h Hwf) as (r & t & -> & Hle).
    split; [by exists r|]. simpl. intros h' l Hl. rewrite (le_profiles _ _ Hle) in Hl.
    destruct (Hwf h' l Hl) as [v Hv]. exists v. by eapply has_value_le.
Qed.

Lemma Manager_keeps_the_store_well_formed_witness :
  wf_store demo_mirror
  /\ wf_store (snd (SetEndpoint 1001 1002 "demo.example.com" "west" 1%positive demo_mirror))
  /\ wf_store (snd (DeleteEndpoint 1001 1002 "demo.example.com" "east" demo_mirror))
  /\ wf_store (snd (state.DeleteProfile "demo.example.com" demo_mirror)).
Proof.
  assert (Hwf : wf_store demo_mirror) by (apply wf_storeb_sound; vm_compute; reflexivity).
  destruct (Manager_keeps_the_store_well_formed demo_mirror Hwf)
    as (_ & Hdel & _ & Hset & Hdelete & _).
  split; [exact Hwf|]. split.
  { apply (Hset 1001 1002 "demo.example.com" "west" 1%positive demo_endpointState).
    vm_compute; reflexivity. }
  split; [apply Hdelete | apply Hdel].
Defined.

(** ** Records the engine passes over *)

Section Further.
Context {E : Type} `{Environment E} {tables : Unicode}.

(** X2.  A record whose annotations do not switch the feature on is passed
    over by all three handlers: each writes its first log line and
    returns nil, having sent nothing and changed nothing, whatever the
    other annotations are.  Create reads the labels and the
    provider-specific properties, Update and Delete the labels. *)
Theorem switched_off_records_are_passed_over (old endpoint : Endpoint) (w : World E) :
  (enabled_in (annotationMap endpoint) = false -> RecordType endpoint <> "TXT" ->
   createEndpoint endpoint w
   = (Val None, logged (LogCreatingEndpoint (DNSName endpoint)) w))
  /\ (enabled_in (Labels endpoint) = false ->
      updateEndpoint old endpoint w
      = (Val None, logged (LogUpdatingEndpoint (DNSName endpoint)) w)
      /\ deleteEndpoint endpoint w
         = (Val None, logged (LogDeletingEndpoint (DNSName endpoint)) w)).
Proof.
  split.
  - intros Hoff Htxt. unfold createEndpoint.
    rewrite (bind_val (logInfo _) _ w tt
               (logged (LogCreatingEndpoint (DNSName endpoint)) w) eq_refl).
    rewrite (proj2 (String.eqb_neq _ _) Htxt).
    by rewrite (ParseConfig_not_enabled _ Hoff).
  - intros Hoff. split.
    + unfold updateEndpoint.
      rewrite (bind_val (logInfo _) _ w tt
                 (logged (LogUpdatingEndpoint (DNSName endpoint)) w) eq_refl).
      by rewrite (ParseConfig_not_enabled _ Hoff).
    + unfold deleteEndpoint.
      rewrite (bind_val (logInfo _) _ w tt
                 (logged (LogDeletingEndpoint (DNSName endpoint)) w) eq_refl).
      by rewrite (ParseConfig_not_enabled _ Hoff).
Qed.

(** X3.  A TXT record is passed over by Create before its annotations are
    read: the Create returns nil whatever they are. *)
Theorem createEndpoint_skips_TXT_records (endpoint : Endpoint) (w : World E) :
  RecordType endpoint = "TXT" ->
  createEndpoint endpoint w = (Val None, logged (LogCreatingEndpoint (DNSName endpoint)) w).
Proof.
  intros Htxt. unfold createEndpoint.
  rewrite (bind_val (logInfo _) _ w tt
             (logged (LogCreatingEndpoint (DNSName endpoint)) w) eq_refl).
  by rewrite Htxt.
Qed.

(** X4.  The refresh that ends an Update, when the remote answers with a
    profile that carries a name: the mirror's entry for the DNS name of
    the new record becomes a new copy of that profile, with the DNS name
    as its hostname; no other entry changes.  The hostname annotation
    plays no part. *)
Theorem updateEndpoint_refresh_stores_under_DNSName
    (newEndpoint : Endpoint) (newConfig : TrafficManagerConfig) (w : World E)
    (profile : armtrafficmanager.Profile) (env2 : E) :
  profilesClient_Get (annotations.ResourceGroup newConfig)
    (annotations.ProfileName newConfig) (env w) = (inl profile, env2) ->
  is_Some (armtrafficmanager.Profile_Name profile) ->
  exists stored s' v,
    updateEndpoint_refresh newEndpoint newConfig w
    = (Val tt,
       with_store s'
         (sent [ProfilesGet (annotations.ResourceGroup newConfig)
                  (annotations.ProfileName newConfig)] env2 w))
    /\ profiles s' = <[DNSName newEndpoint := stored]> (profiles (store w))
    /\ has_value s' stored v
    /\ pv_Hostname v = DNSName newEndpoint
    /\ dom (pv_Endpoints v) = list_to_set (named_endpoints profile).
Proof.
  intros Hget [name Hname].
  set (w1 := sent [ProfilesGet (annotations.ResourceGroup newConfig)
                     (annotations.ProfileName newConfig)] env2 w).
  destruct (profileToState_spec (annotations.ResourceGroup newConfig) profile w1 name Hname)
    as (ps & s1 & v & Hrun & Hv & Hle & _ & _ & _ & Hdom).
  destruct (assign_Hostname_spec (with_store s1 w1) ps v (DNSName newEndpoint) Hv)
    as (s2 & Hrun2 & Hv2 & Hp2 & _).
  destruct (SetProfile_spec s2 (clock env2) (DNSName newEndpoint) ps _ Hv2)
    as (stored & t & Hset & Hprof & _ & Hst & _).
  exists stored, t, (pv_set_CachedAt (clock env2) (pv_set_Hostname (DNSName newEndpoint) v)).
  split_and!; try done.
  - unfold updateEndpoint_refresh, trafficmanager.GetProfileState.
    rewrite bind_assoc. erewrite bind_val by (apply request_eq; exact Hget).
    cbv beta iota. rewrite bind_assoc. fold w1. rewrite (bind_val _ _ _ _ _ Hrun).
    rewrite (bind_val (ret (inl ps)) _ _ _ _ eq_refl).
    rewrite (bind_val _ _ _ _ _ Hrun2). unfold stateManager_SetProfile.
    rewrite (bind_val time_Now _ (with_store s2 w1) _ _ eq_refl).
    apply (on_store_eq _ (with_store s2 w1)). exact Hset.
  - rewrite Hprof, Hp2. simpl. by rewrite (le_profiles _ _ Hle).
Qed.

(** ** Batches with too few new records *)

Lemma all_succeed_app_inv l1 l2 (w w' : World E) :
  all_succeed (l1 ++ l2) w w' ->
  exists w1, all_succeed l1 w w1 /\ all_succeed l2 w1 w'.
Proof.
  revert w. induction l1 as [|x l1 IH]; intros w; simpl.
  - intros Hall. exists w. split; [constructor | done].
  - intros Hall. inversion Hall as [|x' l' w0 w1 w2 Hx Hrest]. subst.
    destruct (IH w1 Hrest) as (w3 & H1 & H2). exists w3. split; [|done].
    by econstructor.
Qed.

Lemma update_loop_short olds news i (w w' : World E) :
  (length (drop i news) < length olds)%nat ->
  all_succeed (zip_with ItemUpdate olds (drop i news)) w w' ->
  update_loop olds news i w = (Panicked, w').
Proof.
  revert i w. induction olds as [|o olds IH]; intros i w Hlen Hall; simpl in *; [lia|].
  destruct (drop i news) as [|n rest] eqn:Hd.
  - inversion Hall; subst.
    assert (Hi : news !! i = None).
    { rewrite <- (Nat.add_0_r i), <- lookup_drop, Hd. done. }
    by rewrite Hi.
  - assert (Hi : news !! i = Some n).
    { rewrite <- (Nat.add_0_r i), <- lookup_drop, Hd. done. }
    assert (Hrest : drop (S i) news = rest).
    { pose proof (drop_S _ _ _ Hi) as Hs. rewrite Hd in Hs. by injection Hs as <-. }
    rewrite (bind_val (must (news !! i)) _ w n w) by (by rewrite Hi).
    subst rest. simpl in Hall, Hlen.
    inversion Hall as [|x' l' w0 w1 w2 Hx Hr]. subst. simpl in Hx.
    rewrite (bind_val _ _ _ _ _ Hx). apply IH; [lia | done].
Qed.

(** X5.  When a batch has fewer new than old update records and every create
    and every update that has a partner returns nil, [ApplyChanges]
    panics on the first old record without a partner (index out of
    range), after those items and before any delete. *)
Theorem ApplyChanges_panics_on_missing_new_record (changes : Changes) (w w' : World E) :
  (length (UpdateNew changes) < length (UpdateOld changes))%nat ->
  all_succeed (map ItemCreate (Create changes)
               ++ zip_with ItemUpdate (UpdateOld changes) (UpdateNew changes)) w w' ->
  ApplyChanges changes w = (Panicked, w').
Proof.
  intros Hlen Hall. apply all_succeed_app_inv in Hall as (w1 & Hc & Hu).
  unfold ApplyChanges.
  assert (Hcreate : for_each_err (Create changes) createEndpoint w = (Val None, w1)).
  { rewrite <- (all_succeed_run _ _ _ Hc). by rewrite for_each_err_map. }
  rewrite (bind_val _ _ _ _ _ Hcreate).
  assert (Hupdate : update_loop (UpdateOld changes) (UpdateNew changes) 0 w1
                    = (Panicked, w')).
  { apply update_loop_short; by rewrite drop_0. }
  unfold bind. by rewrite Hupdate.
Qed.

End Further.

Lemma createEndpoint_skips_TXT_records_witness :
  RecordType txt_record = "TXT"
  /\ createEndpoint txt_record fresh_world
     = (Val None, logged (LogCreatingEndpoint (DNSName txt_record)) fresh_world).
Proof.
  split; [reflexivity|].
  apply (createEndpoint_skips_TXT_records txt_record fresh_world). reflexivity.
Defined.

(** The world after the Create of the record behind the vanity hostname,
    and the configuration its Update works with. *)
Definition demo_world : World cloud.Cloud := after (createEndpoint demo) fresh_world.

Definition demo_config : TrafficManagerConfig :=
  with_generated_names (DNSName demo) demo (labels_config demo).

Definition demo_reply : armtrafficmanager.Profile :=
  default (armtrafficmanager.mkProfile None None None None)
    (cloud.profilesDB (env demo_world) !! ("rg", "demo-tm")).

Lemma updateEndpoint_refresh_witness :
  profilesClient_Get (annotations.ResourceGroup demo_config)
    (annotations.ProfileName demo_config) (env demo_world)
  = (inl demo_reply, cloud.tick (env demo_world))
  /\ is_Some (armtrafficmanager.Profile_Name demo_reply)
  /\ annotations.Hostname demo_config = "demo.example.com"
  /\ exists stored s',
       fst (updateEndpoint_refresh demo demo_config demo_world) = Val tt
       /\ store (snd (updateEndpoint_refresh demo demo_config demo_world)) = s'
       /\ profiles s' = <[DNSName demo := stored]> (profiles (store demo_world)).
Proof.
  assert (H1 : profilesClient_Get (annotations.ResourceGroup demo_config)
                 (annotations.ProfileName demo_config) (env demo_world)
               = (inl demo_reply, cloud.tick (env demo_world)))
    by (vm_compute; reflexivity).
  assert (H2 : is_Some (armtrafficmanager.Profile_Name demo_reply))
    by (exists "demo-tm"; vm_compute; reflexivity).
  destruct (updateEndpoint_refresh_stores_under_DNSName demo demo_config demo_world
              demo_reply (cloud.tick (env demo_world)) H1 H2)
    as (stored & s' & v & Hrun & Hprof & _).
  split; [exact H1|]. split; [exact H2|]. split; [vm_compute; reflexivity|].
  exists stored, s'. rewrite Hrun. split; [reflexivity|]. split; [reflexivity|].
  exact Hprof.
Defined.

(** One old record and no new one. *)
Definition lopsided : Changes := mkChanges [] [east] [] [].

Lemma ApplyChanges_panics_witness :
  (length (UpdateNew lopsided) < length (UpdateOld lopsided))%nat
  /\ ApplyChanges lopsided fresh_world = (Panicked, fresh_world).
Proof.
  assert (H0 : (length (UpdateNew lopsided) < length (UpdateOld lopsided))%nat)
    by (simpl; lia).
  split; [exact H0|].
  apply (ApplyChanges_panics_on_missing_new_record lopsided fresh_world fresh_world H0).
  apply all_succeed_nil.
Defined.

(* ===================================================================== *)
(** * The annotations, field by field *)
(* ===================================================================== *)

(** ** ValidateConfig *)

Lemma contains_In slice item : contains slice item = true <-> In item slice.
Proof.
  unfold contains. rewrite existsb_exists. split.
  - intros (x & Hx & Heq). apply String.eqb_eq in Heq. by subst.
  - intros Hin. exists item. split; [done | apply String.eqb_refl].
Qed.

Lemma str_empty_true s : str_empty s = true <-> s = "".
Proof. by destruct s. Qed.

Lemma str_empty_false s : str_empty s = false <-> s <> "".
Proof. by destruct s. Qed.

(** X6.  [ValidateConfig] returns nil exactly on the configurations that
    are switched off, and on those that name a resource group, have
    weight and priority in 1..1000, a routing method, a monitor protocol
    and an endpoint status from the lists of the source, a DNS TTL of at
    least 30, a monitor port in 1..65535 and, for the endpoint type
    "ExternalEndpoints", an endpoint location. *)
Theorem ValidateConfig_accepts_exactly {tables : Unicode} (config : TrafficManagerConfig) :
  ValidateConfig config = None <->
  (Enabled config = false
   \/ (annotations.ResourceGroup config <> ""
       /\ 1 <= annotations.Weight config <= 1000
       /\ 1 <= annotations.Priority config <= 1000
       /\ In (annotations.RoutingMethod config)
            ["Weighted"; "Priority"; "Performance"; "Geographic"]
       /\ In (MonitorProtocol config) ["HTTP"; "HTTPS"; "TCP"]
       /\ In (annotations.EndpointStatus config) ["Enabled"; "Disabled"]
       /\ 30 <= annotations.DNSTTL config
       /\ 1 <= MonitorPort config <= 65535
       /\ (annotations.EndpointType config = "ExternalEndpoints" ->
           annotations.EndpointLocation config <> ""))).
Proof.
  unfold ValidateConfig.
  destruct (Enabled config); cbn [negb]; [|split; [by left | done]].
  destruct (str_empty (annotations.ResourceGroup config)) eqn:Hrg.
  { apply str_empty_true in Hrg. split; [done|]. intros [?|(? & _)]; done. }
  apply str_empty_false in Hrg.
  destruct (Z.ltb_spec (annotations.Weight config) 1);
    [cbn [orb]; split; [done | intros [?|?]; [done | lia]]|].
  destruct (Z.ltb_spec 1000 (annotations.Weight config));
    [cbn [orb]; split; [done | intros [?|?]; [done | lia]]|].
  cbn [orb].
  destruct (Z.ltb_spec (annotations.Priority config) 1);
    [cbn [orb]; split; [done | intros [?|?]; [done | lia]]|].
  destruct (Z.ltb_spec 1000 (annotations.Priority config));
    [cbn [orb]; split; [done | intros [?|?]; [done | lia]]|].
  cbn [orb].
  destruct (contains validRoutingMethods (annotations.RoutingMethod config)) eqn:Hrm;
    cbn [negb].
  2:{ split; [done|]. intros [?|(_ & _ & _ & Hin & _)]; [done|].
      apply contains_In in Hin. unfold validRoutingMethods in Hrm. congruence. }
  destruct (contains validProtocols (MonitorProtocol config)) eqn:Hmp; cbn [negb].
  2:{ split; [done|]. intros [?|(_ & _ & _ & _ & Hin & _)]; [done|].
      apply contains_In in Hin. unfold validProtocols in Hmp. congruence. }
  destruct (contains validStatuses (annotations.EndpointStatus config)) eqn:Hes;
    cbn [negb].
  2:{ split; [done|]. intros [?|(_ & _ & _ & _ & _ & Hin & _)]; [done|].
      apply contains_In in Hin. unfold validStatuses in Hes. congruence. }
  apply contains_In in Hrm, Hmp, Hes.
  destruct (Z.ltb_spec (annotations.DNSTTL config) 30);
    [split; [done | intros [?|?]; [done | lia]]|].
  destruct (Z.ltb_spec (MonitorPort config) 1);
    [cbn [orb]; split; [done | intros [?|?]; [done | lia]]|].
  destruct (Z.ltb_spec 65535 (MonitorPort config));
    [cbn [orb]; split; [done | intros [?|?]; [done | lia]]|].
  cbn [orb].
  destruct (String.eqb_spec (annotations.EndpointType config) "ExternalEndpoints") as [Ht|Ht];
    cbn [andb].
  - destruct (str_empty (annotations.EndpointLocation config)) eqn:Hloc.
    + apply str_empty_true in Hloc. split; [done|].
      intros [?|(_ & _ & _ & _ & _ & _ & _ & _ & Hl)]; [done|]. by destruct (Hl Ht).
    + apply str_empty_false in Hloc. split; [|done]. intros _. right.
      split_and!; try done; lia.
  - split; [|done]. intros _. right. split_and!; try done; lia.
Qed.

(** ** ParseConfig *)

(** The value of an annotation that is there and not empty, read as
    text, as a number, as a flag. *)
Definition text_of (labels : gmap string string) (key dflt : string) : string :=
  default dflt (present labels key).

Definition value_of {tables : Unicode} {A} (parse : string -> A + error)
    (labels : gmap string string) (key what : string) (dflt : A) : A + error :=
  match present labels key with
  | Some s =>
      match parse s with
      | inl a => inl a
      | inr err =>
          inr (Errorf_w ("invalid " +:+ what +:+ " value " +:+ strconv_Quote s +:+ ": ") err)
      end
  | None => inl dflt
  end.

Definition number_of {tables : Unicode} := value_of strconv_ParseInt.
Definition flag_of {tables : Unicode} := value_of strconv_ParseBool.

(** What [ParseConfig] returns for annotations that switch the feature
    on and name a resource group, with every field read on its own. *)
Definition parsed {tables : Unicode} (labels : gmap string string) : TrafficManagerConfig + error :=
  match number_of labels AnnotationWeight "weight" DefaultWeight with
  | inr err => inr err
  | inl weight =>
  match number_of labels AnnotationPriority "priority" DefaultPriority with
  | inr err => inr err
  | inl priority =>
  match number_of labels AnnotationDNSTTL "DNS TTL" DefaultDNSTTL with
  | inr err => inr err
  | inl ttl =>
  match number_of labels AnnotationMonitorPort "monitor port" DefaultMonitorPort with
  | inr err => inr err
  | inl port =>
  match flag_of labels AnnotationHealthChecksEnabled "health checks enabled" false with
  | inr err => inr err
  | inl healthChecks =>
      inl {| Enabled := true;
             annotations.ProfileName := text_of labels AnnotationProfileName "";
             annotations.ResourceGroup := default "" (labels !! AnnotationResourceGroup);
             annotations.Hostname := text_of labels AnnotationHostname "";
             annotations.RoutingMethod :=
               text_of labels AnnotationRoutingMethod DefaultRoutingMethod;
             annotations.Weight := weight;
             annotations.Priority := priority;
             annotations.EndpointName := text_of labels AnnotationEndpointName "";
             annotations.EndpointLocation := text_of labels AnnotationEndpointLocation "";
             annotations.EndpointStatus :=
               text_of labels AnnotationEndpointStatus DefaultEndpointStatus;
             annotations.EndpointType := DefaultEndpointType;
             annotations.DNSTTL := ttl;
             MonitorProtocol := text_of labels AnnotationMonitorProtocol DefaultMonitorProtocol;
             MonitorPort := port;
             MonitorPath := text_of labels AnnotationMonitorPath DefaultMonitorPath;
             HealthChecksEnabled := healthChecks |}
  end end end end end.

Ltac norm_config :=
  cbv beta iota delta
    [set_Enabled set_ProfileName set_ResourceGroup annotations.set_Hostname
     set_RoutingMethod set_Weight set_Priority annotations.set_EndpointName
     set_EndpointLocation set_EndpointStatus set_DNSTTL set_MonitorProtocol
     set_MonitorPort set_MonitorPath set_HealthChecksEnabled defaultConfig
     Enabled annotations.ProfileName annotations.ResourceGroup annotations.Hostname
     annotations.RoutingMethod annotations.Weight annotations.Priority
     annotations.EndpointName annotations.EndpointLocation annotations.EndpointStatus
     annotations.EndpointType annotations.DNSTTL MonitorProtocol MonitorPort MonitorPath
     HealthChecksEnabled negb].

(** One assignment: the config is replaced by its record. *)
Ltac step_let :=
  lazymatch goal with
  | |- (let x := ?A in @?B x) = ?R => change (B A = R); cbv beta
  end.

(** One optional text field: [set] with the value or with what the field
    held. *)
Ltac text_step set get :=
  lazymatch goal with
  | |- (let x := ?A in _) = _ =>
      lazymatch A with
      | match ?o with Some v => _ | None => ?c end =>
          let N := eval cbv beta iota delta
                     [set_Enabled set_ProfileName set_ResourceGroup annotations.set_Hostname
                      set_RoutingMethod set_Weight set_Priority annotations.set_EndpointName
                      set_EndpointLocation set_EndpointStatus set_DNSTTL set_MonitorProtocol
                      set_MonitorPort set_MonitorPath set_HealthChecksEnabled
                      Enabled annotations.ProfileName annotations.ResourceGroup
                      annotations.Hostname annotations.RoutingMethod annotations.Weight
                      annotations.Priority annotations.EndpointName
                      annotations.EndpointLocation annotations.EndpointStatus
                      annotations.EndpointType annotations.DNSTTL MonitorProtocol MonitorPort
                      MonitorPath HealthChecksEnabled]
                   in (set (default (get c) o) c) in
          let E := fresh "E" in
          assert (E : A = N) by (destruct o; reflexivity);
          rewrite E; clear E; step_let; norm_config
      end
  end.

(** One optional number or flag: the value read, or the error. *)
Lemma try_value {tables : Unicode} {A} (parse : string -> A + error) labels key what dflt
    (set : A -> TrafficManagerConfig -> TrafficManagerConfig) c
    (k : TrafficManagerConfig -> TrafficManagerConfig + error)
    (k' : A -> TrafficManagerConfig + error) :
  set dflt c = c ->
  (forall a, k (set a c) = k' a) ->
  match
    match present labels key with
    | Some s =>
        match parse s with
        | inl a => inl (set a c)
        | inr err =>
            inr (Errorf_w ("invalid " +:+ what +:+ " value " +:+ strconv_Quote s +:+ ": ") err)
        end
    | None => inl c
    end
  with
  | inl x => k x
  | inr err => inr err
  end
  = match value_of parse labels key what dflt with
    | inl a => k' a
    | inr err => inr err
    end.
Proof.
  intros Hd Hk. unfold value_of.
  destruct (present labels key) as [s|]; [destruct (parse s) as [a|err]|].
  - apply Hk.
  - reflexivity.
  - rewrite <- Hk, Hd. reflexivity.
Qed.

Ltac value_step set what dflt :=
  lazymatch goal with
  | |- match (match present ?labels ?K with Some s => _ | None => inl ?c end) with
       | inl x => @?k x | inr e => _ end
       = match value_of ?parse _ _ _ _ with inl a => @?k' a | inr e' => _ end =>
      refine (try_value parse labels K what dflt set c k k' eq_refl _);
      intros ?; cbv beta; norm_config
  end.

Lemma ParseConfig_closed_form {tables : Unicode} labels :
  enabled_in labels = true ->
  str_empty (default "" (labels !! AnnotationResourceGroup)) = false ->
  ParseConfig labels = parsed labels.
Proof.
  intros Hen Hrg. unfold enabled_in in Hen.
  destruct (labels !! AnnotationEnabled) as [v|] eqn:Hv; [|discriminate].
  cbv delta [ParseConfig parsed number_of flag_of]. cbv beta.
  step_let. rewrite Hv, Hen. step_let. norm_config.
  step_let. norm_config. rewrite Hrg. cbv iota.
  text_step set_ProfileName annotations.ProfileName.
  text_step annotations.set_Hostname annotations.Hostname.
  text_step set_RoutingMethod annotations.RoutingMethod.
  value_step set_Weight "weight" DefaultWeight.
  value_step set_Priority "priority" DefaultPriority.
  text_step annotations.set_EndpointName annotations.EndpointName.
  text_step set_EndpointLocation annotations.EndpointLocation.
  text_step set_EndpointStatus annotations.EndpointStatus.
  value_step set_DNSTTL "DNS TTL" DefaultDNSTTL.
  text_step set_MonitorProtocol MonitorProtocol.
  value_step set_MonitorPort "monitor port" DefaultMonitorPort.
  text_step set_MonitorPath MonitorPath.
  value_step set_HealthChecksEnabled "health checks enabled" false.
  reflexivity.
Qed.


Lemma ParseConfig_without_resource_group {tables : Unicode} labels :
  enabled_in labels = true ->
  str_empty (default "" (labels !! AnnotationResourceGroup)) = true ->
  ParseConfig labels
  = inr (errorString ("annotation " +:+ AnnotationResourceGroup
                      +:+ " is required when Traffic Manager is enabled")).
Proof.
  intros Hen Hrg. unfold enabled_in in Hen.
  destruct (labels !! AnnotationEnabled) as [v|] eqn:Hv; [|discriminate].
  cbv delta [ParseConfig]. cbv beta.
  step_let. rewrite Hv, Hen. step_let. norm_config.
  step_let. norm_config. rewrite Hrg. reflexivity.
Qed.

(** X7.  Once the enabled annotation reads "true" (in any case),
    [ParseConfig] fails when the resource group annotation is missing or
    empty, and otherwise reads every field from its own annotation: a
    text is the annotation's value when it is there and not empty and
    the default otherwise, a number or a flag is parsed from such a value
    and an unparsable one is the error, reported for weight, priority,
    DNS TTL, monitor port and health checks in this order.  The endpoint
    type is always "ExternalEndpoints" and the health checks are off
    unless the annotation switches them on. *)
Theorem ParseConfig_reads_each_annotation {tables : Unicode} (labels : gmap string string) :
  enabled_in labels = true ->
  ParseConfig labels
  = if str_empty (default "" (labels !! AnnotationResourceGroup)) then
      inr (errorString ("annotation " +:+ AnnotationResourceGroup
                        +:+ " is required when Traffic Manager is enabled"))
    else parsed labels.
Proof.
  intros Hen.
  destruct (str_empty (default "" (labels !! AnnotationResourceGroup))) eqn:Hrg.
  - apply ParseConfig_without_resource_group; assumption.
  - apply ParseConfig_closed_form; assumption.
Qed.

Lemma present_insert_empty (labels : gmap string string) (key k : string) :
  present (<[key := ""]> labels) k = present (delete key labels) k.
Proof.
  unfold present. destruct (decide (key = k)) as [->|Hne].
  - rewrite lookup_insert_eq, lookup_delete_eq. reflexivity.
  - rewrite lookup_insert_ne, lookup_delete_ne by assumption. reflexivity.
Qed.

Lemma enabled_in_insert_empty (labels : gmap string string) (key : string) :
  enabled_in (<[key := ""]> labels) = enabled_in (delete key labels).
Proof.
  unfold enabled_in. destruct (decide (key = AnnotationEnabled)) as [->|Hne].
  - rewrite lookup_insert_eq, lookup_delete_eq. reflexivity.
  - rewrite lookup_insert_ne, lookup_delete_ne by assumption. reflexivity.
Qed.

Lemma resource_group_insert_empty (labels : gmap string string) (key : string) :
  default "" (<[key := ""]> labels !! AnnotationResourceGroup)
  = default "" (delete key labels !! AnnotationResourceGroup).
Proof.
  destruct (decide (key = AnnotationResourceGroup)) as [->|Hne].
  - rewrite lookup_insert_eq, lookup_delete_eq. reflexivity.
  - rewrite lookup_insert_ne, lookup_delete_ne by assumption. reflexivity.
Qed.

(** X8.  An annotation with an empty value is read as an annotation
    that is not there, whatever its key. *)
Theorem ParseConfig_empty_value_is_absent {tables : Unicode}
    (labels : gmap string string) (key : string) :
  ParseConfig (<[key := ""]> labels) = ParseConfig (delete key labels).
Proof.
  destruct (enabled_in (delete key labels)) eqn:Hen.
  - assert (Hen' : enabled_in (<[key := ""]> labels) = true)
      by (rewrite enabled_in_insert_empty; assumption).
    destruct (str_empty (default "" (delete key labels !! AnnotationResourceGroup))) eqn:Hrg.
    + rewrite !ParseConfig_without_resource_group;
        rewrite ?resource_group_insert_empty; try assumption. reflexivity.
    + rewrite !ParseConfig_closed_form;
        rewrite ?resource_group_insert_empty; try assumption.
      unfold parsed, text_of, number_of, flag_of, value_of.
      rewrite !present_insert_empty, resource_group_insert_empty. reflexivity.
  - rewrite !ParseConfig_not_enabled
      by (rewrite ?enabled_in_insert_empty; assumption).
    reflexivity.
Qed.

(** The labels of the scenarios parse. *)
Lemma ParseConfig_reads_each_annotation_witness :
  enabled_in scenario.labels = true
  /\ ParseConfig scenario.labels
     = if str_empty (default "" (scenario.labels !! AnnotationResourceGroup)) then
         inr (errorString ("annotation " +:+ AnnotationResourceGroup
                           +:+ " is required when Traffic Manager is enabled"))
       else parsed scenario.labels.
Proof.
  split; [vm_compute; reflexivity|].
  apply (ParseConfig_reads_each_annotation scenario.labels). vm_compute; reflexivity.
Defined.


(** ** The two together *)

(** A weight that holds a byte of no UTF-8 sequence: the error quotes
    the byte as [\xff], under all tables. *)
Example ParseConfig_quotes_an_invalid_byte {tables : Unicode} :
  let q := dquote +:+ String backslash "xff0" +:+ dquote in
  match ParseConfig (<[AnnotationWeight := String (ascii_of 255) "0"]> scenario.labels) with
  | inr err =>
      Error err
      = "invalid weight value " +:+ q +:+ ": strconv.ParseInt: parsing " +:+ q
        +:+ ": invalid syntax"
  | inl _ => False
  end.
Proof. vm_compute. reflexivity. Qed.

Lemma ValidateConfig_missing_location {tables : Unicode} config :
  Enabled config = true ->
  annotations.EndpointType config = "ExternalEndpoints" ->
  annotations.EndpointLocation config = "" ->
  ValidateConfig config <> None.
Proof.
  intros He Ht Hl. unfold ValidateConfig. rewrite He, Ht, Hl. cbn [negb].
  repeat match goal with
         | |- (if ?b then _ else _) <> None =>
             match b with context [config] => destruct b; [discriminate|] end
         end.
  discriminate.
Qed.

Lemma parsed_fields {tables : Unicode} labels c :
  parsed labels = inl c ->
  Enabled c = true
  /\ annotations.EndpointType c = "ExternalEndpoints"
  /\ annotations.EndpointLocation c = text_of labels AnnotationEndpointLocation ""
  /\ HealthChecksEnabled c
     = match flag_of labels AnnotationHealthChecksEnabled "health checks enabled" false with
       | inl b => b
       | inr _ => false
       end.
Proof.
  unfold parsed.
  destruct (number_of labels AnnotationWeight "weight" DefaultWeight); [|discriminate].
  destruct (number_of labels AnnotationPriority "priority" DefaultPriority); [|discriminate].
  destruct (number_of labels AnnotationDNSTTL "DNS TTL" DefaultDNSTTL); [|discriminate].
  destruct (number_of labels AnnotationMonitorPort "monitor port" DefaultMonitorPort);
    [|discriminate].
  destruct (flag_of labels AnnotationHealthChecksEnabled "health checks enabled" false);
    [|discriminate].
  intros [= <-]. by repeat split.
Qed.

(** Annotations that switch the feature on and give no endpoint location
    do not pass: either they do not parse, or the configuration is not
    valid. *)
Lemma no_location_no_pass {tables : Unicode} labels c :
  enabled_in labels = true ->
  present labels AnnotationEndpointLocation = None ->
  ParseConfig labels = inl c ->
  Enabled c = true /\ ValidateConfig c <> None.
Proof.
  intros Hen Hloc Hp.
  destruct (str_empty (default "" (labels !! AnnotationResourceGroup))) eqn:Hrg.
  { rewrite (ParseConfig_without_resource_group _ Hen Hrg) in Hp. discriminate. }
  rewrite (ParseConfig_closed_form _ Hen Hrg) in Hp.
  apply parsed_fields in Hp as (He & Ht & Hl & _).
  split; [done|]. apply ValidateConfig_missing_location; [done | done |].
  rewrite Hl. unfold text_of. by rewrite Hloc.
Qed.

(* ===================================================================== *)
(** * Names and domain filters *)
(* ===================================================================== *)

(** ** Prefixes and suffixes *)

Lemma length_append_string (a b : string) :
  String.length (a +:+ b) = (String.length a + String.length b)%nat.
Proof.
  induction a as [|c a IH]; [reflexivity|].
  rewrite append_cons. simpl. by rewrite IH.
Qed.

Lemma substring_all (s : string) : substring 0 (String.length s) s = s.
Proof. induction s as [|c s IH]; [reflexivity|]. simpl. by rewrite IH. Qed.

Lemma substring_append (p s : string) :
  substring (String.length p) (String.length s) (p +:+ s) = s.
Proof.
  induction p as [|c p IH]; [apply substring_all|].
  rewrite append_cons. simpl. exact IH.
Qed.

Lemma substring_split (n : nat) (s : string) :
  (n <= String.length s)%nat ->
  s = substring 0 n s +:+ substring n (String.length s - n) s.
Proof.
  revert n. induction s as [|c s IH]; intros n Hn.
  - simpl in Hn. assert (n = 0%nat) as -> by lia. reflexivity.
  - destruct n as [|n].
    + simpl. by rewrite substring_all.
    + simpl in Hn. simpl. rewrite append_cons. f_equal. apply IH. lia.
Qed.

(** [strings.HasSuffix]: the string ends with the suffix. *)
Lemma HasSuffix_spec (s suffix : string) :
  strings_HasSuffix s suffix = true <-> exists p, s = p +:+ suffix.
Proof.
  unfold strings_HasSuffix. rewrite andb_true_iff, Nat.leb_le, String.eqb_eq. split.
  - intros [Hlen Heq].
    exists (substring 0 (String.length s - String.length suffix) s).
    pose proof (substring_split (String.length s - String.length suffix) s) as Hs.
    replace (String.length s - (String.length s - String.length suffix))%nat
      with (String.length suffix) in Hs by lia.
    rewrite Heq in Hs. apply Hs. lia.
  - intros [p ->]. rewrite length_append_string. split; [lia|].
    replace (String.length p + String.length suffix - String.length suffix)%nat
      with (String.length p) by lia.
    apply substring_append.
Qed.

Lemma HasPrefix_spec (s p : string) :
  strings_HasPrefix s p = true <-> exists r, s = p +:+ r.
Proof.
  revert s. induction p as [|a p IH]; intros s.
  - split; [intros _; by exists s | by destruct s].
  - destruct s as [|b s]; simpl.
    + split; [done|]. intros [r Hr]. by rewrite append_cons in Hr.
    + destruct (Ascii.eqb_spec a b) as [->|Hne].
      * rewrite IH. split; intros [r Hr]; exists r.
        -- rewrite append_cons. by rewrite Hr.
        -- rewrite append_cons in Hr. by injection Hr.
      * split; [done|]. intros [r Hr]. rewrite append_cons in Hr. by injection Hr.
Qed.

(** ** matchesDomain *)

(** The hostname is [domain] or ends with "." followed by [domain]. *)
Definition within (hostname domain : string) : Prop :=
  hostname = domain \/ exists sub, hostname = sub +:+ "." +:+ domain.

Lemma within_spec hostname domain :
  String.eqb hostname domain || strings_HasSuffix hostname ("." +:+ domain) = true
  <-> within hostname domain.
Proof.
  unfold within. rewrite orb_true_iff, String.eqb_eq, HasSuffix_spec. reflexivity.
Qed.

Lemma matchesDomain_spec hostname filter :
  matchesDomain hostname filter = true
  <-> within hostname filter
      \/ exists domain, filter = "*." +:+ domain /\ within hostname domain.
Proof.
  unfold matchesDomain.
  destruct (String.eqb hostname filter
            || strings_HasSuffix hostname ("." +:+ filter)) eqn:Hplain.
  - assert (Hw := proj1 (within_spec _ _) Hplain).
    apply orb_true_iff in Hplain as [->| ->]; [|destruct (String.eqb _ _)]; tauto.
  - assert (Hnw : ~ within hostname filter)
      by (rewrite <- within_spec, Hplain; discriminate).
    apply orb_false_iff in Hplain as [-> ->].
    destruct (strings_HasPrefix filter "*.") eqn:Hstar.
    + apply HasPrefix_spec in Hstar as [domain ->].
      assert (Hcut : substring 2 (String.length ("*." +:+ domain) - 2) ("*." +:+ domain)
                     = domain).
      { rewrite !append_cons. simpl. rewrite Nat.sub_0_r. apply substring_all. }
      cbv zeta. rewrite Hcut.
      destruct (String.eqb hostname domain
                || strings_HasSuffix hostname ("." +:+ domain)) eqn:Hwild.
      * apply within_spec in Hwild. split; [|done]. intros _. right. by exists domain.
      * split; [done|]. intros [Hw|(d & Hd & Hw)]; [done|].
        change (String "*" (String "." domain) = String "*" (String "." d)) in Hd.
        injection Hd as <-.
        apply within_spec in Hw. congruence.
    + split; [done|]. intros [Hw|(d & -> & _)]; [done|].
      rewrite HasPrefix_app in Hstar. discriminate.
Qed.

Lemma matchesAnyDomain_spec hostname filters :
  matchesAnyDomain hostname filters = true
  <-> exists filter, In filter filters /\ matchesDomain hostname filter = true.
Proof.
  induction filters as [|f r IH]; simpl.
  - split; [done | by intros (? & [] & _)].
  - destruct (matchesDomain hostname f) eqn:Hf.
    + split; [|done]. intros _. exists f. by split; [left|].
    + rewrite IH. split.
      * intros (x & Hx & Hm). exists x. by split; [right|].
      * intros (x & [<-|Hx] & Hm); [congruence|]. by exists x.
Qed.

(** X9.  A hostname passes the domain filter exactly when the filter is
    empty, or one of its entries is the hostname, is a parent domain of
    it (the hostname ends with "." and the entry), or is "*." followed by
    a domain that the hostname is or is a subdomain of.  The comparison
    is on the bytes as they are: case and a trailing dot count. *)
Theorem matchesDomainFilter_accepts_exactly (domainFilter : list string) (hostname : string) :
  matchesDomainFilter domainFilter hostname = true
  <-> domainFilter = []
      \/ exists filter, In filter domainFilter
           /\ (within hostname filter
               \/ exists domain, filter = "*." +:+ domain /\ within hostname domain).
Proof.
  unfold matchesDomainFilter. destruct domainFilter as [|f r].
  - simpl. tauto.
  - change ((length (f :: r) =? 0)%nat) with false. cbv iota.
    rewrite matchesAnyDomain_spec. split.
    + intros (x & Hx & Hm). right. exists x. by rewrite <- matchesDomain_spec.
    + intros [|(x & Hx & Hm)]; [done|]. exists x. by rewrite matchesDomain_spec.
Qed.

(** ** sanitizeName and GenerateName *)

(** A letter, a digit or a hyphen. *)
Definition name_char (c : ascii) : bool := dnsendpoint.is_alnum c || Ascii.eqb c "-".

Fixpoint all_chars (p : ascii -> bool) (s : string) : bool :=
  match s with
  | EmptyString => true
  | String c r => p c && all_chars p r
  end.

Lemma all_chars_append p (a b : string) :
  all_chars p (a +:+ b) = all_chars p a && all_chars p b.
Proof.
  induction a as [|c a IH]; [reflexivity|].
  rewrite append_cons. simpl. rewrite IH. by rewrite andb_assoc.
Qed.

Lemma sanitize_from_alphabet skip name :
  all_chars name_char (sanitize_from skip name) = true.
Proof.
  revert skip. induction name as [|c r IH]; intros skip; [reflexivity|].
  destruct skip as [|k]; cbn [sanitize_from all_chars]; [|apply IH].
  rewrite IH, andb_true_r. unfold name_char.
  destruct (dnsendpoint.is_alnum c) eqn:Hc; [by rewrite Hc | reflexivity].
Qed.

Lemma sanitize_from_length skip name :
  (String.length (sanitize_from skip name) <= String.length name)%nat.
Proof.
  revert skip. induction name as [|c r IH]; intros skip; [reflexivity|].
  destruct skip as [|k]; cbn [sanitize_from String.length].
  - specialize (IH (Nat.pred (rune_width (String c r)))). lia.
  - specialize (IH k). lia.
Qed.

(** A byte below 128 is a rune of its own. *)
Lemma rune_width_name_char c r : name_char c = true -> rune_width (String c r) = 1%nat.
Proof.
  destruct c as [[] [] [] [] [] [] [] []]; intros Hc; try discriminate Hc; reflexivity.
Qed.

Lemma name_char_kept c :
  name_char c = true -> (if dnsendpoint.is_alnum c then c else "-"%char) = c.
Proof.
  unfold name_char. destruct (dnsendpoint.is_alnum c); [done|].
  simpl. by intros ->%Ascii.eqb_eq.
Qed.

Lemma sanitizeName_fixes name : all_chars name_char name = true -> sanitizeName name = name.
Proof.
  unfold sanitizeName. induction name as [|c r IH]; [done|].
  simpl all_chars. intros [Hc Hr]%andb_true_iff.
  cbn [sanitize_from]. rewrite (rune_width_name_char c r Hc), (name_char_kept c Hc).
  simpl. by rewrite IH.
Qed.

(** X10.  [sanitizeName] returns letters, digits and hyphens only, never
    more characters than the name has bytes, and returns a name of
    letters, digits and hyphens as it is; so sanitizing twice is
    sanitizing once.  [generateProfileName] is the sanitized name
    followed by "-tm". *)
Theorem sanitizeName_alphabet_and_fixpoints (name : string) :
  all_chars name_char (sanitizeName name) = true
  /\ (String.length (sanitizeName name) <= String.length name)%nat
  /\ (all_chars name_char name = true -> sanitizeName name = name)
  /\ sanitizeName (sanitizeName name) = sanitizeName name
  /\ all_chars name_char (generateProfileName name) = true.
Proof.
  split_and!.
  - apply sanitize_from_alphabet.
  - apply sanitize_from_length.
  - apply sanitizeName_fixes.
  - apply sanitizeName_fixes, sanitize_from_alphabet.
  - unfold generateProfileName. rewrite all_chars_append.
    unfold sanitizeName. by rewrite sanitize_from_alphabet.
Qed.

(** A letter, a digit, a hyphen or a dot. *)
Definition hostname_char (c : ascii) : bool := name_char c || Ascii.eqb c ".".

Lemma generateName_body_alphabet hostname :
  all_chars name_char (dnsendpoint.generateName_body hostname) = true.
Proof.
  induction hostname as [|c r IH]; [reflexivity|]. simpl.
  destruct (Ascii.eqb c "."); [exact IH|].
  fold (name_char c). destruct (name_char c) eqn:Hc; [|exact IH].
  simpl. by rewrite Hc, IH.
Qed.

Lemma generateName_body_length hostname :
  (String.length (dnsendpoint.generateName_body hostname) <= String.length hostname)%nat.
Proof.
  induction hostname as [|c r IH]; [reflexivity|]. simpl.
  destruct (Ascii.eqb c "."); [simpl; lia|].
  destruct (dnsendpoint.is_alnum c || Ascii.eqb c "-"); simpl; lia.
Qed.

Lemma rune_width_hostname_char c r :
  hostname_char c = true -> rune_width (String c r) = 1%nat.
Proof.
  destruct c as [[] [] [] [] [] [] [] []]; intros Hc; try discriminate Hc; reflexivity.
Qed.

Lemma generateName_body_sanitizeName hostname :
  all_chars hostname_char hostname = true ->
  dnsendpoint.generateName_body hostname = sanitizeName hostname.
Proof.
  unfold sanitizeName. induction hostname as [|c r IH]; [done|].
  simpl all_chars. intros [Hc Hr]%andb_true_iff.
  cbn [sanitize_from dnsendpoint.generateName_body].
  rewrite (rune_width_hostname_char c r Hc). simpl Nat.pred. rewrite <- (IH Hr).
  destruct (Ascii.eqb_spec c ".") as [->|Hdot]; [reflexivity|].
  assert (Hn : name_char c = true).
  { unfold hostname_char in Hc. apply orb_true_iff in Hc as [|Hd]; [done|].
    by apply Ascii.eqb_eq in Hd. }
  fold (name_char c). rewrite Hn. by rewrite (name_char_kept c Hn).
Qed.

Lemma generateName_body_app (a b : string) :
  dnsendpoint.generateName_body (a +:+ b)
  = dnsendpoint.generateName_body a +:+ dnsendpoint.generateName_body b.
Proof.
  induction a as [|c a IH]; [reflexivity|].
  rewrite append_cons. cbn [dnsendpoint.generateName_body].
  destruct (Ascii.eqb c "."); [by rewrite IH|].
  destruct (dnsendpoint.is_alnum c || Ascii.eqb c "-"); by rewrite IH.
Qed.

Lemma generateName_body_drops c r :
  hostname_char c = false ->
  dnsendpoint.generateName_body (String c r) = dnsendpoint.generateName_body r.
Proof.
  unfold hostname_char, name_char. intros Hc. apply orb_false_iff in Hc as [Hn Hd].
  cbn [dnsendpoint.generateName_body]. by rewrite Hd, Hn.
Qed.

(** X11.  [GenerateName] returns a name of letters, digits and hyphens
    that ends with "-tm-cname": a dot becomes a hyphen and any other byte
    that is not a letter, a digit or a hyphen is dropped (where
    [sanitizeName] puts a hyphen), so the name is that of the hostname
    without the byte, wherever the byte stands.  On a hostname of
    letters, digits, hyphens and dots the name is the generated profile
    name followed by "-cname".  Upper-case letters are kept as they
    are. *)
Theorem GenerateName_alphabet (hostname : string) :
  exists body,
    dnsendpoint.GenerateName hostname = body +:+ "-tm-cname"
    /\ all_chars name_char body = true
    /\ (String.length body <= String.length hostname)%nat
    /\ (all_chars hostname_char hostname = true ->
        dnsendpoint.GenerateName hostname = generateProfileName hostname +:+ "-cname")
    /\ (forall a c b,
          hostname = a +:+ String c b -> hostname_char c = false ->
          dnsendpoint.GenerateName hostname = dnsendpoint.GenerateName (a +:+ b)).
Proof.
  exists (dnsendpoint.generateName_body hostname). split_and!.
  - reflexivity.
  - apply generateName_body_alphabet.
  - apply generateName_body_length.
  - intros Hh. unfold dnsendpoint.GenerateName, generateProfileName.
    rewrite (generateName_body_sanitizeName _ Hh), app_assoc_string. reflexivity.
  - intros a c b -> Hc. unfold dnsendpoint.GenerateName.
    by rewrite !generateName_body_app, (generateName_body_drops c b Hc).
Qed.

(* ===================================================================== *)
(** * The profiles the provider writes *)
(* ===================================================================== *)

(** The profile a request built from [config] carries: the tags of the
    configuration, each with a value. *)
Lemma isManagedByUs_profileRequest (config : trafficmanager.ProfileConfig) relativeName :
  trafficmanager.Tags config !! "managedBy" = Some "external-dns-traffic-manager-webhook" ->
  trafficmanager.isManagedByUs (trafficmanager.profileRequest config relativeName) = true.
Proof.
  intros Htag. unfold trafficmanager.isManagedByUs, trafficmanager.profileRequest,
    trafficmanager.toStringMapPtr. simpl.
  rewrite lookup_fmap, Htag. reflexivity.
Qed.

(** A request that writes a profile carries a profile with the tag
    [isManagedByUs] looks for, and a hostname tag. *)
Definition marked (c : Call) : Prop :=
  match c with
  | ProfilesCreateOrUpdate _ _ p =>
      trafficmanager.isManagedByUs p = true
      /\ exists hostname tags,
           armtrafficmanager.Profile_Tags p = Some tags
           /\ tags !! "hostname" = Some (Some hostname)
  | _ => True
  end.

Lemma marked_with_hostname (c : TrafficManagerConfig) hostname relativeName rg name :
  marked (ProfilesCreateOrUpdate rg name
            (trafficmanager.profileRequest
               (trafficmanager.set_Tags
                  (<["hostname" := hostname]> (trafficmanager.Tags (ToProfileConfig c)))
                  (ToProfileConfig c))
               relativeName)).
Proof.
  split.
  - apply isManagedByUs_profileRequest. simpl.
    rewrite lookup_insert_ne by done. apply lookup_insert_eq.
  - eexists hostname, _. split; [reflexivity|].
    simpl. rewrite lookup_fmap, lookup_insert_eq. reflexivity.
Qed.

Section Writes.
Context {E : Type} `{Environment E} {tables : Unicode}.

(** [sends P m]: the requests [m] sends all satisfy [P]. *)
Definition sends {A} (P : Call -> Prop) (m : M (World E) A) : Prop :=
  forall w, exists tr, calls (snd (m w)) = calls w ++ tr /\ Forall P tr.

Lemma steps_sends {A} P (m : M (World E) A) : steps P m -> sends P m.
Proof. intros Hm w. apply Hm. Qed.

Lemma sends_ret {A} P (a : A) : sends P (ret a).
Proof. apply steps_sends, steps_ret. Qed.

Lemma sends_bind {A B} P (m : M (World E) A) (k : A -> M (World E) B) :
  sends P m -> (forall a, sends P (k a)) -> sends P (bind m k).
Proof.
  intros Hm Hk w. destruct (Hm w) as (tr & Htr & HP).
  unfold bind. destruct (m w) as [[a|] w1]; simpl in *.
  - destruct (Hk a w1) as (tr' & Htr' & HP').
    exists (tr ++ tr'). rewrite Htr', Htr, app_assoc. split; [done|].
    by apply Forall_app.
  - eauto.
Qed.

Lemma sends_for_each_err {A} P (l : list A) (body : A -> M (World E) (option error)) :
  (forall x, sends P (body x)) -> sends P (for_each_err l body).
Proof.
  intros Hb. induction l as [|x l IH]; simpl; [apply sends_ret|].
  apply sends_bind; [apply Hb | intros [e|]; [apply sends_ret | apply IH]].
Qed.

Lemma sends_logged {A} P l (rest : M (World E) A) :
  steps P rest -> sends P (bind (logInfo l) (fun _ => rest)).
Proof. intros Hrest w. by apply logged_handler. Qed.

Lemma steps_CreateProfile_request (P : Call -> Prop) cfg :
  P (ProfilesCreateOrUpdate (trafficmanager.ResourceGroup cfg)
       (trafficmanager.ProfileName cfg)
       (trafficmanager.profileRequest cfg (Some (trafficmanager.ProfileName cfg)))) ->
  steps P (trafficmanager.CreateProfile cfg).
Proof.
  intros HP. unfold trafficmanager.CreateProfile. cbv zeta.
  apply steps_bind; [apply steps_request, HP | intros r].
  destruct r; [|apply steps_ret].
  apply steps_bind; [apply steps_must | intros _].
  apply steps_bind; [apply steps_profileResponseToState | intros; apply steps_ret].
Qed.

Lemma steps_UpdateProfile_request (P : Call -> Prop) cfg :
  P (ProfilesGet (trafficmanager.ResourceGroup cfg) (trafficmanager.ProfileName cfg)) ->
  P (ProfilesCreateOrUpdate (trafficmanager.ResourceGroup cfg)
       (trafficmanager.ProfileName cfg) (trafficmanager.profileRequest cfg None)) ->
  steps P (trafficmanager.UpdateProfile cfg).
Proof.
  intros HG HP. unfold trafficmanager.UpdateProfile.
  apply steps_bind; [by apply steps_GetProfile | intros r].
  destruct r; [|apply steps_ret]. cbv zeta.
  apply steps_bind; [apply steps_request, HP | intros r].
  destruct r; [|apply steps_ret].
  apply steps_bind; [apply steps_profileResponseToState | intros; apply steps_ret].
Qed.

Lemma steps_createEndpoint_profile_marked config vanityHostname :
  steps marked (createEndpoint_profile config vanityHostname).
Proof.
  unfold createEndpoint_profile. cbv zeta.
  apply steps_bind; [apply steps_CreateProfile_request, marked_with_hostname|].
  intros r. steps_full; exact I.
Qed.

Lemma steps_updateEndpoint_profile_marked newEndpoint oldConfig newConfig :
  steps marked (updateEndpoint_profile newEndpoint oldConfig newConfig).
Proof.
  unfold updateEndpoint_profile. cbv zeta.
  destruct (profile_changed oldConfig newConfig); [|apply steps_ret].
  apply steps_bind;
    [apply steps_UpdateProfile_request; [exact I | apply marked_with_hostname]|].
  intros r. steps_full.
Qed.

Lemma sends_createEndpoint_marked endpoint : sends marked (createEndpoint endpoint).
Proof.
  unfold createEndpoint. apply sends_logged.
  destruct (String.eqb (RecordType endpoint) "TXT"); [apply steps_ret|].
  destruct (ParseConfig (annotationMap endpoint)) as [config|err]; [|apply steps_ret].
  destruct (negb (Enabled config)); [apply steps_ret|].
  destruct (ValidateConfig config); [apply steps_ret|]. cbv zeta.
  apply steps_bind; [apply steps_createEndpoint_profile_marked|].
  intros r. destruct r; [apply steps_ret|].
  unfold createEndpoint_targets, createEndpoint_target,
    createEndpoint_refresh, profile_FQDN, assign_Hostname, convertToStateEndpoint.
  steps_full; exact I.
Qed.

Lemma sends_updateEndpoint_marked old new : sends marked (updateEndpoint old new).
Proof.
  unfold updateEndpoint. apply sends_logged.
  destruct (ParseConfig (Labels new)) as [config|err]; [|apply steps_ret].
  destruct (negb (Enabled config)); [apply steps_ret|].
  destruct (ValidateConfig config); [apply steps_ret|]. cbv zeta.
  apply steps_bind; [apply steps_updateEndpoint_profile_marked|].
  intros r. destruct r; [apply steps_ret|].
  unfold updateEndpoint_target, updateEndpoint_refresh,
    profile_FQDN, assign_Hostname, convertToStateEndpoint.
  steps_full; exact I.
Qed.

Lemma sends_deleteEndpoint_marked endpoint : sends marked (deleteEndpoint endpoint).
Proof.
  unfold deleteEndpoint. apply sends_logged.
  unfold deleteEndpoint_targets, deleteEndpoint_cleanup, deleteEndpoint_refetched,
    profile_FQDN, assign_Hostname, len_Endpoints, stateManager_DeleteProfile.
  steps_full; exact I.
Qed.

Lemma sends_update_loop_marked olds news i : sends marked (update_loop olds news i).
Proof.
  revert i. induction olds as [|old rest IH]; intros i; simpl; [apply sends_ret|].
  apply sends_bind; [apply steps_sends, steps_must | intros new].
  apply sends_bind; [apply sends_updateEndpoint_marked | intros [e|]];
    [apply sends_ret | apply IH].
Qed.

(** X12.  Whatever the batch holds and whatever the environment
    answers, every request of [ApplyChanges] that writes a profile
    carries the tag managedBy, with the value [isManagedByUs] looks for
    when the profiles are listed, and a hostname tag. *)
Theorem ApplyChanges_marks_the_profiles_it_writes (changes : Changes) (w : World E) :
  exists tr,
    calls (snd (ApplyChanges changes w)) = calls w ++ tr
    /\ Forall marked tr.
Proof.
  revert w. change (sends marked (ApplyChanges changes)). unfold ApplyChanges.
  apply sends_bind; [apply sends_for_each_err, sends_createEndpoint_marked|].
  intros [e|]; [apply sends_ret|].
  apply sends_bind; [apply sends_update_loop_marked|].
  intros [e|]; [apply sends_ret|].
  apply sends_bind; [apply sends_for_each_err, sends_deleteEndpoint_marked|].
  intros [e|]; apply sends_ret.
Qed.

End Writes.

(* ===================================================================== *)
(** * What the handlers return *)
(* ===================================================================== *)

Section Returns.
Context {E : Type} `{Environment E} {tables : Unicode}.

(** X13.  A record that switches the feature on and has no endpoint
    location annotation, or an empty one, is never acted on by a Create
    or an Update: the handler returns an error after its first log line,
    having sent no request and left the state mirror as it was. *)
Theorem enabled_records_need_an_endpoint_location (old endpoint : Endpoint) (w : World E) :
  (RecordType endpoint <> "TXT" ->
   enabled_in (annotationMap endpoint) = true ->
   present (annotationMap endpoint) AnnotationEndpointLocation = None ->
   exists err,
     createEndpoint endpoint w
     = (Val (Some err), logged (LogCreatingEndpoint (DNSName endpoint)) w))
  /\ (enabled_in (Labels endpoint) = true ->
      present (Labels endpoint) AnnotationEndpointLocation = None ->
      exists err,
        updateEndpoint old endpoint w
        = (Val (Some err), logged (LogUpdatingEndpoint (DNSName endpoint)) w)).
Proof.
  split.
  - intros Htxt Hen Hloc. unfold createEndpoint.
    rewrite (bind_val (logInfo _) _ w tt (logged (LogCreatingEndpoint (DNSName endpoint)) w))
      by reflexivity.
    rewrite (proj2 (String.eqb_neq _ _) Htxt).
    destruct (ParseConfig (annotationMap endpoint)) as [c|err] eqn:Hp; [|eauto].
    destruct (no_location_no_pass _ _ Hen Hloc Hp) as [He Hv]. rewrite He. cbn [negb].
    destruct (ValidateConfig c) as [err|]; [eauto | done].
  - intros Hen Hloc. unfold updateEndpoint.
    rewrite (bind_val (logInfo _) _ w tt (logged (LogUpdatingEndpoint (DNSName endpoint)) w))
      by reflexivity.
    destruct (ParseConfig (Labels endpoint)) as [c|err] eqn:Hp; [|eauto].
    destruct (no_location_no_pass _ _ Hen Hloc Hp) as [He Hv]. rewrite He. cbn [negb].
    destruct (ValidateConfig c) as [err|]; [eauto | done].
Qed.

(** ** The errors of the handlers *)

(** The outcome is a panic, nil, or an error whose text starts with one
    of the prefixes. *)
Definition error_from (prefixes : list string) (r : option error) : Prop :=
  forall err, r = Some err ->
    exists p, In p prefixes /\ strings_HasPrefix (Error err) p = true.

Definition returns_error_from (prefixes : list string) (r : outcome (option error)) : Prop :=
  match r with
  | Val r => error_from prefixes r
  | Panicked => True
  end.

Lemma error_from_None prefixes : error_from prefixes None.
Proof. intros err [=]. Qed.

Lemma error_from_Errorf_w prefixes p err :
  In p prefixes -> error_from prefixes (Some (Errorf_w p err)).
Proof.
  intros Hp e [= <-]. exists p. split; [done|]. cbn [Errorf_w Error]. apply HasPrefix_app.
Qed.

Lemma error_from_weaken ps qs r :
  (forall p, In p ps -> In p qs) -> error_from ps r -> error_from qs r.
Proof. intros Hsub Hr err He. destruct (Hr err He) as (p & Hp & Hpre). eauto. Qed.

Lemma yields_outcome {A} (Q : A -> Prop) (m : M (World E) A) w :
  yields Q m -> match fst (m w) with Val a => Q a | Panicked => True end.
Proof.
  intros Hm. destruct (m w) as [[a|] w'] eqn:Hrun; [|done]. simpl. by eapply Hm.
Qed.

Definition create_errors : list string :=
  ["failed to parse annotations: "; "invalid Traffic Manager configuration: ";
   "failed to create/get profile: "; "failed to create endpoint "].

Definition update_errors : list string :=
  ["failed to parse new annotations: "; "invalid Traffic Manager configuration: ";
   "failed to update profile: "; "failed to update endpoint "].

Lemma createEndpoint_profile_error config vanity :
  yields (error_from ["failed to create/get profile: "]) (createEndpoint_profile config vanity).
Proof.
  unfold createEndpoint_profile. cbv zeta. apply yields_bind. intros [st|err].
  - apply yields_ret, error_from_None.
  - apply yields_bind. intros [st|getErr]; [apply yields_ret, error_from_None|].
    apply yields_ret. intros e [= <-]. eexists. split; [by left|].
    cbn [Error]. apply HasPrefix_app.
Qed.

Lemma createEndpoint_errors endpoint : yields (error_from create_errors) (createEndpoint endpoint).
Proof.
  unfold createEndpoint. apply yields_bind. intros _.
  destruct (String.eqb (RecordType endpoint) "TXT"); [apply yields_ret, error_from_None|].
  destruct (ParseConfig (annotationMap endpoint)) as [config|err].
  2:{ apply yields_ret, error_from_Errorf_w. by left. }
  destruct (negb (Enabled config)); [apply yields_ret, error_from_None|].
  destruct (ValidateConfig config) as [err|].
  { apply yields_ret, error_from_Errorf_w. right. by left. }
  cbv zeta.
  eapply yields_bind_with; [apply createEndpoint_profile_error|].
  intros [err|] Herr.
  { apply yields_ret. eapply error_from_weaken; [|exact Herr].
    intros p [<-|[]]. do 2 right. by left. }
  clear Herr. eapply yields_bind_with; [apply createEndpoint_targets_error|].
  intros [err|] Herr.
  { apply yields_ret. intros e He. exists "failed to create endpoint ".
    split; [do 3 right; by left | by apply Herr]. }
  apply yields_bind. intros _. apply yields_ret, error_from_None.
Qed.

Lemma updateEndpoint_profile_error new oc nc :
  yields (error_from ["failed to update profile: "]) (updateEndpoint_profile new oc nc).
Proof.
  unfold updateEndpoint_profile. cbv zeta.
  destruct (profile_changed oc nc); [|apply yields_ret, error_from_None].
  apply yields_bind. intros [st|err]; [apply yields_ret, error_from_None|].
  apply yields_ret, error_from_Errorf_w. by left.
Qed.

Lemma updateEndpoint_target_error new oc nc :
  yields (error_from ["failed to update endpoint "])
    (for_each_err (Targets new) (updateEndpoint_target new oc nc)).
Proof.
  apply yields_for_each_err; [apply error_from_None|].
  intros t. unfold updateEndpoint_target. cbv zeta.
  destruct (endpoint_changed oc nc); [|apply yields_ret; by left].
  apply yields_bind. intros [st|err].
  - apply yields_bind. intros l. apply yields_bind. intros _. apply yields_ret. by left.
  - apply yields_ret. right. intros e [= <-]. eexists. split; [by left|].
    cbn [Errorf_w Error]. rewrite app_assoc_string. apply HasPrefix_app.
Qed.

Lemma updateEndpoint_errors old new :
  yields (error_from update_errors) (updateEndpoint old new).
Proof.
  unfold updateEndpoint. apply yields_bind. intros _.
  destruct (ParseConfig (Labels new)) as [config|err].
  2:{ apply yields_ret, error_from_Errorf_w. by left. }
  destruct (negb (Enabled config)); [apply yields_ret, error_from_None|].
  destruct (ValidateConfig config) as [err|].
  { apply yields_ret, error_from_Errorf_w. right. by left. }
  cbv zeta.
  eapply yields_bind_with; [apply updateEndpoint_profile_error|].
  intros [err|] Herr.
  { apply yields_ret. eapply error_from_weaken; [|exact Herr].
    intros p [<-|[]]. do 2 right. by left. }
  clear Herr. eapply yields_bind_with; [apply updateEndpoint_target_error|].
  intros [err|] Herr.
  { apply yields_ret. eapply error_from_weaken; [|exact Herr].
    intros p [<-|[]]. do 3 right. by left. }
  apply yields_bind. intros _. apply yields_ret, error_from_None.
Qed.

Lemma deleteEndpoint_errors endpoint :
  yields (fun r => forall err, r = Some err ->
            exists parseErr, ParseConfig (Labels endpoint) = inr parseErr
              /\ err = Errorf_w "failed to parse annotations: " parseErr)
    (deleteEndpoint endpoint).
Proof.
  unfold deleteEndpoint. apply yields_bind. intros _.
  destruct (ParseConfig (Labels endpoint)) as [config|parseErr].
  - destruct (negb (Enabled config)); [apply yields_ret; by intros ? [=]|]. cbv zeta.
    apply yields_bind. intros _. apply yields_bind. intros _.
    apply yields_ret. by intros ? [=].
  - apply yields_ret. intros err [= <-]. by exists parseErr.
Qed.

(** X14.  Whatever the environment answers, an error that a handler
    returns says at which step it arose: its text starts with one of four
    prefixes for a Create and for an Update, and a Delete returns an
    error only when the annotations do not parse.  A failure of the
    refetch that ends a Create or an Update, of the CNAME object, and of
    any request of a Delete, is never returned. *)
Theorem handler_errors_name_their_step (old endpoint : Endpoint) (w : World E) :
  returns_error_from
    ["failed to parse annotations: "; "invalid Traffic Manager configuration: ";
     "failed to create/get profile: "; "failed to create endpoint "]
    (fst (createEndpoint endpoint w))
  /\ returns_error_from
       ["failed to parse new annotations: "; "invalid Traffic Manager configuration: ";
        "failed to update profile: "; "failed to update endpoint "]
       (fst (updateEndpoint old endpoint w))
  /\ match fst (deleteEndpoint endpoint w) with
     | Val (Some err) =>
         exists parseErr,
           ParseConfig (Labels endpoint) = inr parseErr
           /\ err = Errorf_w "failed to parse annotations: " parseErr
     | _ => True
     end.
Proof.
  split_and!.
  - apply (yields_outcome _ _ w (createEndpoint_errors endpoint)).
  - apply (yields_outcome _ _ w (updateEndpoint_errors old endpoint)).
  - pose proof (yields_outcome _ _ w (deleteEndpoint_errors endpoint)) as Hd.
    destruct (fst (deleteEndpoint endpoint w)) as [[err|]|]; [by apply Hd | done | done].
Qed.

End Returns.

(* ===================================================================== *)
(** * The endpoints of a mirrored profile *)
(* ===================================================================== *)








(* ===================================================================== *)
(** * Listing the mirror *)
(* ===================================================================== *)

(** The loop of [ListProfiles]: one new copy for each entry, appended in
    the order of the range. *)
Lemma ListProfiles_loop_spec (order : list (string * loc)) :
  forall (s : Store) (profiles : list loc),
    Forall (fun hl => exists v, has_value s hl.2 v) order ->
    exists cs t,
      ListProfiles_loop order profiles s = (Val (profiles ++ cs), t)
      /\ heap_le s t
      /\ NoDup cs
      /\ Forall2 (fun hl c =>
                    profileObjs s !! c = None
                    /\ is_Some (profileObjs t !! c)
                    /\ forall v, has_value s hl.2 v -> has_value t c v) order cs.
Proof.
  induction order as [|[h l] order IH]; intros s acc Hall.
  - exists [], s. rewrite app_nil_r.
    split_and!; [done | apply heap_le_refl | constructor | constructor].
  - apply Forall_cons in Hall as [[v Hv] Hall]. simpl in Hv.
    destruct (ProfileState_Clone_spec s l v Hv)
      as (c & t1 & p' & em & tm & acc' & Hc & Hle & Hfc & _ & _ & Hp' & _).
    assert (Hall1 : Forall (fun hl => exists v, has_value t1 hl.2 v) order).
    { eapply Forall_impl; [exact Hall|]. intros hl [v' Hv']. exists v'.
      by eapply has_value_le. }
    destruct (IH t1 (acc ++ [c]) Hall1) as (cs & t & Hrun & Hle' & Hnd & Hcs).
    exists (c :: cs), t. split_and!.
    + cbn [ListProfiles_loop]. rewrite (bind_val (ProfileState_Clone l) _ s c t1 Hc).
      rewrite Hrun. by rewrite <- app_assoc.
    + by eapply heap_le_trans.
    + constructor; [|done]. intros Hin.
      apply list_elem_of_lookup in Hin as [i Hi].
      destruct (Forall2_lookup_r _ _ _ _ _ Hcs Hi) as (hl & _ & Hf & _).
      by rewrite Hp' in Hf.
    + constructor.
      * split_and!; [done | |].
        -- exists p'. by eapply lookup_weaken; [|apply Hle'].
        -- intros v' Hv'. simpl in Hv'. eapply has_value_le; [exact Hle'|].
           by eapply Clone_has_value.
      * eapply Forall2_impl; [exact Hcs|]. intros hl c' (Hf & Hlive & Hval).
        split_and!; [|done|].
        -- destruct (profileObjs s !! c') as [q|] eqn:Hq; [|done].
           by rewrite (lookup_weaken _ _ _ _ Hq (le_profileObjs _ _ Hle)) in Hf.
        -- intros v' Hv'. apply Hval. by eapply has_value_le.
Qed.

(** X16.  [ListProfiles] on a well-formed mirror returns one profile for
    each entry, in the order of the range: each is a new object, no two
    are the same, and each has the value of its entry.  Nothing is left
    out: the method reads no clock, so an entry that [GetProfile] no
    longer returns because it has expired is listed all the same. *)
Theorem ListProfiles_copies_every_entry (s : Store) (order : list (string * loc)) :
  wf_store s ->
  order ≡ₚ map_to_list (profiles s) ->
  exists cs t,
    ListProfiles order s = (Val cs, t)
    /\ heap_le s t
    /\ length cs = size (profiles s)
    /\ NoDup cs
    /\ Forall2 (fun hl c =>
                  profileObjs s !! c = None
                  /\ is_Some (profileObjs t !! c)
                  /\ forall v, has_value s hl.2 v -> has_value t c v) order cs.
Proof.
  intros Hwf Hperm.
  assert (Hall : Forall (fun hl => exists v, has_value s hl.2 v) order).
  { apply Forall_forall. intros [h l] Hin. rewrite Hperm in Hin.
    apply elem_of_map_to_list in Hin. by apply (Hwf h l). }
  destruct (ListProfiles_loop_spec order s [] Hall) as (cs & t & Hrun & Hle & Hnd & Hcs).
  exists cs, t. split_and!; try done.
  rewrite <- (Forall2_length _ _ _ Hcs), Hperm. apply length_map_to_list.
Qed.

(** The loop of [GetProfileByName]. *)
Lemma GetProfileByName_spec (order : list (string * loc)) (profileName : string) :
  forall (s : Store),
    Forall (fun hl => exists v, has_value s hl.2 v) order ->
    exists r t,
      GetProfileByName order profileName s = (Val r, t)
      /\ heap_le s t
      /\ match r with
         | Some c =>
             exists h l v,
               (h, l) ∈ order
               /\ has_value s l v
               /\ pv_ProfileName v = profileName
               /\ has_value t c v
               /\ profileObjs s !! c = None
         | None =>
             t = s
             /\ Forall (fun hl => forall v, has_value s hl.2 v ->
                                    pv_ProfileName v <> profileName) order
         end.
Proof.
  induction order as [|[h l] order IH]; intros s Hall.
  - exists None, s. split_and!; [done | apply heap_le_refl | done | constructor].
  - apply Forall_cons in Hall as [[v Hv] Hall]. simpl in Hv.
    pose proof Hv as (p & Hp & Hsc & _).
    assert (Hname : ProfileName p = pv_ProfileName v) by apply Hsc.
    cbn [GetProfileByName].
    rewrite (bind_val (load_profile l) _ s p s (load_profile_eq _ _ _ Hp)).
    destruct (String.eqb_spec (ProfileName p) profileName) as [Heq|Hne].
    + destruct (ProfileState_Clone_spec s l v Hv)
        as (c & t1 & p' & em & tm & acc' & Hc & Hle & Hfc & _).
      exists (Some c), t1. split_and!.
      * by rewrite (bind_val (ProfileState_Clone l) _ s c t1 Hc).
      * done.
      * exists h, l, v. split_and!; try done; [left | congruence |].
        by eapply Clone_has_value.
    + destruct (IH s Hall) as (r & t & Hrun & Hle & Hr).
      exists r, t. split_and!; try done.
      destruct r as [c|].
      * destruct Hr as (h' & l' & v' & Hin & Hrest). exists h', l', v'.
        split; [by right | done].
      * destruct Hr as [-> Hno]. split; [done|]. constructor; [|done].
        simpl. intros v' (q & Hq & Hsc' & _).
        assert (q = p) as -> by congruence.
        destruct Hsc' as [<- _]. done.
Qed.

(** X17.  [GetProfileByName] on a well-formed mirror returns a new copy
    of an entry whose profile has the name, and nothing exactly when no
    entry has it; the mirror's own objects are not changed.  The method
    reads no clock, so it returns an entry that has expired, which
    [GetProfile] does not.  When several entries carry the name, the
    order of the range decides. *)
Theorem GetProfileByName_finds_an_entry_of_that_name
    (s : Store) (order : list (string * loc)) (profileName : string) :
  wf_store s ->
  order ≡ₚ map_to_list (profiles s) ->
  exists r t,
    GetProfileByName order profileName s = (Val r, t)
    /\ heap_le s t
    /\ match r with
       | Some c =>
           exists h l v,
             profiles s !! h = Some l
             /\ has_value s l v
             /\ pv_ProfileName v = profileName
             /\ has_value t c v
             /\ profileObjs s !! c = None
       | None =>
           t = s
           /\ forall h l v, profiles s !! h = Some l -> has_value s l v ->
                pv_ProfileName v <> profileName
       end.
Proof.
  intros Hwf Hperm.
  assert (Hall : Forall (fun hl => exists v, has_value s hl.2 v) order).
  { apply Forall_forall. intros [h l] Hin. rewrite Hperm in Hin.
    apply elem_of_map_to_list in Hin. by apply (Hwf h l). }
  destruct (GetProfileByName_spec order profileName s Hall) as (r & t & Hrun & Hle & Hr).
  exists r, t. split_and!; try done. destruct r as [c|].
  - destruct Hr as (h & l & v & Hin & Hrest). exists h, l, v. split; [|done].
    rewrite Hperm in Hin. by apply elem_of_map_to_list in Hin.
  - destruct Hr as [-> Hno]. split; [done|]. intros h l v Hl Hv.
    rewrite Forall_forall in Hno. apply (Hno (h, l)); [|done].
    rewrite Hperm. by apply elem_of_map_to_list.
Qed.

(* ===================================================================== *)
(** * The partial updates of the client *)
(* ===================================================================== *)

(** What [endpointResponseToState] reads of the properties of an
    endpoint: target, weight, priority, status and location, a missing
    one as its zero value. *)
Definition properties_read (e : armtrafficmanager.Endpoint) : string * Z * Z * string * string :=
  let props := armtrafficmanager.Endpoint_Properties e in
  (default "" (props ≫= armtrafficmanager.Target),
   default 0 (props ≫= armtrafficmanager.Weight),
   default 0 (props ≫= armtrafficmanager.Priority),
   default "" (props ≫= armtrafficmanager.EndpointStatus),
   default "" (props ≫= armtrafficmanager.EndpointLocation)).

Section PartialUpdates.
Context {E : Type} `{Environment E} {tables : Unicode}.

Lemma GetEndpoint_failed rg pn ty en (w : World E) err env1 :
  endpointsClient_Get rg pn ty en (env w) = (inr err, env1) ->
  trafficmanager.GetEndpoint rg pn ty en w
  = (Val (inr (Errorf_w "failed to get endpoint: " err)),
     sent [EndpointsGet rg pn ty en] env1 w).
Proof.
  intros Hget. unfold trafficmanager.GetEndpoint.
  by rewrite (bind_val _ _ _ _ _ (request_eq _ _ w _ _ Hget)).
Qed.

Lemma GetEndpoint_answered rg pn ty en (w : World E) e env1 t :
  endpointsClient_Get rg pn ty en (env w) = (inl e, env1) ->
  armtrafficmanager.Endpoint_Type e = Some t ->
  exists st,
    trafficmanager.GetEndpoint rg pn ty en w
    = (Val (inl st), sent [EndpointsGet rg pn ty en] env1 w)
    /\ (trafficmanager.es_Target st, trafficmanager.es_Weight st,
        trafficmanager.es_Priority st, trafficmanager.es_Status st,
        trafficmanager.es_Location st) = properties_read e.
Proof.
  intros Hget Ht. unfold trafficmanager.GetEndpoint.
  rewrite (bind_val _ _ _ _ _ (request_eq _ _ w _ _ Hget)).
  unfold trafficmanager.endpointResponseToState. rewrite Ht.
  eexists. split; [reflexivity|]. reflexivity.
Qed.

Lemma GetEndpoint_untyped rg pn ty en (w : World E) e env1 :
  endpointsClient_Get rg pn ty en (env w) = (inl e, env1) ->
  armtrafficmanager.Endpoint_Type e = None ->
  trafficmanager.GetEndpoint rg pn ty en w
  = (Panicked, sent [EndpointsGet rg pn ty en] env1 w).
Proof.
  intros Hget Ht. unfold trafficmanager.GetEndpoint.
  rewrite (bind_val _ _ _ _ _ (request_eq _ _ w _ _ Hget)).
  unfold trafficmanager.endpointResponseToState. rewrite Ht. reflexivity.
Qed.

(** What a partial update does once the endpoint has been read: [wrap]
    is the prefix of the error of the write, [e'] the endpoint written. *)
Definition written_back (run : outcome (option error) * World E) (w : World E)
    (rg pn ty en : string) (env1 : E) (wrap : string)
    (e' : armtrafficmanager.Endpoint) : Prop :=
  forall resp env2,
    endpointsClient_CreateOrUpdate rg pn ty en e' env1 = (resp, env2) ->
    run = (Val (match resp with
                | inr err => Some (Errorf_w wrap err)
                | inl _ => None
                end),
           sent [EndpointsGet rg pn ty en; EndpointsCreateOrUpdate rg pn ty en e'] env2 w).

(** X18.  [UpdateEndpointWeight] and [UpdateEndpointStatus] read the
    endpoint first.  When the read fails they return its error as
    [GetEndpoint] made it and send no write.  When it is answered with an
    endpoint that carries a type they send one write, of an endpoint
    that reads as the one received in target, priority and location, and
    in status or weight, with the weight or status given; a property the
    answer did not carry is written as its zero value.  When the answer
    carries no type they panic. *)
Theorem partial_updates_write_back_what_they_read
    (rg pn ty en : string) (weight : Z) (status : string) (w : World E)
    (r : armtrafficmanager.Endpoint + error) (env1 : E) :
  endpointsClient_Get rg pn ty en (env w) = (r, env1) ->
  match r with
  | inr err =>
      trafficmanager.UpdateEndpointWeight rg pn ty en weight w
      = (Val (Some (Errorf_w "failed to get endpoint: " err)),
         sent [EndpointsGet rg pn ty en] env1 w)
      /\ trafficmanager.UpdateEndpointStatus rg pn ty en status w
         = (Val (Some (Errorf_w "failed to get endpoint: " err)),
            sent [EndpointsGet rg pn ty en] env1 w)
  | inl e =>
      match armtrafficmanager.Endpoint_Type e, properties_read e with
      | None, _ =>
          fst (trafficmanager.UpdateEndpointWeight rg pn ty en weight w) = Panicked
          /\ fst (trafficmanager.UpdateEndpointStatus rg pn ty en status w) = Panicked
      | Some _, (target, weight0, priority, status0, location) =>
          (exists e',
             properties_read e' = (target, weight, priority, status0, location)
             /\ written_back (trafficmanager.UpdateEndpointWeight rg pn ty en weight w)
                  w rg pn ty en env1 "failed to update endpoint weight: " e')
          /\ (exists e',
                properties_read e' = (target, weight0, priority, status, location)
                /\ written_back (trafficmanager.UpdateEndpointStatus rg pn ty en status w)
                     w rg pn ty en env1 "failed to update endpoint status: " e')
      end
  end.
Proof.
  intros Hget. destruct r as [e|err].
  - destruct (armtrafficmanager.Endpoint_Type e) as [t|] eqn:Ht.
    + destruct (GetEndpoint_answered rg pn ty en w e env1 t Hget Ht) as (st & Hrun & Hst).
      destruct (properties_read e) as [[[[target weight0] priority] status0] location] eqn:Hread.
      injection Hst as Htarget Hweight Hpriority Hstatus Hlocation.
      split.
      * exists (armtrafficmanager.mkEndpoint None None
                  (Some (armtrafficmanager.mkEndpointProperties
                           (Some (trafficmanager.es_Target st)) (Some weight)
                           (Some (trafficmanager.es_Priority st))
                           (Some (trafficmanager.es_Status st))
                           (if negb (str_empty (trafficmanager.es_Location st))
                            then Some (trafficmanager.es_Location st) else None)))).
        split.
        -- unfold properties_read. simpl. rewrite Htarget, Hpriority, Hstatus, Hlocation.
           by destruct location.
        -- intros resp env2 Hput. unfold trafficmanager.UpdateEndpointWeight.
           rewrite (bind_val _ _ _ _ _ Hrun). cbv beta iota zeta.
           rewrite (bind_val _ _ _ _ _
                      (request_eq _ _ (sent [EndpointsGet rg pn ty en] env1 w) resp env2 Hput)).
           rewrite sent_sent. by destruct resp.
      * exists (armtrafficmanager.mkEndpoint None None
                  (Some (armtrafficmanager.mkEndpointProperties
                           (Some (trafficmanager.es_Target st))
                           (Some (trafficmanager.es_Weight st))
                           (Some (trafficmanager.es_Priority st)) (Some status)
                           (if negb (str_empty (trafficmanager.es_Location st))
                            then Some (trafficmanager.es_Location st) else None)))).
        split.
        -- unfold properties_read. simpl. rewrite Htarget, Hweight, Hpriority, Hlocation.
           by destruct location.
        -- intros resp env2 Hput. unfold trafficmanager.UpdateEndpointStatus.
           rewrite (bind_val _ _ _ _ _ Hrun). cbv beta iota zeta.
           rewrite (bind_val _ _ _ _ _
                      (request_eq _ _ (sent [EndpointsGet rg pn ty en] env1 w) resp env2 Hput)).
           rewrite sent_sent. by destruct resp.
    + pose proof (GetEndpoint_untyped rg pn ty en w e env1 Hget Ht) as Hrun.
      unfold trafficmanager.UpdateEndpointWeight, trafficmanager.UpdateEndpointStatus.
      by rewrite !(bind_panicked _ _ _ _ Hrun).
  - pose proof (GetEndpoint_failed rg pn ty en w err env1 Hget) as Hrun.
    unfold trafficmanager.UpdateEndpointWeight, trafficmanager.UpdateEndpointStatus.
    by rewrite !(bind_val _ _ _ _ _ Hrun).
Qed.

End PartialUpdates.

(* ===================================================================== *)
(** * An Update of a profile that is not there *)
(* ===================================================================== *)

Section MissingProfile.
Context {E : Type} `{Environment E} {tables : Unicode}.

(** X19.  An Update never creates a profile.  When the profile fields of
    the new configuration differ from the old ones, or the old labels do
    not parse, the profile is read before it is written; when that read
    fails the Update returns the error, wrapped three times, and the read
    is the only request it has sent: no profile and no endpoint is
    written and the state mirror is left as it was. *)
Theorem updateEndpoint_never_creates_a_profile
    (old new : Endpoint) (nc : TrafficManagerConfig) (w : World E) (err : error) (env1 : E) :
  let oldConfig := match ParseConfig (Labels old) with
                   | inl c => Some c
                   | inr _ => None
                   end in
  let newConfig := with_generated_names (DNSName new) new nc in
  ParseConfig (Labels new) = inl nc ->
  Enabled nc = true ->
  ValidateConfig nc = None ->
  profile_changed oldConfig newConfig = true ->
  profilesClient_Get (annotations.ResourceGroup newConfig)
    (annotations.ProfileName newConfig) (env w) = (inr err, env1) ->
  updateEndpoint old new w
  = (Val (Some (Errorf_w "failed to update profile: "
                  (Errorf_w "failed to get existing profile: "
                     (Errorf_w "failed to get profile: " err)))),
     sent [ProfilesGet (annotations.ResourceGroup newConfig)
             (annotations.ProfileName newConfig)] env1
       (logged (LogUpdatingEndpoint (DNSName new)) w)).
Proof.
  intros oldConfig newConfig Hparse Hen Hval Hchanged Hget.
  rewrite (updateEndpoint_enabled old new nc w Hparse Hen Hval). cbv zeta.
  fold oldConfig newConfig. unfold check_then at 1.
  assert (Hprofile :
    updateEndpoint_profile new oldConfig newConfig
      (logged (LogUpdatingEndpoint (DNSName new)) w)
    = (Val (Some (Errorf_w "failed to update profile: "
                    (Errorf_w "failed to get existing profile: "
                       (Errorf_w "failed to get profile: " err)))),
       sent [ProfilesGet (annotations.ResourceGroup newConfig)
               (annotations.ProfileName newConfig)] env1
         (logged (LogUpdatingEndpoint (DNSName new)) w))).
  { unfold updateEndpoint_profile. rewrite Hchanged. cbv zeta.
    unfold trafficmanager.UpdateProfile, trafficmanager.GetProfile.
    cbn [trafficmanager.ResourceGroup trafficmanager.ProfileName trafficmanager.set_Tags
         ToProfileConfig].
    rewrite nonempty_or_self. rewrite !bind_assoc.
    by rewrite (bind_val _ _ _ _ _
                  (request_eq _ _ (logged (LogUpdatingEndpoint (DNSName new)) w) _ _ Hget)). }
  by rewrite (bind_val _ _ _ _ _ Hprofile).
Qed.

End MissingProfile.

(* ===================================================================== *)
(** * Records *)
(* ===================================================================== *)

(** What every record of [Records] looks like under the filter
    [domainFilter]. *)
Definition vanity_record (domainFilter : list string) (ep : Endpoint) : Prop :=
  RecordType ep = "CNAME"
  /\ RecordTTL ep = 300
  /\ DNSName ep <> ""
  /\ (exists fqdn, Targets ep = [fqdn] /\ fqdn <> "")
  /\ matchesDomainFilter domainFilter (DNSName ep) = true
  /\ dom (Labels ep)
     = {["traffic-manager-profile"; "traffic-manager-resource-group";
         "traffic-manager-routing-method"]}
  /\ SetIdentifier ep = ""
  /\ ProviderSpecific ep = [].

Section RecordsShape.
Context {E : Type} `{Environment E} `{Listing E} {tables : Unicode}.

Lemma Records_endpoints_shape domainFilter profiles :
  forall endpoints (w : World E) r w',
    Records_endpoints domainFilter profiles endpoints w = (Val r, w') ->
    Forall (vanity_record domainFilter) endpoints ->
    Forall (vanity_record domainFilter) r.
Proof.
  induction profiles as [|profile rest IH]; intros endpoints w r w' Hrun Hacc.
  - by injection Hrun as <- _.
  - cbn [Records_endpoints] in Hrun.
    apply bind_inv in Hrun as (p & w1 & _ & Hrun).
    destruct (str_empty (state.Hostname p)) eqn:Hh; cbn [orb] in Hrun; [by eapply IH|].
    destruct (str_empty (state.FQDN p)) eqn:Hf; [by eapply IH|].
    destruct (matchesDomainFilter domainFilter (state.Hostname p)) eqn:Hm;
      cbn [negb] in Hrun; [|by eapply IH].
    eapply IH; [exact Hrun|]. apply Forall_app. split; [done|].
    constructor; [|constructor].
    split_and!; try done.
    all: try (by destruct (state.Hostname p)).
    all: try (exists (state.FQDN p); split; [done|]; by destruct (state.FQDN p)).
    all: try (simpl; rewrite !dom_insert_L, dom_empty_L; set_solver).
Qed.

(** X20.  Whatever the environment answers, the error [Records] returns
    is nil: a resource group whose listing fails is passed over.  Every
    record it returns is a CNAME record with a TTL of 300, a DNS name
    that is not empty and passes the domain filter, one target that is
    not empty, the three labels that name the profile, its resource
    group and its routing method, and no provider-specific property. *)
Theorem Records_returns_vanity_records
    (domainFilter resourceGroups : list string) (w : World E) :
  match fst (Records domainFilter resourceGroups w) with
  | Val (endpoints, err) => err = None /\ Forall (vanity_record domainFilter) endpoints
  | Panicked => True
  end.
Proof.
  destruct (Records domainFilter resourceGroups w) as [[[endpoints err]|] w'] eqn:Hrun;
    [|done].
  simpl. unfold Records in Hrun.
  apply bind_inv in Hrun as ([profiles e] & w1 & Hsync & Hrun).
  unfold trafficmanager.SyncProfilesFromAzure in Hsync.
  apply bind_inv in Hsync as (all & w0 & _ & Hret). injection Hret as <- <- _.
  cbn [snd fst] in Hrun.
  apply bind_inv in Hrun as ([] & w2 & _ & Hrun).
  apply bind_inv in Hrun as (eps & w3 & Hloop & Hret). injection Hret as <- <- _.
  split; [done|]. eapply Records_endpoints_shape; [exact Hloop | constructor].
Qed.

End RecordsShape.

(** ** What the listing is turned into *)

(** The fields of a listed profile that [Records] reads: the hostname
    tag, the FQDN and the routing method, a missing one as the empty
    string. *)
Definition hostname_tag (profile : armtrafficmanager.Profile) : string :=
  match armtrafficmanager.Profile_Tags profile with
  | Some tags =>
      match tags !! "hostname" with
      | Some (Some hostname) => hostname
      | _ => ""
      end
  | None => ""
  end.

Definition fqdn_of (profile : armtrafficmanager.Profile) : string :=
  default "" ((armtrafficmanager.Profile_Properties profile
               ≫= armtrafficmanager.Profile_DNSConfig) ≫= armtrafficmanager.Fqdn).

Definition routing_of (profile : armtrafficmanager.Profile) : string :=
  default "" (armtrafficmanager.Profile_Properties profile
              ≫= armtrafficmanager.TrafficRoutingMethod).

(** A listed profile as [Records] sees it. *)
Record Listed := mkListed {
  listed_name : string;
  listed_resourceGroup : string;
  listed_hostname : string;
  listed_fqdn : string;
  listed_routing : string
}.

Definition listed_as (resourceGroup : string) (profile : armtrafficmanager.Profile) : Listed :=
  mkListed (default "" (armtrafficmanager.Profile_Name profile)) resourceGroup
    (hostname_tag profile) (fqdn_of profile) (routing_of profile).

(** The profile object at [l] is well-formed and reads as [f]. *)
Definition reads_as (s : Store) (l : loc) (f : Listed) : Prop :=
  exists v, has_value s l v
    /\ pv_ProfileName v = listed_name f
    /\ pv_ResourceGroup v = listed_resourceGroup f
    /\ pv_Hostname v = listed_hostname f
    /\ pv_FQDN v = listed_fqdn f
    /\ pv_RoutingMethod v = listed_routing f.

Lemma reads_as_le s t l f : heap_le s t -> reads_as s l f -> reads_as t l f.
Proof. intros Hle (v & Hv & Hf). exists v. split; [by eapply has_value_le | done]. Qed.

Lemma wf_store_le s t : heap_le s t -> wf_store s -> wf_store t.
Proof.
  intros Hle Hwf h l Hl. rewrite (le_profiles _ _ Hle) in Hl.
  destruct (Hwf h l Hl) as [v Hv]. exists v. by eapply has_value_le.
Qed.

Section Listing.
Context {E : Type} `{Environment E} `{Listing E} {tables : Unicode}.

(** The tag loop of [profileToState]: the tags that carry a value. *)
Lemma profileToState_tags_value tm (t : gmap string (option string)) (w0 : World E) :
  tagMaps (store w0) !! tm = Some ∅ ->
  exists s1,
    range_map t
      (fun k v =>
         match v with
         | Some v => on_store (tagMap_set tm k v)
         | None => ret tt
         end) w0
    = (Val tt, with_store s1 w0)
    /\ tagMaps s1 = <[tm := omap id t]> (tagMaps (store w0))
    /\ profileObjs s1 = profileObjs (store w0)
    /\ endpointObjs s1 = endpointObjs (store w0)
    /\ endpointMaps s1 = endpointMaps (store w0)
    /\ profiles s1 = profiles (store w0)
    /\ cacheTTL s1 = cacheTTL (store w0).
Proof.
  intros Htm. unfold range_map. revert t.
  apply (map_fold_weak_ind (fun (r : M (World E) unit) (m : gmap string (option string)) =>
    exists s1, r w0 = (Val tt, with_store s1 w0)
      /\ tagMaps s1 = <[tm := omap id m]> (tagMaps (store w0))
      /\ profileObjs s1 = profileObjs (store w0)
      /\ endpointObjs s1 = endpointObjs (store w0)
      /\ endpointMaps s1 = endpointMaps (store w0)
      /\ profiles s1 = profiles (store w0)
      /\ cacheTTL s1 = cacheTTL (store w0))).
  - exists (store w0). rewrite with_store_store, omap_empty.
    split_and!; try done. symmetry. by apply insert_id.
  - intros i x m r Hi (s1 & Hr & Ht & ? & ? & ? & ? & ?).
    destruct x as [v|].
    + exists (with_tagMaps (insert tm (<[i := v]> (omap id m))) s1).
      split_and!; try done.
      * rewrite (bind_val _ _ _ _ _ Hr).
        apply (on_store_eq _ (with_store s1 w0)). apply tagMap_set_eq.
        rewrite Ht. apply lookup_insert_eq.
      * simpl. rewrite Ht, insert_insert_eq. f_equal. symmetry.
        by apply omap_insert_Some.
    + exists s1. split_and!; try done; [by rewrite (bind_val _ _ _ _ _ Hr)|].
      rewrite Ht. f_equal. rewrite (omap_insert_None id m i None eq_refl).
      symmetry. apply delete_id. by rewrite lookup_omap, Hi.
Qed.

(** [profileToState] on a profile that carries a name: a new,
    well-formed profile object that reads as the profile listed. *)
Lemma profileToState_fields rg (profile : armtrafficmanager.Profile) (w : World E) name :
  armtrafficmanager.Profile_Name profile = Some name ->
  exists ps s',
    trafficmanager.profileToState rg profile w = (Val ps, with_store s' w)
    /\ reads_as s' ps (listed_as rg profile)
    /\ heap_le (store w) s'
    /\ profileObjs (store w) !! ps = None.
Proof.
  intros Hname. unfold trafficmanager.profileToState. rewrite Hname.
  rewrite (bind_val (must (Some name)) _ w name w eq_refl).
  set (em := fresh (dom (endpointMaps (store w)))).
  set (sA := with_endpointMaps (insert em ∅) (store w)).
  rewrite (bind_val (on_store make_endpointMap) _ w em (with_store sA w) eq_refl).
  set (tm := fresh (dom (tagMaps sA))).
  set (sB := with_tagMaps (insert tm ∅) sA).
  rewrite (bind_val (on_store make_tagMap) _ (with_store sA w) tm (with_store sB w) eq_refl).
  rewrite (bind_val time_Now _ (with_store sB w) _ _ eq_refl).
  rewrite (bind_val time_Now _ (with_store sB w) _ _ eq_refl).
  rewrite (bind_val time_Now _ (with_store sB w) _ _ eq_refl).
  cbv zeta.
  match goal with
  | |- context [state.new_profile ?p] => set (p0 := p)
  end.
  set (ps := fresh (dom (profileObjs sB))).
  set (sC := with_profileObjs (insert ps p0) sB).
  rewrite (bind_val (on_store (new_profile p0)) _ (with_store sB w) ps (with_store sC w) eq_refl).
  set (l := match armtrafficmanager.Profile_Properties profile with
            | Some p => armtrafficmanager.Endpoints p
            | None => []
            end).
  assert (Hem : endpointMaps (store w) !! em = None) by apply fresh_endpointMap.
  assert (Htm : tagMaps (store w) !! tm = None) by apply (fresh_tagMap sA).
  assert (Hps : profileObjs (store w) !! ps = None) by apply (fresh_profile sB).
  destruct (profileToState_endpoints em l (with_store sC w) ∅)
    as (s1 & acc & Hrun & Hmaps & Hall & Hdom & Hobjs & Hprof & Htags & Hp & Httl).
  { simpl. apply lookup_insert_eq. }
  { apply map_Forall_empty. }
  rewrite (bind_val _ _ _ _ _ Hrun). simpl in Hmaps, Hobjs, Hprof, Htags, Hp, Httl.
  assert (Hle1 : heap_le (store w) s1).
  { split.
    - rewrite Hprof. by apply insert_subseteq.
    - done.
    - rewrite Hmaps, insert_insert_eq. by apply insert_subseteq.
    - rewrite Htags. by apply insert_subseteq.
    - done.
    - done. }
  assert (Hacc1 : endpointMaps s1 !! em = Some acc).
  { rewrite Hmaps. apply lookup_insert_eq. }
  assert (Hp1 : profileObjs s1 !! ps = Some p0).
  { rewrite Hprof. apply lookup_insert_eq. }
  unfold listed_as, hostname_tag. rewrite Hname.
  destruct (armtrafficmanager.Profile_Tags profile) as [t|].
  - destruct (profileToState_tags_value tm t (with_store s1 w))
      as (s2 & Hrun2 & Htags2 & Hprof2 & Hobjs2 & Hmaps2 & Hp2 & Httl2).
    { simpl. rewrite Htags. apply lookup_insert_eq. }
    simpl in Htags2, Hprof2, Hobjs2, Hmaps2, Hp2, Httl2.
    rewrite bind_assoc. rewrite (bind_val _ _ _ _ _ Hrun2).
    assert (HT : tagMaps s2 !! tm = Some (omap id t)).
    { rewrite Htags2. apply lookup_insert_eq. }
    assert (Hle2 : heap_le (store w) s2).
    { split.
      - rewrite Hprof2. apply Hle1.
      - rewrite Hobjs2. apply Hle1.
      - rewrite Hmaps2. apply Hle1.
      - rewrite Htags2, Htags, insert_insert_eq. by apply insert_subseteq.
      - congruence.
      - congruence. }
    rewrite bind_assoc.
    rewrite (bind_val (on_store (range_tagMap (Some tm))) _ (with_store s2 w) (omap id t)
               (with_store s2 w)).
    2:{ apply (on_store_eq _ (with_store s2 w)). simpl. unfold bind, get. simpl.
        by rewrite HT. }
    rewrite lookup_omap.
    destruct (t !! "hostname") as [[hn|]|]; simpl.
    + rewrite bind_assoc.
      rewrite (bind_val (on_store (load_profile ps)) _ (with_store s2 w) p0 (with_store s2 w)).
      2:{ apply (on_store_eq _ (with_store s2 w)). apply load_profile_eq. simpl. congruence. }
      rewrite (bind_val (on_store (store_profile ps (set_Hostname hn p0))) _
                 (with_store s2 w) tt
                 (with_store (with_profileObjs (insert ps (set_Hostname hn p0)) s2) w)).
      2:{ apply (on_store_eq _ (with_store s2 w)). simpl.
          apply (store_profile_eq _ _ p0). congruence. }
      exists ps, (with_profileObjs (insert ps (set_Hostname hn p0)) s2).
      split_and!; try done.
      * exists (mkProfileValue name rg hn (FQDN p0) (RoutingMethod p0) (DNSTTL p0)
                  (omap (fun e => endpointObjs s2 !! e) acc) (omap id t)
                  (clock (env w)) (clock (env w)) (clock (env w))).
        split; [|by repeat split].
        exists (set_Hostname hn p0). split_and!.
        -- simpl. apply lookup_insert_eq.
        -- by repeat split.
        -- simpl. exists acc. split_and!; [congruence | by rewrite Hobjs2 | done].
        -- simpl. done.
      * destruct Hle2. split; simpl; try done.
        by apply subseteq_insert_fresh.
    + rewrite (bind_val (ret tt) _ (with_store s2 w) tt (with_store s2 w) eq_refl).
      exists ps, s2. split_and!; try done.
      exists (mkProfileValue name rg "" (FQDN p0) (RoutingMethod p0) (DNSTTL p0)
                (omap (fun e => endpointObjs s2 !! e) acc) (omap id t)
                (clock (env w)) (clock (env w)) (clock (env w))).
      split; [|by repeat split].
      exists p0. split_and!.
      * congruence.
      * by repeat split.
      * simpl. exists acc. split_and!; [congruence | by rewrite Hobjs2 | done].
      * simpl. done.
    + rewrite (bind_val (ret tt) _ (with_store s2 w) tt (with_store s2 w) eq_refl).
      exists ps, s2. split_and!; try done.
      exists (mkProfileValue name rg "" (FQDN p0) (RoutingMethod p0) (DNSTTL p0)
                (omap (fun e => endpointObjs s2 !! e) acc) (omap id t)
                (clock (env w)) (clock (env w)) (clock (env w))).
      split; [|by repeat split].
      exists p0. split_and!.
      * congruence.
      * by repeat split.
      * simpl. exists acc. split_and!; [congruence | by rewrite Hobjs2 | done].
      * simpl. done.
  - rewrite (bind_val (ret tt) _ (with_store s1 w) tt (with_store s1 w) eq_refl).
    exists ps, s1. split_and!; try done.
    exists (mkProfileValue name rg "" (FQDN p0) (RoutingMethod p0) (DNSTTL p0)
              (omap (fun e => endpointObjs s1 !! e) acc) ∅
              (clock (env w)) (clock (env w)) (clock (env w))).
    split; [|by repeat split].
    exists p0. split_and!.
    + done.
    + by repeat split.
    + simpl. exists acc. by split_and!.
    + simpl. rewrite Htags. apply lookup_insert_eq.
Qed.

End Listing.

(** ** The mirror under [SetProfile] *)

(** A profile object other than the one written keeps its value. *)
Lemma has_value_kept s t l v :
  has_value s l v ->
  (forall q, profileObjs s !! l = Some q -> profileObjs t !! l = Some q) ->
  endpointObjs s ⊆ endpointObjs t ->
  endpointMaps s ⊆ endpointMaps t ->
  tagMaps s ⊆ tagMaps t ->
  has_value t l v.
Proof.
  intros (q & Hq & Hsc & Hep & Htg) Hkeep Ho Hm Ht.
  exists q. split_and!; [by apply Hkeep | done | |].
  - destruct (Endpoints q) as [em|]; simpl in *; [|done].
    destruct Hep as (acc & Hacc & Hall & ->). exists acc. split_and!.
    + by eapply lookup_weaken.
    + intros k e Hk. destruct (Hall k e Hk) as [x Hx]. exists x. by eapply lookup_weaken.
    + symmetry. by apply omap_ext_lookup.
  - destruct (Tags q) as [tm|]; simpl in *; [|done]. by eapply lookup_weaken.
Qed.

(** [SetProfile] keeps what every profile object reads as: it stamps
    the caller's object, and writes to no other. *)
Lemma SetProfile_keeps s now h p v :
  has_value s p v ->
  exists stored t,
    SetProfile now h p s = (Val tt, t)
    /\ profiles t = <[h := stored]> (profiles s)
    /\ (forall l f, reads_as s l f -> reads_as t l f).
Proof.
  intros Hv.
  destruct (SetProfile_spec s now h p v Hv)
    as (stored & t & Heq & Hprof & Httl & Hst & Hp & Hfresh & Hkeep & Ho & Hm & Ht).
  exists stored, t. split_and!; [done | done |].
  intros l f (v' & Hv' & Hf).
  destruct (decide (l = p)) as [->|Hne].
  - destruct (SetProfile_spec s now h p v' Hv')
      as (stored' & t' & Heq' & _ & _ & _ & Hp' & _).
    rewrite Heq in Heq'. injection Heq' as <-.
    exists (pv_set_CachedAt now v'). split; [done|]. exact Hf.
  - exists v'. split; [|done].
    eapply has_value_kept; try done. intros q Hq. by apply Hkeep.
Qed.

Section RecordsRun.
Context {E : Type} `{Environment E} `{Listing E} {tables : Unicode}.

(** The world once a page has arrived. *)
Definition arrived (e : E) (w : World E) : World E :=
  mkWorld (store w) e (calls w) (log w).

(** The profiles of the pages that [isManagedByUs] holds of. *)
Definition managed_of (pages : list (list armtrafficmanager.Profile * E))
  : list armtrafficmanager.Profile :=
  flat_map (fun page => List.filter trafficmanager.isManagedByUs page.1) pages.

(** The environment a listing leaves behind. *)
Definition after_listing
    (listing : list (list armtrafficmanager.Profile * E) * option (error * E)) (e : E) : E :=
  match snd listing with
  | Some (_, e') => e'
  | None => List.last (fst listing).*2 e
  end.

(** The profiles [SyncProfilesFromAzure] returns, as the environment
    lists them: the managed profiles of the resource groups whose
    listing does not fail, group by group. *)
Fixpoint synced_profiles (resourceGroups : list string) (e : E) : list Listed :=
  match resourceGroups with
  | [] => []
  | rg :: r =>
      let listing := profilesClient_NewListByResourceGroupPager rg e in
      match snd listing with
      | None => map (listed_as rg) (managed_of (fst listing))
      | Some _ => []
      end ++ synced_profiles r (after_listing listing e)
  end.

Fixpoint after_sync (resourceGroups : list string) (e : E) : E :=
  match resourceGroups with
  | [] => e
  | rg :: r =>
      after_sync r (after_listing (profilesClient_NewListByResourceGroupPager rg e) e)
  end.

(** Every managed profile of every page carries a name. *)
Fixpoint listings_named (resourceGroups : list string) (e : E) : Prop :=
  match resourceGroups with
  | [] => True
  | rg :: r =>
      let listing := profilesClient_NewListByResourceGroupPager rg e in
      Forall (fun p => is_Some (armtrafficmanager.Profile_Name p)) (managed_of (fst listing))
      /\ listings_named r (after_listing listing e)
  end.

(** The record of a listed profile, when it has one. *)
Definition record_of (domainFilter : list string) (f : Listed) : option Endpoint :=
  if str_empty (listed_hostname f) || str_empty (listed_fqdn f) then None
  else if negb (matchesDomainFilter domainFilter (listed_hostname f)) then None
  else
    Some (mkEndpoint (listed_hostname f) [listed_fqdn f] "CNAME" "" 300
            (<["traffic-manager-routing-method" := listed_routing f]>
               (<["traffic-manager-resource-group" := listed_resourceGroup f]>
                  (<["traffic-manager-profile" := listed_name f]> ∅)))
            []).

Lemma last_default {A} (l : list A) x d d' : List.last (x :: l) d = List.last (x :: l) d'.
Proof.
  revert x. induction l as [|y l IH]; intros x; [done|].
  change (List.last (y :: l) d = List.last (y :: l) d'). apply IH.
Qed.

Lemma with_store_arrived s e (w : World E) :
  with_store s (arrived e w) = mkWorld s e (calls w) (log w).
Proof. reflexivity. Qed.

Lemma listProfiles_page_spec rg values :
  forall profiles (w : World E),
    Forall (fun p => is_Some (armtrafficmanager.Profile_Name p))
      (List.filter trafficmanager.isManagedByUs values) ->
    exists locs s',
      trafficmanager.listProfiles_page rg values profiles w
      = (Val (profiles ++ locs), with_store s' w)
      /\ heap_le (store w) s'
      /\ Forall2 (reads_as s') locs
           (map (listed_as rg) (List.filter trafficmanager.isManagedByUs values)).
Proof.
  induction values as [|p values IH]; intros profiles w Hnamed.
  - exists [], (store w). rewrite app_nil_r, with_store_store.
    split_and!; [done | apply heap_le_refl | constructor].
  - cbn [trafficmanager.listProfiles_page List.filter] in *.
    destruct (trafficmanager.isManagedByUs p); cbn [negb].
    + apply Forall_cons in Hnamed as [[name Hname] Hnamed].
      destruct (profileToState_fields rg p w name Hname) as (ps & s1 & Hrun & Hps & Hle & _).
      destruct (IH (profiles ++ [ps]) (with_store s1 w) Hnamed)
        as (locs & s' & Hrest & Hle' & Hlocs).
      exists (ps :: locs), s'. split_and!.
      * rewrite (bind_val _ _ _ _ _ Hrun), Hrest. by rewrite <- app_assoc.
      * by eapply heap_le_trans.
      * constructor; [by eapply reads_as_le | done].
    + by apply IH.
Qed.

Lemma listProfiles_pages_spec rg failure pages :
  forall profiles (w : World E),
    Forall (fun p => is_Some (armtrafficmanager.Profile_Name p)) (managed_of pages) ->
    exists locs s',
      trafficmanager.listProfiles_pages rg pages failure profiles w
      = (Val (match failure with
              | Some (err, _) => inr (Errorf_w "failed to get next page: " err)
              | None => inl (profiles ++ locs)
              end),
         with_store s' (arrived (after_listing (pages, failure) (env w)) w))
      /\ heap_le (store w) s'
      /\ Forall2 (reads_as s') locs (map (listed_as rg) (managed_of pages)).
Proof.
  induction pages as [|[values e] pages IH]; intros profiles w Hnamed.
  - exists [], (store w). rewrite app_nil_r.
    split_and!; [|apply heap_le_refl|constructor].
    cbn [trafficmanager.listProfiles_pages]. unfold after_listing. simpl.
    destruct failure as [[err e]|]; [done|]. by destruct w.
  - cbn [managed_of flat_map] in Hnamed. apply Forall_app in Hnamed as [Hpage Hnamed].
    cbn [trafficmanager.listProfiles_pages].
    rewrite (bind_val (trafficmanager.page_arrived e) _ w tt (arrived e w) eq_refl).
    destruct (listProfiles_page_spec rg values profiles (arrived e w) Hpage)
      as (locs1 & s1 & Hrun1 & Hle1 & Hlocs1).
    rewrite (bind_val _ _ _ _ _ Hrun1).
    destruct (IH (profiles ++ locs1) (with_store s1 (arrived e w)) Hnamed)
      as (locs2 & s' & Hrun2 & Hle2 & Hlocs2).
    exists (locs1 ++ locs2), s'. split_and!.
    + rewrite Hrun2. f_equal.
      * destruct failure as [[err e']|]; [done|]. by rewrite <- app_assoc.
      * unfold after_listing. simpl. destruct failure as [[err e']|]; [done|].
        unfold with_store, arrived. simpl. f_equal.
        destruct pages as [|[values2 e2] pages]; [done|]. apply last_default.
    + eapply heap_le_trans; [exact Hle1 | exact Hle2].
    + cbn [managed_of flat_map]. rewrite map_app. apply Forall2_app; [|done].
      eapply Forall2_impl; [exact Hlocs1|]. intros l f Hl. by eapply reads_as_le.
Qed.

Lemma SyncProfiles_loop_spec resourceGroups :
  forall allProfiles (w : World E),
    listings_named resourceGroups (env w) ->
    exists locs s',
      trafficmanager.SyncProfiles_loop resourceGroups allProfiles w
      = (Val (allProfiles ++ locs),
         with_store s' (arrived (after_sync resourceGroups (env w)) w))
      /\ heap_le (store w) s'
      /\ Forall2 (reads_as s') locs (synced_profiles resourceGroups (env w)).
Proof.
  induction resourceGroups as [|rg rest IH]; intros allProfiles w Hnamed.
  - exists [], (store w). rewrite app_nil_r.
    split_and!; [by destruct w | apply heap_le_refl | constructor].
  - destruct Hnamed as [Hhere Hnamed].
    cbn [trafficmanager.SyncProfiles_loop synced_profiles after_sync]. cbv zeta.
    unfold trafficmanager.listProfilesInResourceGroup.
    rewrite bind_assoc. rewrite (bind_val get _ w w w eq_refl). cbv zeta.
    destruct (profilesClient_NewListByResourceGroupPager rg (env w))
      as [pages failure] eqn:Hlist.
    cbn [fst snd] in *.
    destruct (listProfiles_pages_spec rg failure pages [] w Hhere)
      as (locs1 & s1 & Hrun1 & Hle1 & Hlocs1).
    rewrite (bind_val _ _ _ _ _ Hrun1).
    set (w1 := with_store s1 (arrived (after_listing (pages, failure) (env w)) w)).
    destruct failure as [[err e']|].
    + destruct (IH allProfiles w1 Hnamed) as (locs & s' & Hrun & Hle & Hlocs).
      exists locs, s'. split_and!; [exact Hrun | | exact Hlocs].
      eapply heap_le_trans; [exact Hle1 | exact Hle].
    + destruct (IH (allProfiles ++ locs1) w1 Hnamed) as (locs & s' & Hrun & Hle & Hlocs).
      exists (locs1 ++ locs), s'. split_and!.
      * cbv beta iota. rewrite app_nil_l, Hrun. by rewrite <- app_assoc.
      * eapply heap_le_trans; [exact Hle1 | exact Hle].
      * apply Forall2_app; [|exact Hlocs].
        eapply Forall2_impl; [exact Hlocs1|]. intros l f Hl. by eapply reads_as_le.
Qed.

End RecordsRun.

Section RecordsTotal.
Context {E : Type} `{Environment E} `{Listing E} {tables : Unicode}.

(** The hostnames [Records] stores a profile under. *)
Definition mirrored (fs : list Listed) : list string :=
  List.filter (fun h => negb (str_empty h)) (map listed_hostname fs).

Lemma load_reads_as (w : World E) l f :
  reads_as (store w) l f ->
  exists p,
    on_store (load_profile l) w = (Val p, w)
    /\ ProfileName p = listed_name f
    /\ ResourceGroup p = listed_resourceGroup f
    /\ Hostname p = listed_hostname f
    /\ FQDN p = listed_fqdn f
    /\ RoutingMethod p = listed_routing f.
Proof.
  intros (v & (p & Hp & Hsc & _) & Hn & Hrg & Hh & Hf & Hr).
  destruct Hsc as (Hsn & Hsrg & Hsh & Hsf & Hsr & _).
  exists p. split_and!; try congruence.
  rewrite <- (with_store_store w) at 2. apply on_store_eq. by apply load_profile_eq.
Qed.

Lemma Records_mirror_spec locs :
  forall fs (w : World E) keep kfs,
    wf_store (store w) ->
    Forall2 (reads_as (store w)) locs fs ->
    Forall2 (reads_as (store w)) keep kfs ->
    exists s',
      Records_mirror locs w = (Val tt, with_store s' w)
      /\ wf_store s'
      /\ Forall2 (reads_as s') keep kfs
      /\ dom (profiles s') = dom (profiles (store w)) ∪ list_to_set (mirrored fs).
Proof.
  induction locs as [|l locs IH]; intros fs w keep kfs Hwf Hlocs Hkeep.
  - apply Forall2_nil_inv_l in Hlocs as ->.
    exists (store w). rewrite with_store_store.
    split_and!; try done. unfold mirrored. simpl. set_solver.
  - apply Forall2_cons_inv_l in Hlocs as (f & fs' & Hl & Hlocs & ->).
    unfold Records_mirror. cbn [for_each]. fold (Records_mirror locs).
    destruct (load_reads_as w l f Hl) as (p & Hload & _ & _ & Hh & _).
    rewrite bind_assoc. rewrite (bind_val _ _ _ _ _ Hload). rewrite Hh.
    unfold mirrored. cbn [map List.filter].
    destruct (str_empty (listed_hostname f)) eqn:Hempty; cbn [negb].
    + rewrite (bind_val (ret tt) _ w tt w eq_refl). by apply IH.
    + destruct Hl as (v & Hv & Hf).
      destruct (SetProfile_keeps (store w) (clock (env w)) (listed_hostname f) l v Hv)
        as (stored & t & Hset & Hprof & Hkept).
      assert (Hrun : stateManager_SetProfile (listed_hostname f) l w
                     = (Val tt, with_store t w)).
      { unfold stateManager_SetProfile.
        rewrite (bind_val time_Now _ w (clock (env w)) w eq_refl).
        by apply on_store_eq. }
      rewrite (bind_val _ _ _ _ _ Hrun).
      assert (Hwf' : wf_store t).
      { pose proof (wf_SetProfile (store w) (clock (env w)) (listed_hostname f) l v Hwf Hv)
          as Hw. by rewrite Hset in Hw. }
      destruct (IH fs' (with_store t w) keep kfs Hwf') as (s' & Hrest & Hwf'' & Hkeep' & Hdom).
      { eapply Forall2_impl; [exact Hlocs|]. intros ? ? ?. by apply Hkept. }
      { eapply Forall2_impl; [exact Hkeep|]. intros ? ? ?. by apply Hkept. }
      exists s'. split_and!; [exact Hrest | done | done |].
      rewrite Hdom. simpl. rewrite Hprof, dom_insert_L. set_solver.
Qed.

Lemma Records_endpoints_spec domainFilter locs :
  forall fs endpoints (w : World E),
    Forall2 (reads_as (store w)) locs fs ->
    Records_endpoints domainFilter locs endpoints w
    = (Val (endpoints ++ omap (record_of domainFilter) fs), w).
Proof.
  induction locs as [|l locs IH]; intros fs endpoints w Hlocs.
  - apply Forall2_nil_inv_l in Hlocs as ->. simpl. by rewrite app_nil_r.
  - apply Forall2_cons_inv_l in Hlocs as (f & fs' & Hl & Hlocs & ->).
    cbn [Records_endpoints].
    destruct (load_reads_as w l f Hl) as (p & Hload & Hn & Hrg & Hh & Hf & Hr).
    rewrite (bind_val _ _ _ _ _ Hload). rewrite Hn, Hrg, Hh, Hf, Hr.
    cbn [omap list_omap]. unfold record_of at 1.
    destruct (str_empty (listed_hostname f) || str_empty (listed_fqdn f)); [by apply IH|].
    destruct (matchesDomainFilter domainFilter (listed_hostname f)); cbn [negb]; [|by apply IH].
    cbv zeta. rewrite (IH fs' _ w Hlocs). by rewrite <- app_assoc.
Qed.

(** X21.  On a well-formed mirror, and when every managed profile the
    environment lists carries a name, [Records] returns, with a nil
    error, the records of the managed profiles of the resource groups
    whose listing does not fail, in the order of the listing: one for
    each such profile that has a hostname tag and an FQDN and whose
    hostname passes the domain filter.  Every such profile with a
    hostname tag is stored in the mirror under that hostname, whether or
    not it has a record; no entry of the mirror is removed. *)
Theorem Records_lists_the_managed_profiles
    (domainFilter resourceGroups : list string) (w : World E) :
  wf_store (store w) ->
  listings_named resourceGroups (env w) ->
  exists s',
    Records domainFilter resourceGroups w
    = (Val (omap (record_of domainFilter) (synced_profiles resourceGroups (env w)), None),
       mkWorld s' (after_sync resourceGroups (env w)) (calls w) (log w))
    /\ wf_store s'
    /\ dom (profiles s')
       = dom (profiles (store w))
         ∪ list_to_set (mirrored (synced_profiles resourceGroups (env w))).
Proof.
  intros Hwf Hnamed.
  destruct (SyncProfiles_loop_spec resourceGroups [] w Hnamed)
    as (locs & s1 & Hsync & Hle & Hlocs).
  set (w1 := with_store s1 (arrived (after_sync resourceGroups (env w)) w)) in *.
  assert (Hwf1 : wf_store (store w1)) by (by apply (wf_store_le (store w))).
  destruct (Records_mirror_spec locs _ w1 locs _ Hwf1 Hlocs Hlocs)
    as (s' & Hmirror & Hwf' & Hlocs' & Hdom).
  exists s'. split_and!; [|done|].
  - unfold Records, trafficmanager.SyncProfilesFromAzure.
    rewrite bind_assoc. rewrite (bind_val _ _ _ _ _ Hsync).
    rewrite (bind_val (ret (locs, None)) _ w1 (locs, None) w1 eq_refl).
    cbn [fst snd]. rewrite (bind_val _ _ _ _ _ Hmirror).
    rewrite (bind_val _ _ _ _ _
               (Records_endpoints_spec domainFilter locs _ [] (with_store s' w1) Hlocs')).
    reflexivity.
  - rewrite Hdom. simpl. by rewrite (le_profiles _ _ Hle).
Qed.

End RecordsTotal.

(* ===================================================================== *)
(** * The CNAME of the vanity hostname *)
(* ===================================================================== *)

Section VanityCNAME.
Context {E : Type} `{Environment E} {tables : Unicode}.

Lemma profile_FQDN_value (w : World E) ps v :
  has_value (store w) ps v -> profile_FQDN ps w = (Val (pv_FQDN v), w).
Proof.
  intros (p & Hp & Hsc & _). destruct Hsc as (_ & _ & _ & <- & _).
  unfold profile_FQDN. rewrite <- (with_store_store w) at 2. apply on_store_eq.
  by rewrite (bind_val _ _ _ _ _ (load_profile_eq _ _ _ Hp)).
Qed.

(** The DNSEndpoint object [createEndpoint] writes for a vanity
    hostname. *)
Definition vanity_object (vanityHostname fqdn resourceVersion : string) : DNSEndpointObject :=
  mkDNSEndpointObject (dnsendpoint.GenerateName vanityHostname) "default"
    vanityHostname 300 fqdn resourceVersion.

(** The requests for that object: a read, then an update that carries
    the resource version read, or a creation when the read fails. *)
Definition vanity_requests (vanityHostname fqdn : string) (e : E) : list Call :=
  let name := dnsendpoint.GenerateName vanityHostname in
  [DNSEndpointGet "default" name;
   match fst (dynamicClient_Get "default" name e) with
   | inl resourceVersion =>
       DNSEndpointUpdate "default" (vanity_object vanityHostname fqdn resourceVersion)
   | inr _ => DNSEndpointCreate "default" (vanity_object vanityHostname fqdn "")
   end].

(** X22.  The refresh that ends a Create, when the profile request is
    answered with a profile that carries a name: it returns, whatever
    the cluster answers.  When the record has a vanity hostname other
    than its DNS name and the profile has an FQDN, it then reads the
    DNSEndpoint object named after the vanity hostname in the namespace
    "default" and writes it, as a CNAME object from the vanity hostname
    to the FQDN with a TTL of 300: an update with the resource version
    read, or a creation when the read fails for whatever reason.
    Otherwise the profile request is the only request. *)
Theorem createEndpoint_refresh_writes_the_vanity_CNAME
    (endpoint : Endpoint) (config : TrafficManagerConfig) (vanityHostname : string)
    (w : World E) (profile : armtrafficmanager.Profile) (env1 : E) :
  profilesClient_Get (annotations.ResourceGroup config) (annotations.ProfileName config)
    (env w) = (inl profile, env1) ->
  is_Some (armtrafficmanager.Profile_Name profile) ->
  exists w',
    createEndpoint_refresh endpoint config vanityHostname w = (Val tt, w')
    /\ calls w'
       = calls w
         ++ ProfilesGet (annotations.ResourceGroup config) (annotations.ProfileName config)
            :: (if negb (str_empty vanityHostname)
                   && negb (String.eqb vanityHostname (DNSName endpoint))
                   && negb (str_empty (fqdn_of profile))
                then vanity_requests vanityHostname (fqdn_of profile) env1
                else []).
Proof.
  intros Hget [name Hname].
  set (rg := annotations.ResourceGroup config) in *.
  set (pn := annotations.ProfileName config) in *.
  set (w1 := sent [ProfilesGet rg pn] env1 w).
  destruct (profileToState_fields rg profile w1 name Hname)
    as (ps & s1 & Hconv & (v & Hv & _ & _ & _ & Hfqdn & _) & _ & _).
  simpl in Hfqdn.
  destruct (assign_Hostname_spec (with_store s1 w1) ps v vanityHostname Hv)
    as (s2 & Hassign & Hv2 & _).
  set (w2 := with_store s2 (with_store s1 w1)) in *.
  destruct (SetProfile_spec (store w2) (clock (env w2)) vanityHostname ps _ Hv2)
    as (stored & s3 & Hset & _ & _ & _ & Hv3 & _).
  set (w3 := with_store s3 w2).
  assert (Hstore : stateManager_SetProfile vanityHostname ps w2 = (Val tt, w3)).
  { unfold stateManager_SetProfile.
    rewrite (bind_val time_Now _ w2 (clock (env w2)) w2 eq_refl).
    by apply on_store_eq. }
  assert (Hread : profile_FQDN ps w3 = (Val (fqdn_of profile), w3)).
  { rewrite (profile_FQDN_value w3 ps _ Hv3). simpl. by rewrite Hfqdn. }
  assert (Hrun : createEndpoint_refresh endpoint config vanityHostname w
                 = (if negb (str_empty vanityHostname)
                       && negb (String.eqb vanityHostname (DNSName endpoint))
                       && negb (str_empty (fqdn_of profile))
                    then
                      let* _ :=
                        dnsendpoint.CreateOrUpdateCNAME dnsEndpointNamespace
                          (dnsendpoint.GenerateName vanityHostname) vanityHostname
                          (fqdn_of profile) 300 in
                      ret tt
                    else ret tt) w3).
  { unfold createEndpoint_refresh, trafficmanager.GetProfileState. fold rg pn.
    rewrite bind_assoc.
    rewrite (bind_val _ _ _ _ _ (request_eq _ _ w _ _ Hget)). fold w1.
    rewrite bind_assoc. rewrite (bind_val _ _ _ _ _ Hconv).
    rewrite (bind_val (ret (inl ps)) _ _ (inl ps) _ eq_refl). cbv beta iota.
    rewrite (bind_val _ _ _ _ _ Hassign). fold w2.
    rewrite (bind_val _ _ _ _ _ Hstore).
    by rewrite (bind_val _ _ _ _ _ Hread). }
  rewrite Hrun. clear Hrun.
  assert (Hcalls : calls w3 = calls w ++ [ProfilesGet rg pn]) by reflexivity.
  destruct (negb (str_empty vanityHostname)
            && negb (String.eqb vanityHostname (DNSName endpoint))
            && negb (str_empty (fqdn_of profile))).
  2:{ exists w3. split; [reflexivity | exact Hcalls]. }
  unfold dnsendpoint.CreateOrUpdateCNAME, vanity_requests, vanity_object, dnsEndpointNamespace.
  cbv zeta.
  set (n := dnsendpoint.GenerateName vanityHostname).
  change (env w3) with env1 in *.
  destruct (dynamicClient_Get "default" n env1) as [r2 env2] eqn:Hget2.
  rewrite !bind_assoc.
  rewrite (bind_val _ _ _ _ _ (request_eq _ _ w3 r2 env2 Hget2)).
  destruct r2 as [resourceVersion|err]; cbn [fst].
  - destruct (dynamicClient_Update "default"
                (mkDNSEndpointObject n "default" vanityHostname 300 (fqdn_of profile)
                   resourceVersion) env2) as [r3 env3] eqn:Hput.
    rewrite bind_assoc.
    rewrite (bind_val _ _ _ _ _ (request_eq _ _ (sent _ env2 w3) r3 env3 Hput)).
    eexists. split; [by destruct r3|].
    destruct r3; simpl; rewrite <- !app_assoc; reflexivity.
  - destruct (dynamicClient_Create "default"
                (mkDNSEndpointObject n "default" vanityHostname 300 (fqdn_of profile) "")
                env2) as [r3 env3] eqn:Hput.
    rewrite bind_assoc.
    rewrite (bind_val _ _ _ _ _ (request_eq _ _ (sent _ env2 w3) r3 env3 Hput)).
    eexists. split; [by destruct r3|].
    destruct r3; simpl; rewrite <- !app_assoc; reflexivity.
Qed.

End VanityCNAME.

(* ===================================================================== *)
(** * The endpoints a record is written as *)
(* ===================================================================== *)

(** The endpoint a request names, and the target it carries. *)
Definition endpoint_named (c : Call) : option string :=
  match c with
  | EndpointsCreateOrUpdate _ _ _ n _ => Some n
  | EndpointsGet _ _ _ n => Some n
  | EndpointsDelete _ _ _ n => Some n
  | _ => None
  end.

Definition target_written (c : Call) : option string :=
  match c with
  | EndpointsCreateOrUpdate _ _ _ _ e =>
      Some (default "" (armtrafficmanager.Endpoint_Properties e ≫= armtrafficmanager.Target))
  | _ => None
  end.

Lemma with_generated_names_EndpointName d d' endpoint c :
  annotations.EndpointName (with_generated_names d endpoint c)
  = annotations.EndpointName (with_generated_names d' endpoint c).
Proof.
  unfold with_generated_names.
  destruct (str_empty (annotations.ProfileName c)); cbn;
    destruct (str_empty (annotations.EndpointName c)); reflexivity.
Qed.

Lemma with_generated_names_EndpointType d endpoint c :
  annotations.EndpointType (with_generated_names d endpoint c) = annotations.EndpointType c.
Proof.
  unfold with_generated_names.
  destruct (str_empty (annotations.ProfileName c)); cbn;
    destruct (str_empty (annotations.EndpointName c)); reflexivity.
Qed.

Lemma append_longer (a b : string) : b <> "" -> a +:+ b <> a.
Proof.
  intros Hb Heq. apply (f_equal String.length) in Heq.
  assert (Hlen : forall x y, String.length (x +:+ y) = (String.length x + String.length y)%nat).
  { intros x y. induction x as [|ch x IH]; [reflexivity|].
    rewrite append_cons. simpl. by rewrite IH. }
  rewrite Hlen in Heq. destruct b; [done|]. simpl in Heq. lia.
Qed.

Section Written.
Context {E : Type} `{Environment E} {tables : Unicode}.

Lemma sends_for_each_err_In {A} P (l : list A) (body : A -> M (World E) (option error)) :
  (forall x, In x l -> sends P (body x)) -> sends P (for_each_err l body).
Proof.
  induction l as [|x l IH]; intros Hb; simpl; [apply sends_ret|].
  apply sends_bind; [apply Hb; by left | intros [e|]; [apply sends_ret|]].
  apply IH. intros y Hy. apply Hb. by right.
Qed.

Lemma steps_for_each_err_In {A} P (l : list A) (body : A -> M (World E) (option error)) :
  (forall x, In x l -> steps P (body x)) -> steps P (for_each_err l body).
Proof.
  induction l as [|x l IH]; intros Hb; simpl; [apply steps_ret|].
  apply steps_bind; [apply Hb; by left | intros [e|]; [apply steps_ret|]].
  apply IH. intros y Hy. apply Hb. by right.
Qed.

(** The one endpoint request of [CreateEndpoint] and of
    [UpdateEndpoint]: its name is the name of the configuration, its
    target the target of the configuration. *)
Lemma steps_CreateEndpoint_request (P : Call -> Prop) rg pn cfg :
  (forall c, endpoint_named c = Some (trafficmanager.EndpointName cfg) ->
             target_written c = Some (trafficmanager.ec_Target cfg) -> P c) ->
  steps P (trafficmanager.CreateEndpoint rg pn cfg).
Proof.
  intros HP. unfold trafficmanager.CreateEndpoint. cbv zeta.
  apply steps_bind; [apply steps_request, HP; reflexivity | intros r].
  destruct r; [|apply steps_ret].
  apply steps_bind; [apply steps_endpointResponseToState | intros; apply steps_ret].
Qed.

Lemma steps_UpdateEndpoint_request (P : Call -> Prop) rg pn cfg :
  (forall c, endpoint_named c = Some (trafficmanager.EndpointName cfg) ->
             target_written c = Some (trafficmanager.ec_Target cfg) -> P c) ->
  steps P (trafficmanager.UpdateEndpoint rg pn cfg).
Proof.
  intros HP. unfold trafficmanager.UpdateEndpoint. cbv zeta.
  apply steps_bind; [apply steps_request, HP; reflexivity | intros r].
  destruct r; [|apply steps_ret].
  apply steps_bind; [apply steps_endpointResponseToState | intros; apply steps_ret].
Qed.

(** What holds of every endpoint request that names an endpoint. *)
Definition endpoint_requests (Q : string -> option string -> Prop) (c : Call) : Prop :=
  forall n, endpoint_named c = Some n -> Q n (target_written c).

Lemma steps_handler_rest (Q : string -> option string -> Prop) (m : M (World E) unit) :
  steps (fun c => endpoint_named c = None) m -> steps (endpoint_requests Q) m.
Proof.
  apply steps_weaken. intros c Hc n Hn. congruence.
Qed.

Lemma steps_createEndpoint_profile_named Q config vanity :
  steps (endpoint_requests Q) (createEndpoint_profile config vanity).
Proof.
  unfold createEndpoint_profile. cbv zeta. steps_full; by intros n [=].
Qed.

Lemma steps_createEndpoint_refresh_named Q endpoint config vanity :
  steps (endpoint_requests Q) (createEndpoint_refresh endpoint config vanity).
Proof.
  unfold createEndpoint_refresh, profile_FQDN, assign_Hostname.
  steps_full; by intros n [=].
Qed.

Lemma steps_updateEndpoint_profile_named Q new oc nc :
  steps (endpoint_requests Q) (updateEndpoint_profile new oc nc).
Proof.
  unfold updateEndpoint_profile. cbv zeta. steps_full; by intros n [=].
Qed.

Lemma steps_updateEndpoint_refresh_named Q new nc :
  steps (endpoint_requests Q) (updateEndpoint_refresh new nc).
Proof.
  unfold updateEndpoint_refresh, assign_Hostname. steps_full; by intros n [=].
Qed.

(** The endpoint requests of a Create, target by target. *)
Lemma sends_createEndpoint_named (Q : string -> option string -> Prop) endpoint config :
  ParseConfig (annotationMap endpoint) = inl config ->
  (forall i target,
     In target (createEndpoint_targetList endpoint) ->
     Q (trafficmanager.EndpointName
          (createEndpoint_endpointConfig endpoint
             (with_generated_names (vanityHostname_of endpoint config) endpoint config)
             i target))
       (Some target)) ->
  sends (endpoint_requests Q) (createEndpoint endpoint).
Proof.
  intros Hparse HQ. unfold createEndpoint. apply sends_logged.
  destruct (String.eqb (RecordType endpoint) "TXT"); [apply steps_ret|].
  rewrite Hparse.
  destruct (negb (Enabled config)); [apply steps_ret|].
  destruct (ValidateConfig config); [apply steps_ret|]. cbv zeta.
  apply steps_bind; [apply steps_createEndpoint_profile_named|].
  intros [err|]; [apply steps_ret|].
  apply steps_bind.
  2:{ intros [err|]; [apply steps_ret|].
      apply steps_bind; [apply steps_createEndpoint_refresh_named | intros; apply steps_ret]. }
  unfold createEndpoint_targets. cbv zeta. apply steps_for_each_err_In.
  intros [i target] Hin. apply in_combine_r in Hin.
  unfold createEndpoint_target. cbv zeta. cbn [fst snd].
  apply steps_bind.
  - apply steps_CreateEndpoint_request. intros c Hn Ht n Hn'.
    rewrite Hn in Hn'. injection Hn' as <-. rewrite Ht.
    assert (Htarget : trafficmanager.ec_Target
                        (createEndpoint_endpointConfig endpoint
                           (with_generated_names (vanityHostname_of endpoint config)
                              endpoint config) i target) = target).
    { unfold createEndpoint_endpointConfig. cbv zeta.
      repeat match goal with |- context [if ?b then _ else _] => destruct b end;
        reflexivity. }
    rewrite Htarget. by apply HQ.
  - intros [st|err]; [|apply steps_ret]. unfold convertToStateEndpoint.
    steps_full.
Qed.

(** The endpoint requests of an Update: one name, the targets of the
    new record. *)
Lemma sends_updateEndpoint_named old new nc :
  ParseConfig (Labels new) = inl nc ->
  sends (endpoint_requests
           (fun n t =>
              n = annotations.EndpointName (with_generated_names (DNSName new) new nc)
              /\ exists target, In target (Targets new) /\ t = Some target))
    (updateEndpoint old new).
Proof.
  intros Hparse. unfold updateEndpoint. apply sends_logged. rewrite Hparse.
  destruct (negb (Enabled nc)); [apply steps_ret|].
  destruct (ValidateConfig nc); [apply steps_ret|]. cbv zeta.
  apply steps_bind; [apply steps_updateEndpoint_profile_named|].
  intros [err|]; [apply steps_ret|].
  apply steps_bind.
  2:{ intros [err|]; [apply steps_ret|].
      apply steps_bind; [apply steps_updateEndpoint_refresh_named | intros; apply steps_ret]. }
  apply steps_for_each_err_In. intros target Hin.
  unfold updateEndpoint_target. cbv zeta.
  destruct (endpoint_changed _ _); [|apply steps_ret].
  apply steps_bind.
  - apply steps_UpdateEndpoint_request. intros c Hn Ht n Hn'.
    rewrite Hn in Hn'. injection Hn' as <-. rewrite Ht. split.
    + cbn [ToEndpointConfig trafficmanager.EndpointName]. apply nonempty_or_self.
    + exists target. by split.
  - intros [st|err]; [|apply steps_ret]. unfold convertToStateEndpoint.
    steps_full.
Qed.

(** The endpoint requests of a Delete: one name. *)
Lemma sends_deleteEndpoint_named endpoint c :
  ParseConfig (Labels endpoint) = inl c ->
  sends (endpoint_requests
           (fun n _ =>
              n = annotations.EndpointName
                    (with_generated_names (DNSName endpoint) endpoint c)))
    (deleteEndpoint endpoint).
Proof.
  intros Hparse. unfold deleteEndpoint. apply sends_logged. rewrite Hparse.
  destruct (negb (Enabled c)); [apply steps_ret|]. cbv zeta.
  apply steps_bind.
  - unfold deleteEndpoint_targets. apply steps_for_each. intros _.
    apply steps_bind; [apply steps_DeleteEndpoint; by intros n [= <-]|].
    intros [err|]; [apply steps_ret | apply steps_stateManager_DeleteEndpoint].
  - intros _. apply steps_bind; [|intros; apply steps_ret].
    unfold deleteEndpoint_cleanup, deleteEndpoint_refetched,
      profile_FQDN, assign_Hostname, len_Endpoints, stateManager_DeleteProfile.
    steps_full; by intros n [=].
Qed.

End Written.

Section WrittenAs.
Context {E : Type} `{Environment E} {tables : Unicode}.

Lemma sends_createEndpoint_unparsed P endpoint err :
  ParseConfig (annotationMap endpoint) = inr err -> sends P (createEndpoint endpoint).
Proof.
  intros Hp. unfold createEndpoint. apply sends_logged.
  destruct (String.eqb (RecordType endpoint) "TXT"); [apply steps_ret|].
  rewrite Hp. apply steps_ret.
Qed.

Lemma sends_updateEndpoint_unparsed P old new err :
  ParseConfig (Labels new) = inr err -> sends P (updateEndpoint old new).
Proof.
  intros Hp. unfold updateEndpoint. apply sends_logged. rewrite Hp. apply steps_ret.
Qed.

(** X23.  A record with two or more targets is created under other
    endpoint names than it is updated and deleted under.  Each handler
    takes the endpoint name of the configuration it parses, the
    annotation or else the name generated from the first target: a
    Create parses the labels with the provider-specific properties laid
    over them, an Update and a Delete the labels alone.  When the name of
    the Create is not empty, every endpoint request of the Create names
    an endpoint [name]-i, for an index i, and none names [name]; every
    endpoint request of the Update and of the Delete names the [name] of
    its configuration, for whichever target it is sent. *)
Theorem multi_target_records_change_their_endpoint_names
    (old endpoint : Endpoint) (w : World E) :
  (1 < length (Targets endpoint))%nat ->
  (forall c,
     ParseConfig (annotationMap endpoint) = inl c ->
     let name :=
       annotations.EndpointName (with_generated_names (DNSName endpoint) endpoint c) in
     name <> "" ->
     exists tr,
       calls (snd (createEndpoint endpoint w)) = calls w ++ tr
       /\ Forall (endpoint_requests
                    (fun n _ => n <> name
                                /\ exists i : nat,
                                     n = name +:+ "-" +:+ fmt_d (Z.of_nat i))) tr)
  /\ (forall c,
        ParseConfig (Labels endpoint) = inl c ->
        let name :=
          annotations.EndpointName (with_generated_names (DNSName endpoint) endpoint c) in
        (exists tr,
           calls (snd (updateEndpoint old endpoint w)) = calls w ++ tr
           /\ Forall (endpoint_requests (fun n _ => n = name)) tr)
        /\ (exists tr,
              calls (snd (deleteEndpoint endpoint w)) = calls w ++ tr
              /\ Forall (endpoint_requests (fun n _ => n = name)) tr)).
Proof.
  intros Hmany. split.
  - intros c Hcreate name Hname.
    apply sends_createEndpoint_named with (config := c); [done|].
    intros i target _.
    set (c' := with_generated_names (vanityHostname_of endpoint c) endpoint c).
    assert (Hc' : annotations.EndpointName c' = name)
      by apply with_generated_names_EndpointName.
    assert (Hn : trafficmanager.EndpointName
                   (createEndpoint_endpointConfig endpoint c' i target)
                 = name +:+ "-" +:+ fmt_d (Z.of_nat i)).
    { unfold createEndpoint_endpointConfig. cbv zeta.
      cbn [ToEndpointConfig trafficmanager.EndpointName].
      rewrite nonempty_or_self, Hc'.
      rewrite (proj2 (Nat.ltb_lt _ _) Hmany).
      destruct name; [done|]. reflexivity. }
    rewrite Hn. split; [|by exists i].
    apply append_longer. discriminate.
  - intros c Hlabels name. split.
    + destruct (sends_updateEndpoint_named old endpoint c Hlabels w) as (tr & Htr & Hall).
      exists tr. split; [done|]. eapply Forall_impl; [exact Hall|].
      intros call Hcall n Hn. by destruct (Hcall n Hn).
    + apply (sends_deleteEndpoint_named endpoint c Hlabels w).
Qed.

(** X24.  The endpoint of an A record is created with the DNS name of
    the record as its target: the addresses of the record are not sent.
    An Update that writes the endpoint sends a target of the new record
    as its target, for a record of any type.  Neither needs the
    annotations to parse: a handler that fails to parse sends
    nothing. *)
Theorem A_records_are_created_for_their_DNS_name
    (old endpoint : Endpoint) (w : World E) :
  (RecordType endpoint = "A" ->
   exists tr,
     calls (snd (createEndpoint endpoint w)) = calls w ++ tr
     /\ Forall (fun call => forall target, target_written call = Some target ->
                  target = DNSName endpoint) tr)
  /\ (exists tr,
        calls (snd (updateEndpoint old endpoint w)) = calls w ++ tr
        /\ Forall (fun call => forall target, target_written call = Some target ->
                     In target (Targets endpoint)) tr).
Proof.
  split.
  - intros HA.
    assert (Hsends : sends (endpoint_requests (fun _ t => t = Some (DNSName endpoint)))
                       (createEndpoint endpoint)).
    { destruct (ParseConfig (annotationMap endpoint)) as [c|err] eqn:Hp.
      - apply sends_createEndpoint_named with (config := c); [done|].
        intros i target Hin. unfold createEndpoint_targetList in Hin.
        rewrite HA in Hin. cbv zeta in Hin. simpl in Hin.
        destruct Hin as [<-|[]]. reflexivity.
      - by eapply sends_createEndpoint_unparsed. }
    destruct (Hsends w) as (tr & Htr & Hall).
    exists tr. split; [done|]. eapply Forall_impl; [exact Hall|].
    intros call Hcall target Ht.
    destruct call; try discriminate Ht.
    specialize (Hcall _ eq_refl). rewrite Ht in Hcall. by injection Hcall.
  - destruct (ParseConfig (Labels endpoint)) as [c|err] eqn:Hp.
    + destruct (sends_updateEndpoint_named old endpoint c Hp w) as (tr & Htr & Hall).
      exists tr. split; [done|]. eapply Forall_impl; [exact Hall|].
      intros call Hcall target Ht.
      destruct call; try discriminate Ht.
      destruct (Hcall _ eq_refl) as (_ & t & Hin & Heq). rewrite Ht in Heq.
      by injection Heq as ->.
    + destruct (sends_updateEndpoint_unparsed
                  (fun call => forall target, target_written call = Some target ->
                     In target (Targets endpoint)) old endpoint err Hp w)
        as (tr & Htr & Hall).
      by exists tr.
Qed.

End WrittenAs.


(** A record with two targets. *)
Definition pair : Endpoint :=
  mkEndpoint "multi.example.com" ["a.example.net"; "b.example.net"] "CNAME" "" 300 labels [].

(** The two-target record with another weight, and the world after the
    Create of the two-target record. *)
Definition heavier : Endpoint :=
  mkEndpoint "multi.example.com" ["a.example.net"; "b.example.net"] "CNAME" "" 300
    (<[AnnotationWeight := "200"]> labels) [].

Definition paired_world : World cloud.Cloud := after (createEndpoint pair) fresh_world.

Lemma multi_target_records_witness :
  (1 < length (Targets pair))%nat
  /\ ParseConfig (annotationMap pair) = inl (labels_config pair)
  /\ ParseConfig (Labels heavier) = inl (labels_config heavier)
  /\ omap endpoint_named (requests (createEndpoint pair) fresh_world)
     = ["a-example-net-0"; "a-example-net-1"]
  /\ omap endpoint_named (requests (updateEndpoint pair heavier) paired_world)
     = ["a-example-net"; "a-example-net"]
  /\ omap endpoint_named (requests (deleteEndpoint heavier) paired_world)
     = ["a-example-net"; "a-example-net"]
  /\ (exists tr,
        calls (snd (createEndpoint pair fresh_world)) = calls fresh_world ++ tr
        /\ Forall (endpoint_requests
                     (fun n _ => n <> "a-example-net"
                                 /\ exists i : nat,
                                      n = "a-example-net" +:+ "-" +:+ fmt_d (Z.of_nat i))) tr)
  /\ (exists tr,
        calls (snd (updateEndpoint pair heavier paired_world)) = calls paired_world ++ tr
        /\ Forall (endpoint_requests (fun n _ => n = "a-example-net")) tr)
  /\ (exists tr,
        calls (snd (deleteEndpoint heavier paired_world)) = calls paired_world ++ tr
        /\ Forall (endpoint_requests (fun n _ => n = "a-example-net")) tr).
Proof.
  assert (Hmany : (1 < length (Targets pair))%nat) by (simpl; lia).
  assert (Hmany' : (1 < length (Targets heavier))%nat) by (simpl; lia).
  assert (H1 : ParseConfig (annotationMap pair) = inl (labels_config pair))
    by (vm_compute; reflexivity).
  assert (H2 : ParseConfig (Labels heavier) = inl (labels_config heavier))
    by (vm_compute; reflexivity).
  assert (Hname : annotations.EndpointName
                    (with_generated_names (DNSName pair) pair (labels_config pair))
                  = "a-example-net")
    by (vm_compute; reflexivity).
  assert (Hname' : annotations.EndpointName
                     (with_generated_names (DNSName heavier) heavier (labels_config heavier))
                   = "a-example-net")
    by (vm_compute; reflexivity).
  destruct (multi_target_records_change_their_endpoint_names pair pair fresh_world Hmany)
    as [Hcreate _].
  specialize (Hcreate (labels_config pair) H1). cbv zeta in Hcreate.
  rewrite Hname in Hcreate. specialize (Hcreate ltac:(discriminate)).
  destruct (multi_target_records_change_their_endpoint_names pair heavier paired_world
              Hmany') as [_ Hrest].
  specialize (Hrest (labels_config heavier) H2). cbv zeta in Hrest.
  rewrite Hname' in Hrest. destruct Hrest as [Hupdate Hdelete].
  split; [exact Hmany|]. split; [exact H1|]. split; [exact H2|].
  split; [vm_compute; reflexivity|]. split; [vm_compute; reflexivity|].
  split; [vm_compute; reflexivity|].
  split; [exact Hcreate|]. split; [exact Hupdate | exact Hdelete].
Defined.

Lemma A_records_witness :
  RecordType east = "A"
  /\ Targets east = ["1.2.3.4"]
  /\ omap target_written (requests (createEndpoint east) fresh_world) = ["east.example.com"]
  /\ omap target_written (requests (updateEndpoint east (weighted "200")) created_world)
     = ["1.2.3.4"]
  /\ (exists tr,
        calls (snd (createEndpoint east fresh_world)) = calls fresh_world ++ tr
        /\ Forall (fun call => forall target, target_written call = Some target ->
                     target = DNSName east) tr)
  /\ (exists tr,
        calls (snd (updateEndpoint east (weighted "200") created_world))
        = calls created_world ++ tr
        /\ Forall (fun call => forall target, target_written call = Some target ->
                     In target (Targets (weighted "200"))) tr).
Proof.
  assert (HA : RecordType east = "A") by reflexivity.
  destruct (A_records_are_created_for_their_DNS_name east east fresh_world)
    as [Hcreate _].
  destruct (A_records_are_created_for_their_DNS_name east (weighted "200") created_world)
    as [_ Hupdate].
  split; [exact HA|]. split; [reflexivity|].
  split; [vm_compute; reflexivity|]. split; [vm_compute; reflexivity|].
  split; [exact (Hcreate HA) | exact Hupdate].
Defined.

(* ===================================================================== *)
(** * Further runs against the reference environment *)
(* ===================================================================== *)

(** The routed record without its endpoint location. *)
Definition nowhere : Endpoint := record (delete AnnotationEndpointLocation labels).

Lemma enabled_records_need_an_endpoint_location_witness :
  (exists err,
     createEndpoint nowhere fresh_world
     = (Val (Some err), logged (LogCreatingEndpoint (DNSName nowhere)) fresh_world))
  /\ (exists err,
        updateEndpoint east nowhere fresh_world
        = (Val (Some err), logged (LogUpdatingEndpoint (DNSName nowhere)) fresh_world)).
Proof.
  destruct (enabled_records_need_an_endpoint_location east nowhere fresh_world) as [Hc Hu].
  split.
  - apply Hc; [vm_compute; discriminate | vm_compute; reflexivity | vm_compute; reflexivity].
  - apply Hu; vm_compute; reflexivity.
Defined.



Lemma ListProfiles_copies_every_entry_witness :
  wf_store demo_mirror
  /\ exists cs t,
       ListProfiles (map_to_list (profiles demo_mirror)) demo_mirror = (Val cs, t)
       /\ length cs = size (profiles demo_mirror).
Proof.
  assert (Hwf : wf_store demo_mirror) by (apply wf_storeb_sound; vm_compute; reflexivity).
  split; [exact Hwf|].
  destruct (ListProfiles_copies_every_entry demo_mirror (map_to_list (profiles demo_mirror))
              Hwf (reflexivity _)) as (cs & t & Hrun & _ & Hlen & _).
  exists cs, t. split; [exact Hrun | exact Hlen].
Defined.

Lemma GetProfileByName_finds_an_entry_witness :
  wf_store demo_mirror
  /\ exists r t,
       GetProfileByName (map_to_list (profiles demo_mirror)) "demo-tm" demo_mirror
       = (Val r, t)
       /\ heap_le demo_mirror t.
Proof.
  assert (Hwf : wf_store demo_mirror) by (apply wf_storeb_sound; vm_compute; reflexivity).
  split; [exact Hwf|].
  destruct (GetProfileByName_finds_an_entry_of_that_name demo_mirror
              (map_to_list (profiles demo_mirror)) "demo-tm" Hwf (reflexivity _))
    as (r & t & Hrun & Hle & _).
  exists r, t. split; [exact Hrun | exact Hle].
Defined.

(** What the cloud answers when the endpoint of the routed record is
    read after its Create. *)
Definition east_reply : (armtrafficmanager.Endpoint + error) * cloud.Cloud :=
  endpointsClient_Get "rg" "east-example-com-tm" "ExternalEndpoints" "1-2-3-4"
    (env created_world).

Lemma partial_updates_witness :
  (exists e, fst east_reply = inl e /\ is_Some (armtrafficmanager.Endpoint_Type e))
  /\ match fst east_reply with
     | inr err => True
     | inl e =>
         match armtrafficmanager.Endpoint_Type e, properties_read e with
         | None, _ => True
         | Some _, (target, weight0, priority, status0, location) =>
             exists e',
               properties_read e' = (target, 50, priority, status0, location)
               /\ written_back
                    (trafficmanager.UpdateEndpointWeight "rg" "east-example-com-tm"
                       "ExternalEndpoints" "1-2-3-4" 50 created_world)
                    created_world "rg" "east-example-com-tm" "ExternalEndpoints" "1-2-3-4"
                    (snd east_reply) "failed to update endpoint weight: " e'
         end
     end.
Proof.
  split.
  { eexists. split; [vm_compute; reflexivity|]. eexists. vm_compute. reflexivity. }
  pose proof (partial_updates_write_back_what_they_read "rg" "east-example-com-tm"
                "ExternalEndpoints" "1-2-3-4" 50 "Disabled" created_world
                (fst east_reply) (snd east_reply) (surjective_pairing _)) as Hthm.
  destruct (fst east_reply) as [e|err]; [|exact I].
  destruct (armtrafficmanager.Endpoint_Type e); [|exact I].
  destruct (properties_read e) as [[[[target weight0] priority] status0] location].
  exact (proj1 Hthm).
Defined.

(** A record whose old labels carry a weight that is no number. *)
Lemma updateEndpoint_never_creates_a_profile_witness :
  ParseConfig (Labels east) = inl (labels_config east)
  /\ profilesClient_Get "rg" "east-example-com-tm" (env fresh_world)
     = (inr cloud.notFound, cloud.tick (env fresh_world))
  /\ updateEndpoint (weighted "abc") east fresh_world
     = (Val (Some (Errorf_w "failed to update profile: "
                     (Errorf_w "failed to get existing profile: "
                        (Errorf_w "failed to get profile: " cloud.notFound)))),
        sent [ProfilesGet "rg" "east-example-com-tm"] (cloud.tick (env fresh_world))
          (logged (LogUpdatingEndpoint (DNSName east)) fresh_world)).
Proof.
  assert (H1 : ParseConfig (Labels east) = inl (labels_config east))
    by (vm_compute; reflexivity).
  assert (H2 : profilesClient_Get "rg" "east-example-com-tm" (env fresh_world)
               = (inr cloud.notFound, cloud.tick (env fresh_world)))
    by (vm_compute; reflexivity).
  split; [exact H1|]. split; [exact H2|].
  assert (Hrg : annotations.ResourceGroup
                  (with_generated_names (DNSName east) east (labels_config east)) = "rg")
    by (vm_compute; reflexivity).
  assert (Hpn : annotations.ProfileName
                  (with_generated_names (DNSName east) east (labels_config east))
                = "east-example-com-tm")
    by (vm_compute; reflexivity).
  pose proof (updateEndpoint_never_creates_a_profile (weighted "abc") east
                (labels_config east) fresh_world cloud.notFound
                (cloud.tick (env fresh_world))) as Hthm.
  cbv zeta in Hthm. rewrite Hrg, Hpn in Hthm.
  apply Hthm; [exact H1 | vm_compute; reflexivity | vm_compute; reflexivity
              | vm_compute; reflexivity | exact H2].
Defined.

(** The check of [listings_named] on a given environment. *)
Fixpoint listings_namedb {E} `{Listing E} (resourceGroups : list string) (e : E) : bool :=
  match resourceGroups with
  | [] => true
  | rg :: r =>
      let listing := profilesClient_NewListByResourceGroupPager rg e in
      forallb (fun p => is_some (armtrafficmanager.Profile_Name p)) (managed_of (fst listing))
      && listings_namedb r (after_listing listing e)
  end.

Lemma listings_namedb_sound {E} `{Listing E} resourceGroups (e : E) :
  listings_namedb resourceGroups e = true -> listings_named resourceGroups e.
Proof.
  revert e. induction resourceGroups as [|rg r IH]; intros e; [done|].
  cbn [listings_namedb listings_named]. cbv zeta.
  intros [Hhere Hrest]%andb_true_iff. split; [|by apply IH].
  apply Forall_forall. intros p Hp. apply is_some_true.
  rewrite forallb_forall in Hhere. apply Hhere. by apply list_elem_of_In.
Qed.

Lemma Records_lists_the_managed_profiles_witness :
  wf_store (store demo_world)
  /\ listings_named ["rg"] (env demo_world)
  /\ exists s',
       Records [] ["rg"] demo_world
       = (Val (omap (record_of []) (synced_profiles ["rg"] (env demo_world)), None),
          mkWorld s' (after_sync ["rg"] (env demo_world)) (calls demo_world)
            (log demo_world))
       /\ wf_store s'.
Proof.
  assert (Hwf : wf_store (store demo_world))
    by (apply wf_storeb_sound; vm_compute; reflexivity).
  assert (Hnamed : listings_named ["rg"] (env demo_world))
    by (apply listings_namedb_sound; vm_compute; reflexivity).
  split; [exact Hwf|]. split; [exact Hnamed|].
  destruct (Records_lists_the_managed_profiles [] ["rg"] demo_world Hwf Hnamed)
    as (s' & Hrun & Hwf' & _).
  exists s'. split; [exact Hrun | exact Hwf'].
Defined.

(** The records of that run: the CNAME of the vanity hostname. *)
Example Records_of_the_demo :
  omap (record_of []) (synced_profiles ["rg"] (env demo_world))
  = [mkEndpoint "demo.example.com" ["demo-tm.trafficmanager.net"] "CNAME" "" 300
       (<["traffic-manager-routing-method" := "Weighted"]>
          (<["traffic-manager-resource-group" := "rg"]>
             (<["traffic-manager-profile" := "demo-tm"]> ∅)))
       []].
Proof. vm_compute. reflexivity. Qed.

Lemma createEndpoint_refresh_vanity_witness :
  profilesClient_Get (annotations.ResourceGroup demo_config)
    (annotations.ProfileName demo_config) (env demo_world)
  = (inl demo_reply, cloud.tick (env demo_world))
  /\ is_Some (armtrafficmanager.Profile_Name demo_reply)
  /\ exists w',
       createEndpoint_refresh demo demo_config "demo.example.com" demo_world = (Val tt, w')
       /\ length (calls w') = (length (calls demo_world) + 3)%nat.
Proof.
  assert (H1 : profilesClient_Get (annotations.ResourceGroup demo_config)
                 (annotations.ProfileName demo_config) (env demo_world)
               = (inl demo_reply, cloud.tick (env demo_world)))
    by (vm_compute; reflexivity).
  assert (H2 : is_Some (armtrafficmanager.Profile_Name demo_reply))
    by (exists "demo-tm"; vm_compute; reflexivity).
  split; [exact H1|]. split; [exact H2|].
  destruct (createEndpoint_refresh_writes_the_vanity_CNAME demo demo_config
              "demo.example.com" demo_world demo_reply (cloud.tick (env demo_world)) H1 H2)
    as (w' & Hrun & Hcalls).
  exists w'. split; [exact Hrun|]. rewrite Hcalls.
  assert (Hcond : negb (str_empty "demo.example.com")
                  && negb (String.eqb "demo.example.com" (DNSName demo))
                  && negb (str_empty (fqdn_of demo_reply)) = true)
    by (vm_compute; reflexivity).
  rewrite Hcond. rewrite length_app. reflexivity.
Defined.
